(** * Versioned dictionary documents: the version manager and the
      table/column mutators of the backend, embedded from
      [api/v1/versions.py], [api/v1/tables.py], [api/v1/projects.py],
      [models/dictionary.py], [utils/errors.py] and [utils/response.py].

    The relational version index (table [dictionary_versions]) is a list of
    typed rows; the document store (collection [dictionaries]) is a finite
    map from object ids to dynamically typed documents.  Handlers are
    written in a state-and-exception monad so that they read like the
    Python they embed. *)

From Stdlib Require QArith.
From stdpp Require Import base option list gmap strings sorting pretty.

Local Open Scope string_scope.
Local Open Scope list_scope.
Local Open Scope Z_scope.
Set Warnings "-register-all".

(** ** Dynamically typed values (Python objects as stored in BSON/JSON) *)

Inductive value : Type :=
  | VNone
  | VBool (b : bool)
  | VInt (z : Z)
  | VFloat (q : QArith_base.Q)
  | VStr (s : string)
  | VDatetime (t : Z)
  | VObjectId (o : N)
  | VList (l : list value)
  | VDict (d : list (string * value)).

(** Structural equality on values; used for [==] against a string or an
    integer and by the document store to decide whether an update changed
    the stored document. *)
Fixpoint value_eqb (x y : value) : bool :=
  match x, y with
  | VNone, VNone => true
  | VBool a, VBool b => Bool.eqb a b
  | VInt a, VInt b => Z.eqb a b
  | VFloat a, VFloat b =>
      Z.eqb (QArith_base.Qnum a) (QArith_base.Qnum b)
      && Pos.eqb (QArith_base.Qden a) (QArith_base.Qden b)
  | VStr a, VStr b => String.eqb a b
  | VDatetime a, VDatetime b => Z.eqb a b
  | VObjectId a, VObjectId b => N.eqb a b
  | VList a, VList b =>
      (fix go (a b : list value) : bool :=
         match a, b with
         | [], [] => true
         | x :: a', y :: b' => value_eqb x y && go a' b'
         | _, _ => false
         end) a b
  | VDict a, VDict b =>
      (fix go (a b : list (string * value)) : bool :=
         match a, b with
         | [], [] => true
         | (k, x) :: a', (k', y) :: b' =>
             String.eqb k k' && value_eqb x y && go a' b'
         | _, _ => false
         end) a b
  | _, _ => false
  end.

(** Python truth value of an object ([if x:], [not x], [x or y]). *)
Definition truthy (v : value) : bool :=
  match v with
  | VNone => false
  | VBool b => b
  | VInt z => negb (Z.eqb z 0)
  | VFloat q => negb (Z.eqb (QArith_base.Qnum q) 0)
  | VStr s => negb (String.eqb s EmptyString)
  | VDatetime _ => true
  | VObjectId _ => true
  | VList l => match l with [] => false | _ => true end
  | VDict d => match d with [] => false | _ => true end
  end.

(** [d[k]] lookup and [d[k] = v] assignment on an insertion-ordered dict. *)
Fixpoint dict_get (d : list (string * value)) (k : string) : option value :=
  match d with
  | [] => None
  | (k', v) :: d' => if String.eqb k' k then Some v else dict_get d' k
  end.

Fixpoint dict_set (d : list (string * value)) (k : string) (v : value)
  : list (string * value) :=
  match d with
  | [] => [(k, v)]
  | (k', v') :: d' =>
      if String.eqb k' k then (k, v) :: d' else (k', v') :: dict_set d' k v
  end.

(** [d.update(u)] / the document store's [$set]. *)
Definition dict_update (d u : list (string * value)) : list (string * value) :=
  fold_left (λ acc kv, dict_set acc kv.1 kv.2) u d.

(** ** Exceptions ([utils/errors.py] and the Python/driver ones met on the
       modelled paths) *)

Inductive exn : Type :=
  | HTTPException (status_code : Z) (detail : string)
  | NotFoundError (resource : string)
  | ValidationError (message : string)
  | DatabaseError (message : string)
  | ConflictError (message : string)
  | AttributeError (message : string)
  | TypeError (message : string)
  | NotImplementedError (message : string)
  | OverflowError (message : string)
  | InvalidDocument (message : string)
  | APIError (message : string).

(** [str(e)]: [FuckDBException.__init__] passes [message] to [Exception];
    [NotFoundError(resource)] builds [f"{resource} not found"]. *)
Definition exn_str (e : exn) : string :=
  match e with
  | HTTPException c d => pretty c +:+ ": " +:+ d
  | NotFoundError r => r +:+ " not found"
  | ValidationError m | DatabaseError m | ConflictError m
  | AttributeError m | TypeError m | NotImplementedError m | OverflowError m
  | InvalidDocument m | APIError m => m
  end.

(** [status_code] carried by the custom exceptions. *)
Definition exn_status_code (e : exn) : Z :=
  match e with
  | HTTPException c _ => c
  | NotFoundError _ => 404
  | ValidationError _ => 400
  | ConflictError _ => 409
  | DatabaseError _ | AttributeError _ | TypeError _ | NotImplementedError _
  | OverflowError _ | InvalidDocument _ | APIError _ => 500
  end.

(** Name of the Python type of a value, as it appears in error messages. *)
Definition type_name (v : value) : string :=
  match v with
  | VNone => "NoneType"
  | VBool _ => "bool"
  | VInt _ => "int"
  | VFloat _ => "float"
  | VStr _ => "str"
  | VDatetime _ => "datetime.datetime"
  | VObjectId _ => "ObjectId"
  | VList _ => "list"
  | VDict _ => "dict"
  end.

(** [x.get(k, default)]: only dicts have [get]. *)
Definition py_get (x : value) (k : string) (dflt : value) : exn + value :=
  match x with
  | VDict d => inr (default dflt (dict_get d k))
  | _ => inl (AttributeError
                ("'" +:+ type_name x +:+ "' object has no attribute 'get'"))
  end.

(** ** Pydantic models ([models/dictionary.py]) *)

(** Fields left out by [exclude_none=True] when they are [None]. *)
Definition opt_field {A} (k : string) (f : A → value) (o : option A)
  : list (string * value) :=
  match o with Some a => [(k, f a)] | None => [] end.

Inductive TableType := FACT | DIMENSION | LOOKUP | STAGING | AGGREGATE | VIEW.

Definition TableType_value (t : TableType) : string :=
  match t with
  | FACT => "fact" | DIMENSION => "dimension" | LOOKUP => "lookup"
  | STAGING => "staging" | AGGREGATE => "aggregate" | VIEW => "view"
  end.

Inductive ColumnKey := PRIMARY | FOREIGN | UNIQUE | INDEX | NONE.

Definition ColumnKey_value (k : ColumnKey) : string :=
  match k with
  | PRIMARY => "PK" | FOREIGN => "FK" | UNIQUE => "UK" | INDEX => "IX"
  | NONE => EmptyString
  end.

Inductive RelationshipType := ONE_TO_ONE | ONE_TO_MANY | MANY_TO_MANY.

Definition RelationshipType_value (t : RelationshipType) : string :=
  match t with
  | ONE_TO_ONE => "1:1" | ONE_TO_MANY => "1:N" | MANY_TO_MANY => "N:N"
  end.

(** [Literal["CASCADE", "SET NULL", "RESTRICT", "NO ACTION"]] *)
Inductive RefAction := CASCADE | SET_NULL | RESTRICT | NO_ACTION.

Definition RefAction_value (a : RefAction) : string :=
  match a with
  | CASCADE => "CASCADE" | SET_NULL => "SET NULL"
  | RESTRICT => "RESTRICT" | NO_ACTION => "NO ACTION"
  end.

Module Column.
Record t := {
  name : string;
  data_type : string;                  (* serialization_alias="type" *)
  key : option ColumnKey;
  nullable : bool;
  default_value : option string;
  description : option string;
  length : option Z;
  precision : option Z;
  scale : option Z;
  is_unique : bool;
  is_indexed : bool;
  foreign_key_table : option string;   (* serialization_alias="refTable" *)
  foreign_key_column : option string;  (* serialization_alias="refColumn" *)
  ui_order : option Z;
  ui_hidden : bool
}.

(** Computed fields. *)
Definition isPK (c : t) : bool :=
  match key c with Some PRIMARY => true | _ => false end.
Definition isFK (c : t) : bool :=
  match key c with Some FOREIGN => true | _ => false end.

(** [Column(name=.., data_type=.., key=.., nullable=.., default_value=..,
    description=.., length=..)] with every other field at its default. *)
Definition make (name data_type : string) (key : ColumnKey) (nullable : bool)
    (default_value description : option string) (length : option Z) : t :=
  {| name := name; data_type := data_type; key := Some key;
     nullable := nullable; default_value := default_value;
     description := description; length := length;
     precision := None; scale := None;
     is_unique := false; is_indexed := false;
     foreign_key_table := None; foreign_key_column := None;
     ui_order := None; ui_hidden := false |}.

(** [model_dump(by_alias=True, exclude_none=True)] *)
Definition model_dump (c : t) : value :=
  VDict ([("name", VStr (name c)); ("type", VStr (data_type c))]
         ++ opt_field "key" (λ k, VStr (ColumnKey_value k)) (key c)
         ++ [("nullable", VBool (nullable c))]
         ++ opt_field "default_value" VStr (default_value c)
         ++ opt_field "description" VStr (description c)
         ++ opt_field "length" VInt (length c)
         ++ opt_field "precision" VInt (precision c)
         ++ opt_field "scale" VInt (scale c)
         ++ [("is_unique", VBool (is_unique c));
             ("is_indexed", VBool (is_indexed c))]
         ++ opt_field "refTable" VStr (foreign_key_table c)
         ++ opt_field "refColumn" VStr (foreign_key_column c)
         ++ opt_field "ui_order" VInt (ui_order c)
         ++ [("ui_hidden", VBool (ui_hidden c));
             ("isPK", VBool (isPK c)); ("isFK", VBool (isFK c))]).
End Column.

Module Relationship.
Record t := {
  id : string;
  name : option string;
  source_table : string;     (* serialization_alias="fromTable" *)
  source_column : string;    (* serialization_alias="fromColumn" *)
  target_table : string;     (* serialization_alias="toTable" *)
  target_column : string;    (* serialization_alias="toColumn" *)
  relationship_type : RelationshipType;  (* serialization_alias="type" *)
  on_delete : RefAction;
  on_update : RefAction;
  description : option string
}.

(** [model_dump(by_alias=True, exclude_none=True)] *)
Definition model_dump (r : t) : value :=
  VDict ([("id", VStr (id r))]
         ++ opt_field "name" VStr (name r)
         ++ [("fromTable", VStr (source_table r));
             ("fromColumn", VStr (source_column r));
             ("toTable", VStr (target_table r));
             ("toColumn", VStr (target_column r));
             ("type", VStr (RelationshipType_value (relationship_type r)));
             ("on_delete", VStr (RefAction_value (on_delete r)));
             ("on_update", VStr (RefAction_value (on_update r)))]
         ++ opt_field "description" VStr (description r)).
End Relationship.

Module Table.
Record t := {
  name : string;
  schema_name : string;
  table_type : TableType;    (* serialization_alias="type" *)
  description : option string;
  columns : list Column.t;
  indexes : list value;
  constraints : list value;
  ui_color : option string;
  ui_icon : option string;
  ui_order : option Z
}.

(** [model_dump(by_alias=True, exclude_none=True)] *)
Definition model_dump (tb : t) : value :=
  VDict ([("name", VStr (name tb)); ("schema_name", VStr (schema_name tb));
          ("type", VStr (TableType_value (table_type tb)))]
         ++ opt_field "description" VStr (description tb)
         ++ [("columns", VList (map Column.model_dump (columns tb)));
             ("indexes", VList (indexes tb));
             ("constraints", VList (constraints tb))]
         ++ opt_field "ui_color" VStr (ui_color tb)
         ++ opt_field "ui_icon" VStr (ui_icon tb)
         ++ opt_field "ui_order" VInt (ui_order tb)).
End Table.

Module Schema.
Record t := {
  name : string;
  description : option string;
  tables : list Table.t;
  is_collapsed : bool
}.
End Schema.

Module ERDNode.
Record t := {
  id : string;
  x : Z;
  y : Z;
  icon : option string;
  width : option QArith_base.Q;   (* [None]: left at the default [200] *)
  height : option QArith_base.Q   (* [None]: left at the default [150] *)
}.

(** A given [width] or [height] is validated to a float; the defaults are
    written as ints in the class and stay ints. *)
Definition model_dump (n : t) : value :=
  VDict ([("id", VStr (id n)); ("x", VInt (x n)); ("y", VInt (y n))]
         ++ opt_field "icon" VStr (icon n)
         ++ [("width", from_option VFloat (VInt 200) (width n));
             ("height", from_option VFloat (VInt 150) (height n))]).
End ERDNode.

Module ERDEdge.
Record t := {
  id : string;
  source : string;               (* serialization_alias="from" *)
  target : string;               (* serialization_alias="to" *)
  edge_type : option string;     (* serialization_alias="type" *)
  source_handle : option string;
  target_handle : option string;
  animated : bool;
  label : option string
}.

Definition model_dump (e : t) : value :=
  VDict ([("id", VStr (id e)); ("from", VStr (source e));
          ("to", VStr (target e))]
         ++ opt_field "type" VStr (edge_type e)
         ++ opt_field "source_handle" VStr (source_handle e)
         ++ opt_field "target_handle" VStr (target_handle e)
         ++ [("animated", VBool (animated e))]
         ++ opt_field "label" VStr (label e)).
End ERDEdge.

Module ERDLayout.
Record t := {
  nodes : list ERDNode.t;
  edges : list ERDEdge.t;
  zoom : QArith_base.Q;              (* default [1.0] *)
  pan_x : option QArith_base.Q;      (* [None]: left at the default [0] *)
  pan_y : option QArith_base.Q       (* [None]: left at the default [0] *)
}.

Definition model_dump (l : t) : list (string * value) :=
  [("nodes", VList (map ERDNode.model_dump (nodes l)));
   ("edges", VList (map ERDEdge.model_dump (edges l)));
   ("zoom", VFloat (zoom l));
   ("pan_x", from_option VFloat (VInt 0) (pan_x l));
   ("pan_y", from_option VFloat (VInt 0) (pan_y l))].
End ERDLayout.

Module CreateVersionRequest.
Record t := {
  name : string;
  description : option string;
  base_version : option Z;
  schemas : list Schema.t
}.
End CreateVersionRequest.

Module UpdateVersionRequest.
Record t := {
  name : option string;
  description : option string;
  schemas : option (list Schema.t);
  relationships : option (list Relationship.t);
  erd : option ERDLayout.t;
  metadata : option (list (string * value))
}.
End UpdateVersionRequest.

Module TableRequest.
Record t := {
  name : string;
  schema_name : string;
  table_type : TableType;
  description : option string;
  columns : list Column.t
}.

(** [model_dump(by_alias=True, exclude_none=True)]; this model declares no
    alias of its own, its columns do. *)
Definition model_dump (tb : t) : list (string * value) :=
  [("name", VStr (name tb)); ("schema_name", VStr (schema_name tb));
   ("table_type", VStr (TableType_value (table_type tb)))]
  ++ opt_field "description" VStr (description tb)
  ++ [("columns", VList (map Column.model_dump (columns tb)))].
End TableRequest.

Module CreateProjectRequest.
Record t := {
  name : string;
  description : option string
}.
End CreateProjectRequest.

(** ** The two stores *)

(** Identifiers: UUIDs issued by the relational store or by [uuid4()], and
    [ObjectId]s issued by the document store.  Both are drawn from counters
    held in the state; [str(id)] is their decimal rendering. *)
Abbreviation uuid := N (only parsing).
Abbreviation oid := N (only parsing).

(** [datetime.isoformat()]; clock readings are kept as integers and their
    rendering as text is the decimal one. *)
Definition isoformat (t : Z) : string := pretty t.

(** Row of table [projects]. *)
Module Project.
Record t := {
  id : uuid;
  owner_id : string;
  name : string;
  description : option string;
  created_at : Z
}.
End Project.

(** Row of table [dictionary_versions] ([DictionaryVersion]). *)
Module DictionaryVersion.
Record t := {
  id : uuid;
  project_id : uuid;
  version : Z;
  mongo_id : oid;
  name : string;
  description : option string;
  is_latest : bool;
  metadata : list (string * value);
  created_at : Z
}.

(** The row as the JSON object returned by the relational store. *)
Definition to_value (r : t) : value :=
  VDict [("id", VStr (pretty (id r)));
         ("project_id", VStr (pretty (project_id r)));
         ("version", VInt (version r));
         ("mongo_id", VStr (pretty (mongo_id r)));
         ("name", VStr (name r));
         ("description", from_option VStr VNone (description r));
         ("is_latest", VBool (is_latest r));
         ("metadata", VDict (metadata r));
         ("created_at", VStr (isoformat (created_at r)))].

Definition set_is_latest (b : bool) (r : t) : t :=
  {| id := id r; project_id := project_id r; version := version r;
     mongo_id := mongo_id r; name := name r; description := description r;
     is_latest := b; metadata := metadata r; created_at := created_at r |}.

Definition set_name (n : string) (r : t) : t :=
  {| id := id r; project_id := project_id r; version := version r;
     mongo_id := mongo_id r; name := n; description := description r;
     is_latest := is_latest r; metadata := metadata r;
     created_at := created_at r |}.

Definition set_description (d : string) (r : t) : t :=
  {| id := id r; project_id := project_id r; version := version r;
     mongo_id := mongo_id r; name := name r; description := Some d;
     is_latest := is_latest r; metadata := metadata r;
     created_at := created_at r |}.
End DictionaryVersion.

(** A stored document is kept without its [_id], which is the key it is
    stored under; [find_one] puts it back in front. *)
Record state := {
  projects : list Project.t;
  dictionary_versions : list DictionaryVersion.t;
  dictionaries : gmap N (list (string * value));
  next_uuid : N;
  next_oid : N
}.

(** What a request sees of its environment: the clock ([datetime.utcnow()]),
    whether [get_mongodb()] yields a database handle or [None], and
    [settings.DEBUG]. *)
Record env := {
  utcnow : Z;
  mongodb_available : bool;
  DEBUG : bool
}.

(** ** The handler monad: state passing with exceptions *)

Definition M (A : Type) : Type := state → (exn + A) * state.

Definition ret {A} (a : A) : M A := λ s, (inr a, s).
Definition bind {A B} (m : M A) (f : A → M B) : M B := λ s,
  match m s with
  | (inr a, s') => f a s'
  | (inl e, s') => (inl e, s')
  end.

Declare Scope handler_scope.
Delimit Scope handler_scope with M.
Notation "x ← y ; z" := (bind y (λ x : _, z))
  (at level 20, y at level 100, z at level 200, only parsing) : handler_scope.
Notation "' x ← y ; z" := (bind y (λ x : _, z))
  (at level 20, x pattern, y at level 100, z at level 200, only parsing)
  : handler_scope.
Notation "x ;; z" := (bind x (λ _, z))
  (at level 100, z at level 200, only parsing, right associativity)
  : handler_scope.
Local Open Scope handler_scope.

Definition raise {A} (e : exn) : M A := λ s, (inl e, s).
Definition lift {A} (r : exn + A) : M A := λ s, (r, s).
Definition get_state : M state := λ s, (inr s, s).
Definition put_state (s' : state) : M unit := λ _, (inr tt, s').

(** [try: m  except Exception as e: h e] *)
Definition try_except {A} (m : M A) (h : exn → M A) : M A := λ s,
  match m s with
  | (inl e, s') => h e s'
  | r => r
  end.

(** A Python [str] is kept as its UTF-8 bytes.  A byte [10xxxxxx]
    continues the character that begins before it. *)
Definition is_continuation (a : Ascii.ascii) : bool :=
  (128 <=? Ascii.nat_of_ascii a)%nat && (Ascii.nat_of_ascii a <? 192)%nat.

(** The characters of a string, one string per code point. *)
Fixpoint utf8_chars (s : string) : list string :=
  match s with
  | EmptyString => []
  | String a s' =>
      match utf8_chars s' with
      | String b c :: cs =>
          if is_continuation b then String a (String b c) :: cs
          else String a EmptyString :: String b c :: cs
      | cs => String a EmptyString :: cs
      end
  end.

Definition string_chars (s : string) : list value := map VStr (utf8_chars s).

(** Iterating a Python object in a [for] loop or a comprehension. *)
Definition py_iter (x : value) : exn + list value :=
  match x with
  | VList l => inr l
  | VDict d => inr (map (λ kv, VStr kv.1) d)
  | VStr s => inr (string_chars s)
  | _ => inl (TypeError ("'" +:+ type_name x +:+ "' object is not iterable"))
  end.

(** [str.strip()] takes away the characters [str.isspace] accepts: U+0009
    to U+000D, U+001C to U+0020, U+0085, U+00A0, U+1680, U+2000 to U+200A,
    U+2028, U+2029, U+202F, U+205F and U+3000, here in UTF-8. *)
Definition bytes (l : list nat) : string :=
  foldr (λ n s, String (Ascii.ascii_of_nat n) s) EmptyString l.

Definition whitespace : list string :=
  map bytes
      ([[9]; [10]; [11]; [12]; [13]; [28]; [29]; [30]; [31]; [32];
        [194; 133]; [194; 160]; [225; 154; 128]]
       ++ map (λ n, [226; 128; n])
              [128; 129; 130; 131; 132; 133; 134; 135; 136; 137; 138]
       ++ [[226; 128; 168]; [226; 128; 169]; [226; 128; 175];
           [226; 129; 159]; [227; 128; 128]])%nat.

(** [s] without the prefix [w], if it begins with [w]. *)
Fixpoint drop_prefix (w s : string) : option string :=
  match w, s with
  | EmptyString, _ => Some s
  | String a w', String b s' =>
      if Ascii.eqb a b then drop_prefix w' s' else None
  | String _ _, EmptyString => None
  end.

(** [s] without the first of [ws] that it begins with. *)
Fixpoint drop_first (ws : list string) (s : string) : option string :=
  match ws with
  | [] => None
  | w :: ws' =>
      match drop_prefix w s with
      | Some s' => Some s'
      | None => drop_first ws' s
      end
  end.

(** Leading members of [ws] taken away, at most [n] of them; every one
    takes a byte at least, so the length of the string is enough. *)
Fixpoint lstrip_with (ws : list string) (n : nat) (s : string) : string :=
  match n with
  | O => s
  | S n' =>
      match drop_first ws s with
      | Some s' => lstrip_with ws n' s'
      | None => s
      end
  end.

Definition lstrip (s : string) : string :=
  lstrip_with whitespace (String.length s) s.

Definition rstrip (s : string) : string :=
  String.rev (lstrip_with (map String.rev whitespace) (String.length s)
                          (String.rev s)).

Definition strip (s : string) : string := rstrip (lstrip s).

(** ** Response envelopes ([utils/response.py]) *)

Definition success_response (data : value) (message : string) : value :=
  VDict ([("status", VStr "success")]
         ++ (if truthy (VStr message) then [("message", VStr message)] else [])
         ++ (match data with VNone => [] | _ => [("data", data)] end)).

Definition error_response (message : string) (status_code : Z) : value :=
  VDict [("status", VStr "error"); ("message", VStr message);
         ("code", VInt status_code)].

(** What a route hands back to the framework: a returned body, or an
    exception that leaves the handler. *)
Inductive outcome :=
  | Returned (body : value)
  | Raised (e : exn).

(** The [try]/[except] frame shared by the routes of [versions.py] and
    [tables.py]: [HTTPException] is re-raised, every other exception is
    turned into an error envelope with code 500.  (The [PyMongoError]
    clause needs a driver failure, and the stores of this model answer.) *)
Definition route (body : M value) : state → outcome * state := λ s,
  match body s with
  | (inr v, s') => (Returned v, s')
  | (inl (HTTPException c d), s') => (Raised (HTTPException c d), s')
  | (inl e, s') => (Returned (error_response (exn_str e) 500), s')
  end.

(** [handle_project_error] and the frame of the routes of [projects.py]. *)
Definition handle_project_error (ev : env) (e : exn) (context : string) : string :=
  if DEBUG ev then context +:+ ": " +:+ exn_str e else context.

Definition project_route (ev : env) (context : string) (body : M value)
  : state → outcome * state := λ s,
  match body s with
  | (inr v, s') => (Returned v, s')
  | (inl (HTTPException c d), s') => (Raised (HTTPException c d), s')
  | (inl e, s') =>
      (Raised (HTTPException 500 (handle_project_error ev e context)), s')
  end.

(** ** Store primitives *)

Definition with_projects (ps : list Project.t) (s : state) : state :=
  {| projects := ps; dictionary_versions := dictionary_versions s;
     dictionaries := dictionaries s; next_uuid := next_uuid s;
     next_oid := next_oid s |}.

Definition with_dictionary_versions (vs : list DictionaryVersion.t) (s : state)
  : state :=
  {| projects := projects s; dictionary_versions := vs;
     dictionaries := dictionaries s; next_uuid := next_uuid s;
     next_oid := next_oid s |}.

Definition with_dictionaries (ds : gmap N (list (string * value))) (s : state)
  : state :=
  {| projects := projects s; dictionary_versions := dictionary_versions s;
     dictionaries := ds; next_uuid := next_uuid s; next_oid := next_oid s |}.

(** A fresh UUID, from the relational store's default or from [uuid4()]. *)
Definition fresh_uuid : M uuid := λ s,
  (inr (next_uuid s),
   {| projects := projects s; dictionary_versions := dictionary_versions s;
      dictionaries := dictionaries s; next_uuid := N.succ (next_uuid s);
      next_oid := next_oid s |}).

(** *** Relational store: the query builder on [dictionary_versions].
    The client is the one scoped to the authenticated user; the rows of a
    project the user owns are visible to it. *)

Definition select_versions : M (list DictionaryVersion.t) :=
  s ← get_state; ret (dictionary_versions s).

(** [.order("version", desc=True)] and
    [sorted(.., key=lambda x: x["version"], reverse=True)] *)
Definition version_desc (a b : DictionaryVersion.t) : Prop :=
  DictionaryVersion.version b ≤ DictionaryVersion.version a.

#[global] Instance version_desc_dec a b : Decision (version_desc a b) :=
  Z_le_dec _ _.

Definition order_version_desc : list DictionaryVersion.t → list DictionaryVersion.t :=
  merge_sort version_desc.

(** [.single()]: exactly one row, or the request fails; [str()] of the
    [APIError] is the payload PostgREST answers with, as a dict. *)
Definition single {A} (rows : list A) : exn + A :=
  match rows with
  | [r] => inr r
  | _ =>
      inl (APIError
             ("{'code': 'PGRST116', 'details': 'The result contains "
              +:+ pretty (Z.of_nat (length rows))
              +:+ " rows', 'hint': None, 'message': 'JSON object requested, multiple (or no) rows returned'}"))
  end.

(** [.update(..).eq(..)...execute()] *)
Definition update_versions (P : DictionaryVersion.t → Prop)
    `{∀ r, Decision (P r)} (f : DictionaryVersion.t → DictionaryVersion.t)
  : M unit :=
  s ← get_state;
  put_state (with_dictionary_versions
               (map (λ r, if decide (P r) then f r else r)
                    (dictionary_versions s)) s).

(** [.insert(row).execute()] *)
Definition insert_version (r : DictionaryVersion.t) : M unit :=
  s ← get_state;
  put_state (with_dictionary_versions (dictionary_versions s ++ [r]) s).

(** [.delete().eq(..)...execute()] *)
Definition delete_versions (P : DictionaryVersion.t → Prop)
    `{∀ r, Decision (P r)} : M unit :=
  s ← get_state;
  put_state (with_dictionary_versions
               (filter (λ r, ¬ P r) (dictionary_versions s)) s).

(** *** Document store: collection [dictionaries] *)

(** BSON holds integers of at most 8 bytes and no key with a NUL
    character.  The driver encodes what it is given before it sends
    anything: it raises [OverflowError] on a larger integer and
    [InvalidDocument] on such a key, and nothing reaches the store then.
    What a route has read from the store is BSON already, so the routes
    pass what the request brings through [bson_encode] where they hand it
    to the driver.  Documents are taken to stay within the size the store
    accepts. *)
Definition bson_int (z : Z) : bool := (- 2 ^ 63 <=? z) && (z <? 2 ^ 63).

Definition bson_key (k : string) : bool :=
  forallb (λ a, negb (Ascii.eqb a Ascii.zero)) (String.list_ascii_of_string k).

(** What the encoder raises on a value, if anything: the first refusal
    met in document order, a key before its value. *)
Fixpoint bson_refusal (v : value) : option exn :=
  match v with
  | VInt z =>
      if bson_int z then None
      else Some (OverflowError "MongoDB can only handle up to 8-byte ints")
  | VList l =>
      (fix go (l : list value) : option exn :=
         match l with
         | [] => None
         | x :: l' =>
             match bson_refusal x with
             | Some e => Some e
             | None => go l'
             end
         end) l
  | VDict d =>
      (fix go (d : list (string * value)) : option exn :=
         match d with
         | [] => None
         | (k, x) :: d' =>
             if bson_key k then
               match bson_refusal x with
               | Some e => Some e
               | None => go d'
               end
             else Some (InvalidDocument
                          "Key names must not contain the NULL byte")
         end) d
  | _ => None
  end.

Definition bson_encodable (v : value) : bool :=
  match bson_refusal v with None => true | Some _ => false end.

Definition bson_encode (v : value) : M unit :=
  match bson_refusal v with
  | None => ret tt
  | Some e => raise e
  end.

Definition find_one (o : oid) : M (option (list (string * value))) :=
  s ← get_state;
  ret ((λ d, ("_id", VObjectId o) :: d) <$> dictionaries s !! o).

(** [insert_one(doc).inserted_id] *)
Definition insert_one (doc : list (string * value)) : M oid := λ s,
  (inr (next_oid s),
   {| projects := projects s; dictionary_versions := dictionary_versions s;
      dictionaries := <[next_oid s := doc]> (dictionaries s);
      next_uuid := next_uuid s; next_oid := N.succ (next_oid s) |}).

(** [update_one({"_id": o}, {"$set": fields}).modified_count] *)
Definition update_one (o : oid) (fields : list (string * value)) : M Z :=
  s ← get_state;
  match dictionaries s !! o with
  | None => ret 0
  | Some d =>
      let d' := dict_update d fields in
      put_state (with_dictionaries (<[o := d']> (dictionaries s)) s);;
      ret (if value_eqb (VDict d) (VDict d') then 0 else 1)
  end.

Definition delete_one (o : oid) : M unit :=
  s ← get_state;
  put_state (with_dictionaries (delete o (dictionaries s)) s).

(** [delete_many({"_id": {"$in": ids}})] *)
Definition delete_many (ids : list oid) : M unit :=
  s ← get_state;
  put_state (with_dictionaries
               (foldr (λ o m, delete o m) (dictionaries s) ids) s).

(** ** Shared helpers of the routes *)

(** [verify_project_access] *)
Definition verify_project_access (project_id : uuid) (user_id : string)
  : M bool :=
  s ← get_state;
  let data := filter (λ p, Project.id p = project_id
                           ∧ Project.owner_id p = user_id) (projects s) in
  ret (bool_decide (0 < length data)%nat).

(** [if not verify_project_access(..): raise HTTPException(403, ..)] *)
Definition require_project_access (project_id : uuid) (user_id : string)
  : M unit :=
  ok ← verify_project_access project_id user_id;
  if ok then ret tt
  else raise (HTTPException 403 "Access denied to this project").

(** [mongodb = get_mongodb(); if mongodb is None: raise DatabaseError(..)] *)
Definition require_mongodb (ev : env) : M unit :=
  if mongodb_available ev then ret tt
  else raise (DatabaseError "MongoDB connection not available").

(** [not mongodb], as [update_version] tests the handle: [None] is falsy,
    and a pymongo [Database] (version 4 and later, which the [is None]
    tests of the other routes are written for) refuses truth-value
    testing. *)
Definition not_database (ev : env) : M bool :=
  if mongodb_available ev
  then raise (NotImplementedError
                "Database objects do not implement truth value testing or bool(). Please compare with None instead: database is not None")
  else ret true.

(** [if k in d and hasattr(d[k], "isoformat"): d[k] = d[k].isoformat()] *)
Definition isoformat_field (k : string) (d : list (string * value))
  : list (string * value) :=
  match dict_get d k with
  | Some (VDatetime t) => dict_set d k (VStr (isoformat t))
  | _ => d
  end.

(** [str(x)] for the values the routes convert to text. *)
Definition py_str (v : value) : string :=
  match v with
  | VObjectId o => pretty o
  | VStr s => s
  | VInt z => pretty z
  | VNone => "None"
  | VBool true => "True"
  | VBool false => "False"
  | _ => type_name v
  end.

(** The conversions applied to a found document before it is returned
    ([_id] to text, the two timestamps to ISO text). *)
Definition jsonable_dictionary (d : list (string * value))
  : list (string * value) :=
  let d := match dict_get d "_id" with
           | Some i => dict_set d "_id" (VStr (py_str i))
           | None => d
           end in
  isoformat_field "updated_at" (isoformat_field "created_at" d).

(** ** [api/v1/versions.py] *)

(** [create_initial_schema] *)
Definition create_initial_schema : list Schema.t :=
  let sample_table :=
    {| Table.name := "sample_table";
       Table.schema_name := "public";
       Table.table_type := DIMENSION;
       Table.description := Some "Sample table - you can modify or delete this";
       Table.columns :=
         [ Column.make "id" "bigint" PRIMARY false None
             (Some "Primary key") None;
           {| Column.name := "name"; Column.data_type := "varchar";
              Column.key := Some NONE; Column.nullable := true;
              Column.default_value := None;
              Column.description := Some "Name field";
              Column.length := Some 255;
              Column.precision := None; Column.scale := None;
              Column.is_unique := false; Column.is_indexed := false;
              Column.foreign_key_table := None;
              Column.foreign_key_column := None;
              Column.ui_order := None; Column.ui_hidden := false |};
           {| Column.name := "created_at"; Column.data_type := "timestamp";
              Column.key := Some NONE; Column.nullable := false;
              Column.default_value := Some "CURRENT_TIMESTAMP";
              Column.description := Some "Record creation timestamp";
              Column.length := None;
              Column.precision := None; Column.scale := None;
              Column.is_unique := false; Column.is_indexed := false;
              Column.foreign_key_table := None;
              Column.foreign_key_column := None;
              Column.ui_order := None; Column.ui_hidden := false |} ];
       Table.indexes := []; Table.constraints := [];
       Table.ui_color := None; Table.ui_icon := None;
       Table.ui_order := None |} in
  [ {| Schema.name := "public";
       Schema.description := Some "Default public schema";
       Schema.tables := [sample_table];
       Schema.is_collapsed := false |} ].

(** [list_versions] *)
Definition list_versions_body (project_id : uuid) (user_id : string) : M value :=
  require_project_access project_id user_id;;
  rows ← select_versions;
  let versions :=
    order_version_desc
      (filter (λ r, DictionaryVersion.project_id r = project_id) rows) in
  ret (success_response
         (VDict [("versions", VList (map DictionaryVersion.to_value versions))])
         ("Found " +:+ pretty (Z.of_nat (length versions)) +:+ " versions")).

Definition list_versions (project_id : uuid) (user_id : string) :=
  route (list_versions_body project_id user_id).

(** The empty layout [{"nodes": [], "edges": []}]. *)
Definition empty_erd : value := VDict [("nodes", VList []); ("edges", VList [])].

(** [{"tables": tables, "relationships": []}] *)
Definition schemas_dict_of (tables : list value) : value :=
  VDict [("tables", VList tables); ("relationships", VList [])].

(** [create_version], piece by piece: the number of the new version, *)
Definition next_version_of (project_rows : list DictionaryVersion.t) : Z :=
  let latest_version := take 1 (order_version_desc project_rows) in
  match latest_version with
  | r :: _ => DictionaryVersion.version r + 1
  | [] => 1
  end.

(** the schemas the request resolves to, *)
Definition resolve_schemas (version_data : CreateVersionRequest.t)
  : list Schema.t :=
  match CreateVersionRequest.schemas version_data with
  | [] => create_initial_schema
  | given => given
  end.

(** the copy from the base version ([relationships] and [erd]; the base
    document's [schemas] are read into [schemas_data], which nothing reads
    afterwards), *)
Definition copy_base_version (project_id : uuid)
    (version_data : CreateVersionRequest.t) : M (value * value) :=
  match CreateVersionRequest.base_version version_data with
  | Some base_version =>
      if negb (base_version =? 0) then
        (* the row [single] returns is a non-empty object, so
           [if base_version_data.data] holds *)
        rows ← select_versions;
        base_version_data ←
          lift (single (filter
                  (λ r, DictionaryVersion.project_id r = project_id
                        ∧ DictionaryVersion.version r = base_version) rows));
        base_mongo_doc ← find_one (DictionaryVersion.mongo_id base_version_data);
        match base_mongo_doc with
        | Some doc =>
            if truthy (VDict doc) then
              let schemas_data := default (VDict []) (dict_get doc "schemas") in
              ret (default (VList []) (dict_get doc "relationships"),
                   default empty_erd (dict_get doc "erd"))
            else ret (VList [], empty_erd)
        | None => ret (VList [], empty_erd)
        end
      else ret (VList [], empty_erd)
  | None => ret (VList [], empty_erd)
  end.

(** the conversion of the schemas for the document store ([schemas] is a
    list of [Schema] objects here, never a dict), *)
Definition convert_schemas (schemas : list Schema.t) : value :=
  match schemas with
  | _ :: _ =>
      schemas_dict_of
        (flat_map (λ schema, map Table.model_dump (Schema.tables schema))
                  schemas)
  | [] => schemas_dict_of []
  end.

(** the document, *)
Definition dictionary_doc_of (ev : env) (project_id : uuid) (next_version : Z)
    (version_data : CreateVersionRequest.t)
    (schemas_dict relationships erd : value) : list (string * value) :=
  [("projectId", VStr (pretty project_id));
   ("version", VInt next_version);
   ("name", VStr (CreateVersionRequest.name version_data));
   ("description",
     from_option VStr VNone (CreateVersionRequest.description version_data));
   ("schemas", schemas_dict);
   ("relationships", relationships);
   ("erd", erd);
   ("metadata", VDict []);
   ("created_at", VDatetime (utcnow ev));
   ("updated_at", VDatetime (utcnow ev))].

(** the row of the version index, *)
Definition version_metadata_of (ev : env) (id : uuid) (project_id : uuid)
    (next_version : Z) (mongo_id : oid)
    (version_data : CreateVersionRequest.t) : DictionaryVersion.t :=
  {| DictionaryVersion.id := id;
     DictionaryVersion.project_id := project_id;
     DictionaryVersion.version := next_version;
     DictionaryVersion.mongo_id := mongo_id;
     DictionaryVersion.name := CreateVersionRequest.name version_data;
     DictionaryVersion.description :=
       CreateVersionRequest.description version_data;
     DictionaryVersion.is_latest := true;
     DictionaryVersion.metadata := [];
     DictionaryVersion.created_at := utcnow ev |}.

(** and the route's body. *)
Definition create_version_body (ev : env) (project_id : uuid) (user_id : string)
    (version_data : CreateVersionRequest.t) : M value :=
  require_project_access project_id user_id;;
  require_mongodb ev;;
  (* Get next version number *)
  rows ← select_versions;
  let next_version :=
    next_version_of
      (filter (λ r, DictionaryVersion.project_id r = project_id) rows) in
  (* Handle base version copying *)
  let schemas := resolve_schemas version_data in
  '(relationships, erd) ← copy_base_version project_id version_data;
  (* Convert schemas to proper format for MongoDB *)
  let schemas_dict := convert_schemas schemas in
  (* Create dictionary document for MongoDB *)
  let dictionary_doc :=
    dictionary_doc_of ev project_id next_version version_data
                      schemas_dict relationships erd in
  (* Insert into MongoDB *)
  bson_encode schemas_dict;;
  mongo_id ← insert_one dictionary_doc;
  (* Update all previous versions to not be latest *)
  update_versions (λ r, DictionaryVersion.project_id r = project_id)
                  (DictionaryVersion.set_is_latest false);;
  (* Insert version metadata into Supabase *)
  id ← fresh_uuid;
  let version_metadata :=
    version_metadata_of ev id project_id next_version mongo_id version_data in
  insert_version version_metadata;;
  (* Return the full dictionary data *)
  let returned_doc :=
    isoformat_field "updated_at"
      (isoformat_field "created_at"
         (dict_set (dictionary_doc ++ [("_id", VObjectId mongo_id)])
                   "_id" (VStr (pretty mongo_id)))) in
  ret (success_response
         (VDict [("version", DictionaryVersion.to_value version_metadata);
                 ("dictionary", VDict returned_doc)])
         ("Version " +:+ pretty next_version +:+ " created successfully")).

Definition create_version (ev : env) (project_id : uuid) (user_id : string)
    (version_data : CreateVersionRequest.t) :=
  route (create_version_body ev project_id user_id version_data).

(** [get_latest_version] *)
Definition get_latest_version_body (ev : env) (project_id : uuid)
    (user_id : string) : M value :=
  require_project_access project_id user_id;;
  (* Get latest version from Supabase without raising if none *)
  all_rows ← select_versions;
  let rows :=
    take 1 (filter (λ r, DictionaryVersion.project_id r = project_id
                         ∧ DictionaryVersion.is_latest r = true) all_rows) in
  match rows with
  | [] =>
      (* No versions exist, return empty response *)
      ret (success_response
             (VDict [("version", VNone); ("dictionary", VNone)])
             "No versions found for this project")
  | latest_row :: _ =>
      (* Get dictionary from MongoDB *)
      require_mongodb ev;;
      dictionary ← find_one (DictionaryVersion.mongo_id latest_row);
      let dictionary :=
        match dictionary with
        | Some d => if truthy (VDict d) then VDict (jsonable_dictionary d)
                    else VDict d
        | None => VNone
        end in
      ret (success_response
             (VDict [("version", DictionaryVersion.to_value latest_row);
                     ("dictionary", dictionary)])
             "Latest version retrieved successfully")
  end.

Definition get_latest_version (ev : env) (project_id : uuid) (user_id : string) :=
  route (get_latest_version_body ev project_id user_id).

(** [get_specific_version]; [single] fails before the [NotFoundError]
    test on an absent row can be reached. *)
Definition get_specific_version_body (ev : env) (project_id : uuid)
    (version : Z) (user_id : string) : M value :=
  require_project_access project_id user_id;;
  all_rows ← select_versions;
  version_data ←
    lift (single (filter (λ r, DictionaryVersion.project_id r = project_id
                               ∧ DictionaryVersion.version r = version)
                         all_rows));
  require_mongodb ev;;
  dictionary ← find_one (DictionaryVersion.mongo_id version_data);
  let dictionary :=
    match dictionary with
    | Some d => if truthy (VDict d) then VDict (jsonable_dictionary d)
                else VDict d
    | None => VNone
    end in
  ret (success_response
         (VDict [("version", DictionaryVersion.to_value version_data);
                 ("dictionary", dictionary)])
         ("Version " +:+ pretty version +:+ " retrieved successfully")).

Definition get_specific_version (ev : env) (project_id : uuid) (version : Z)
    (user_id : string) :=
  route (get_specific_version_body ev project_id version user_id).

(** Truth value of an optional text field ([if update_data.name]). *)
Definition truthy_text (o : option string) : bool :=
  match o with Some s => truthy (VStr s) | None => false end.

(** [update_version].  The row is updated first; the document update
    begins with [if not mongodb], which raises on either handle (see
    [not_database]), so the lines after it are never run. *)
Definition update_version_body (ev : env) (project_id : uuid) (version : Z)
    (user_id : string) (update_data : UpdateVersionRequest.t) : M value :=
  require_project_access project_id user_id;;
  all_rows ← select_versions;
  version_data ←
    lift (single (filter (λ r, DictionaryVersion.project_id r = project_id
                               ∧ DictionaryVersion.version r = version)
                         all_rows));
  let name := UpdateVersionRequest.name update_data in
  let description := UpdateVersionRequest.description update_data in
  (* Update Supabase metadata if name or description changed *)
  (if truthy_text name || truthy_text description then
     update_versions
       (λ r, DictionaryVersion.id r = DictionaryVersion.id version_data)
       (λ r,
          let r := match name with
                   | Some n => if truthy (VStr n)
                               then DictionaryVersion.set_name n r else r
                   | None => r
                   end in
          match description with
          | Some d => if truthy (VStr d)
                      then DictionaryVersion.set_description d r else r
          | None => r
          end)
   else ret tt);;
  (* Update MongoDB if dictionary data changed *)
  (if match UpdateVersionRequest.schemas update_data with
      | Some (_ :: _) => true | _ => false end
      || match UpdateVersionRequest.relationships update_data with
         | Some (_ :: _) => true | _ => false end
      || match UpdateVersionRequest.erd update_data with
         | Some _ => true | None => false end
      || match UpdateVersionRequest.metadata update_data with
         | Some (_ :: _) => true | _ => false end
   then
     missing ← not_database ev;
     (if missing then raise (DatabaseError "MongoDB connection not available")
      else ret tt);;
     let mongo_updates := [("updated_at", VDatetime (utcnow ev))] in
     let mongo_updates :=
       match UpdateVersionRequest.schemas update_data with
       | Some (_ :: _ as schemas) =>
           dict_set mongo_updates "schemas"
             (schemas_dict_of
                (flat_map (λ schema, map Table.model_dump (Schema.tables schema))
                          schemas))
       | Some [] => dict_set mongo_updates "schemas" (schemas_dict_of [])
       | None => mongo_updates
       end in
     let mongo_updates :=
       match UpdateVersionRequest.relationships update_data with
       | Some rs =>
           dict_set mongo_updates "relationships"
             (VList (map Relationship.model_dump rs))
       | None => mongo_updates
       end in
     let mongo_updates :=
       match UpdateVersionRequest.erd update_data with
       | Some e =>
           let erd_data := ERDLayout.model_dump e in
           (* Ensure ERD has required fields *)
           let erd_data := match dict_get erd_data "nodes" with
                           | None => dict_set erd_data "nodes" (VList [])
                           | Some _ => erd_data
                           end in
           let erd_data := match dict_get erd_data "edges" with
                           | None => dict_set erd_data "edges" (VList [])
                           | Some _ => erd_data
                           end in
           dict_set mongo_updates "erd" (VDict erd_data)
       | None => mongo_updates
       end in
     let mongo_updates :=
       match UpdateVersionRequest.metadata update_data with
       | Some m => dict_set mongo_updates "metadata" (VDict m)
       | None => mongo_updates
       end in
     let mongo_updates :=
       match name with
       | Some n => if truthy (VStr n)
                   then dict_set mongo_updates "name" (VStr n)
                   else mongo_updates
       | None => mongo_updates
       end in
     let mongo_updates :=
       match description with
       | Some d => if truthy (VStr d)
                   then dict_set mongo_updates "description" (VStr d)
                   else mongo_updates
       | None => mongo_updates
       end in
     bson_encode (VDict mongo_updates);;
     update_one (DictionaryVersion.mongo_id version_data) mongo_updates;;
     ret tt
   else ret tt);;
  ret (success_response
         (VDict [("version", VInt version)])
         ("Version " +:+ pretty version +:+ " updated successfully")).

Definition update_version (ev : env) (project_id : uuid) (version : Z)
    (user_id : string) (update_data : UpdateVersionRequest.t) :=
  route (update_version_body ev project_id version user_id update_data).

(** [delete_version] *)
Definition delete_version_body (ev : env) (project_id : uuid) (version : Z)
    (user_id : string) : M value :=
  require_project_access project_id user_id;;
  (* Check if this is the only version *)
  rows ← select_versions;
  let all_versions :=
    filter (λ r, DictionaryVersion.project_id r = project_id) rows in
  match all_versions with
  | [] => raise (NotFoundError "No versions found")
  | [_] => raise (ValidationError "Cannot delete the only version")
  | _ =>
      (* Find the version to delete *)
      match head (filter (λ v, DictionaryVersion.version v = version)
                         all_versions) with
      | None =>
          raise (NotFoundError ("Version " +:+ pretty version +:+ " not found"))
      | Some version_to_delete =>
          (* If deleting the latest version, make the previous version latest *)
          (if DictionaryVersion.is_latest version_to_delete then
             (* Find the next highest version *)
             let sorted_versions :=
               order_version_desc
                 (filter (λ v, DictionaryVersion.version v ≠ version)
                         all_versions) in
             match sorted_versions with
             | top :: _ =>
                 update_versions
                   (λ r, DictionaryVersion.project_id r = project_id
                         ∧ DictionaryVersion.version r
                           = DictionaryVersion.version top)
                   (DictionaryVersion.set_is_latest true)
             | [] => ret tt
             end
           else ret tt);;
          (* Delete from MongoDB *)
          (if mongodb_available ev
           then delete_one (DictionaryVersion.mongo_id version_to_delete)
           else ret tt);;
          (* Delete from Supabase *)
          delete_versions
            (λ r, DictionaryVersion.project_id r = project_id
                  ∧ DictionaryVersion.version r = version);;
          ret (success_response
                 (VDict [("deleted_version", VInt version)])
                 ("Version " +:+ pretty version +:+ " deleted successfully"))
      end
  end.

Definition delete_version (ev : env) (project_id : uuid) (version : Z)
    (user_id : string) :=
  route (delete_version_body ev project_id version user_id).

(** ** [api/v1/tables.py] *)

(** Loops over Python objects whose body may raise. *)
Fixpoint find_first {A} (test : A → exn + bool) (l : list A) (i : nat)
  : exn + option (nat * A) :=
  match l with
  | [] => inr None
  | x :: l' =>
      match test x with
      | inl e => inl e
      | inr true => inr (Some (i, x))
      | inr false => find_first test l' (S i)
      end
  end.

Fixpoint filter_raising {A} (test : A → exn + bool) (l : list A)
  : exn + list A :=
  match l with
  | [] => inr []
  | x :: l' =>
      match test x with
      | inl e => inl e
      | inr b =>
          match filter_raising test l' with
          | inl e => inl e
          | inr r => inr (if b then x :: r else r)
          end
      end
  end.

(** [x.get(k) == text] *)
Definition get_eq (x : value) (k : string) (text : string) : exn + bool :=
  match py_get x k VNone with
  | inl e => inl e
  | inr v => inr (value_eqb v (VStr text))
  end.

(** [a and b], [a or b] on tests that may raise; the right operand is
    evaluated only when the left one does not decide. *)
Definition and_then (a : exn + bool) (b : exn + bool) : exn + bool :=
  match a with
  | inr true => b
  | other => other
  end.

Definition or_else (a : exn + bool) (b : exn + bool) : exn + bool :=
  match a with
  | inr false => b
  | other => other
  end.

Definition not_ (a : exn + bool) : exn + bool :=
  match a with
  | inr b => inr (negb b)
  | other => other
  end.

(** [table.get("name") == table_name and
     table.get("schema_name") == schema_name] *)
Definition table_matches (table_name schema_name : string) (table : value)
  : exn + bool :=
  and_then (get_eq table "name" table_name)
           (get_eq table "schema_name" schema_name).

(** [get_version_mongo_id]: any failure of the lookup gives [None]. *)
Definition get_version_mongo_id (project_id : uuid) (version : Z)
  : M (option oid) :=
  rows ← select_versions;
  ret (match single (filter
                       (λ r, DictionaryVersion.project_id r = project_id
                             ∧ DictionaryVersion.version r = version) rows) with
       | inr r => Some (DictionaryVersion.mongo_id r)
       | inl _ => None
       end).

(** The opening shared by every route of [tables.py]: access check,
    version lookup, document lookup. *)
Definition load_dictionary (ev : env) (project_id : uuid) (version : Z)
    (user_id : string) : M (oid * list (string * value)) :=
  require_project_access project_id user_id;;
  mongo_id ← get_version_mongo_id project_id version;
  match mongo_id with
  | None =>
      raise (NotFoundError ("Version " +:+ pretty version +:+ " not found"))
  | Some mongo_id =>
      require_mongodb ev;;
      dictionary ← find_one mongo_id;
      match dictionary with
      | Some d =>
          if truthy (VDict d) then ret (mongo_id, d)
          else raise (NotFoundError "Dictionary not found in MongoDB")
      | None => raise (NotFoundError "Dictionary not found in MongoDB")
      end
  end.

(** [f"Table '{table_name}' not found in schema '{schema_name}'"] *)
Definition table_not_found (table_name schema_name : string) : exn :=
  NotFoundError ("Table '" +:+ table_name +:+ "' not found in schema '"
                 +:+ schema_name +:+ "'").

(** [list_tables]; [schema_name] is [Optional[str]] with default
    ["public"]. *)
Definition list_tables_body (ev : env) (project_id : uuid) (version : Z)
    (schema_name : option string) (user_id : string) : M value :=
  '(mongo_id, dictionary) ← load_dictionary ev project_id version user_id;
  let schemas_data := default (VDict []) (dict_get dictionary "schemas") in
  tables ←
    match schemas_data with
    | VDict sd =>
        match dict_get sd "tables" with
        | Some all_tables =>
            if truthy_text schema_name then
              items ← lift (py_iter all_tables);
              kept ← lift (filter_raising
                             (λ t, get_eq t "schema_name"
                                     (default EmptyString schema_name)) items);
              ret (VList kept)
            else ret all_tables
        | None => ret (VList [])
        end
    | _ => ret (VList [])
    end;
  count ← lift (match tables with
                | VList l => inr (Z.of_nat (length l))
                | VDict d => inr (Z.of_nat (length d))
                | VStr s => inr (Z.of_nat (String.length s))
                | other => inl (TypeError ("object of type '" +:+ type_name other
                                           +:+ "' has no len()"))
                end);
  let shown := from_option (λ s, s) "None" schema_name in
  ret (success_response
         (VDict [("tables", tables);
                 ("schema", from_option VStr VNone schema_name);
                 ("count", VInt count)])
         ("Found " +:+ pretty count +:+ " tables in schema " +:+ shown)).

Definition list_tables (ev : env) (project_id : uuid) (version : Z)
    (schema_name : option string) (user_id : string) :=
  route (list_tables_body ev project_id version schema_name user_id).

(** [x.append(item)]: only lists have [append]. *)
Definition py_append (x : value) (item : value) : exn + value :=
  match x with
  | VList l => inr (VList (l ++ [item]))
  | _ => inl (AttributeError
                ("'" +:+ type_name x +:+ "' object has no attribute 'append'"))
  end.

(** The column given to a table created without columns. *)
Definition default_id_column : value :=
  VDict [("name", VStr "id"); ("data_type", VStr "bigint");
         ("key", VStr "PK"); ("nullable", VBool false);
         ("description", VStr "Primary key");
         ("is_unique", VBool true); ("is_indexed", VBool true)].

(** [create_table] *)
Definition create_table_body (ev : env) (project_id : uuid) (version : Z)
    (table_data : TableRequest.t) (user_id : string) : M value :=
  '(mongo_id, dictionary) ← load_dictionary ev project_id version user_id;
  (* Check if table already exists *)
  let schemas_data := default (VDict []) (dict_get dictionary "schemas") in
  (* Ensure schemas_data has the correct structure *)
  let schemas_data :=
    match schemas_data with
    | VDict sd => match dict_get sd "tables" with
                  | Some _ => sd
                  | None => [("tables", VList []); ("relationships", VList [])]
                  end
    | _ => [("tables", VList []); ("relationships", VList [])]
    end in
  let tables := default (VList []) (dict_get schemas_data "tables") in
  (* Check for duplicate table name *)
  items ← lift (py_iter tables);
  clash ← lift (find_first
                  (table_matches (TableRequest.name table_data)
                                 (TableRequest.schema_name table_data)) items 0);
  match clash with
  | Some _ =>
      raise (ConflictError
               ("Table '" +:+ TableRequest.name table_data
                +:+ "' already exists in schema '"
                +:+ TableRequest.schema_name table_data +:+ "'"))
  | None =>
      (* Create new table *)
      let new_table := TableRequest.model_dump table_data in
      (* Add default columns if none provided *)
      let new_table :=
        if truthy (default VNone (dict_get new_table "columns")) then new_table
        else dict_set new_table "columns" (VList [default_id_column]) in
      (* Add the table to the schemas *)
      tables' ← lift (py_append tables (VDict new_table));
      let schemas_data := dict_set schemas_data "tables" tables' in
      (* Update MongoDB *)
      bson_encode (VDict (TableRequest.model_dump table_data));;
      modified_count ←
        update_one mongo_id [("schemas", VDict schemas_data);
                             ("updated_at", VDatetime (utcnow ev))];
      if modified_count =? 0 then raise (DatabaseError "Failed to create table")
      else
        ret (success_response
               (VDict [("table", VDict new_table)])
               ("Table '" +:+ TableRequest.name table_data
                +:+ "' created successfully in schema '"
                +:+ TableRequest.schema_name table_data +:+ "'"))
  end.

Definition create_table (ev : env) (project_id : uuid) (version : Z)
    (table_data : TableRequest.t) (user_id : string) :=
  route (create_table_body ev project_id version table_data user_id).

(** [update_table] *)
Definition update_table_body (ev : env) (project_id : uuid) (version : Z)
    (table_name : string) (table_data : TableRequest.t) (schema_name : string)
    (user_id : string) : M value :=
  '(mongo_id, dictionary) ← load_dictionary ev project_id version user_id;
  (* Find and update the table *)
  let schemas_data := default (VDict []) (dict_get dictionary "schemas") in
  match schemas_data with
  | VDict sd =>
      match dict_get sd "tables" with
      | None => raise (table_not_found table_name schema_name)
      | Some tables =>
          items ← lift (py_iter tables);
          found ← lift (find_first (table_matches table_name schema_name)
                                   items 0);
          match found with
          | None => raise (table_not_found table_name schema_name)
          | Some (i, table) =>
              (* Update table properties *)
              let updated_table := TableRequest.model_dump table_data in
              (* Preserve existing columns if not provided *)
              columns ← lift (py_get table "columns" (VList []));
              let updated_table :=
                if truthy (default VNone (dict_get updated_table "columns"))
                then updated_table
                else dict_set updated_table "columns" columns in
              (* Check if renaming to an existing table name *)
              (if negb (String.eqb (TableRequest.name table_data) table_name)
               then
                 clash ← lift (find_first
                                 (table_matches (TableRequest.name table_data)
                                                schema_name) items 0);
                 match clash with
                 | Some _ =>
                     raise (ConflictError
                              ("Table '" +:+ TableRequest.name table_data
                               +:+ "' already exists"))
                 | None => ret tt
                 end
               else ret tt);;
              let sd' :=
                dict_set sd "tables" (VList (<[i := VDict updated_table]> items)) in
              (* Update MongoDB *)
              bson_encode (VDict (TableRequest.model_dump table_data));;
              modified_count ←
                update_one mongo_id [("schemas", VDict sd');
                                     ("updated_at", VDatetime (utcnow ev))];
              if modified_count =? 0
              then raise (DatabaseError "Failed to update table")
              else
                ret (success_response
                       (VDict [("table",
                                VDict (TableRequest.model_dump table_data))])
                       ("Table '" +:+ table_name +:+ "' updated successfully"))
          end
      end
  | _ => raise (table_not_found table_name schema_name)
  end.

Definition update_table (ev : env) (project_id : uuid) (version : Z)
    (table_name : string) (table_data : TableRequest.t) (schema_name : string)
    (user_id : string) :=
  route (update_table_body ev project_id version table_name table_data
                           schema_name user_id).

(** [len(x)] of something that was iterated: the number of items. *)
Definition len_items (items : list value) : Z := Z.of_nat (length items).

(** [rel.get("source_table") != table_name and
     rel.get("target_table") != table_name] *)
Definition keeps_on_table_delete (table_name : string) (rel : value)
  : exn + bool :=
  and_then (not_ (get_eq rel "source_table" table_name))
           (not_ (get_eq rel "target_table" table_name)).

(** [delete_table] *)
Definition delete_table_body (ev : env) (project_id : uuid) (version : Z)
    (table_name : string) (schema_name : string) (user_id : string) : M value :=
  '(mongo_id, dictionary) ← load_dictionary ev project_id version user_id;
  (* Find and remove the table *)
  let schemas_data := default (VDict []) (dict_get dictionary "schemas") in
  match schemas_data with
  | VDict sd =>
      match dict_get sd "tables" with
      | None => raise (table_not_found table_name schema_name)
      | Some tables =>
          items ← lift (py_iter tables);
          found ← lift (find_first (table_matches table_name schema_name)
                                   items 0);
          match found with
          | None => raise (table_not_found table_name schema_name)
          | Some (i, deleted_table) =>
              let sd' := dict_set sd "tables" (VList (delete i items)) in
              (* Also remove any relationships involving this table *)
              let relationships :=
                default (VList []) (dict_get dictionary "relationships") in
              rels ← lift (py_iter relationships);
              updated_relationships ←
                lift (filter_raising (keeps_on_table_delete table_name) rels);
              (* Update MongoDB *)
              modified_count ←
                update_one mongo_id
                  [("schemas", VDict sd');
                   ("relationships", VList updated_relationships);
                   ("updated_at", VDatetime (utcnow ev))];
              if modified_count =? 0
              then raise (DatabaseError "Failed to delete table")
              else
                ret (success_response
                       (VDict [("deleted_table", deleted_table);
                               ("relationships_removed",
                                 VInt (len_items rels
                                       - len_items updated_relationships))])
                       ("Table '" +:+ table_name
                        +:+ "' deleted successfully from schema '"
                        +:+ schema_name +:+ "'"))
          end
      end
  | _ => raise (table_not_found table_name schema_name)
  end.

Definition delete_table (ev : env) (project_id : uuid) (version : Z)
    (table_name : string) (schema_name : string) (user_id : string) :=
  route (delete_table_body ev project_id version table_name schema_name user_id).

(** [c.get("key") == "PK" or c.get("isPK")] *)
Definition is_pk_column (c : value) : exn + bool :=
  or_else (get_eq c "key" "PK")
          (match py_get c "isPK" VNone with
           | inl e => inl e
           | inr v => inr (truthy v)
           end).

(** [not ((rel.get("source_table") == table_name and
           rel.get("source_column") == column_name) or
          (rel.get("target_table") == table_name and
           rel.get("target_column") == column_name))] *)
Definition keeps_on_column_delete (table_name column_name : string)
    (rel : value) : exn + bool :=
  not_ (or_else
          (and_then (get_eq rel "source_table" table_name)
                    (get_eq rel "source_column" column_name))
          (and_then (get_eq rel "target_table" table_name)
                    (get_eq rel "target_column" column_name))).

(** [delete_column] *)
Definition delete_column_body (ev : env) (project_id : uuid) (version : Z)
    (table_name : string) (column_name : string) (schema_name : string)
    (user_id : string) : M value :=
  '(mongo_id, dictionary) ← load_dictionary ev project_id version user_id;
  (* Find the table and remove the column *)
  let schemas_data := default (VDict []) (dict_get dictionary "schemas") in
  match schemas_data with
  | VDict sd =>
      match dict_get sd "tables" with
      | None => raise (table_not_found table_name schema_name)
      | Some tables =>
          items ← lift (py_iter tables);
          found ← lift (find_first (table_matches table_name schema_name)
                                   items 0);
          match found with
          | None => raise (table_not_found table_name schema_name)
          | Some (j, table) =>
              columns ← lift (py_get table "columns" (VList []));
              cols ← lift (py_iter columns);
              (* Find and remove the column *)
              col_found ← lift (find_first (λ col, get_eq col "name" column_name)
                                           cols 0);
              match col_found with
              | None =>
                  raise (NotFoundError
                           ("Column '" +:+ column_name
                            +:+ "' not found in table '" +:+ table_name +:+ "'"))
              | Some (i, col) =>
                  (* Don't allow deletion of last column *)
                  (if (length cols =? 1)%nat
                   then raise (ValidationError
                                 "Cannot delete the last column in a table")
                   else ret tt);;
                  (* Don't allow deletion of primary key if it's the only one *)
                  is_pk ← lift (is_pk_column col);
                  (if is_pk then
                     pks ← lift (filter_raising is_pk_column cols);
                     if (length pks =? 1)%nat
                     then raise (ValidationError
                                   "Cannot delete the only primary key column")
                     else ret tt
                   else ret tt);;
                  let table' :=
                    match table with
                    | VDict td =>
                        VDict (dict_set td "columns" (VList (delete i cols)))
                    | other => other
                    end in
                  let sd' :=
                    dict_set sd "tables" (VList (<[j := table']> items)) in
                  (* Also remove any relationships involving this column *)
                  let relationships :=
                    default (VList []) (dict_get dictionary "relationships") in
                  rels ← lift (py_iter relationships);
                  updated_relationships ←
                    lift (filter_raising
                            (keeps_on_column_delete table_name column_name) rels);
                  (* Update MongoDB *)
                  modified_count ←
                    update_one mongo_id
                      [("schemas", VDict sd');
                       ("relationships", VList updated_relationships);
                       ("updated_at", VDatetime (utcnow ev))];
                  if modified_count =? 0
                  then raise (DatabaseError "Failed to delete column")
                  else
                    ret (success_response
                           (VDict [("deleted_column", VStr column_name);
                                   ("relationships_removed",
                                     VInt (len_items rels
                                           - len_items updated_relationships))])
                           ("Column '" +:+ column_name
                            +:+ "' deleted successfully from table '"
                            +:+ table_name +:+ "'"))
              end
          end
      end
  | _ => raise (table_not_found table_name schema_name)
  end.

Definition delete_column (ev : env) (project_id : uuid) (version : Z)
    (table_name : string) (column_name : string) (schema_name : string)
    (user_id : string) :=
  route (delete_column_body ev project_id version table_name column_name
                            schema_name user_id).

(** [get_table] *)
Definition get_table_body (ev : env) (project_id : uuid) (version : Z)
    (table_name : string) (schema_name : string) (user_id : string) : M value :=
  '(mongo_id, dictionary) ← load_dictionary ev project_id version user_id;
  (* Find the table *)
  schemas ← lift (py_iter (default (VList []) (dict_get dictionary "schemas")));
  found_schema ←
    lift (find_first (λ schema, get_eq schema "name" schema_name) schemas 0);
  target_table ←
    match found_schema with
    | Some (_, schema) =>
        tables ← lift (py_get schema "tables" (VList []));
        items ← lift (py_iter tables);
        found ← lift (find_first (λ table, get_eq table "name" table_name)
                                 items 0);
        ret (match found with Some (_, table) => table | None => VNone end)
    | None => ret VNone
    end;
  if negb (truthy target_table)
  then raise (table_not_found table_name schema_name)
  else
    (* Get relationships for this table *)
    rels ← lift (py_iter
                   (default (VList []) (dict_get dictionary "relationships")));
    relationships ←
      lift (filter_raising
              (λ rel, or_else (get_eq rel "source_table" table_name)
                              (get_eq rel "target_table" table_name)) rels);
    ret (success_response
           (VDict [("table", target_table);
                   ("relationships", VList relationships)])
           ("Table '" +:+ table_name +:+ "' retrieved successfully")).

Definition get_table (ev : env) (project_id : uuid) (version : Z)
    (table_name : string) (schema_name : string) (user_id : string) :=
  route (get_table_body ev project_id version table_name schema_name user_id).

(** ** [api/v1/projects.py]: the two routes that touch the version index *)

(** [create_initial_dictionary]: every failure is logged and gives
    [None]; the writes already made stay. *)
Definition create_initial_dictionary (ev : env) (project_id : uuid)
    (user_id : string) : M (option oid) :=
  if negb (mongodb_available ev) then ret None
  else
    let default_schema :=
      {| Schema.name := "public";
         Schema.description := Some "Default public schema";
         Schema.tables := flat_map Schema.tables create_initial_schema;
         Schema.is_collapsed := false |} in
    let dictionary_doc :=
      [("projectId", VStr (pretty project_id));
       ("version", VInt 1);
       ("name", VStr "Initial Version");
       ("description", VStr "Automatically created initial version");
       ("schemas",
         schemas_dict_of (map Table.model_dump (Schema.tables default_schema)));
       ("relationships", VList []);
       ("erd", empty_erd);
       ("metadata", VDict []);
       ("created_at", VDatetime (utcnow ev));
       ("updated_at", VDatetime (utcnow ev))] in
    mongo_id ← insert_one dictionary_doc;
    id ← fresh_uuid;
    insert_version
      {| DictionaryVersion.id := id;
         DictionaryVersion.project_id := project_id;
         DictionaryVersion.version := 1;
         DictionaryVersion.mongo_id := mongo_id;
         DictionaryVersion.name := "Initial Version";
         DictionaryVersion.description :=
           Some "Automatically created initial version";
         DictionaryVersion.is_latest := true;
         DictionaryVersion.metadata := [];
         DictionaryVersion.created_at := utcnow ev |};;
    ret (Some mongo_id).

Definition project_response (p : Project.t) : value :=
  VDict [("status", VStr "success");
         ("project",
           VDict [("id", VStr (pretty (Project.id p)));
                  ("owner_id", VStr (Project.owner_id p));
                  ("name", VStr (Project.name p));
                  ("description",
                    from_option VStr VNone (Project.description p));
                  ("created_at", VStr (isoformat (Project.created_at p)));
                  ("updated_at", VNone)])].

(** [create_project]: the relational store issues the id of the new row,
    then the initial dictionary is created for it. *)
Definition create_project_body (ev : env) (user_id : string)
    (project_data : CreateProjectRequest.t) : M value :=
  id ← fresh_uuid;
  let created_project :=
    {| Project.id := id;
       Project.owner_id := user_id;
       Project.name := strip (CreateProjectRequest.name project_data);
       Project.description :=
         match CreateProjectRequest.description project_data with
         | Some d => if truthy (VStr d) then Some (strip d) else None
         | None => None
         end;
       Project.created_at := utcnow ev |} in
  s ← get_state;
  put_state (with_projects (projects s ++ [created_project]) s);;
  (* Create initial dictionary for the project *)
  create_initial_dictionary ev id user_id;;
  ret (project_response created_project).

Definition create_project (ev : env) (user_id : string)
    (project_data : CreateProjectRequest.t) :=
  project_route ev "Failed to create project"
    (create_project_body ev user_id project_data).

(** [delete_project]: the documents of the project's versions go first;
    deleting the project row cascades to its rows of
    [dictionary_versions]. *)
Definition delete_project_body (ev : env) (project_id : uuid)
    (user_id : string) : M value :=
  s ← get_state;
  (* Check project ownership *)
  existing ←
    lift (single (filter (λ p, Project.id p = project_id
                               ∧ Project.owner_id p = user_id) (projects s)));
  (* Get all dictionary versions for the project *)
  rows ← select_versions;
  let versions :=
    filter (λ r, DictionaryVersion.project_id r = project_id) rows in
  let mongo_ids_to_delete := map DictionaryVersion.mongo_id versions in
  (match mongo_ids_to_delete with
   | [] => ret tt
   | _ =>
       (* [mongodb.dictionaries] on a missing handle *)
       if mongodb_available ev then delete_many mongo_ids_to_delete
       else raise (AttributeError
                     "'NoneType' object has no attribute 'dictionaries'")
   end);;
  s ← get_state;
  put_state
    (with_dictionary_versions
       (filter (λ r, DictionaryVersion.project_id r ≠ project_id)
               (dictionary_versions s))
       (with_projects (filter (λ p, Project.id p ≠ project_id) (projects s)) s));;
  ret (VDict [("status", VStr "success");
              ("message",
                VStr "Project and all associated data deleted successfully")]).

Definition delete_project (ev : env) (project_id : uuid) (user_id : string) :=
  project_route ev "Failed to delete project"
    (delete_project_body ev project_id user_id).

(** ** The service as a transition system *)

(** The requests that read or write the version index or the document
    store.  The remaining routes of the repository (authentication, project
    listing and renaming, the placeholder column, ERD and import/export
    routes) touch neither. *)
Inductive request :=
  | CreateProject (user_id : string) (project_data : CreateProjectRequest.t)
  | DeleteProject (project_id : uuid) (user_id : string)
  | ListVersions (project_id : uuid) (user_id : string)
  | CreateVersion (project_id : uuid) (user_id : string)
      (version_data : CreateVersionRequest.t)
  | GetLatestVersion (project_id : uuid) (user_id : string)
  | GetSpecificVersion (project_id : uuid) (version : Z) (user_id : string)
  | UpdateVersion (project_id : uuid) (version : Z) (user_id : string)
      (update_data : UpdateVersionRequest.t)
  | DeleteVersion (project_id : uuid) (version : Z) (user_id : string)
  | ListTables (project_id : uuid) (version : Z) (schema_name : option string)
      (user_id : string)
  | CreateTable (project_id : uuid) (version : Z) (table_data : TableRequest.t)
      (user_id : string)
  | UpdateTable (project_id : uuid) (version : Z) (table_name : string)
      (table_data : TableRequest.t) (schema_name : string) (user_id : string)
  | DeleteTable (project_id : uuid) (version : Z) (table_name : string)
      (schema_name : string) (user_id : string)
  | DeleteColumn (project_id : uuid) (version : Z) (table_name : string)
      (column_name : string) (schema_name : string) (user_id : string)
  | GetTable (project_id : uuid) (version : Z) (table_name : string)
      (schema_name : string) (user_id : string).

Definition serve (ev : env) (r : request) : state → outcome * state :=
  match r with
  | CreateProject u d => create_project ev u d
  | DeleteProject p u => delete_project ev p u
  | ListVersions p u => list_versions p u
  | CreateVersion p u d => create_version ev p u d
  | GetLatestVersion p u => get_latest_version ev p u
  | GetSpecificVersion p v u => get_specific_version ev p v u
  | UpdateVersion p v u d => update_version ev p v u d
  | DeleteVersion p v u => delete_version ev p v u
  | ListTables p v sn u => list_tables ev p v sn u
  | CreateTable p v d u => create_table ev p v d u
  | UpdateTable p v t d sn u => update_table ev p v t d sn u
  | DeleteTable p v t sn u => delete_table ev p v t sn u
  | DeleteColumn p v t c sn u => delete_column ev p v t c sn u
  | GetTable p v t sn u => get_table ev p v t sn u
  end.

Definition initial_state : state :=
  {| projects := []; dictionary_versions := []; dictionaries := ∅;
     next_uuid := 0%N; next_oid := 0%N |}.

(** States the service can be in: the empty stores, and whatever a request
    leaves behind, under any clock reading and any availability of the
    document store. *)
Inductive reachable : state → Prop :=
  | reachable_initial : reachable initial_state
  | reachable_serve s ev r : reachable s → reachable (serve ev r s).2.

(** The requests whose handlers insert or delete rows of
    [dictionary_versions], or write their [is_latest] column. *)
Definition writes_index (r : request) : bool :=
  match r with
  | CreateProject _ _ | DeleteProject _ _
  | CreateVersion _ _ _ | DeleteVersion _ _ _ => true
  | _ => false
  end.

(** ** Observations on the version index *)

(** The rows of one project. *)
Definition project_rows (p : uuid) (s : state) : list DictionaryVersion.t :=
  filter (λ r, DictionaryVersion.project_id r = p) (dictionary_versions s).

(** The version numbers a project has. *)
Definition project_versions (p : uuid) (s : state) : list Z :=
  map DictionaryVersion.version (project_rows p s).

(** The version numbers of the rows of a project flagged [is_latest]. *)
Definition latest_of (p : uuid) (s : state) : list Z :=
  map DictionaryVersion.version
      (filter (λ r, DictionaryVersion.is_latest r = true) (project_rows p s)).

(** [m] is the greatest element of [vs]. *)
Definition is_max (m : Z) (vs : list Z) : Prop :=
  m ∈ vs ∧ ∀ v, v ∈ vs → v ≤ m.

(** Access as [verify_project_access] decides it. *)
Definition owns (user_id : string) (p : uuid) (s : state) : Prop :=
  ∃ row, row ∈ projects s ∧ Project.id row = p ∧ Project.owner_id row = user_id.

(** The document a version of a project points to. *)
Definition document_of (p : uuid) (v : Z) (s : state)
  : option (list (string * value)) :=
  match filter (λ r, DictionaryVersion.version r = v) (project_rows p s) with
  | r :: _ => dictionaries s !! DictionaryVersion.mongo_id r
  | [] => None
  end.

(** What the version index must satisfy between requests. *)
Record index_invariant (s : state) : Prop := {
  versions_unique : ∀ p, NoDup (project_versions p s);
  one_latest : ∀ p, project_rows p s ≠ [] → ∃ v, latest_of p s = [v];
  versions_positive :
    ∀ r, r ∈ dictionary_versions s → 1 ≤ DictionaryVersion.version r;
  projects_known :
    ∀ r, r ∈ dictionary_versions s →
         (DictionaryVersion.project_id r < next_uuid s)%N;
  projects_issued :
    ∀ row, row ∈ projects s → (Project.id row < next_uuid s)%N;
  documents_issued :
    ∀ r, r ∈ dictionary_versions s →
         (DictionaryVersion.mongo_id r < next_oid s)%N;
  documents_distinct :
    NoDup (map DictionaryVersion.mongo_id (dictionary_versions s))
}.

(** What a row contributes to the index: its project, number, latest flag
    and document reference. *)
Definition index_key (r : DictionaryVersion.t) : uuid * Z * bool * oid :=
  (DictionaryVersion.project_id r, DictionaryVersion.version r,
   DictionaryVersion.is_latest r, DictionaryVersion.mongo_id r).

(** Two states with the same projects, the same index and the same
    counters (documents, names and descriptions may differ). *)
Definition same_index (s s' : state) : Prop :=
  projects s' = projects s
  ∧ map index_key (dictionary_versions s') = map index_key (dictionary_versions s)
  ∧ next_uuid s' = next_uuid s
  ∧ next_oid s' = next_oid s.

(** A computation that leaves the index as it found it. *)
Definition keeps_index {A} (m : M A) : Prop := ∀ s, same_index s (m s).2.

(** [.update({"is_latest": False}).eq("project_id", p)] on the rows. *)
Definition unset_latest (p : uuid) (rows : list DictionaryVersion.t)
  : list DictionaryVersion.t :=
  map (λ r, if decide (DictionaryVersion.project_id r = p)
            then DictionaryVersion.set_is_latest false r else r) rows.

(** The state a successful [create_version] leaves, given what the copy
    from the base version produced. *)
Definition created_state (ev : env) (p : uuid) (d : CreateVersionRequest.t)
    (relationships erd : value) (s : state) : state :=
  let next := next_version_of (project_rows p s) in
  {| projects := projects s;
     dictionary_versions :=
       unset_latest p (dictionary_versions s)
       ++ [version_metadata_of ev (next_uuid s) p next (next_oid s) d];
     dictionaries :=
       <[next_oid s := dictionary_doc_of ev p next d
                         (convert_schemas (resolve_schemas d))
                         relationships erd]> (dictionaries s);
     next_uuid := N.succ (next_uuid s);
     next_oid := N.succ (next_oid s) |}.

(** [.update({"is_latest": True}).eq("project_id", p).eq("version", m)]
    on the rows. *)
Definition set_latest (p : uuid) (m : Z) (rows : list DictionaryVersion.t)
  : list DictionaryVersion.t :=
  map (λ r, if decide (DictionaryVersion.project_id r = p
                       ∧ DictionaryVersion.version r = m)
            then DictionaryVersion.set_is_latest true r else r) rows.

(** [.delete().eq("project_id", p).eq("version", v)] on the rows. *)
Definition remove_version (p : uuid) (v : Z) (rows : list DictionaryVersion.t)
  : list DictionaryVersion.t :=
  filter (λ r, ¬ (DictionaryVersion.project_id r = p
                  ∧ DictionaryVersion.version r = v)) rows.

(** The rows after the promotion step of [delete_version]. *)
Definition promoted_rows (p : uuid) (v : Z) (victim : DictionaryVersion.t)
    (s : state) : list DictionaryVersion.t :=
  if DictionaryVersion.is_latest victim then
    match order_version_desc
            (filter (λ r, DictionaryVersion.version r ≠ v) (project_rows p s)) with
    | top :: _ => set_latest p (DictionaryVersion.version top)
                             (dictionary_versions s)
    | [] => dictionary_versions s
    end
  else dictionary_versions s.

(** The state a successful [delete_version] leaves. *)
Definition deleted_state (ev : env) (p : uuid) (v : Z)
    (victim : DictionaryVersion.t) (s : state) : state :=
  {| projects := projects s;
     dictionary_versions := remove_version p v (promoted_rows p v victim s);
     dictionaries :=
       if mongodb_available ev
       then delete (DictionaryVersion.mongo_id victim) (dictionaries s)
       else dictionaries s;
     next_uuid := next_uuid s;
     next_oid := next_oid s |}.

(** A rewrite of rows that leaves project, number and document reference
    alone (only the latest flag may change). *)
Definition keeps_identity (g : DictionaryVersion.t → DictionaryVersion.t) : Prop :=
  ∀ r, DictionaryVersion.project_id (g r) = DictionaryVersion.project_id r
       ∧ DictionaryVersion.version (g r) = DictionaryVersion.version r
       ∧ DictionaryVersion.mongo_id (g r) = DictionaryVersion.mongo_id r.

(** ** Sample requests and states *)

Definition sample_env : env :=
  {| utcnow := 1762214400; mongodb_available := true; DEBUG := false |}.

Definition sample_project_request : CreateProjectRequest.t :=
  {| CreateProjectRequest.name := "shop";
     CreateProjectRequest.description := None |}.

(** One project (id 0, owned by alice) with its initial version. *)
Definition one_version_state : state :=
  (serve sample_env (CreateProject "alice" sample_project_request)
         initial_state).2.

Definition sample_version_request : CreateVersionRequest.t :=
  {| CreateVersionRequest.name := "second";
     CreateVersionRequest.description := None;
     CreateVersionRequest.base_version := None;
     CreateVersionRequest.schemas := [] |}.

(** The same project after a second version was created. *)
Definition two_versions_state : state :=
  (serve sample_env (CreateVersion 0%N "alice" sample_version_request)
         one_version_state).2.

(** The base version a request names, when it names one, is a version of
    the project. *)
Definition base_version_exists (p : uuid) (d : CreateVersionRequest.t)
    (s : state) : Prop :=
  ∀ b, CreateVersionRequest.base_version d = Some b → b ≠ 0 →
       b ∈ project_versions p s.

(** Requests the document store can hold: every integer the schemas of a
    version request bring (the default schema when it brings none), or a
    table request brings, fits 8 bytes, and no key in them has a NUL
    character. *)
Definition storable_schemas (d : CreateVersionRequest.t) : Prop :=
  bson_encodable (convert_schemas (resolve_schemas d)) = true.

Definition storable_table (d : TableRequest.t) : Prop :=
  bson_encodable (VDict (TableRequest.model_dump d)) = true.

(** A route reports an error when an exception leaves it or when the body
    it returns is an error envelope. *)
Definition reports_error (o : outcome) : Prop :=
  match o with
  | Raised _ => True
  | Returned body => py_get body "status" VNone = inr (VStr "error")
  end.

(** The one-version state with the document of its version gone from the
    document store. *)
Definition missing_document_state : state :=
  with_dictionaries ∅ one_version_state.

Definition orders_request : TableRequest.t :=
  {| TableRequest.name := "orders";
     TableRequest.schema_name := "public";
     TableRequest.table_type := FACT;
     TableRequest.description := None;
     TableRequest.columns := [] |}.

(** Version 1 of project 0 after a table [orders] was added to it. *)
Definition base_state : state :=
  (serve sample_env (CreateTable 0%N 1 orders_request "alice")
         one_version_state).2.

Definition branch_request : CreateVersionRequest.t :=
  {| CreateVersionRequest.name := "branch";
     CreateVersionRequest.description := None;
     CreateVersionRequest.base_version := Some 1;
     CreateVersionRequest.schemas := [] |}.

(** [create_version] with [base_version=1] on [base_state]. *)
Definition branched_state : state :=
  (serve sample_env (CreateVersion 0%N "alice" branch_request) base_state).2.

(** A request that only renames a version. *)
Definition rename_version_request : UpdateVersionRequest.t :=
  {| UpdateVersionRequest.name := Some "renamed";
     UpdateVersionRequest.description := None;
     UpdateVersionRequest.schemas := Some [];
     UpdateVersionRequest.relationships := None;
     UpdateVersionRequest.erd := None;
     UpdateVersionRequest.metadata := None |}.

(** ** Reading tables and columns of a stored document *)

(** The entry [k] of the dict [d] is the text [t]. *)
Definition has_text (d : list (string * value)) (k t : string) : bool :=
  match dict_get d k with
  | Some (VStr x) => String.eqb x t
  | _ => false
  end.

(** The table [td] has the given name and schema name. *)
Definition table_named (table_name schema_name : string)
    (td : list (string * value)) : bool :=
  has_text td "name" table_name && has_text td "schema_name" schema_name.

(** The column [cd] has the given name. *)
Definition column_named (column_name : string) (cd : list (string * value))
  : bool :=
  has_text cd "name" column_name.

(** The column [cd] is a primary-key column: its [key] is ["PK"], or its
    [isPK] entry is true. *)
Definition is_pk_dict (cd : list (string * value)) : bool :=
  has_text cd "key" "PK" || truthy (default VNone (dict_get cd "isPK")).

(** [x] is the first element of [l] that satisfies [P], at index [j]. *)
Definition first_match {A} (P : A → bool) (l : list A) (j : nat) (x : A) : Prop :=
  l !! j = Some x ∧ P x = true
  ∧ ∀ k y, (k < j)%nat → l !! k = Some y → P y = false.

(** The table [td] with the column at index [i] of its columns [cds]
    taken out. *)
Definition without_column (td : list (string * value))
    (cds : list (list (string * value))) (i : nat) : list (string * value) :=
  dict_set td "columns" (VList (map VDict (delete i cds))).

(** The relationships [delete_column] keeps: those that do not name the
    pair [(table_name, column_name)] under [source_*] or under [target_*]. *)
Definition kept_on_column_delete (table_name column_name : string)
    (rds : list (list (string * value))) : list (list (string * value)) :=
  filter (λ rd, negb ((has_text rd "source_table" table_name
                       && has_text rd "source_column" column_name)
                      || (has_text rd "target_table" table_name
                          && has_text rd "target_column" column_name)) = true)
         rds.

(** The document [delete_column] writes back: table [j] loses column [i],
    the relationships are filtered, the time stamp is renewed. *)
Definition column_deleted_document (ev : env) (table_name column_name : string)
    (doc sd : list (string * value)) (tds : list (list (string * value)))
    (j : nat) (td : list (string * value))
    (cds : list (list (string * value))) (i : nat)
    (rds : list (list (string * value))) : list (string * value) :=
  dict_update doc
    [("schemas",
       VDict (dict_set sd "tables"
                (VList (<[j := VDict (without_column td cds i)]>
                          (map VDict tds)))));
     ("relationships",
       VList (map VDict (kept_on_column_delete table_name column_name rds)));
     ("updated_at", VDatetime (utcnow ev))].

(** The dict behind a value. *)
Definition dict_of (x : value) : list (string * value) :=
  match x with VDict d => d | _ => [] end.

(** The tables and the columns of the default schema, as stored. *)
Definition sample_tables : list (list (string * value)) :=
  map (λ t, dict_of (Table.model_dump t))
      (flat_map Schema.tables create_initial_schema).

Definition sample_columns : list (list (string * value)) :=
  map (λ c, dict_of (Column.model_dump c))
      (flat_map Table.columns (flat_map Schema.tables create_initial_schema)).

(** ** Who a request is made for *)

(** The project and the user of a request to a route of [versions.py] or
    [tables.py]; these are the routes that open with the access check. *)
Definition request_scope (r : request) : option (uuid * string) :=
  match r with
  | CreateProject _ _ | DeleteProject _ _ => None
  | ListVersions p u | CreateVersion p u _ | GetLatestVersion p u
  | GetSpecificVersion p _ u | UpdateVersion p _ u _ | DeleteVersion p _ u
  | ListTables p _ _ u | CreateTable p _ _ u | UpdateTable p _ _ _ _ u
  | DeleteTable p _ _ _ u | DeleteColumn p _ _ _ _ u | GetTable p _ _ _ u =>
      Some (p, u)
  end.

(** The version a request to a route of [tables.py] names. *)
Definition request_version (r : request) : option Z :=
  match r with
  | ListTables _ v _ _ | CreateTable _ v _ _ | UpdateTable _ v _ _ _ _
  | DeleteTable _ v _ _ _ | DeleteColumn _ v _ _ _ _ | GetTable _ v _ _ _ =>
      Some v
  | _ => None
  end.

(** ** What the two stores hold together *)

(** The [schemas] entry of a document is a dict. *)
Definition schemas_is_dict (d : list (string * value)) : bool :=
  match dict_get d "schemas" with Some (VDict _) => true | _ => false end.

(** What the stores satisfy together between requests: every row of the
    version index points at a stored document, and every stored document
    keeps its schemas in a dict. *)
Record store_invariant (s : state) : Prop := {
  documents_present :
    ∀ r, r ∈ dictionary_versions s →
         is_Some (dictionaries s !! DictionaryVersion.mongo_id r);
  schemas_are_dicts :
    ∀ o d, dictionaries s !! o = Some d → schemas_is_dict d = true
}.

(** A step that neither adds nor removes a document and that leaves the
    schemas of a document a dict when they were one. *)
Definition same_documents (s s' : state) : Prop :=
  ∀ o, match dictionaries s !! o, dictionaries s' !! o with
       | Some d, Some d' => schemas_is_dict d = true → schemas_is_dict d' = true
       | None, None => True
       | _, _ => False
       end.

Definition keeps_documents {A} (m : M A) : Prop :=
  ∀ s, same_documents s (m s).2.

(** The fields of a [$set] that put a dict, if anything, under [schemas]. *)
Definition sets_schemas_dict (fields : list (string * value)) : Prop :=
  Forall (λ kv, kv.1 = "schemas" → ∃ sd, kv.2 = VDict sd) fields.

(** The latest flag sits on the highest version number of each project. *)
Definition latest_is_highest (s : state) : Prop :=
  ∀ p v, v ∈ latest_of p s → is_max v (project_versions p s).

(** ** What the table routes write *)

(** What the encoder raises is one of its two refusals. *)
Definition encoder_error (e : exn) : Prop :=
  ∃ m, e = OverflowError m ∨ e = InvalidDocument m.

(** The table [create_table] stores for a request: the request as dumped,
    with the default [id] column when the request brings no column. *)
Definition created_table (table_data : TableRequest.t) : list (string * value) :=
  let new_table := TableRequest.model_dump table_data in
  if truthy (default VNone (dict_get new_table "columns")) then new_table
  else dict_set new_table "columns" (VList [default_id_column]).

(** The document a successful [create_table] leaves: the new table comes
    last in the tables, the time stamp is renewed. *)
Definition table_created_document (ev : env) (table_data : TableRequest.t)
    (doc sd : list (string * value)) (tds : list (list (string * value)))
  : list (string * value) :=
  dict_update doc
    [("schemas",
       VDict (dict_set sd "tables"
                (VList (map VDict tds ++ [VDict (created_table table_data)]))));
     ("updated_at", VDatetime (utcnow ev))].

(** The relationships [delete_table] keeps: those that do not name the
    table under [source_table] or under [target_table]. *)
Definition kept_on_table_delete (table_name : string)
    (rds : list (list (string * value))) : list (list (string * value)) :=
  filter (λ rd, negb (has_text rd "source_table" table_name)
                && negb (has_text rd "target_table" table_name) = true) rds.

(** The document a successful [delete_table] leaves. *)
Definition table_deleted_document (ev : env) (table_name : string)
    (doc sd : list (string * value)) (tds : list (list (string * value)))
    (j : nat) (rds : list (list (string * value))) : list (string * value) :=
  dict_update doc
    [("schemas", VDict (dict_set sd "tables" (VList (map VDict (delete j tds)))));
     ("relationships", VList (map VDict (kept_on_table_delete table_name rds)));
     ("updated_at", VDatetime (utcnow ev))].

(** The table [update_table] stores in place of [td]: the request as
    dumped, with the columns of [td] when the request brings none. *)
Definition updated_table (table_data : TableRequest.t)
    (td : list (string * value)) : list (string * value) :=
  let updated := TableRequest.model_dump table_data in
  if truthy (default VNone (dict_get updated "columns")) then updated
  else dict_set updated "columns" (default (VList []) (dict_get td "columns")).

(** The document [update_table] writes back. *)
Definition table_updated_document (ev : env) (table_data : TableRequest.t)
    (doc sd : list (string * value)) (tds : list (list (string * value)))
    (j : nat) (td : list (string * value)) : list (string * value) :=
  dict_update doc
    [("schemas",
       VDict (dict_set sd "tables"
                (VList (<[j := VDict (updated_table table_data td)]>
                          (map VDict tds)))));
     ("updated_at", VDatetime (utcnow ev))].

(** The tables [list_tables] shows for a schema filter: all of them when
    the filter is absent or empty, else those of that schema. *)
Definition listed_tables (schema_name : option string)
    (tds : list (list (string * value))) : list (list (string * value)) :=
  if truthy_text schema_name
  then filter (λ td, has_text td "schema_name" (default EmptyString schema_name)
                     = true) tds
  else tds.

(** A request that renames a table to [customers] and brings no column. *)
Definition rename_request : TableRequest.t :=
  {| TableRequest.name := "customers";
     TableRequest.schema_name := "public";
     TableRequest.table_type := DIMENSION;
     TableRequest.description := None;
     TableRequest.columns := [] |}.

(** ** What [update_version] is asked to write *)

(** [any([update_data.schemas, update_data.relationships, update_data.erd,
    update_data.metadata])]: an empty list and an empty dict count as
    absent. *)
Definition brings_document_data (d : UpdateVersionRequest.t) : bool :=
  match UpdateVersionRequest.schemas d with
  | Some (_ :: _) => true | _ => false end
  || match UpdateVersionRequest.relationships d with
     | Some (_ :: _) => true | _ => false end
  || match UpdateVersionRequest.erd d with
     | Some _ => true | None => false end
  || match UpdateVersionRequest.metadata d with
     | Some (_ :: _) => true | _ => false end.

(** A request that renames a version and stores a layout. *)
Definition rename_and_layout_request : UpdateVersionRequest.t :=
  {| UpdateVersionRequest.name := Some "renamed";
     UpdateVersionRequest.description := None;
     UpdateVersionRequest.schemas := None;
     UpdateVersionRequest.relationships := None;
     UpdateVersionRequest.erd :=
       Some {| ERDLayout.nodes := []; ERDLayout.edges := [];
               ERDLayout.zoom := QArith_base.Qmake 1 1;
               ERDLayout.pan_x := None; ERDLayout.pan_y := None |};
     UpdateVersionRequest.metadata := None |}.

(** The clock and settings of [sample_env] with the document store down. *)
Definition store_down_env : env :=
  {| utcnow := 1762214400; mongodb_available := false; DEBUG := false |}.

(** The row of the index as the metadata step of [update_version] rewrites
    it: the name and the description of the request, where they are given
    and not empty. *)
Definition with_metadata_of (d : UpdateVersionRequest.t)
    (r : DictionaryVersion.t) : DictionaryVersion.t :=
  let r := match UpdateVersionRequest.name d with
           | Some n => if truthy (VStr n)
                       then DictionaryVersion.set_name n r else r
           | None => r
           end in
  match UpdateVersionRequest.description d with
  | Some ds => if truthy (VStr ds)
               then DictionaryVersion.set_description ds r else r
  | None => r
  end.

(** The state after the metadata step for the row [row]. *)
Definition renamed_state (d : UpdateVersionRequest.t)
    (row : DictionaryVersion.t) (s : state) : state :=
  with_dictionary_versions
    (map (λ r, if decide (DictionaryVersion.id r = DictionaryVersion.id row)
               then with_metadata_of d r else r) (dictionary_versions s)) s.

(** ** Which document a request may write *)

(** The reference a version holds to its document: the [mongo_id] of its
    row. *)
Definition document_ref (p : uuid) (v : Z) (s : state) : option oid :=
  DictionaryVersion.mongo_id
    <$> head (filter (λ r, DictionaryVersion.version r = v) (project_rows p s)).

(** The versions a request may change or remove the document of: the one
    it names, and for [delete_project] all those of the project. *)
Definition request_touches (r : request) (q : uuid) (w : Z) : Prop :=
  match r with
  | DeleteProject p _ => p = q
  | UpdateVersion p v _ _ | DeleteVersion p v _ | CreateTable p v _ _
  | UpdateTable p v _ _ _ _ | DeleteTable p v _ _ _
  | DeleteColumn p v _ _ _ _ => p = q ∧ v = w
  | _ => False
  end.

(** A computation that writes no document other than the one stored
    under [o]. *)
Definition writes_only {A} (o : oid) (m : M A) : Prop :=
  ∀ s o', o' ≠ o → dictionaries (m s).2 !! o' = dictionaries s !! o'.

(** ** Projects *)

(** No two rows of table [projects] share an id. *)
Definition projects_distinct (s : state) : Prop :=
  NoDup (map Project.id (projects s)).

(** The row [create_project] inserts for a request, under the id the
    store issues. *)
Definition created_project (ev : env) (id : uuid) (user_id : string)
    (project_data : CreateProjectRequest.t) : Project.t :=
  {| Project.id := id;
     Project.owner_id := user_id;
     Project.name := strip (CreateProjectRequest.name project_data);
     Project.description :=
       match CreateProjectRequest.description project_data with
       | Some d => if truthy (VStr d) then Some (strip d) else None
       | None => None
       end;
     Project.created_at := utcnow ev |}.

(** A string made of members of [ws], one after the other. *)
Inductive made_of (ws : list string) : string → Prop :=
  | made_of_nil : made_of ws EmptyString
  | made_of_cons w s : w ∈ ws → made_of ws s → made_of ws (w +:+ s).

(** White space only; a string that begins, or ends, with a white-space
    character. *)
Definition blank (s : string) : Prop := made_of whitespace s.

Definition begins_blank (s : string) : Prop :=
  ∃ w x, w ∈ whitespace ∧ s = w +:+ x.

Definition ends_blank (s : string) : Prop :=
  ∃ w x, w ∈ whitespace ∧ s = x +:+ w.

(** [core] is [s] without the white space around it. *)
Definition stripped (s core : string) : Prop :=
  (∃ before after, s = before +:+ core +:+ after ∧ blank before ∧ blank after)
  ∧ ¬ begins_blank core ∧ ¬ ends_blank core.

(** A request whose name has a file separator (U+001C) and a space before
    it, and a no-break space (U+00A0) and a tab after it. *)
Definition padded_project_request : CreateProjectRequest.t :=
  {| CreateProjectRequest.name :=
       bytes [28; 32]%nat +:+ "shop" +:+ bytes [194; 160; 9]%nat;
     CreateProjectRequest.description := Some (bytes [226; 128; 131; 10]%nat) |}.

(** ** Requests that fail *)

(** A computation that leaves both stores as it found them. *)
Definition reads_only {A} (m : M A) : Prop := ∀ s, (m s).2 = s.

(** A computation that leaves both stores as it found them when it raises,
    and whose result satisfies [Q] when it returns. *)
Definition fails_clean {A} (Q : A → Prop) (m : M A) : Prop :=
  ∀ s, match m s with
       | (inl _, s') => s' = s
       | (inr a, _) => Q a
       end.

(** A body a route returns without reporting an error. *)
Definition is_success (body : value) : Prop := ¬ reports_error (Returned body).

(** ** Rows of other projects *)

(** The project a request names; [create_project] names none. *)
Definition request_project (r : request) : option uuid :=
  match r with
  | CreateProject _ _ => None
  | DeleteProject p _ => Some p
  | _ => fst <$> request_scope r
  end.

(** Row ids are issued once: no two rows of the version index share an
    id, and every id is below the counter. *)
Definition row_ids_issued (s : state) : Prop :=
  NoDup (map DictionaryVersion.id (dictionary_versions s))
  ∧ Forall (λ i, (i < next_uuid s)%N)
           (map DictionaryVersion.id (dictionary_versions s)).

(** [r'] is the row [r] under another name or description, if at all. *)
Definition renamed_row (r r' : DictionaryVersion.t) : Prop :=
  DictionaryVersion.id r' = DictionaryVersion.id r
  ∧ DictionaryVersion.project_id r' = DictionaryVersion.project_id r
  ∧ DictionaryVersion.version r' = DictionaryVersion.version r
  ∧ DictionaryVersion.mongo_id r' = DictionaryVersion.mongo_id r
  ∧ DictionaryVersion.is_latest r' = DictionaryVersion.is_latest r
  ∧ DictionaryVersion.metadata r' = DictionaryVersion.metadata r
  ∧ DictionaryVersion.created_at r' = DictionaryVersion.created_at r.

(** [r'] is the row [r], renamed at most when its id is [i]. *)
Definition same_row_but (i : uuid) (r r' : DictionaryVersion.t) : Prop :=
  renamed_row r r' ∧ (DictionaryVersion.id r ≠ i → r' = r).

(** A computation that changes no project, issues no id, and renames at
    most the row of id [i]. *)
Definition touches_row {A} (i : uuid) (m : M A) : Prop :=
  ∀ s, projects (m s).2 = projects s
       ∧ next_uuid (m s).2 = next_uuid s
       ∧ Forall2 (same_row_but i) (dictionary_versions s)
                 (dictionary_versions (m s).2).

(** ** [utils/response.py]: [pagination_response] *)

(** [//] is the floor division of Python, which is [Z.div]. *)
Definition pagination_response (items : list value) (total page per_page : Z)
    (message : string) : value :=
  VDict ([("status", VStr "success");
          ("data", VList items);
          ("pagination",
            VDict [("total", VInt total);
                   ("page", VInt page);
                   ("per_page", VInt per_page);
                   ("pages",
                     VInt (if 0 <? per_page
                           then (total + per_page - 1) / per_page
                           else 0))])]
         ++ (if truthy (VStr message) then [("message", VStr message)] else [])).

(** ** [models/dictionary.py]: the lookups of [Dictionary] *)

Module Dictionary.
Record t := {
  project_id : string;
  version : Z;
  name : string;
  description : option string;
  schemas : list Schema.t;
  relationships : list Relationship.t;
  erd : ERDLayout.t;
  metadata : list (string * value);
  created_at : Z;
  updated_at : Z;
  created_by : option string
}.

(** The inner loop of [get_table]: the first table of that name. *)
Fixpoint find_table (tables : list Table.t) (table_name : string)
  : option Table.t :=
  match tables with
  | [] => None
  | table :: rest =>
      if String.eqb (Table.name table) table_name then Some table
      else find_table rest table_name
  end.

(** The outer loop: the schemas of that name, in order, until one has the
    table. *)
Fixpoint get_table_in (schemas : list Schema.t) (table_name schema_name : string)
  : option Table.t :=
  match schemas with
  | [] => None
  | schema :: rest =>
      if String.eqb (Schema.name schema) schema_name then
        match find_table (Schema.tables schema) table_name with
        | Some table => Some table
        | None => get_table_in rest table_name schema_name
        end
      else get_table_in rest table_name schema_name
  end.

Definition get_table (self : t) (table_name schema_name : string)
  : option Table.t :=
  get_table_in (schemas self) table_name schema_name.

Definition get_all_tables (self : t) : list Table.t :=
  flat_map Schema.tables (schemas self).
End Dictionary.

(** ** [core/config.py]: [Settings._get_env] *)

(** [s.startswith(p)] and [s.endswith(p)]. *)
Definition startswith (s p : string) : bool := String.prefix p s.

Definition endswith (s p : string) : bool :=
  (String.length p <=? String.length s)%nat
  && String.eqb (String.substring (String.length s - String.length p)
                                  (String.length p) s) p.

(** A value left over from [env.example]. *)
Definition is_placeholder (value : string) : bool :=
  startswith value "your_" && endswith value "_here".

Inductive config_error :=
  | ValueError (message : string).

(** [environ] is the process environment as [os.getenv] reads it. *)
Definition _get_env (environ : string → option string) (key : string)
    (default : option string) (required : bool)
  : config_error + option string :=
  let value := match environ key with Some x => Some x | None => default end in
  match value with
  | None =>
      if required
      then inl (ValueError ("Missing required environment variable: " +:+ key))
      else inr value
  | Some x =>
      (* Don't return placeholder values from env.example *)
      if truthy (VStr x) && is_placeholder x then
        if required
        then inl (ValueError
                    ("Environment variable " +:+ key
                     +:+ " contains placeholder value. Please set actual value in .env.local"))
        else inr default
      else inr value
  end.

(** The relationship [rd] names the table under [source_table] or under
    [target_table]. *)
Definition references_table (table_name : string)
    (rd : list (string * value)) : Prop :=
  dict_get rd "source_table" = Some (VStr table_name)
  ∨ dict_get rd "target_table" = Some (VStr table_name).

(** The relationship [rd] names the pair of table and column on its source
    side or on its target side. *)
Definition references_column (table_name column_name : string)
    (rd : list (string * value)) : Prop :=
  (dict_get rd "source_table" = Some (VStr table_name)
   ∧ dict_get rd "source_column" = Some (VStr column_name))
  ∨ (dict_get rd "target_table" = Some (VStr table_name)
     ∧ dict_get rd "target_column" = Some (VStr column_name)).



(** * Properties *)

(** ** Running handlers *)

Lemma bind_inr {A B} (m : M A) (f : A → M B) s a s' :
  m s = (inr a, s') → bind m f s = f a s'.
Proof. unfold bind. by intros ->. Qed.

Lemma bind_inl {A B} (m : M A) (f : A → M B) s e s' :
  m s = (inl e, s') → bind m f s = (inl e, s').
Proof. unfold bind. by intros ->. Qed.

Lemma verify_project_access_owns p u s :
  owns u p s → verify_project_access p u s = (inr true, s).
Proof.
  intros (row & Hin & Hid & Hown). unfold verify_project_access, bind, get_state, ret.
  f_equal. f_equal. apply bool_decide_eq_true.
  assert (Hf : row ∈ filter (λ q, Project.id q = p ∧ Project.owner_id q = u)
                            (projects s)).
  { apply list_elem_of_filter. auto. }
  destruct (filter _ (projects s)); [by apply elem_of_nil in Hf | simpl; lia].
Qed.

Lemma verify_project_access_not_owns p u s :
  ¬ owns u p s → verify_project_access p u s = (inr false, s).
Proof.
  intros Hno. unfold verify_project_access, bind, get_state, ret.
  f_equal. f_equal. apply bool_decide_eq_false.
  destruct (filter _ (projects s)) as [|row l] eqn:E; [simpl; lia|].
  exfalso. apply Hno. exists row.
  assert (Hf : row ∈ row :: l) by left.
  rewrite <- E in Hf. apply list_elem_of_filter in Hf. tauto.
Qed.

Lemma require_project_access_owns p u s :
  owns u p s → require_project_access p u s = (inr tt, s).
Proof.
  intros H. unfold require_project_access.
  by rewrite (bind_inr _ _ _ _ _ (verify_project_access_owns _ _ _ H)).
Qed.

Lemma require_project_access_not_owns p u s :
  ¬ owns u p s →
  require_project_access p u s
  = (inl (HTTPException 403 "Access denied to this project"), s).
Proof.
  intros H. unfold require_project_access.
  by rewrite (bind_inr _ _ _ _ _ (verify_project_access_not_owns _ _ _ H)).
Qed.

#[global] Instance owns_dec u p s : Decision (owns u p s).
Proof.
  destruct (decide (Exists (λ row, Project.id row = p ∧ Project.owner_id row = u)
                           (projects s))) as [H|H].
  - left. apply Exists_exists in H as (row & ? & ? & ?). by exists row.
  - right. intros (row & ? & ? & ?). apply H, Exists_exists. by exists row.
Defined.

Lemma delete_version_body_only_version ev p v u s r :
  owns u p s → project_rows p s = [r] →
  delete_version_body ev p v u s
  = (inl (ValidationError "Cannot delete the only version"), s).
Proof.
  intros Hown Hrows. unfold delete_version_body.
  rewrite (bind_inr _ _ _ _ _ (require_project_access_owns _ _ _ Hown)).
  unfold select_versions.
  cbn. unfold project_rows in Hrows. rewrite Hrows. done.
Qed.

(** ** Computations that leave the index alone *)

Lemma same_index_refl s : same_index s s.
Proof. by repeat split. Qed.

Lemma same_index_trans s1 s2 s3 :
  same_index s1 s2 → same_index s2 s3 → same_index s1 s3.
Proof.
  intros (?&?&?&?) (?&?&?&?). repeat split; congruence.
Qed.

Lemma keeps_index_ret {A} (a : A) : keeps_index (ret a).
Proof. intros s. apply same_index_refl. Qed.

Lemma keeps_index_raise {A} e : keeps_index (@raise A e).
Proof. intros s. apply same_index_refl. Qed.

Lemma keeps_index_lift {A} (r : exn + A) : keeps_index (lift r).
Proof. intros s. apply same_index_refl. Qed.

Lemma keeps_index_get_state : keeps_index get_state.
Proof. intros s. apply same_index_refl. Qed.

Lemma keeps_index_bind {A B} (m : M A) (f : A → M B) :
  keeps_index m → (∀ a, keeps_index (f a)) → keeps_index (bind m f).
Proof.
  intros Hm Hf s. unfold bind. specialize (Hm s).
  destruct (m s) as [[e|a] s1]; simpl in *; [done|].
  eapply same_index_trans; [exact Hm | apply Hf].
Qed.

Lemma keeps_index_with_dictionaries ds :
  keeps_index (s ← get_state; put_state (with_dictionaries (ds s) s)).
Proof. intros s. by repeat split. Qed.

Lemma keeps_index_find_one o : keeps_index (find_one o).
Proof. intros s. apply same_index_refl. Qed.

Lemma keeps_index_update_one o fields : keeps_index (update_one o fields).
Proof.
  intros s. unfold update_one, bind, get_state. simpl.
  destruct (dictionaries s !! o); simpl; by repeat split.
Qed.

Lemma keeps_index_delete_one o : keeps_index (delete_one o).
Proof. intros s. by repeat split. Qed.

Lemma keeps_index_select_versions : keeps_index select_versions.
Proof. intros s. apply same_index_refl. Qed.

Lemma keeps_index_verify_project_access p u :
  keeps_index (verify_project_access p u).
Proof. intros s. apply same_index_refl. Qed.

Lemma keeps_index_require_project_access p u :
  keeps_index (require_project_access p u).
Proof.
  apply keeps_index_bind; [apply keeps_index_verify_project_access|].
  intros []; [apply keeps_index_ret | apply keeps_index_raise].
Qed.

Lemma keeps_index_require_mongodb ev : keeps_index (require_mongodb ev).
Proof.
  unfold require_mongodb.
  destruct (mongodb_available ev); [apply keeps_index_ret | apply keeps_index_raise].
Qed.

Lemma keeps_index_get_version_mongo_id p v : keeps_index (get_version_mongo_id p v).
Proof. intros s. apply same_index_refl. Qed.

Lemma keeps_index_not_database ev : keeps_index (not_database ev).
Proof.
  unfold not_database.
  destruct (mongodb_available ev); [apply keeps_index_raise | apply keeps_index_ret].
Qed.

Lemma keeps_index_bson_encode v : keeps_index (bson_encode v).
Proof.
  unfold bson_encode.
  destruct (bson_refusal v); [apply keeps_index_raise | apply keeps_index_ret].
Qed.

Create HintDb keeps discriminated.
#[global] Hint Resolve keeps_index_ret keeps_index_raise keeps_index_lift
  keeps_index_get_state keeps_index_find_one keeps_index_update_one
  keeps_index_delete_one keeps_index_select_versions
  keeps_index_require_project_access keeps_index_require_mongodb
  keeps_index_get_version_mongo_id keeps_index_not_database
  keeps_index_bson_encode : keeps.

(** Walks through a handler: binds are split, branches are taken apart,
    the leaves are closed with the hints above. *)
Ltac keeps_step :=
  match goal with
  | |- keeps_index (bind _ _) => apply keeps_index_bind; [|intros ?]
  | |- keeps_index (let '(_, _) := ?x in _) => destruct x
  | |- keeps_index (match ?x with _ => _ end) => destruct x
  | |- keeps_index (if ?b then _ else _) => destruct b
  | |- keeps_index _ => solve [auto with keeps]
  end.
Ltac keeps := repeat keeps_step.

Lemma keeps_index_load_dictionary ev p v u :
  keeps_index (load_dictionary ev p v u).
Proof. unfold load_dictionary. keeps. Qed.

#[global] Hint Resolve keeps_index_load_dictionary : keeps.

Lemma keeps_index_list_versions p u : keeps_index (list_versions_body p u).
Proof. unfold list_versions_body. keeps. Qed.

Lemma keeps_index_get_latest_version ev p u :
  keeps_index (get_latest_version_body ev p u).
Proof. unfold get_latest_version_body. keeps. Qed.

Lemma keeps_index_get_specific_version ev p v u :
  keeps_index (get_specific_version_body ev p v u).
Proof. unfold get_specific_version_body. keeps. Qed.

Lemma keeps_index_list_tables ev p v sn u :
  keeps_index (list_tables_body ev p v sn u).
Proof. unfold list_tables_body. keeps. Qed.

Lemma keeps_index_create_table ev p v d u :
  keeps_index (create_table_body ev p v d u).
Proof. unfold create_table_body. keeps. Qed.

Lemma keeps_index_update_table ev p v t d sn u :
  keeps_index (update_table_body ev p v t d sn u).
Proof. unfold update_table_body. keeps. Qed.

Lemma keeps_index_delete_table ev p v t sn u :
  keeps_index (delete_table_body ev p v t sn u).
Proof. unfold delete_table_body. keeps. Qed.

Lemma keeps_index_delete_column ev p v t c sn u :
  keeps_index (delete_column_body ev p v t c sn u).
Proof. unfold delete_column_body. keeps. Qed.

Lemma keeps_index_get_table ev p v t sn u :
  keeps_index (get_table_body ev p v t sn u).
Proof. unfold get_table_body. keeps. Qed.

Lemma keeps_index_update_versions P `{∀ r, Decision (P r)} f :
  (∀ r, index_key (f r) = index_key r) → keeps_index (update_versions P f).
Proof.
  intros Hf s. unfold update_versions, bind, get_state, put_state. simpl.
  repeat split; simpl. rewrite <- list_fmap_compose.
  apply list_fmap_ext. intros i r _. simpl. by destruct (decide (P r)).
Qed.

Lemma keeps_index_update_version ev p v u d :
  keeps_index (update_version_body ev p v u d).
Proof.
  unfold update_version_body. keeps.
  all: apply keeps_index_update_versions; intros r;
    destruct (UpdateVersionRequest.name d) as [n|];
    destruct (UpdateVersionRequest.description d) as [ds|];
    repeat case_match; done.
Qed.

Lemma same_index_route (body : M value) s :
  keeps_index body → same_index s (route body s).2.
Proof.
  intros H. specialize (H s). unfold route.
  destruct (body s) as [[e|a] s']; [destruct e|]; exact H.
Qed.

(** ** What [create_version] does to the stores *)

Lemma bson_encode_ok v s :
  bson_encodable v = true → bson_encode v s = (inr tt, s).
Proof. unfold bson_encode, bson_encodable. by destruct (bson_refusal v). Qed.

Lemma bson_encode_refused v s :
  bson_encodable v = false → ∃ e, bson_encode v s = (inl e, s).
Proof.
  unfold bson_encode, bson_encodable.
  destruct (bson_refusal v) as [e|]; [by exists e | done].
Qed.

Lemma require_mongodb_available ev s :
  mongodb_available ev = true → require_mongodb ev s = (inr tt, s).
Proof. unfold require_mongodb. by intros ->. Qed.

Lemma require_mongodb_unavailable ev s :
  mongodb_available ev = false →
  require_mongodb ev s
  = (inl (DatabaseError "MongoDB connection not available"), s).
Proof. unfold require_mongodb. by intros ->. Qed.

Lemma copy_base_version_state p d s : (copy_base_version p d s).2 = s.
Proof.
  unfold copy_base_version, bind, select_versions, get_state, lift, find_one, ret.
  repeat (case_match; simpl in *; simplify_eq); done.
Qed.

Lemma create_version_body_cases ev p u d s :
  (∃ e, create_version_body ev p u d s = (inl e, s))
  ∨ (owns u p s ∧ mongodb_available ev = true
     ∧ ∃ rels erd data,
         copy_base_version p d s = (inr (rels, erd), s)
         ∧ create_version_body ev p u d s
           = (inr (success_response data
                     ("Version " +:+ pretty (next_version_of (project_rows p s))
                      +:+ " created successfully")),
              created_state ev p d rels erd s)).
Proof.
  remember (create_version_body ev p u d s) as out eqn:Hout.
  unfold create_version_body in Hout.
  destruct (decide (owns u p s)) as [Hown|Hown].
  2:{ left. eexists. rewrite Hout.
      by rewrite (bind_inl _ _ _ _ _ (require_project_access_not_owns _ _ _ Hown)). }
  rewrite (bind_inr _ _ _ _ _ (require_project_access_owns _ _ _ Hown)) in Hout.
  destruct (mongodb_available ev) eqn:Hm.
  2:{ left. eexists. rewrite Hout.
      by rewrite (bind_inl _ _ _ _ _ (require_mongodb_unavailable _ _ Hm)). }
  rewrite (bind_inr _ _ _ _ _ (require_mongodb_available _ _ Hm)) in Hout.
  unfold select_versions at 1 in Hout.
  unfold bind at 1 in Hout. unfold bind at 1 in Hout. simpl in Hout.
  pose proof (copy_base_version_state p d s) as Hst.
  destruct (copy_base_version p d s) as [[e|[rels erd]] s1] eqn:Hc;
    simpl in Hst; subst s1.
  - left. eexists. rewrite Hout. by erewrite bind_inl by exact Hc.
  - erewrite bind_inr in Hout by exact Hc. cbn beta iota in Hout.
    destruct (bson_encodable (convert_schemas (resolve_schemas d))) eqn:Henc.
    + right. split; [done|]. split; [done|]. exists rels, erd.
      erewrite bind_inr in Hout by (by apply bson_encode_ok).
      eexists. split; [done|]. rewrite Hout. reflexivity.
    + left. destruct (bson_encode_refused _ s Henc) as [e He].
      exists e. rewrite Hout. by erewrite bind_inl by exact He.
Qed.

(** ** The next version number *)

#[global] Instance version_desc_trans : Transitive version_desc.
Proof. unfold version_desc. intros a b c ??. lia. Qed.

#[global] Instance version_desc_total : Total version_desc.
Proof. unfold version_desc. intros a b. lia. Qed.

(** The head of the rows in descending order carries the greatest number. *)
Lemma order_version_desc_head rows top rest :
  order_version_desc rows = top :: rest →
  is_max (DictionaryVersion.version top) (map DictionaryVersion.version rows).
Proof.
  intros Hs. unfold order_version_desc in Hs.
  pose proof (merge_sort_Permutation version_desc rows) as Hp.
  pose proof (StronglySorted_merge_sort version_desc rows) as Hsorted.
  rewrite Hs in Hp, Hsorted. split.
  - apply list_elem_of_fmap. exists top. split; [done|].
    rewrite <- Hp. left.
  - intros v (r & -> & Hr)%list_elem_of_fmap. rewrite <- Hp in Hr.
    apply StronglySorted_inv in Hsorted as [_ Hall].
    apply elem_of_cons in Hr as [->|Hr]; [lia|].
    rewrite Forall_forall in Hall. by apply Hall.
Qed.

Lemma order_version_desc_nil rows : order_version_desc rows = [] → rows = [].
Proof.
  intros Hs. pose proof (merge_sort_Permutation version_desc rows) as Hp.
  unfold order_version_desc in Hs. rewrite Hs in Hp.
  by apply Permutation_nil_l in Hp.
Qed.

Lemma next_version_of_nil : next_version_of [] = 1.
Proof. reflexivity. Qed.

Lemma next_version_of_max rows :
  rows ≠ [] →
  ∃ m, is_max m (map DictionaryVersion.version rows)
       ∧ next_version_of rows = m + 1.
Proof.
  intros Hne. unfold next_version_of.
  destruct (order_version_desc rows) as [|top rest] eqn:Hs.
  - by apply order_version_desc_nil in Hs.
  - exists (DictionaryVersion.version top). split; [|done].
    by eapply order_version_desc_head.
Qed.

Lemma next_version_of_above rows r :
  r ∈ rows → DictionaryVersion.version r < next_version_of rows.
Proof.
  intros Hr. destruct (next_version_of_max rows) as (m & [_ Hmax] & ->).
  { intros ->. by apply elem_of_nil in Hr. }
  assert (DictionaryVersion.version r ≤ m); [|lia].
  apply Hmax, list_elem_of_fmap. eauto.
Qed.

Lemma is_max_unique m m' vs : is_max m vs → is_max m' vs → m = m'.
Proof. intros [H1 H2] [H3 H4]. apply H2 in H3. apply H4 in H1. lia. Qed.

(** ** Reading the index *)

Lemma elem_of_project_rows r p s :
  r ∈ project_rows p s
  ↔ DictionaryVersion.project_id r = p ∧ r ∈ dictionary_versions s.
Proof. unfold project_rows. by rewrite list_elem_of_filter. Qed.

Lemma elem_of_project_versions w p s :
  w ∈ project_versions p s
  ↔ ∃ r, r ∈ dictionary_versions s ∧ DictionaryVersion.project_id r = p
         ∧ DictionaryVersion.version r = w.
Proof.
  unfold project_versions. split.
  - intros (r & -> & Hr)%list_elem_of_fmap.
    apply elem_of_project_rows in Hr as [? ?]. eauto.
  - intros (r & ? & ? & <-). apply list_elem_of_fmap. exists r. split; [done|].
    by apply elem_of_project_rows.
Qed.

Lemma elem_of_latest_of w p s :
  w ∈ latest_of p s
  ↔ ∃ r, r ∈ dictionary_versions s ∧ DictionaryVersion.project_id r = p
         ∧ DictionaryVersion.is_latest r = true
         ∧ DictionaryVersion.version r = w.
Proof.
  unfold latest_of. split.
  - intros (r & -> & Hr)%list_elem_of_fmap.
    apply list_elem_of_filter in Hr as [? Hr].
    apply elem_of_project_rows in Hr as [? ?]. eauto 6.
  - intros (r & ? & ? & ? & <-). apply list_elem_of_fmap. exists r.
    split; [done|]. apply list_elem_of_filter. split; [done|].
    by apply elem_of_project_rows.
Qed.

Lemma latest_of_sublist p s : latest_of p s `sublist_of` project_versions p s.
Proof.
  unfold latest_of, project_versions.
  generalize (project_rows p s). intros l. induction l as [|r l IH]; [done|].
  rewrite filter_cons. simpl. destruct (decide _); simpl.
  - by apply sublist_skip.
  - by apply sublist_cons.
Qed.

Lemma latest_of_NoDup p s : NoDup (project_versions p s) → NoDup (latest_of p s).
Proof. intros H. eapply sublist_NoDup; [exact H | apply latest_of_sublist]. Qed.

Lemma singleton_by_membership {A} (l : list A) x :
  NoDup l → (∀ y, y ∈ l ↔ y = x) → l = [x].
Proof.
  intros Hnd Hmem. destruct l as [|a l].
  - exfalso. eapply elem_of_nil, Hmem. reflexivity.
  - assert (a = x) as -> by (apply Hmem; left).
    apply NoDup_cons in Hnd as [Hnot _]. f_equal.
    destruct l as [|b l]; [done|]. exfalso. apply Hnot.
    assert (b = x) as -> by (apply Hmem; right; left). left.
Qed.

Lemma project_rows_nil_versions p s :
  project_rows p s = [] ↔ project_versions p s = [].
Proof.
  unfold project_versions. split; [by intros ->|].
  by intros ?%fmap_nil_inv.
Qed.

(** The observations depend on the keys of the rows only. *)
Section same_keys.
Let R (r' r : DictionaryVersion.t) : Prop := index_key r' = index_key r.

Lemma same_keys_Forall2 l l' :
  map index_key l' = map index_key l → Forall2 R l' l.
Proof.
  revert l'. induction l as [|r l IH]; intros [|r' l'] Heq; simplify_eq/=.
  - constructor.
  - constructor; [|by apply IH]. unfold R, index_key. congruence.
Qed.

Lemma same_keys_project_rows p l l' :
  Forall2 R l' l →
  Forall2 R (filter (λ r, DictionaryVersion.project_id r = p) l')
            (filter (λ r, DictionaryVersion.project_id r = p) l).
Proof.
  induction 1 as [|r' r l' l Hr _ IH]; [constructor|].
  rewrite !filter_cons. unfold R, index_key in Hr.
  replace (DictionaryVersion.project_id r')
    with (DictionaryVersion.project_id r) by congruence.
  destruct (decide _); [constructor|]; done.
Qed.

Lemma same_keys_latest_rows l l' :
  Forall2 R l' l →
  Forall2 R (filter (λ r, DictionaryVersion.is_latest r = true) l')
            (filter (λ r, DictionaryVersion.is_latest r = true) l).
Proof.
  induction 1 as [|r' r l' l Hr _ IH]; [constructor|].
  rewrite !filter_cons. unfold R, index_key in Hr.
  replace (DictionaryVersion.is_latest r')
    with (DictionaryVersion.is_latest r) by congruence.
  destruct (decide _); [constructor|]; done.
Qed.

Lemma same_keys_versions l l' :
  Forall2 R l' l →
  map DictionaryVersion.version l' = map DictionaryVersion.version l.
Proof.
  induction 1 as [|r' r l' l Hr _ IH]; [done|].
  simpl. unfold R, index_key in Hr. f_equal; [congruence | done].
Qed.

Lemma same_keys_mongo_ids l l' :
  Forall2 R l' l →
  map DictionaryVersion.mongo_id l' = map DictionaryVersion.mongo_id l.
Proof.
  induction 1 as [|r' r l' l Hr _ IH]; [done|].
  simpl. unfold R, index_key in Hr. f_equal; [congruence | done].
Qed.
End same_keys.

Lemma same_index_project_versions s s' p :
  same_index s s' → project_versions p s' = project_versions p s.
Proof.
  intros (_ & Hk%same_keys_Forall2 & _).
  by apply same_keys_versions, same_keys_project_rows.
Qed.

Lemma same_index_latest_of s s' p :
  same_index s s' → latest_of p s' = latest_of p s.
Proof.
  intros (_ & Hk%same_keys_Forall2 & _).
  by apply same_keys_versions, same_keys_latest_rows, same_keys_project_rows.
Qed.

Lemma same_index_elem s s' r' :
  same_index s s' → r' ∈ dictionary_versions s' →
  ∃ r, r ∈ dictionary_versions s ∧ index_key r' = index_key r.
Proof.
  intros (_ & Hk%same_keys_Forall2 & _) Hin.
  induction Hk as [|x y l' l Hxy _ IH]; [by apply elem_of_nil in Hin|].
  apply elem_of_cons in Hin as [->|Hin].
  - exists y. split; [left | done].
  - destruct (IH Hin) as (r & ? & ?). exists r. split; [by right | done].
Qed.

Lemma index_invariant_same_index s s' :
  same_index s s' → index_invariant s → index_invariant s'.
Proof.
  intros Hsame [Huniq Hone Hpos Hknown Hissued Hdocs Hdistinct].
  pose proof Hsame as (Hp & Hk & Hu & Ho).
  split.
  - intros p. rewrite (same_index_project_versions s s' p Hsame). apply Huniq.
  - intros p Hne. rewrite (same_index_latest_of s s' p Hsame). apply Hone.
    intros Hnil. apply Hne. apply project_rows_nil_versions.
    rewrite (same_index_project_versions s s' p Hsame).
    by apply project_rows_nil_versions.
  - intros r' (r & Hr & Hkey)%(same_index_elem s s'); [|done].
    specialize (Hpos r Hr). unfold index_key in Hkey.
    replace (DictionaryVersion.version r')
      with (DictionaryVersion.version r) by congruence. done.
  - intros r' (r & Hr & Hkey)%(same_index_elem s s'); [|done].
    specialize (Hknown r Hr). unfold index_key in Hkey. rewrite Hu.
    replace (DictionaryVersion.project_id r')
      with (DictionaryVersion.project_id r) by congruence. done.
  - intros row. rewrite Hp, Hu. apply Hissued.
  - intros r' (r & Hr & Hkey)%(same_index_elem s s'); [|done].
    specialize (Hdocs r Hr). unfold index_key in Hkey. rewrite Ho.
    replace (DictionaryVersion.mongo_id r')
      with (DictionaryVersion.mongo_id r) by congruence. done.
  - replace (map DictionaryVersion.mongo_id (dictionary_versions s'))
      with (map DictionaryVersion.mongo_id (dictionary_versions s)); [done|].
    symmetry. by apply same_keys_mongo_ids, same_keys_Forall2.
Qed.

(** ** [create_version] keeps the index well formed *)

Lemma filter_project_unset_latest p q rows :
  filter (λ r, DictionaryVersion.project_id r = q) (unset_latest p rows)
  = if decide (q = p)
    then map (DictionaryVersion.set_is_latest false)
             (filter (λ r, DictionaryVersion.project_id r = q) rows)
    else filter (λ r, DictionaryVersion.project_id r = q) rows.
Proof.
  induction rows as [|r rows IH]; [by destruct (decide (q = p))|].
  unfold unset_latest in *. simpl. rewrite !filter_cons, IH.
  repeat (case_decide; simpl in *; simplify_eq); done.
Qed.

Lemma versions_set_is_latest b rows :
  map DictionaryVersion.version (map (DictionaryVersion.set_is_latest b) rows)
  = map DictionaryVersion.version rows.
Proof. induction rows; simpl; congruence. Qed.

Lemma latest_rows_set_false rows :
  filter (λ r, DictionaryVersion.is_latest r = true)
         (map (DictionaryVersion.set_is_latest false) rows) = [].
Proof.
  induction rows as [|r rows IH]; [done|].
  simpl. by rewrite filter_cons_False.
Qed.

Lemma mongo_ids_unset_latest p rows :
  map DictionaryVersion.mongo_id (unset_latest p rows)
  = map DictionaryVersion.mongo_id rows.
Proof.
  induction rows as [|r rows IH]; [done|].
  unfold unset_latest in *. simpl. rewrite IH. by case_decide.
Qed.

Lemma elem_of_unset_latest p rows r' :
  r' ∈ unset_latest p rows →
  ∃ r, r ∈ rows ∧ index_key r'
       = (DictionaryVersion.project_id r, DictionaryVersion.version r,
          if decide (DictionaryVersion.project_id r = p) then false
          else DictionaryVersion.is_latest r,
          DictionaryVersion.mongo_id r).
Proof.
  unfold unset_latest. intros (r & -> & Hr)%list_elem_of_fmap.
  exists r. split; [done|]. by case_decide.
Qed.

Lemma project_rows_created ev p d rels erd s q :
  project_rows q (created_state ev p d rels erd s)
  = if decide (q = p)
    then (map (DictionaryVersion.set_is_latest false) (project_rows q s)
          ++ [version_metadata_of ev (next_uuid s) p
                (next_version_of (project_rows p s)) (next_oid s) d])%list
    else project_rows q s.
Proof.
  unfold project_rows at 1. simpl. rewrite filter_app, filter_project_unset_latest.
  rewrite filter_cons. simpl. fold (project_rows q s).
  repeat (case_decide; simplify_eq); simpl; try done. by rewrite app_nil_r.
Qed.

Lemma project_versions_created ev p d rels erd s q :
  project_versions q (created_state ev p d rels erd s)
  = if decide (q = p)
    then (project_versions p s ++ [next_version_of (project_rows p s)])%list
    else project_versions q s.
Proof.
  unfold project_versions. rewrite project_rows_created.
  case_decide; [|done]. subst q.
  change (map ?f ?l) with (f <$> l). rewrite fmap_app. simpl. f_equal.
  apply versions_set_is_latest.
Qed.

Lemma latest_of_created ev p d rels erd s q :
  latest_of q (created_state ev p d rels erd s)
  = if decide (q = p) then [next_version_of (project_rows p s)]
    else latest_of q s.
Proof.
  unfold latest_of. rewrite project_rows_created.
  case_decide; [|done]. subst q.
  rewrite filter_app, latest_rows_set_false. by rewrite filter_cons_True.
Qed.

Lemma owns_issued u p s :
  index_invariant s → owns u p s → (p < next_uuid s)%N.
Proof.
  intros Hinv (row & Hrow & <- & _). by apply (projects_issued s Hinv).
Qed.

Lemma next_version_of_positive rows :
  (∀ r, r ∈ rows → 1 ≤ DictionaryVersion.version r) →
  1 ≤ next_version_of rows.
Proof.
  intros Hpos. destruct rows as [|r0 rows]; [done|].
  pose proof (next_version_of_above (r0 :: rows) r0 (list_elem_of_here _ _)).
  specialize (Hpos r0 (list_elem_of_here _ _)). lia.
Qed.

Lemma created_state_invariant ev p d rels erd s u :
  owns u p s → index_invariant s →
  index_invariant (created_state ev p d rels erd s).
Proof.
  intros Hown Hinv. pose proof (owns_issued _ _ _ Hinv Hown) as Hp.
  destruct Hinv as [Huniq Hone Hpos Hknown Hissued Hdocs Hdistinct]. split.
  - intros q. rewrite project_versions_created. case_decide; [|apply Huniq].
    apply NoDup_app. split; [apply Huniq|]. split; [|apply NoDup_singleton].
    intros v Hv Hin. apply list_elem_of_singleton in Hin. subst v.
    unfold project_versions in Hv.
    apply list_elem_of_fmap in Hv as (r & Heq & Hr).
    pose proof (next_version_of_above _ _ Hr). lia.
  - intros q Hne. rewrite latest_of_created. case_decide; [eauto|].
    apply Hone. rewrite project_rows_created in Hne. by case_decide.
  - intros r [Hr|Hr]%elem_of_app.
    + apply elem_of_unset_latest in Hr as (r0 & Hr0 & Hkey).
      unfold index_key in Hkey.
      replace (DictionaryVersion.version r)
        with (DictionaryVersion.version r0) by congruence. by apply Hpos.
    + apply list_elem_of_singleton in Hr. subst r. simpl.
      apply next_version_of_positive. intros r [_ Hr]%elem_of_project_rows.
      by apply Hpos.
  - intros r [Hr|Hr]%elem_of_app; simpl.
    + apply elem_of_unset_latest in Hr as (r0 & Hr0 & Hkey).
      unfold index_key in Hkey.
      replace (DictionaryVersion.project_id r)
        with (DictionaryVersion.project_id r0) by congruence.
      specialize (Hknown r0 Hr0). lia.
    + apply list_elem_of_singleton in Hr. subst r. simpl. lia.
  - intros row Hrow. simpl in *. specialize (Hissued row Hrow). lia.
  - intros r [Hr|Hr]%elem_of_app; simpl.
    + apply elem_of_unset_latest in Hr as (r0 & Hr0 & Hkey).
      unfold index_key in Hkey.
      replace (DictionaryVersion.mongo_id r)
        with (DictionaryVersion.mongo_id r0) by congruence.
      specialize (Hdocs r0 Hr0). lia.
    + apply list_elem_of_singleton in Hr. subst r. simpl. lia.
  - simpl. change (map ?f ?l) with (f <$> l). rewrite fmap_app.
    change (?f <$> ?l) with (map f l). rewrite mongo_ids_unset_latest.
    apply NoDup_app. split; [done|]. split; [|apply NoDup_singleton].
    intros o (r & -> & Hr)%list_elem_of_fmap Hin.
    apply list_elem_of_singleton in Hin. simpl in Hin.
    specialize (Hdocs r Hr). lia.
Qed.

(** ** What [delete_version] does to the stores *)

Lemma delete_version_body_cases ev p v u s :
  (∃ e, delete_version_body ev p v u s = (inl e, s))
  ∨ (owns u p s ∧ (2 ≤ length (project_rows p s))%nat
     ∧ ∃ victim,
         head (filter (λ r, DictionaryVersion.version r = v) (project_rows p s))
         = Some victim
         ∧ delete_version_body ev p v u s
           = (inr (success_response
                     (VDict [("deleted_version", VInt v)])
                     ("Version " +:+ pretty v +:+ " deleted successfully")),
              deleted_state ev p v victim s)).
Proof.
  remember (delete_version_body ev p v u s) as out eqn:Hout.
  unfold delete_version_body in Hout.
  destruct (decide (owns u p s)) as [Hown|Hown].
  2:{ left. eexists. rewrite Hout.
      by rewrite (bind_inl _ _ _ _ _ (require_project_access_not_owns _ _ _ Hown)). }
  rewrite (bind_inr _ _ _ _ _ (require_project_access_owns _ _ _ Hown)) in Hout.
  unfold select_versions at 1 in Hout.
  unfold bind at 1 in Hout. unfold bind at 1 in Hout. simpl in Hout.
  fold (project_rows p s) in Hout.
  destruct (project_rows p s) as [|r1 [|r2 rest]] eqn:Hrows.
  - left. by eexists.
  - left. by eexists.
  - destruct (head (filter _ (r1 :: r2 :: rest))) as [victim|] eqn:Hhead.
    2:{ left. by eexists. }
    right. split; [done|]. split; [simpl; lia|]. exists victim.
    unfold deleted_state, promoted_rows. rewrite Hrows.
    unfold bind, update_versions, delete_versions, delete_one, get_state,
      put_state, ret in Hout. simpl in Hout.
    destruct (DictionaryVersion.is_latest victim);
      [destruct (order_version_desc _)|];
      destruct (mongodb_available ev); simpl in Hout;
      (split; [done|]); rewrite Hout; reflexivity.
Qed.

(** ** [delete_version] keeps the index well formed *)

Lemma promoted_rows_shape p v victim s :
  ∃ g, keeps_identity g ∧ promoted_rows p v victim s = map g (dictionary_versions s).
Proof.
  unfold promoted_rows.
  destruct (DictionaryVersion.is_latest victim);
    [destruct (order_version_desc _) as [|top rest]|].
  - exists id. split; [done|]. by rewrite map_id.
  - eexists. split; [|reflexivity]. intros r. by case_decide.
  - exists id. split; [done|]. by rewrite map_id.
Qed.

Lemma versions_remove_map g p v q rows :
  keeps_identity g →
  map DictionaryVersion.version
      (filter (λ r, DictionaryVersion.project_id r = q)
              (remove_version p v (map g rows)))
  = filter (λ w, ¬ (q = p ∧ w = v))
           (map DictionaryVersion.version
                (filter (λ r, DictionaryVersion.project_id r = q) rows)).
Proof.
  intros Hg. unfold remove_version.
  induction rows as [|r rows IH]; [done|].
  destruct (Hg r) as (Hp & Hv & _). simpl.
  rewrite (filter_cons _ (g r)), (filter_cons _ r).
  destruct (decide (¬ _)) as [Hkeep|Hdrop];
    destruct (decide (DictionaryVersion.project_id r = q)) as [Hq|Hq].
  - rewrite filter_cons_True by congruence. simpl.
    rewrite filter_cons_True; [by rewrite IH, Hv|].
    intros [-> <-]. apply Hkeep. split; congruence.
  - rewrite filter_cons_False by congruence. done.
  - simpl. rewrite filter_cons_False; [done|].
    intros Hn. apply Hdrop. intros [? ?]. apply Hn. split; congruence.
  - done.
Qed.

Lemma mongo_ids_remove_map g p v rows :
  keeps_identity g →
  map DictionaryVersion.mongo_id (remove_version p v (map g rows))
  `sublist_of` map DictionaryVersion.mongo_id rows.
Proof.
  intros Hg. unfold remove_version.
  induction rows as [|r rows IH]; [done|].
  destruct (Hg r) as (_ & _ & Hm). simpl. rewrite filter_cons.
  destruct (decide _); simpl.
  - rewrite Hm. by apply sublist_skip.
  - by apply sublist_cons.
Qed.

Lemma elem_of_remove_map g p v (rows : list DictionaryVersion.t) r' :
  r' ∈ remove_version p v (map g rows) →
  ∃ r, r ∈ rows ∧ r' = g r
       ∧ ¬ (DictionaryVersion.project_id r' = p
            ∧ DictionaryVersion.version r' = v).
Proof.
  unfold remove_version. intros Hin.
  apply list_elem_of_filter in Hin as [Hn Hin].
  apply list_elem_of_fmap in Hin as (r & -> & Hr). eauto.
Qed.

Lemma project_versions_deleted ev p v victim s q :
  project_versions q (deleted_state ev p v victim s)
  = filter (λ w, ¬ (q = p ∧ w = v)) (project_versions q s).
Proof.
  destruct (promoted_rows_shape p v victim s) as (g & Hg & Heq).
  unfold project_versions, project_rows. simpl. rewrite Heq.
  by apply versions_remove_map.
Qed.

(** Within one project, a number names one row. *)
Lemma unique_version_row p s r1 r2 :
  NoDup (project_versions p s) →
  r1 ∈ project_rows p s → r2 ∈ project_rows p s →
  DictionaryVersion.version r1 = DictionaryVersion.version r2 → r1 = r2.
Proof.
  unfold project_versions. generalize (project_rows p s). intros l.
  induction l as [|r l IH]; intros Hnd H1 H2 Hv; [by apply elem_of_nil in H1|].
  simpl in Hnd. apply NoDup_cons in Hnd as [Hnot Hnd].
  apply elem_of_cons in H1 as [->|H1]; apply elem_of_cons in H2 as [->|H2].
  - done.
  - exfalso. apply Hnot. rewrite Hv. apply list_elem_of_fmap. eauto.
  - exfalso. apply Hnot. rewrite <- Hv. apply list_elem_of_fmap. eauto.
  - by apply IH.
Qed.

Lemma head_filter_elem {A} (P : A → Prop) `{∀ x, Decision (P x)} l x :
  head (filter P l) = Some x → x ∈ l ∧ P x.
Proof.
  intros Hh. assert (x ∈ filter P l) as Hin.
  { destruct (filter P l); simplify_eq/=. left. }
  apply list_elem_of_filter in Hin. tauto.
Qed.

Lemma filter_project_remove_other p q v rows :
  q ≠ p →
  filter (λ r, DictionaryVersion.project_id r = q) (remove_version p v rows)
  = filter (λ r, DictionaryVersion.project_id r = q) rows.
Proof.
  intros Hq. unfold remove_version. induction rows as [|r rows IH]; [done|].
  rewrite (filter_cons _ r). destruct (decide (¬ _)) as [Hk|Hd].
  - rewrite !(filter_cons _ r). by rewrite IH.
  - rewrite IH. rewrite filter_cons_False; [done|].
    intros Hp. apply Hd. intros [? ?]. congruence.
Qed.

Lemma filter_project_set_latest_other p q m rows :
  q ≠ p →
  filter (λ r, DictionaryVersion.project_id r = q) (set_latest p m rows)
  = filter (λ r, DictionaryVersion.project_id r = q) rows.
Proof.
  intros Hq. unfold set_latest. induction rows as [|r rows IH]; [done|].
  simpl. rewrite !filter_cons, IH.
  destruct (decide (_ ∧ _)) as [[Hp _]|_]; [|done].
  simpl. rewrite !decide_False by congruence. done.
Qed.

Lemma project_rows_deleted_other ev p v victim s q :
  q ≠ p → project_rows q (deleted_state ev p v victim s) = project_rows q s.
Proof.
  intros Hq. unfold project_rows. simpl.
  rewrite filter_project_remove_other by done. unfold promoted_rows.
  destruct (DictionaryVersion.is_latest victim);
    [destruct (order_version_desc _)|]; try done.
  by apply filter_project_set_latest_other.
Qed.

Lemma latest_of_deleted_other ev p v victim s q :
  q ≠ p → latest_of q (deleted_state ev p v victim s) = latest_of q s.
Proof. intros Hq. unfold latest_of. by rewrite project_rows_deleted_other. Qed.

(** Deleting a version that is not the latest leaves the latest alone. *)
Lemma latest_of_deleted_not_latest ev p v victim s :
  NoDup (project_versions p s) →
  (∃ w, latest_of p s = [w]) →
  head (filter (λ r, DictionaryVersion.version r = v) (project_rows p s))
  = Some victim →
  DictionaryVersion.is_latest victim = false →
  latest_of p (deleted_state ev p v victim s) = latest_of p s.
Proof.
  intros Hnd [w0 Hl] Hhead Hnot. rewrite Hl.
  apply head_filter_elem in Hhead as [Hvin Hvv].
  apply singleton_by_membership.
  { apply latest_of_NoDup. rewrite project_versions_deleted.
    by apply NoDup_filter. }
  intros w. rewrite elem_of_latest_of. simpl. unfold promoted_rows.
  rewrite Hnot. split.
  - intros (r & Hr & Hp & Hlat & Hw).
    unfold remove_version in Hr. apply list_elem_of_filter in Hr as [_ Hr].
    assert (w ∈ latest_of p s) as Hin by (apply elem_of_latest_of; eauto 6).
    rewrite Hl in Hin. by apply list_elem_of_singleton in Hin.
  - intros ->.
    assert (w0 ∈ latest_of p s) as Hin by (rewrite Hl; left).
    apply elem_of_latest_of in Hin as (r0 & Hr0 & Hp0 & Hlat0 & Hw0).
    exists r0. split; [|done]. unfold remove_version.
    apply list_elem_of_filter. split; [|done].
    intros [_ Hv]. assert (r0 = victim) as ->; [|congruence].
    apply (unique_version_row p s); [done| |done|congruence].
    by apply elem_of_project_rows.
Qed.

Lemma elem_of_filter_versions v (rows : list DictionaryVersion.t) w :
  w ∈ map DictionaryVersion.version
          (filter (λ r, DictionaryVersion.version r ≠ v) rows)
  ↔ w ≠ v ∧ w ∈ map DictionaryVersion.version rows.
Proof.
  split.
  - intros (r & -> & Hr)%list_elem_of_fmap.
    apply list_elem_of_filter in Hr as [? ?]. split; [done|].
    apply list_elem_of_fmap. eauto.
  - intros [Hne (r & -> & Hr)%list_elem_of_fmap].
    apply list_elem_of_fmap. exists r. split; [done|].
    by apply list_elem_of_filter.
Qed.

(** Deleting the latest version promotes the greatest remaining number. *)
Lemma latest_of_deleted_latest ev p v victim s :
  NoDup (project_versions p s) →
  (∃ w, latest_of p s = [w]) →
  (2 ≤ length (project_rows p s))%nat →
  head (filter (λ r, DictionaryVersion.version r = v) (project_rows p s))
  = Some victim →
  DictionaryVersion.is_latest victim = true →
  ∃ m, is_max m (project_versions p (deleted_state ev p v victim s))
       ∧ latest_of p (deleted_state ev p v victim s) = [m].
Proof.
  intros Hnd [w0 Hl] Hlen Hhead Hlat.
  apply head_filter_elem in Hhead as [Hvin Hvv].
  pose proof Hvin as [Hvp Hvrows]%elem_of_project_rows.
  (* the latest version is the one being deleted *)
  assert (w0 = v) as ->.
  { assert (v ∈ latest_of p s) as Hin by (apply elem_of_latest_of; eauto 6).
    rewrite Hl in Hin. by apply list_elem_of_singleton in Hin. }
  (* some other version remains *)
  set (others := filter (λ r, DictionaryVersion.version r ≠ v) (project_rows p s)).
  assert (others ≠ []) as Hothers.
  { unfold others, project_versions in *.
    destruct (project_rows p s) as [|a [|b l]]; simpl in Hlen; [lia|lia|].
    simpl in Hnd. apply NoDup_cons in Hnd as [Hab _].
    intros Hnil.
    assert (DictionaryVersion.version a = v).
    { destruct (decide (DictionaryVersion.version a = v)); [done|].
      rewrite filter_cons_True in Hnil by done. done. }
    assert (DictionaryVersion.version b = v).
    { destruct (decide (DictionaryVersion.version b = v)); [done|].
      rewrite filter_cons_False, filter_cons_True in Hnil by (done || congruence).
      done. }
    apply Hab. replace (DictionaryVersion.version a)
      with (DictionaryVersion.version b) by congruence. left. }
  destruct (order_version_desc others) as [|top rest] eqn:Hsort.
  { by apply order_version_desc_nil in Hsort. }
  pose proof (order_version_desc_head _ _ _ Hsort) as Hmax.
  set (m := DictionaryVersion.version top) in *.
  assert (Hmem : ∀ w, w ∈ map DictionaryVersion.version others
                      ↔ w ≠ v ∧ w ∈ project_versions p s).
  { intros w. apply elem_of_filter_versions. }
  exists m. split.
  - rewrite project_versions_deleted. destruct Hmax as [Hin Hle]. split.
    + apply list_elem_of_filter. apply Hmem in Hin as [? ?]. split; [|done].
      intros [_ ?]. done.
    + intros w [Hw Hin']%list_elem_of_filter. apply Hle, Hmem. split; [|done].
      intros ->. by apply Hw.
  - apply singleton_by_membership.
    { apply latest_of_NoDup. rewrite project_versions_deleted.
      by apply NoDup_filter. }
    intros w. rewrite elem_of_latest_of. simpl. unfold promoted_rows.
    rewrite Hlat. fold others. rewrite Hsort. fold m. split.
    + intros (r' & Hr' & Hp' & Hlat' & Hw).
      apply (elem_of_remove_map
               (λ r, if decide (DictionaryVersion.project_id r = p
                                ∧ DictionaryVersion.version r = m)
                     then DictionaryVersion.set_is_latest true r else r))
        in Hr' as (r & Hr & -> & Hkeep).
      destruct (decide _) as [[_ Hm]|_]; simpl in *; [congruence|].
      exfalso. apply Hkeep. split; [done|].
      assert (w ∈ latest_of p s) as Hin by (apply elem_of_latest_of; eauto 6).
      rewrite Hl in Hin. apply list_elem_of_singleton in Hin. congruence.
    + intros ->. destruct Hmax as [Hin _].
      pose proof Hin as [Hne _]%Hmem.
      apply list_elem_of_fmap in Hin as (r & Hrm & Hr).
      unfold others in Hr. apply list_elem_of_filter in Hr as [_ Hr].
      apply elem_of_project_rows in Hr as [Hrp Hr].
      exists (DictionaryVersion.set_is_latest true r). simpl.
      split; [|by rewrite <- Hrm]. unfold remove_version, set_latest.
      apply list_elem_of_filter. simpl. split; [intros [_ ?]; congruence|].
      apply list_elem_of_fmap. exists r. split; [|done].
      by rewrite decide_True.
Qed.

Lemma deleted_state_invariant ev p v victim s :
  index_invariant s →
  (2 ≤ length (project_rows p s))%nat →
  head (filter (λ r, DictionaryVersion.version r = v) (project_rows p s))
  = Some victim →
  index_invariant (deleted_state ev p v victim s).
Proof.
  intros [Huniq Hone Hpos Hknown Hissued Hdocs Hdistinct] Hlen Hhead.
  assert (project_rows p s ≠ []) as Hne.
  { intros Hnil. rewrite Hnil in Hlen. simpl in Hlen. lia. }
  destruct (promoted_rows_shape p v victim s) as (g & Hg & Heq).
  assert (Helem : ∀ r', r' ∈ dictionary_versions (deleted_state ev p v victim s) →
            ∃ r, r ∈ dictionary_versions s
                 ∧ DictionaryVersion.project_id r' = DictionaryVersion.project_id r
                 ∧ DictionaryVersion.version r' = DictionaryVersion.version r
                 ∧ DictionaryVersion.mongo_id r' = DictionaryVersion.mongo_id r).
  { intros r' Hr'. simpl in Hr'. rewrite Heq in Hr'.
    apply elem_of_remove_map in Hr' as (r & Hr & -> & _).
    exists r. split; [done|]. apply Hg. }
  split.
  - intros q. rewrite project_versions_deleted. by apply NoDup_filter.
  - intros q Hq. destruct (decide (q = p)) as [->|Hqp].
    + destruct (DictionaryVersion.is_latest victim) eqn:Hlat.
      * destruct (latest_of_deleted_latest ev p v victim s) as (m & _ & Hm); eauto.
      * rewrite latest_of_deleted_not_latest; eauto.
    + rewrite latest_of_deleted_other by done. apply Hone.
      by rewrite project_rows_deleted_other in Hq.
  - intros r' (r & Hr & _ & Hv & _)%Helem. rewrite Hv. by apply Hpos.
  - intros r' (r & Hr & Hp & _ & _)%Helem. rewrite Hp. by apply Hknown.
  - done.
  - intros r' (r & Hr & _ & _ & Hm)%Helem. rewrite Hm. by apply Hdocs.
  - simpl. rewrite Heq. eapply sublist_NoDup; [exact Hdistinct|].
    by apply mongo_ids_remove_map.
Qed.

(** ** Project creation and deletion *)

Lemma create_project_state ev u d s :
  let s' := (create_project ev u d s).2 in
  ∃ prow, Project.id prow = next_uuid s
    ∧ projects s' = projects s ++ [prow]
    ∧ ((mongodb_available ev = false
        ∧ dictionary_versions s' = dictionary_versions s
        ∧ next_uuid s' = N.succ (next_uuid s)
        ∧ next_oid s' = next_oid s)
       ∨ (mongodb_available ev = true
          ∧ (∃ row, dictionary_versions s' = dictionary_versions s ++ [row]
                    ∧ index_key row = (next_uuid s, 1, true, next_oid s))
          ∧ next_uuid s' = N.succ (N.succ (next_uuid s))
          ∧ next_oid s' = N.succ (next_oid s))).
Proof.
  unfold create_project, project_route, create_project_body,
    create_initial_dictionary.
  destruct (mongodb_available ev) eqn:Hm; simpl;
    eexists; (split; [|split; [reflexivity|]]); [reflexivity| |reflexivity|].
  - right. split; [done|]. split; [|done]. eexists. split; reflexivity.
  - left. done.
Qed.

Lemma project_rows_app p s rows new :
  dictionary_versions s = rows ++ [new] →
  project_rows p s
  = filter (λ r, DictionaryVersion.project_id r = p) rows
    ++ (if decide (DictionaryVersion.project_id new = p) then [new] else []).
Proof.
  intros Heq. unfold project_rows. by rewrite Heq, filter_app.
Qed.

(** A project below the id counter is not the one being created. *)
Lemma create_project_rows ev u d s q :
  (q < next_uuid s)%N →
  project_rows q (create_project ev u d s).2 = project_rows q s.
Proof.
  intros Hq. destruct (create_project_state ev u d s)
    as (prow & _ & _ & [(_ & Hrows & _)|(_ & (row & Hrows & Hkey) & _)]).
  - unfold project_rows. by rewrite Hrows.
  - rewrite (project_rows_app _ _ _ _ Hrows). unfold index_key in Hkey.
    rewrite decide_False; [by rewrite app_nil_r|].
    intros Hp. assert (DictionaryVersion.project_id row = next_uuid s)
      by congruence. lia.
Qed.

Lemma create_project_invariant ev u d s :
  index_invariant s → index_invariant (create_project ev u d s).2.
Proof.
  intros Hinv.
  destruct (create_project_state ev u d s)
    as (prow & Hid & Hprojects & Hcase).
  pose proof Hinv as [Huniq Hone Hpos Hknown Hissued Hdocs Hdistinct].
  assert (Hold : ∀ q, project_rows q s ≠ [] → (q < next_uuid s)%N).
  { intros q Hq. destruct (project_rows q s) as [|r l] eqn:E; [done|].
    assert (r ∈ project_rows q s) as [<- Hr]%elem_of_project_rows
      by (rewrite E; left). by apply Hknown. }
  assert (Hissued' : ∀ row, row ∈ projects (create_project ev u d s).2 →
            (Project.id row < N.succ (next_uuid s))%N).
  { intros row. rewrite Hprojects. intros [Hrow|Hrow]%elem_of_app.
    - specialize (Hissued row Hrow). lia.
    - apply list_elem_of_singleton in Hrow. subst row. lia. }
  destruct Hcase as [(Hm & Hrows & Hu & Ho)|(Hm & (row & Hrows & Hkey) & Hu & Ho)].
  - split.
    + intros q. unfold project_versions, project_rows. rewrite Hrows. apply Huniq.
    + intros q. unfold latest_of, project_rows. rewrite Hrows. apply Hone.
    + rewrite Hrows. apply Hpos.
    + rewrite Hrows, Hu. intros r Hr. specialize (Hknown r Hr). lia.
    + rewrite Hu. done.
    + rewrite Hrows, Ho. done.
    + by rewrite Hrows.
  - unfold index_key in Hkey.
    assert (Hnew : project_rows (next_uuid s) s = []).
    { destruct (project_rows (next_uuid s) s) eqn:E; [done|].
      assert (next_uuid s < next_uuid s)%N; [|lia]. apply Hold. by rewrite E. }
    assert (Hrows_q : ∀ q, project_rows q (create_project ev u d s).2
              = if decide (q = next_uuid s) then [row] else project_rows q s).
    { intros q. rewrite (project_rows_app _ _ _ _ Hrows).
      replace (DictionaryVersion.project_id row) with (next_uuid s) by congruence.
      fold (project_rows q s). destruct (decide (q = next_uuid s)) as [->|Hq].
      - by rewrite Hnew, decide_True.
      - rewrite decide_False by done. by rewrite app_nil_r. }
    split.
    + intros q. unfold project_versions. rewrite Hrows_q.
      case_decide; [apply NoDup_singleton | apply Huniq].
    + intros q. unfold latest_of. rewrite Hrows_q. case_decide; [|apply Hone].
      intros _. exists (DictionaryVersion.version row).
      rewrite filter_cons_True by congruence. done.
    + rewrite Hrows. intros r [Hr|Hr]%elem_of_app; [by apply Hpos|].
      apply list_elem_of_singleton in Hr. subst r.
      replace (DictionaryVersion.version row) with 1 by congruence. done.
    + rewrite Hrows, Hu. intros r [Hr|Hr]%elem_of_app.
      * specialize (Hknown r Hr). lia.
      * apply list_elem_of_singleton in Hr. subst r.
        replace (DictionaryVersion.project_id row) with (next_uuid s)
          by congruence. lia.
    + rewrite Hu. intros prow' Hp'. specialize (Hissued' prow' Hp'). lia.
    + rewrite Hrows, Ho. intros r [Hr|Hr]%elem_of_app.
      * specialize (Hdocs r Hr). lia.
      * apply list_elem_of_singleton in Hr. subst r.
        replace (DictionaryVersion.mongo_id row) with (next_oid s)
          by congruence. lia.
    + rewrite Hrows. change (map ?f ?l) with (f <$> l). rewrite fmap_app.
      apply NoDup_app. split; [done|]. split; [|apply NoDup_singleton].
      intros o (r & -> & Hr)%list_elem_of_fmap Hin.
      apply list_elem_of_singleton in Hin. specialize (Hdocs r Hr).
      assert (DictionaryVersion.mongo_id row = next_oid s) by congruence.
      simpl in Hin. lia.
Qed.

Lemma delete_project_state ev p u s :
  let s' := (delete_project ev p u s).2 in
  s' = s
  ∨ (projects s' = filter (λ row, Project.id row ≠ p) (projects s)
     ∧ dictionary_versions s'
       = filter (λ r, DictionaryVersion.project_id r ≠ p) (dictionary_versions s)
     ∧ next_uuid s' = next_uuid s
     ∧ next_oid s' = next_oid s).
Proof.
  unfold delete_project, project_route, delete_project_body, bind, get_state,
    lift, select_versions, ret, put_state, delete_many, raise.
  simpl. destruct (single _) as [e|existing]; simpl.
  { left. by destruct e. }
  destruct (map DictionaryVersion.mongo_id _) as [|o os]; simpl.
  { right. done. }
  destruct (mongodb_available ev); simpl; [right; done | left; done].
Qed.

Lemma project_rows_filter_other p q rows :
  filter (λ r, DictionaryVersion.project_id r = q)
         (filter (λ r, DictionaryVersion.project_id r ≠ p) rows)
  = if decide (q = p) then []
    else filter (λ r, DictionaryVersion.project_id r = q) rows.
Proof.
  induction rows as [|r rows IH]; [by case_decide|].
  rewrite (filter_cons _ r). destruct (decide (_ ≠ p)) as [Hk|Hd].
  - rewrite !(filter_cons _ r), IH.
    repeat (case_decide; simplify_eq); done.
  - rewrite (filter_cons _ r), IH.
    repeat (case_decide; simplify_eq); done.
Qed.

Lemma delete_project_rows ev p u s q :
  project_rows q (delete_project ev p u s).2 = project_rows q s
  ∨ (q = p ∧ project_rows q (delete_project ev p u s).2 = []).
Proof.
  destruct (delete_project_state ev p u s) as [->|(_ & Hrows & _)]; [by left|].
  unfold project_rows. rewrite Hrows, project_rows_filter_other.
  case_decide; [right | left]; done.
Qed.

Lemma delete_project_invariant ev p u s :
  index_invariant s → index_invariant (delete_project ev p u s).2.
Proof.
  intros Hinv.
  destruct (delete_project_state ev p u s) as [->|(Hp & Hrows & Hu & Ho)]; [done|].
  destruct Hinv as [Huniq Hone Hpos Hknown Hissued Hdocs Hdistinct].
  assert (Hrows_q : ∀ q, project_rows q (delete_project ev p u s).2
            = if decide (q = p) then [] else project_rows q s).
  { intros q. unfold project_rows. by rewrite Hrows, project_rows_filter_other. }
  split.
  - intros q. unfold project_versions. rewrite Hrows_q.
    case_decide; [apply NoDup_nil_2 | apply Huniq].
  - intros q. unfold latest_of. rewrite Hrows_q. case_decide; [done|apply Hone].
  - rewrite Hrows. intros r [_ Hr]%list_elem_of_filter. by apply Hpos.
  - rewrite Hrows, Hu. intros r [_ Hr]%list_elem_of_filter. by apply Hknown.
  - rewrite Hp, Hu. intros row [_ Hr]%list_elem_of_filter. by apply Hissued.
  - rewrite Hrows, Ho. intros r [_ Hr]%list_elem_of_filter. by apply Hdocs.
  - rewrite Hrows. eapply sublist_NoDup; [exact Hdistinct|].
    change (map ?f ?l) with (f <$> l). apply fmap_sublist, sublist_filter.
Qed.

(** ** Every reachable state has a well-formed index *)

Lemma created_version_invariant ev p u d s :
  index_invariant s → index_invariant (create_version ev p u d s).2.
Proof.
  intros Hinv. unfold create_version, route.
  destruct (create_version_body_cases ev p u d s)
    as [[e ->]|(Hown & _ & rels & erd & resp & _ & ->)].
  - by destruct e.
  - simpl. by eapply created_state_invariant.
Qed.

Lemma deleted_version_invariant ev p v u s :
  index_invariant s → index_invariant (delete_version ev p v u s).2.
Proof.
  intros Hinv. unfold delete_version, route.
  destruct (delete_version_body_cases ev p v u s)
    as [[e ->]|(_ & Hlen & victim & Hhead & ->)].
  - by destruct e.
  - simpl. by apply deleted_state_invariant.
Qed.

Lemma initial_state_invariant : index_invariant initial_state.
Proof.
  split; simpl; try done.
  - intros p. apply NoDup_nil_2.
  - intros r Hr. by apply elem_of_nil in Hr.
  - intros r Hr. by apply elem_of_nil in Hr.
  - intros r Hr. by apply elem_of_nil in Hr.
  - intros r Hr. by apply elem_of_nil in Hr.
  - apply NoDup_nil_2.
Qed.

Lemma serve_invariant ev r s :
  index_invariant s → index_invariant (serve ev r s).2.
Proof.
  intros Hinv. destruct r; simpl.
  - by apply create_project_invariant.
  - by apply delete_project_invariant.
  - eapply index_invariant_same_index; [|done].
    apply same_index_route, keeps_index_list_versions.
  - by apply created_version_invariant.
  - eapply index_invariant_same_index; [|done].
    apply same_index_route, keeps_index_get_latest_version.
  - eapply index_invariant_same_index; [|done].
    apply same_index_route, keeps_index_get_specific_version.
  - eapply index_invariant_same_index; [|done].
    apply same_index_route, keeps_index_update_version.
  - by apply deleted_version_invariant.
  - eapply index_invariant_same_index; [|done].
    apply same_index_route, keeps_index_list_tables.
  - eapply index_invariant_same_index; [|done].
    apply same_index_route, keeps_index_create_table.
  - eapply index_invariant_same_index; [|done].
    apply same_index_route, keeps_index_update_table.
  - eapply index_invariant_same_index; [|done].
    apply same_index_route, keeps_index_delete_table.
  - eapply index_invariant_same_index; [|done].
    apply same_index_route, keeps_index_delete_column.
  - eapply index_invariant_same_index; [|done].
    apply same_index_route, keeps_index_get_table.
Qed.

Lemma reachable_invariant s : reachable s → index_invariant s.
Proof.
  induction 1 as [|s ev r _ IH].
  - apply initial_state_invariant.
  - by apply serve_invariant.
Qed.

(** ** The sample states *)

Lemma reachable_one_version_state : reachable one_version_state.
Proof. apply reachable_serve, reachable_initial. Qed.

Lemma reachable_two_versions_state : reachable two_versions_state.
Proof. apply reachable_serve, reachable_one_version_state. Qed.

Lemma alice_owns_one_version_state : owns "alice" 0%N one_version_state.
Proof. eexists. split; [left|]. done. Qed.

Lemma alice_owns_two_versions_state : owns "alice" 0%N two_versions_state.
Proof. eexists. split; [left|]. done. Qed.

(** ** Deleting versions *)

Lemma NoDup_two_other (l : list Z) v :
  NoDup l → (2 ≤ length l)%nat → ∃ w, w ∈ l ∧ w ≠ v.
Proof.
  intros Hnd Hlen. destruct l as [|a [|b l]]; simpl in Hlen; [lia|lia|].
  apply NoDup_cons in Hnd as [Hab _].
  destruct (decide (a = v)) as [->|Ha].
  - exists b. split; [right; left|]. intros ->. apply Hab. left.
  - exists a. split; [left | done].
Qed.

Lemma length_project_versions p s :
  length (project_versions p s) = length (project_rows p s).
Proof. unfold project_versions. apply length_map. Qed.

(** C5: [delete_version] rejects with [ValidationError] whenever the
    project has exactly one version (the route hands the rejection back as
    an error envelope, the stores untouched), and a project that has a
    version still has one after any [delete_version] request. *)
Theorem delete_version_keeps_one_version s ev p v u :
  reachable s →
  (owns u p s → length (project_rows p s) = 1%nat →
   delete_version_body ev p v u s
   = (inl (ValidationError "Cannot delete the only version"), s)
   ∧ delete_version ev p v u s
     = (Returned (error_response "Cannot delete the only version" 500), s))
  ∧ (∀ q, project_rows q s ≠ [] →
          project_rows q (delete_version ev p v u s).2 ≠ []).
Proof.
  intros Hreach. pose proof (reachable_invariant s Hreach) as Hinv. split.
  - intros Hown Hlen. destruct (project_rows p s) as [|r [|r' l]] eqn:Hrows;
      simpl in Hlen; try lia.
    pose proof (delete_version_body_only_version ev p v u s r Hown Hrows) as Hb.
    split; [done|]. unfold delete_version, route. by rewrite Hb.
  - intros q Hq. unfold delete_version, route.
    destruct (delete_version_body_cases ev p v u s)
      as [[e ->]|(_ & Hlen & victim & Hhead & ->)].
    { by destruct e. }
    simpl. destruct (decide (q = p)) as [->|Hqp].
    + intros Hnil%project_rows_nil_versions.
      rewrite project_versions_deleted in Hnil.
      destruct (NoDup_two_other (project_versions p s) v) as (w & Hw & Hne).
      { apply (versions_unique s Hinv). }
      { by rewrite length_project_versions. }
      assert (w ∈ filter (λ w, ¬ (p = p ∧ w = v)) (project_versions p s)) as Hin.
      { apply list_elem_of_filter. split; [|done]. by intros [_ ?]. }
      rewrite Hnil in Hin. by apply elem_of_nil in Hin.
    + by rewrite project_rows_deleted_other.
Qed.

Lemma delete_version_keeps_one_version_witness :
  delete_version sample_env 0%N 1 "alice" one_version_state
  = (Returned (error_response "Cannot delete the only version" 500),
     one_version_state).
Proof.
  apply (delete_version_keeps_one_version one_version_state sample_env 0%N 1
           "alice").
  - apply reachable_serve, reachable_initial.
  - eexists. split; [left|]. done.
  - reflexivity.
Defined.

Lemma delete_version_body_success ev p v u s victim :
  owns u p s → (2 ≤ length (project_rows p s))%nat →
  head (filter (λ r, DictionaryVersion.version r = v) (project_rows p s))
  = Some victim →
  delete_version_body ev p v u s
  = (inr (success_response
            (VDict [("deleted_version", VInt v)])
            ("Version " +:+ pretty v +:+ " deleted successfully")),
     deleted_state ev p v victim s).
Proof.
  intros Hown Hlen Hhead.
  destruct (delete_version_body_cases ev p v u s)
    as [[e He]|(_ & _ & victim' & Hhead' & Hb)].
  - exfalso. unfold delete_version_body in He.
    rewrite (bind_inr _ _ _ _ _ (require_project_access_owns _ _ _ Hown)) in He.
    unfold select_versions at 1 in He.
    unfold bind at 1 in He. unfold bind at 1 in He. simpl in He.
    fold (project_rows p s) in He.
    destruct (project_rows p s) as [|r1 [|r2 rest]]; simpl in Hlen; [lia|lia|].
    rewrite Hhead in He.
    unfold bind, update_versions, delete_versions, delete_one, get_state,
      put_state, ret in He. simpl in He.
    destruct (DictionaryVersion.is_latest victim);
      [destruct (order_version_desc _)|];
      destruct (mongodb_available ev); simpl in He; discriminate.
  - congruence.
Qed.

(** C4: when [delete_version] removes the version that holds
    [is_latest], the remaining version with the greatest number becomes
    the latest; deleting any other version leaves the latest of the
    project, and of every other project, as it was. *)
Theorem delete_version_promotes_highest s ev p v u :
  reachable s →
  (owns u p s → latest_of p s = [v] → (2 ≤ length (project_rows p s))%nat →
   (delete_version ev p v u s).1
   = Returned (success_response
                 (VDict [("deleted_version", VInt v)])
                 ("Version " +:+ pretty v +:+ " deleted successfully"))
   ∧ (∀ w, w ∈ project_versions p (delete_version ev p v u s).2
           ↔ w ∈ project_versions p s ∧ w ≠ v)
   ∧ ∃ m, is_max m (project_versions p (delete_version ev p v u s).2)
          ∧ latest_of p (delete_version ev p v u s).2 = [m])
  ∧ (latest_of p s ≠ [v] →
     latest_of p (delete_version ev p v u s).2 = latest_of p s)
  ∧ (∀ q, q ≠ p → latest_of q (delete_version ev p v u s).2 = latest_of q s).
Proof.
  intros Hreach. pose proof (reachable_invariant s Hreach) as Hinv.
  pose proof (versions_unique s Hinv p) as Huniq.
  split; [|split].
  - intros Hown Hl Hlen.
    assert (v ∈ latest_of p s) as Hin by (rewrite Hl; left).
    apply elem_of_latest_of in Hin as (r & Hr & Hp & Hlat & Hv).
    destruct (head (filter (λ r, DictionaryVersion.version r = v)
                           (project_rows p s))) as [victim|] eqn:Hhead.
    2:{ exfalso. apply head_None in Hhead.
        assert (r ∈ filter (λ r, DictionaryVersion.version r = v)
                           (project_rows p s)) as Hf.
        { apply list_elem_of_filter. split; [done|].
          by apply elem_of_project_rows. }
        rewrite Hhead in Hf. by apply elem_of_nil in Hf. }
    assert (victim = r) as ->.
    { pose proof Hhead as [Hvin Hvv]%head_filter_elem.
      apply (unique_version_row p s); [done|done| |congruence].
      by apply elem_of_project_rows. }
    unfold delete_version, route.
    rewrite (delete_version_body_success ev p v u s r Hown Hlen Hhead). simpl.
    split; [done|]. split.
    + intros w. rewrite project_versions_deleted, list_elem_of_filter.
      split; [intros [Hn ?]; split; [done|]; intros ->; by apply Hn
             | intros [? ?]; split; [intros [_ ?]; done | done]].
    + apply latest_of_deleted_latest; eauto.
  - intros Hl. unfold delete_version, route.
    destruct (delete_version_body_cases ev p v u s)
      as [[e ->]|(_ & Hlen & victim & Hhead & ->)].
    { by destruct e. }
    simpl. assert (project_rows p s ≠ []) as Hne.
    { intros Hnil. rewrite Hnil in Hlen. simpl in Hlen. lia. }
    destruct (one_latest s Hinv p Hne) as [w0 Hw0].
    apply latest_of_deleted_not_latest; eauto.
    destruct (DictionaryVersion.is_latest victim) eqn:Hlat; [|done].
    exfalso. apply Hl. pose proof Hhead as [Hvin Hvv]%head_filter_elem.
    apply elem_of_project_rows in Hvin as [Hvp Hvin].
    assert (v ∈ latest_of p s) as Hin by (apply elem_of_latest_of; eauto 6).
    rewrite Hw0 in Hin. apply list_elem_of_singleton in Hin. by subst.
  - intros q Hq. unfold delete_version, route.
    destruct (delete_version_body_cases ev p v u s)
      as [[e ->]|(_ & Hlen & victim & Hhead & ->)].
    { by destruct e. }
    simpl. by apply latest_of_deleted_other.
Qed.

Lemma delete_version_promotes_highest_witness :
  (∃ m, is_max m (project_versions 0%N
                    (delete_version sample_env 0%N 2 "alice"
                                    two_versions_state).2)
        ∧ latest_of 0%N (delete_version sample_env 0%N 2 "alice"
                                        two_versions_state).2 = [m])
  ∧ latest_of 0%N (delete_version sample_env 0%N 1 "alice"
                                  two_versions_state).2
    = latest_of 0%N two_versions_state.
Proof.
  assert (reachable two_versions_state) as Hreach
    by apply reachable_serve, reachable_serve, reachable_initial.
  split.
  - apply (delete_version_promotes_highest two_versions_state sample_env 0%N 2
             "alice" Hreach).
    + eexists. split; [left|]. done.
    + reflexivity.
    + vm_compute. lia.
  - destruct (delete_version_promotes_highest two_versions_state sample_env
                0%N 1 "alice" Hreach) as (_ & Hother & _).
    apply Hother. intros H. vm_compute in H. discriminate H.
Defined.

(** ** Creating versions *)

Lemma create_version_body_success ev p u d s rels erd :
  owns u p s → mongodb_available ev = true →
  copy_base_version p d s = (inr (rels, erd), s) →
  bson_encodable (convert_schemas (resolve_schemas d)) = true →
  ∃ data,
    create_version_body ev p u d s
    = (inr (success_response data
              ("Version " +:+ pretty (next_version_of (project_rows p s))
               +:+ " created successfully")),
       created_state ev p d rels erd s).
Proof.
  intros Hown Hm Hc Henc.
  destruct (create_version_body_cases ev p u d s)
    as [[e He]|(_ & _ & rels' & erd' & data & Hc' & Hb)].
  - exfalso. unfold create_version_body in He.
    rewrite (bind_inr _ _ _ _ _ (require_project_access_owns _ _ _ Hown)) in He.
    rewrite (bind_inr _ _ _ _ _ (require_mongodb_available _ _ Hm)) in He.
    unfold select_versions at 1 in He.
    unfold bind at 1 in He. unfold bind at 1 in He. simpl in He.
    erewrite bind_inr in He by exact Hc. cbn beta iota in He.
    erewrite bind_inr in He by (by apply bson_encode_ok). discriminate.
  - exists data. congruence.
Qed.

Lemma filter_unique_image {A} (f : A → Z) (l : list A) b :
  NoDup (map f l) → b ∈ map f l → ∃ r, filter (λ x, f x = b) l = [r].
Proof.
  induction l as [|a l IH]; intros Hnd Hin; [by apply elem_of_nil in Hin|].
  simpl in *. apply NoDup_cons in Hnd as [Hnot Hnd].
  rewrite filter_cons. destruct (decide (f a = b)) as [Ha|Ha].
  - exists a. f_equal. destruct (filter _ l) as [|x xs] eqn:E; [done|].
    exfalso. apply Hnot.
    assert (x ∈ filter (λ x, f x = b) l) as [Hx ?]%list_elem_of_filter
      by (rewrite E; left).
    rewrite Ha, <- Hx. apply list_elem_of_fmap. eauto.
  - apply IH; [done|]. apply elem_of_cons in Hin as [?|?]; [congruence|done].
Qed.

Lemma filter_project_version p b (rows : list DictionaryVersion.t) :
  filter (λ r, DictionaryVersion.project_id r = p
               ∧ DictionaryVersion.version r = b) rows
  = filter (λ r, DictionaryVersion.version r = b)
           (filter (λ r, DictionaryVersion.project_id r = p) rows).
Proof.
  induction rows as [|r rows IH]; [done|].
  rewrite !(filter_cons _ r), IH.
  destruct (decide (DictionaryVersion.project_id r = p)) as [Hp|Hp].
  - rewrite (filter_cons _ r).
    destruct (decide (DictionaryVersion.version r = b));
      [rewrite decide_True | rewrite decide_False]; tauto.
  - rewrite decide_False; tauto.
Qed.

(** In a well-formed index an existing version is found by [single]. *)
Lemma single_version_row p b s :
  NoDup (project_versions p s) → b ∈ project_versions p s →
  ∃ row, filter (λ r, DictionaryVersion.project_id r = p
                      ∧ DictionaryVersion.version r = b)
                (dictionary_versions s) = [row]
         ∧ row ∈ project_rows p s ∧ DictionaryVersion.version row = b.
Proof.
  intros Hnd Hin. rewrite filter_project_version. fold (project_rows p s).
  destruct (filter_unique_image DictionaryVersion.version (project_rows p s) b
              Hnd Hin) as [row Hrow].
  exists row. split; [done|].
  assert (row ∈ filter (λ x, DictionaryVersion.version x = b) (project_rows p s))
    as [? ?]%list_elem_of_filter by (rewrite Hrow; left).
  done.
Qed.

Lemma copy_base_version_ok p d s :
  index_invariant s → base_version_exists p d s →
  ∃ rels erd, copy_base_version p d s = (inr (rels, erd), s).
Proof.
  intros Hinv Hbase. unfold copy_base_version.
  destruct (CreateVersionRequest.base_version d) as [b|] eqn:Hb;
    [|by eexists _, _].
  destruct (decide (b = 0)) as [->|Hb0]; [by eexists _, _|].
  rewrite (proj2 (Z.eqb_neq b 0) Hb0). simpl.
  destruct (single_version_row p b s (versions_unique s Hinv p)
              (Hbase b Hb Hb0)) as (row & Hrow & _).
  unfold bind, select_versions, get_state, ret, lift, find_one. simpl.
  rewrite Hrow. simpl.
  destruct (dictionaries s !! DictionaryVersion.mongo_id row); simpl;
    by eexists _, _.
Qed.

(** C3: [create_version], for a request the document store can hold,
    gives the new version the number after the greatest one the project
    has, and 1 when it has none; the numbers of a project are therefore
    pairwise different, each new one above all earlier ones. *)
Theorem create_version_assigns_next_number s ev p u d :
  reachable s → owns u p s → mongodb_available ev = true →
  base_version_exists p d s → storable_schemas d →
  ∃ data row,
    (create_version ev p u d s).1
    = Returned (success_response data
                  ("Version " +:+ pretty (DictionaryVersion.version row)
                   +:+ " created successfully"))
    ∧ project_rows p (create_version ev p u d s).2
      = map (DictionaryVersion.set_is_latest false) (project_rows p s) ++ [row]
    ∧ (project_versions p s = [] → DictionaryVersion.version row = 1)
    ∧ (∀ m, is_max m (project_versions p s) →
            DictionaryVersion.version row = m + 1)
    ∧ (∀ w, w ∈ project_versions p s → w < DictionaryVersion.version row)
    ∧ (∀ q, NoDup (project_versions q (create_version ev p u d s).2)).
Proof.
  intros Hreach Hown Hm Hbase Henc.
  pose proof (reachable_invariant s Hreach) as Hinv.
  destruct (copy_base_version_ok p d s Hinv Hbase) as (rels & erd & Hc).
  destruct (create_version_body_success ev p u d s rels erd Hown Hm Hc Henc)
    as [data Hb].
  exists data,
    (version_metadata_of ev (next_uuid s) p (next_version_of (project_rows p s))
                            (next_oid s) d).
  unfold create_version, route. rewrite Hb. simpl.
  split; [done|]. split.
  { rewrite project_rows_created. by rewrite decide_True. }
  split.
  { intros Hnil%project_rows_nil_versions. by rewrite Hnil. }
  split.
  { intros m Hmax.
    destruct (next_version_of_max (project_rows p s)) as (m' & Hmax' & ->).
    - intros Hnil. destruct Hmax as [Hin _]. unfold project_versions in Hin.
      rewrite Hnil in Hin. by apply elem_of_nil in Hin.
    - f_equal. by apply (is_max_unique m' m (project_versions p s)). }
  split.
  { intros w (r & -> & Hr)%list_elem_of_fmap. by apply next_version_of_above. }
  intros q. apply (versions_unique _ (created_state_invariant ev p d rels erd s u
                                         Hown Hinv)).
Qed.

Lemma create_version_assigns_next_number_witness :
  ∃ data row,
    (create_version sample_env 0%N "alice" sample_version_request
                    one_version_state).1
    = Returned (success_response data
                  ("Version " +:+ pretty (DictionaryVersion.version row)
                   +:+ " created successfully"))
    ∧ DictionaryVersion.version row = 2.
Proof.
  destruct (create_version_assigns_next_number one_version_state sample_env
              0%N "alice" sample_version_request)
    as (data & row & Hout & _ & _ & Hnext & _).
  - apply reachable_serve, reachable_initial.
  - eexists. split; [left|]. done.
  - reflexivity.
  - intros b Hb. discriminate Hb.
  - reflexivity.
  - exists data, row. split; [exact Hout|]. apply (Hnext 1).
    split; [left|]. intros w Hw. vm_compute in Hw.
    apply list_elem_of_singleton in Hw. by subst w.
Defined.

(** ** The latest flag *)

Lemma route_state_raise (body : M value) s e :
  body s = (inl e, s) → (route body s).2 = s.
Proof. unfold route. intros ->. by destruct e. Qed.

Lemma latest_of_rows p s s' :
  project_rows p s' = project_rows p s → latest_of p s' = latest_of p s.
Proof. unfold latest_of. by intros ->. Qed.

Lemma project_rows_known p s :
  index_invariant s → project_rows p s ≠ [] → (p < next_uuid s)%N.
Proof.
  intros Hinv Hne. destruct (project_rows p s) as [|r l] eqn:E; [done|].
  assert (r ∈ project_rows p s) as [<- Hr]%elem_of_project_rows
    by (rewrite E; left).
  by apply (projects_known s Hinv).
Qed.

Lemma latest_of_unknown_project s :
  index_invariant s → latest_of (next_uuid s) s = [].
Proof.
  intros Hinv. unfold latest_of.
  destruct (project_rows (next_uuid s) s) as [|r l] eqn:E; [done|].
  assert ((next_uuid s < next_uuid s)%N); [|lia].
  apply project_rows_known; [done|]. by rewrite E.
Qed.

(** The latest versions after [create_project]: version 1 for the project
    just created, when the document store took its initial dictionary. *)
Lemma latest_of_create_project ev u d s q :
  index_invariant s →
  latest_of q (create_project ev u d s).2
  = if decide (q = next_uuid s ∧ mongodb_available ev = true) then [1]
    else latest_of q s.
Proof.
  intros Hinv.
  destruct (create_project_state ev u d s)
    as (prow & _ & _ & [(Hm & Hrows & _)|(Hm & (row & Hrows & Hkey) & _)]).
  - rewrite decide_False by (rewrite Hm; intros [_ ?]; done).
    apply latest_of_rows. unfold project_rows. by rewrite Hrows.
  - unfold index_key in Hkey. unfold latest_of.
    rewrite (project_rows_app _ _ _ _ Hrows). fold (project_rows q s).
    replace (DictionaryVersion.project_id row) with (next_uuid s) by congruence.
    destruct (decide (q = next_uuid s)) as [->|Hq].
    + rewrite !decide_True by done.
      pose proof (latest_of_unknown_project s Hinv) as Hnil.
      unfold latest_of in Hnil. rewrite filter_app, map_app, Hnil.
      rewrite filter_cons_True by congruence. simpl. f_equal. congruence.
    + rewrite (decide_False (P := next_uuid s = q)) by done.
      rewrite decide_False by (intros [? _]; done). by rewrite app_nil_r.
Qed.

(** ** The default schema *)

Lemma copy_base_version_none p d s :
  CreateVersionRequest.base_version d = None →
  copy_base_version p d s = (inr (VList [], empty_erd), s).
Proof. unfold copy_base_version. by intros ->. Qed.

(** C7: [create_version] with no base version and no schemas synthesizes
    the default schema: one schema ["public"] holding the one table
    [sample_table] with the three columns [id] (bigint, key PK, not
    nullable), [name] (varchar of length 255, nullable) and [created_at]
    (timestamp, not nullable, default CURRENT_TIMESTAMP).  The request
    succeeds and the document it stores is the one written out below: its
    [schemas] hold that one table with these three columns, its
    [relationships] are empty and its [erd] has no nodes and no edges. *)
Theorem create_version_default_schema s ev p u d :
  owns u p s → mongodb_available ev = true →
  CreateVersionRequest.base_version d = None →
  CreateVersionRequest.schemas d = [] →
  ∃ table c_id c_name c_created data,
    resolve_schemas d
    = [ {| Schema.name := "public";
           Schema.description := Some "Default public schema";
           Schema.tables := [table];
           Schema.is_collapsed := false |} ]
    ∧ Table.name table = "sample_table"
    ∧ Table.schema_name table = "public"
    ∧ Table.columns table = [c_id; c_name; c_created]
    ∧ (Column.name c_id = "id" ∧ Column.data_type c_id = "bigint"
       ∧ Column.key c_id = Some PRIMARY ∧ Column.nullable c_id = false
       ∧ py_get (Column.model_dump c_id) "key" VNone = inr (VStr "PK"))
    ∧ (Column.name c_name = "name" ∧ Column.data_type c_name = "varchar"
       ∧ Column.length c_name = Some 255 ∧ Column.nullable c_name = true)
    ∧ (Column.name c_created = "created_at"
       ∧ Column.data_type c_created = "timestamp"
       ∧ Column.nullable c_created = false
       ∧ Column.default_value c_created = Some "CURRENT_TIMESTAMP")
    ∧ (create_version ev p u d s).1
      = Returned (success_response data
                    ("Version " +:+ pretty (next_version_of (project_rows p s))
                     +:+ " created successfully"))
    ∧ dictionaries (create_version ev p u d s).2 !! next_oid s
      = Some
          [("projectId", VStr (pretty p));
           ("version", VInt (next_version_of (project_rows p s)));
           ("name", VStr (CreateVersionRequest.name d));
           ("description",
             from_option VStr VNone (CreateVersionRequest.description d));
           ("schemas",
             VDict
               [("tables",
                  VList
                    [VDict
                       [("name", VStr "sample_table");
                        ("schema_name", VStr "public");
                        ("type", VStr "dimension");
                        ("description",
                          VStr "Sample table - you can modify or delete this");
                        ("columns",
                          VList
                            [VDict
                               [("name", VStr "id");
                                ("type", VStr "bigint");
                                ("key", VStr "PK");
                                ("nullable", VBool false);
                                ("description", VStr "Primary key");
                                ("is_unique", VBool false);
                                ("is_indexed", VBool false);
                                ("ui_hidden", VBool false);
                                ("isPK", VBool true);
                                ("isFK", VBool false)];
                             VDict
                               [("name", VStr "name");
                                ("type", VStr "varchar");
                                ("key", VStr EmptyString);
                                ("nullable", VBool true);
                                ("description", VStr "Name field");
                                ("length", VInt 255);
                                ("is_unique", VBool false);
                                ("is_indexed", VBool false);
                                ("ui_hidden", VBool false);
                                ("isPK", VBool false);
                                ("isFK", VBool false)];
                             VDict
                               [("name", VStr "created_at");
                                ("type", VStr "timestamp");
                                ("key", VStr EmptyString);
                                ("nullable", VBool false);
                                ("default_value", VStr "CURRENT_TIMESTAMP");
                                ("description",
                                  VStr "Record creation timestamp");
                                ("is_unique", VBool false);
                                ("is_indexed", VBool false);
                                ("ui_hidden", VBool false);
                                ("isPK", VBool false);
                                ("isFK", VBool false)]]);
                        ("indexes", VList []);
                        ("constraints", VList [])]]);
                ("relationships", VList [])]);
           ("relationships", VList []);
           ("erd", VDict [("nodes", VList []); ("edges", VList [])]);
           ("metadata", VDict []);
           ("created_at", VDatetime (utcnow ev));
           ("updated_at", VDatetime (utcnow ev))].
Proof.
  intros Hown Hm Hbase Hschemas.
  assert (bson_encodable (convert_schemas (resolve_schemas d)) = true) as Henc.
  { unfold resolve_schemas. rewrite Hschemas. vm_compute. reflexivity. }
  destruct (create_version_body_success ev p u d s (VList []) empty_erd Hown Hm
              (copy_base_version_none p d s Hbase) Henc) as [data Hb].
  unfold create_version, route. rewrite Hb. simpl.
  unfold resolve_schemas. rewrite Hschemas.
  eexists _, _, _, _, data.
  split; [reflexivity|]. split; [reflexivity|]. split; [reflexivity|].
  split; [reflexivity|]. split; [by repeat split|].
  split; [by repeat split|]. split; [by repeat split|].
  split; [reflexivity|]. rewrite lookup_insert_eq. reflexivity.
Qed.

Lemma create_version_default_schema_witness :
  ∃ doc tables table columns,
    dictionaries two_versions_state !! 1%N = Some doc
    ∧ dict_get doc "schemas"
      = Some (VDict [("tables", VList tables); ("relationships", VList [])])
    ∧ tables = [VDict table]
    ∧ dict_get table "name" = Some (VStr "sample_table")
    ∧ dict_get table "columns" = Some (VList columns)
    ∧ map (λ c, py_get c "name" VNone) columns
      = [inr (VStr "id"); inr (VStr "name"); inr (VStr "created_at")].
Proof.
  destruct (create_version_default_schema one_version_state sample_env 0%N
              "alice" sample_version_request)
    as (table & c1 & c2 & c3 & data & _ & _ & _ & _ & _ & _ & _ & _ & Hdoc).
  - apply alice_owns_one_version_state.
  - reflexivity.
  - reflexivity.
  - reflexivity.
  - eexists _, _, _, _. split; [exact Hdoc|].
    split; [reflexivity|]. split; [reflexivity|].
    split; [reflexivity|]. split; reflexivity.
Defined.

(** ** Reading the latest version *)

(** C6, as amended: when the row flagged latest exists but the document
    store holds no document under its reference, [get_latest_version]
    returns a success envelope carrying the row and [None] for the
    dictionary; no error is reported and nothing is changed. *)
Theorem get_latest_version_missing_document s ev p u row :
  owns u p s → mongodb_available ev = true →
  head (filter (λ r, DictionaryVersion.project_id r = p
                     ∧ DictionaryVersion.is_latest r = true)
               (dictionary_versions s)) = Some row →
  dictionaries s !! DictionaryVersion.mongo_id row = None →
  get_latest_version ev p u s
  = (Returned (success_response
                 (VDict [("version", DictionaryVersion.to_value row);
                         ("dictionary", VNone)])
                 "Latest version retrieved successfully"), s).
Proof.
  intros Hown Hm Hhead Hdoc. unfold get_latest_version, route,
    get_latest_version_body.
  rewrite (bind_inr _ _ _ _ _ (require_project_access_owns _ _ _ Hown)).
  unfold select_versions at 1. unfold bind at 1. unfold bind at 1. simpl.
  destruct (filter _ (dictionary_versions s)) as [|r rest]; [done|].
  simpl in Hhead. injection Hhead as ->. simpl.
  rewrite (bind_inr _ _ _ _ _ (require_mongodb_available _ _ Hm)).
  unfold bind, find_one, get_state, ret. simpl. by rewrite Hdoc.
Qed.

Lemma get_latest_version_missing_document_witness :
  ∃ row,
    get_latest_version sample_env 0%N "alice" missing_document_state
    = (Returned (success_response
                   (VDict [("version", DictionaryVersion.to_value row);
                           ("dictionary", VNone)])
                   "Latest version retrieved successfully"),
       missing_document_state).
Proof.
  eexists.
  apply (get_latest_version_missing_document missing_document_state sample_env
           0%N "alice").
  - eexists. split; [left|]. done.
  - reflexivity.
  - reflexivity.
  - reflexivity.
Defined.

(** C6 as stated fails: the row flagged latest of project 0 points to a
    document the store does not hold, and the route answers with a
    success envelope whose dictionary is [None]. *)
Lemma get_latest_version_missing_document_counterexample :
  (∃ row, row ∈ project_rows 0%N missing_document_state
          ∧ DictionaryVersion.is_latest row = true
          ∧ dictionaries missing_document_state
              !! DictionaryVersion.mongo_id row = None)
  ∧ ¬ reports_error
        (get_latest_version sample_env 0%N "alice" missing_document_state).1
  ∧ ∃ version_row,
      (get_latest_version sample_env 0%N "alice" missing_document_state).1
      = Returned (VDict [("status", VStr "success");
                         ("message",
                           VStr "Latest version retrieved successfully");
                         ("data", VDict [("version", version_row);
                                         ("dictionary", VNone)])]).
Proof.
  split; [|split].
  - eexists. split; [left|]. split; reflexivity.
  - vm_compute. discriminate.
  - eexists. vm_compute. reflexivity.
Qed.

(** ** Looking a table up *)

Lemma load_dictionary_found ev p v u s row doc :
  owns u p s → mongodb_available ev = true →
  filter (λ r, DictionaryVersion.project_id r = p
               ∧ DictionaryVersion.version r = v) (dictionary_versions s)
  = [row] →
  dictionaries s !! DictionaryVersion.mongo_id row = Some doc →
  load_dictionary ev p v u s
  = (inr (DictionaryVersion.mongo_id row,
          ("_id", VObjectId (DictionaryVersion.mongo_id row)) :: doc), s).
Proof.
  intros Hown Hm Hrow Hdoc. unfold load_dictionary.
  rewrite (bind_inr _ _ _ _ _ (require_project_access_owns _ _ _ Hown)).
  unfold get_version_mongo_id, select_versions. unfold bind at 1. simpl.
  rewrite Hrow. simpl.
  rewrite (bind_inr _ _ _ _ _ (require_mongodb_available _ _ Hm)).
  unfold bind, find_one, get_state, ret. simpl. by rewrite Hdoc.
Qed.

(** C10, as amended: on a document whose [schemas] field has the dict
    shape [{"tables": .., "relationships": ..}], [get_table] never returns
    a table, whatever table and schema are asked for: iterating the dict
    yields its keys, [.get] on the first key raises [AttributeError], and
    the route returns that as an error envelope with code 500.  No
    [NotFoundError] is raised. *)
Theorem get_table_on_dict_schemas s ev p v u tn sn row doc tables rels :
  owns u p s → mongodb_available ev = true →
  filter (λ r, DictionaryVersion.project_id r = p
               ∧ DictionaryVersion.version r = v) (dictionary_versions s)
  = [row] →
  dictionaries s !! DictionaryVersion.mongo_id row = Some doc →
  dict_get doc "schemas"
  = Some (VDict [("tables", VList tables); ("relationships", VList rels)]) →
  get_table_body ev p v tn sn u s
  = (inl (AttributeError "'str' object has no attribute 'get'"), s)
  ∧ get_table ev p v tn sn u s
    = (Returned (error_response "'str' object has no attribute 'get'" 500), s).
Proof.
  intros Hown Hm Hrow Hdoc Hschemas.
  assert (get_table_body ev p v tn sn u s
          = (inl (AttributeError "'str' object has no attribute 'get'"), s))
    as Hbody.
  { unfold get_table_body.
    erewrite bind_inr by (by apply load_dictionary_found).
    simpl. rewrite Hschemas. reflexivity. }
  split; [done|]. unfold get_table, route. by rewrite Hbody.
Qed.

Lemma get_table_on_dict_schemas_witness :
  get_table sample_env 0%N 1 "sample_table" "public" "alice" one_version_state
  = (Returned (error_response "'str' object has no attribute 'get'" 500),
     one_version_state).
Proof.
  eapply (get_table_on_dict_schemas one_version_state sample_env 0%N 1 "alice").
  - eexists. split; [left|]. done.
  - reflexivity.
  - reflexivity.
  - reflexivity.
  - reflexivity.
Defined.

(** C10 as stated fails: [sample_table] of schema [public] is in the
    stored table list of version 1, and asking for it raises
    [AttributeError], not [NotFoundError]. *)
Lemma get_table_not_found_counterexample :
  (∃ doc tables table,
      dictionaries one_version_state !! 0%N = Some doc
      ∧ dict_get doc "schemas"
        = Some (VDict [("tables", VList tables); ("relationships", VList [])])
      ∧ table ∈ tables
      ∧ table_matches "sample_table" "public" table = inr true)
  ∧ get_table_body sample_env 0%N 1 "sample_table" "public" "alice"
                   one_version_state
    = (inl (AttributeError "'str' object has no attribute 'get'"),
       one_version_state)
  ∧ ∀ resource,
      (get_table_body sample_env 0%N 1 "sample_table" "public" "alice"
                      one_version_state).1
      ≠ inl (NotFoundError resource).
Proof.
  assert (get_table_body sample_env 0%N 1 "sample_table" "public" "alice"
                         one_version_state
          = (inl (AttributeError "'str' object has no attribute 'get'"),
             one_version_state)) as Hbody by (vm_compute; reflexivity).
  split; [|split; [exact Hbody|]].
  - eexists _, _, _. split; [reflexivity|]. split; [reflexivity|].
    split; [left|]. reflexivity.
  - intros resource. rewrite Hbody. simpl. discriminate.
Qed.

(** ** Branching from a base version *)

(** Whatever the base version holds, the schemas of the new document come
    from the request (or the default schema); the base document's
    [relationships] and [erd] are what is copied. *)
Lemma create_version_document ev p u d s rels erd :
  owns u p s → mongodb_available ev = true →
  copy_base_version p d s = (inr (rels, erd), s) →
  storable_schemas d →
  ∃ doc,
    dictionaries (create_version ev p u d s).2 !! next_oid s = Some doc
    ∧ dict_get doc "schemas" = Some (convert_schemas (resolve_schemas d))
    ∧ dict_get doc "relationships" = Some rels
    ∧ dict_get doc "erd" = Some erd.
Proof.
  intros Hown Hm Hc Henc.
  destruct (create_version_body_success ev p u d s rels erd Hown Hm Hc Henc)
    as [data Hb].
  unfold create_version, route. rewrite Hb. simpl.
  eexists. split; [apply lookup_insert_eq|]. by repeat split.
Qed.

Lemma copy_base_version_copies p d s b row doc :
  CreateVersionRequest.base_version d = Some b → b ≠ 0 →
  filter (λ r, DictionaryVersion.project_id r = p
               ∧ DictionaryVersion.version r = b) (dictionary_versions s)
  = [row] →
  dictionaries s !! DictionaryVersion.mongo_id row = Some doc →
  copy_base_version p d s
  = (inr (default (VList []) (dict_get doc "relationships"),
          default empty_erd (dict_get doc "erd")), s).
Proof.
  intros Hb Hb0 Hrow Hdoc. unfold copy_base_version. rewrite Hb.
  rewrite (proj2 (Z.eqb_neq b 0) Hb0). simpl.
  unfold bind, select_versions, get_state, ret, lift, find_one. simpl.
  rewrite Hrow. simpl. by rewrite Hdoc.
Qed.

(** The new document lives under a fresh reference: later writes to it
    leave the documents of the existing versions alone. *)
Lemma update_one_other o o' fields s :
  o ≠ o' → dictionaries (update_one o fields s).2 !! o' = dictionaries s !! o'.
Proof.
  intros Hne. unfold update_one, bind, get_state, put_state, ret. simpl.
  destruct (dictionaries s !! o); simpl; [|done].
  by apply lookup_insert_ne.
Qed.

Lemma created_document_fresh s row :
  index_invariant s → row ∈ dictionary_versions s →
  DictionaryVersion.mongo_id row ≠ next_oid s.
Proof. intros Hinv Hrow. pose proof (documents_issued s Hinv row Hrow). lia. Qed.

(** C1 fails on the code: version 1 of project 0 holds the tables
    [sample_table] and [orders]; [create_version] with [base_version=1]
    and no schemas succeeds, copies the relationships and the layout, and
    gives the new document the default schema instead of the schemas of
    version 1. *)
Theorem create_version_base_schemas_not_copied :
  ∃ base_doc new_doc,
    document_of 0%N 1 base_state = Some base_doc
    ∧ document_of 0%N 1 branched_state = Some base_doc
    ∧ document_of 0%N 2 branched_state = Some new_doc
    ∧ ¬ reports_error
          (serve sample_env (CreateVersion 0%N "alice" branch_request)
                 base_state).1
    ∧ dict_get new_doc "relationships" = dict_get base_doc "relationships"
    ∧ dict_get new_doc "erd" = dict_get base_doc "erd"
    ∧ dict_get new_doc "schemas" = Some (convert_schemas create_initial_schema)
    ∧ dict_get new_doc "schemas" ≠ dict_get base_doc "schemas"
    ∧ ∃ base_tables new_tables,
        dict_get base_doc "schemas" = Some (schemas_dict_of base_tables)
        ∧ dict_get new_doc "schemas" = Some (schemas_dict_of new_tables)
        ∧ length base_tables = 2%nat ∧ length new_tables = 1%nat.
Proof.
  eexists _, _. split; [vm_compute; reflexivity|].
  split; [vm_compute; reflexivity|]. split; [vm_compute; reflexivity|].
  split; [vm_compute; discriminate|].
  split; [vm_compute; reflexivity|]. split; [vm_compute; reflexivity|].
  split; [vm_compute; reflexivity|]. split; [vm_compute; discriminate|].
  eexists _, _. split; [vm_compute; reflexivity|].
  split; [vm_compute; reflexivity|]. split; reflexivity.
Qed.

(** ** Values, dicts and loops *)

Lemma value_ind_nested (P : value → Prop) :
  P VNone → (∀ b, P (VBool b)) → (∀ z, P (VInt z)) → (∀ q, P (VFloat q)) →
  (∀ t, P (VStr t)) → (∀ t, P (VDatetime t)) → (∀ o, P (VObjectId o)) →
  (∀ l, Forall P l → P (VList l)) →
  (∀ d, Forall (λ kv, P kv.2) d → P (VDict d)) →
  ∀ v, P v.
Proof.
  intros HNone HBool HInt HFloat HStr HDate HOid HList HDict.
  fix IH 1. intros [ |b|z|q|t|t|o|l|d].
  - exact HNone.
  - apply HBool.
  - apply HInt.
  - apply HFloat.
  - apply HStr.
  - apply HDate.
  - apply HOid.
  - apply HList. induction l as [|x l IHl]; constructor; [apply IH | exact IHl].
  - apply HDict. induction d as [|[k x] d IHd]; constructor;
      [apply IH | exact IHd].
Qed.

Lemma value_eqb_eq x y : value_eqb x y = true → x = y.
Proof.
  revert y. induction x as [ |b|z|q|t|t|o|l IHl|d IHd] using value_ind_nested;
    intros [ |b'|z'|q'|t'|t'|o'|l'|d']; simpl; try discriminate; intros H.
  - done.
  - by apply Bool.eqb_prop in H as ->.
  - by apply Z.eqb_eq in H as ->.
  - apply andb_true_iff in H as [H1%Z.eqb_eq H2%Pos.eqb_eq].
    destruct q, q'. simpl in *. by subst.
  - by apply String.eqb_eq in H as ->.
  - by apply Z.eqb_eq in H as ->.
  - by apply N.eqb_eq in H as ->.
  - f_equal. revert l' H. induction IHl as [|x l Hx _ IH]; intros [|y l'] H;
      try discriminate; [done|].
    apply andb_true_iff in H as [H1 H2]. f_equal; [by apply Hx | by apply IH].
  - f_equal. revert d' H.
    induction IHd as [|[k x] d Hx _ IH]; intros [|[k' y] d'] H;
      try discriminate; [done|].
    apply andb_true_iff in H as [H12 H3].
    apply andb_true_iff in H12 as [H1%String.eqb_eq H2].
    simpl in Hx. f_equal; [f_equal; [done | by apply Hx] | by apply IH].
Qed.

Lemma dict_get_set_eq d k v : dict_get (dict_set d k v) k = Some v.
Proof.
  induction d as [|[k' v'] d IH]; simpl.
  - by rewrite String.eqb_refl.
  - destruct (String.eqb k' k) eqn:E; simpl.
    + by rewrite String.eqb_refl.
    + by rewrite E.
Qed.

Lemma dict_get_set_ne d k k' v :
  k ≠ k' → dict_get (dict_set d k v) k' = dict_get d k'.
Proof.
  intros Hne. induction d as [|[k0 v0] d IH]; simpl.
  - by rewrite (proj2 (String.eqb_neq k k') Hne).
  - destruct (String.eqb k0 k) eqn:E; simpl.
    + apply String.eqb_eq in E as ->.
      by rewrite !(proj2 (String.eqb_neq k k') Hne).
    + by rewrite IH.
Qed.

Lemma get_eq_dict d k t : get_eq (VDict d) k t = inr (has_text d k t).
Proof.
  unfold get_eq, has_text, py_get.
  destruct (dict_get d k) as [[ | | | | | | | | ]|]; reflexivity.
Qed.

Lemma table_matches_dict tn sn td :
  table_matches tn sn (VDict td) = inr (table_named tn sn td).
Proof.
  unfold table_matches, table_named. rewrite !get_eq_dict.
  by destruct (has_text td "name" tn).
Qed.

Lemma is_pk_column_dict cd : is_pk_column (VDict cd) = inr (is_pk_dict cd).
Proof.
  unfold is_pk_column, is_pk_dict. rewrite get_eq_dict. simpl.
  by destruct (has_text cd "key" "PK").
Qed.

(** On columns written by [Column.model_dump] the test is the [key]. *)
Lemma is_pk_dict_model_dump c :
  match Column.model_dump c with
  | VDict cd => is_pk_dict cd = Column.isPK c
  | _ => False
  end.
Proof.
  unfold Column.model_dump, is_pk_dict, has_text, Column.isPK.
  destruct c as [n ty k nl dv ds ln pr sc un ix ft fc uo uh]. simpl.
  destruct k as [[]|], dv, ds, ln, pr, sc, ft, fc, uo; reflexivity.
Qed.

Lemma find_first_dicts (test : value → exn + bool)
    (P : list (string * value) → bool) l j x n :
  (∀ d, test (VDict d) = inr (P d)) → first_match P l j x →
  find_first test (map VDict l) n = inr (Some ((n + j)%nat, VDict x)).
Proof.
  intros Htest. revert j n. induction l as [|a l IH]; intros j n (Hj & Hx & Hlt).
  - by rewrite lookup_nil in Hj.
  - simpl. rewrite Htest. destruct j as [|j].
    + simpl in Hj. injection Hj as ->. rewrite Hx.
      by rewrite Nat.add_0_r.
    + rewrite (Hlt 0%nat a); [|lia|done].
      rewrite (IH j (S n)).
      * do 3 f_equal. lia.
      * split; [done|]. split; [done|]. intros k y Hk Hy.
        apply (Hlt (S k) y); [lia | done].
Qed.

Lemma find_first_dicts_none (test : value → exn + bool)
    (P : list (string * value) → bool) l n :
  (∀ d, test (VDict d) = inr (P d)) → Forall (λ d, P d = false) l →
  find_first test (map VDict l) n = inr None.
Proof.
  intros Htest Hall. revert n. induction Hall as [|a l Ha _ IH]; intros n; [done|].
  simpl. by rewrite Htest, Ha.
Qed.

Lemma filter_raising_dicts (test : value → exn + bool)
    (P : list (string * value) → bool) l :
  (∀ d, test (VDict d) = inr (P d)) →
  filter_raising test (map VDict l)
  = inr (map VDict (filter (λ d, P d = true) l)).
Proof.
  intros Htest. induction l as [|a l IH]; [done|].
  destruct (P a) eqn:E.
  - rewrite filter_cons_True by done. simpl. by rewrite Htest, IH, E.
  - rewrite filter_cons_False by congruence. simpl. by rewrite Htest, IH, E.
Qed.

(** ** Deleting a column *)

Lemma keeps_on_column_delete_dict tn cn rd :
  keeps_on_column_delete tn cn (VDict rd)
  = inr (negb ((has_text rd "source_table" tn && has_text rd "source_column" cn)
               || (has_text rd "target_table" tn
                   && has_text rd "target_column" cn))).
Proof.
  unfold keeps_on_column_delete. rewrite !get_eq_dict.
  by destruct (has_text rd "source_table" tn), (has_text rd "source_column" cn),
    (has_text rd "target_table" tn).
Qed.

Lemma keeps_on_table_delete_dict tn rd :
  keeps_on_table_delete tn (VDict rd)
  = inr (negb (has_text rd "source_table" tn)
         && negb (has_text rd "target_table" tn)).
Proof.
  unfold keeps_on_table_delete. rewrite !get_eq_dict.
  by destruct (has_text rd "source_table" tn).
Qed.

Lemma bind_lift_inr {A B} (a : A) (f : A → M B) :
  bind (lift (inr a)) f = f a.
Proof. reflexivity. Qed.

Lemma bind_raise {A B} e (f : A → M B) : bind (raise e) f = raise e.
Proof. reflexivity. Qed.

Lemma bind_ret {A B} (a : A) (f : A → M B) : bind (ret a) f = f a.
Proof. reflexivity. Qed.

Lemma update_one_found o fields s d :
  dictionaries s !! o = Some d →
  update_one o fields s
  = (inr (if value_eqb (VDict d) (VDict (dict_update d fields)) then 0 else 1),
     with_dictionaries (<[o := dict_update d fields]> (dictionaries s)) s).
Proof.
  intros Hd. unfold update_one, bind, get_state, put_state, ret. simpl.
  by rewrite Hd.
Qed.

(** One step of a handler whose next call has a known result. *)
Ltac mstep := rewrite ?bind_lift_inr, ?bind_ret, ?bind_raise; cbn beta iota.

Section delete_column.
Context (s : state) (ev : env) (p : uuid) (v : Z) (u : string).
Context (table_name column_name schema_name : string).
Context (row : DictionaryVersion.t) (doc sd : list (string * value)).
Context (tds : list (list (string * value))) (j : nat)
        (td : list (string * value)).
Context (cds : list (list (string * value))) (i : nat)
        (cd : list (string * value)).
Context (rds : list (list (string * value))).

Hypothesis Hown : owns u p s.
Hypothesis Hmongo : mongodb_available ev = true.
Hypothesis Hrow :
  filter (λ r, DictionaryVersion.project_id r = p
               ∧ DictionaryVersion.version r = v) (dictionary_versions s)
  = [row].
Hypothesis Hdoc : dictionaries s !! DictionaryVersion.mongo_id row = Some doc.
Hypothesis Hschemas : dict_get doc "schemas" = Some (VDict sd).
Hypothesis Htables : dict_get sd "tables" = Some (VList (map VDict tds)).
Hypothesis Htable : first_match (table_named table_name schema_name) tds j td.
Hypothesis Hcolumns : dict_get td "columns" = Some (VList (map VDict cds)).
Hypothesis Hcolumn : first_match (column_named column_name) cds i cd.
Hypothesis Hrels :
  default (VList []) (dict_get doc "relationships") = VList (map VDict rds).

Lemma delete_column_last_column :
  length cds = 1%nat →
  delete_column_body ev p v table_name column_name schema_name u s
  = (inl (ValidationError "Cannot delete the last column in a table"), s).
Proof.
  intros Hlen. unfold delete_column_body.
  erewrite bind_inr by (by apply load_dictionary_found).
  simpl. rewrite Hschemas. simpl. rewrite Htables.
  simpl py_iter. mstep.
  rewrite (find_first_dicts _ _ tds j td 0 (table_matches_dict _ _) Htable).
  mstep. simpl py_get. rewrite Hcolumns. simpl default. mstep.
  simpl py_iter. mstep.
  rewrite (find_first_dicts _ (column_named column_name) cds i cd 0
             (λ d, get_eq_dict d "name" column_name) Hcolumn).
  mstep. rewrite length_map, Hlen. simpl. by mstep.
Qed.

Let new_tables : value :=
  VList (<[j := VDict (without_column td cds i)]> (map VDict tds)).
Let new_doc : list (string * value) :=
  column_deleted_document ev table_name column_name doc sd tds j td cds i rds.

Lemma new_doc_schemas :
  dict_get new_doc "schemas" = Some (VDict (dict_set sd "tables" new_tables)).
Proof.
  unfold new_doc, column_deleted_document, dict_update. simpl.
  rewrite !dict_get_set_ne by discriminate. apply dict_get_set_eq.
Qed.

Lemma delete_column_changes_document :
  value_eqb (VDict doc) (VDict new_doc) = false.
Proof.
  destruct (value_eqb (VDict doc) (VDict new_doc)) eqn:E; [|done]. exfalso.
  apply value_eqb_eq in E. injection E as E.
  pose proof new_doc_schemas as Hs'.
  rewrite <- E, Hschemas in Hs'. injection Hs' as Hsd.
  assert (dict_get (dict_set sd "tables" new_tables) "tables" = Some new_tables)
    as Ht' by apply dict_get_set_eq.
  rewrite <- Hsd, Htables in Ht'. injection Ht' as Ht.
  destruct Htable as (Hj & _ & _). destruct Hcolumn as (Hi & _ & _).
  assert (map VDict tds !! j = Some (VDict td)) as Hj'.
  { change (map VDict tds) with (VDict <$> tds). by rewrite list_lookup_fmap, Hj. }
  assert (map VDict tds !! j = Some (VDict (without_column td cds i))) as Hj''.
  { rewrite Ht at 1. apply list_lookup_insert_eq.
    by apply lookup_lt_Some in Hj'. }
  rewrite Hj' in Hj''. injection Hj'' as Htd.
  assert (dict_get (without_column td cds i) "columns"
          = Some (VList (map VDict (delete i cds))))
    as Hc' by apply dict_get_set_eq.
  rewrite <- Htd, Hcolumns in Hc'. injection Hc' as Hc.
  apply (f_equal length) in Hc. rewrite !length_map in Hc.
  rewrite length_delete in Hc by eauto.
  apply lookup_lt_Some in Hi. lia.
Qed.

Lemma delete_column_goes_through :
  length cds ≠ 1%nat →
  (is_pk_dict cd = true →
   length (filter (λ d, is_pk_dict d = true) cds) ≠ 1%nat) →
  delete_column_body ev p v table_name column_name schema_name u s
  = (inr (success_response
            (VDict [("deleted_column", VStr column_name);
                    ("relationships_removed",
                      VInt (Z.of_nat (length rds)
                            - Z.of_nat
                                (length (kept_on_column_delete
                                           table_name column_name rds))))])
            ("Column '" +:+ column_name +:+ "' deleted successfully from table '"
             +:+ table_name +:+ "'")),
     with_dictionaries
       (<[DictionaryVersion.mongo_id row := new_doc]> (dictionaries s)) s).
Proof.
  intros Hlen Hpk. unfold delete_column_body.
  erewrite bind_inr by (by apply load_dictionary_found).
  simpl. rewrite Hschemas. simpl. rewrite Htables.
  simpl py_iter. mstep.
  rewrite (find_first_dicts _ _ tds j td 0 (table_matches_dict _ _) Htable).
  mstep. simpl py_get. rewrite Hcolumns. simpl default. mstep.
  simpl py_iter. mstep.
  rewrite (find_first_dicts _ (column_named column_name) cds i cd 0
             (λ d, get_eq_dict d "name" column_name) Hcolumn).
  mstep. rewrite length_map, (proj2 (Nat.eqb_neq _ _) Hlen). mstep.
  rewrite is_pk_column_dict. mstep.
  rewrite (filter_raising_dicts _ _ cds is_pk_column_dict). mstep.
  rewrite length_map.
  assert ((if is_pk_dict cd
           then if (length (filter (λ d, is_pk_dict d = true) cds) =? 1)%nat
                then raise (ValidationError
                              "Cannot delete the only primary key column")
                else ret ()
           else ret ()) = ret ()) as ->.
  { destruct (is_pk_dict cd); [|done].
    by rewrite (proj2 (Nat.eqb_neq _ _) (Hpk eq_refl)). }
  mstep. rewrite Hrels. simpl py_iter. mstep.
  rewrite (filter_raising_dicts _ _ rds
             (keeps_on_column_delete_dict table_name column_name)). mstep.
  cbn [Nat.add].
  replace (delete i (map VDict cds)) with (map VDict (delete i cds))
    by apply (list_fmap_delete VDict).
  erewrite bind_inr by (apply update_one_found, Hdoc).
  fold (without_column td cds i).
  fold (kept_on_column_delete table_name column_name rds).
  fold (column_deleted_document ev table_name column_name doc sd tds j td cds
          i rds).
  fold new_doc. rewrite delete_column_changes_document. simpl.
  unfold len_items. by rewrite !length_map.
Qed.

Lemma delete_column_only_primary_key :
  length cds ≠ 1%nat →
  is_pk_dict cd = true →
  length (filter (λ d, is_pk_dict d = true) cds) = 1%nat →
  delete_column_body ev p v table_name column_name schema_name u s
  = (inl (ValidationError "Cannot delete the only primary key column"), s).
Proof.
  intros Hlen Hpk Hone. unfold delete_column_body.
  erewrite bind_inr by (by apply load_dictionary_found).
  simpl. rewrite Hschemas. simpl. rewrite Htables.
  simpl py_iter. mstep.
  rewrite (find_first_dicts _ _ tds j td 0 (table_matches_dict _ _) Htable).
  mstep. simpl py_get. rewrite Hcolumns. simpl default. mstep.
  simpl py_iter. mstep.
  rewrite (find_first_dicts _ (column_named column_name) cds i cd 0
             (λ d, get_eq_dict d "name" column_name) Hcolumn).
  mstep. rewrite length_map, (proj2 (Nat.eqb_neq _ _) Hlen). mstep.
  rewrite is_pk_column_dict. mstep. rewrite Hpk.
  rewrite (filter_raising_dicts _ _ cds is_pk_column_dict). mstep.
  rewrite length_map, Hone. simpl. by mstep.
Qed.

(** C8: [delete_column], asked for a column that the first table of that
    name and schema holds, rejects with [ValidationError] when the column is
    the last one of the table, and rejects with [ValidationError] when it is
    the only primary-key column of the table; the route hands either
    rejection back as an error envelope and the stores stay as they were.
    In every other case the request succeeds and the stored document is the
    old one in which that table has lost exactly the column at the found
    index: the columns before it and after it are the old ones in the old
    order, the other entries of the table and the other tables are as
    before. *)
Theorem delete_column_rejections_and_removal :
  (length cds = 1%nat →
   delete_column_body ev p v table_name column_name schema_name u s
   = (inl (ValidationError "Cannot delete the last column in a table"), s)
   ∧ delete_column ev p v table_name column_name schema_name u s
     = (Returned (error_response "Cannot delete the last column in a table"
                                 500), s))
  ∧ (length cds ≠ 1%nat → is_pk_dict cd = true →
     length (filter (λ d, is_pk_dict d = true) cds) = 1%nat →
     delete_column_body ev p v table_name column_name schema_name u s
     = (inl (ValidationError "Cannot delete the only primary key column"), s)
     ∧ delete_column ev p v table_name column_name schema_name u s
       = (Returned (error_response "Cannot delete the only primary key column"
                                   500), s))
  ∧ (length cds ≠ 1%nat →
     (is_pk_dict cd = true →
      length (filter (λ d, is_pk_dict d = true) cds) ≠ 1%nat) →
     ∃ sd' tables',
       delete_column ev p v table_name column_name schema_name u s
       = (Returned
            (success_response
               (VDict [("deleted_column", VStr column_name);
                       ("relationships_removed",
                         VInt (Z.of_nat (length rds)
                               - Z.of_nat
                                   (length (kept_on_column_delete
                                              table_name column_name rds))))])
               ("Column '" +:+ column_name
                +:+ "' deleted successfully from table '" +:+ table_name
                +:+ "'")),
          with_dictionaries
            (<[DictionaryVersion.mongo_id row :=
                 column_deleted_document ev table_name column_name doc sd
                   tds j td cds i rds]> (dictionaries s)) s)
       ∧ dict_get (column_deleted_document ev table_name column_name doc sd
                     tds j td cds i rds) "schemas" = Some (VDict sd')
       ∧ dict_get sd' "tables" = Some (VList tables')
       ∧ tables' !! j = Some (VDict (without_column td cds i))
       ∧ (∀ k, k ≠ j → tables' !! k = map VDict tds !! k)
       ∧ dict_get (without_column td cds i) "columns"
         = Some (VList (map VDict (delete i cds)))
       ∧ (∀ k, k ≠ "columns" →
               dict_get (without_column td cds i) k = dict_get td k)
       ∧ length (delete i cds) = (length cds - 1)%nat
       ∧ (∀ k, (k < i)%nat → delete i cds !! k = cds !! k)
       ∧ (∀ k, (i ≤ k)%nat → delete i cds !! k = cds !! S k)).
Proof.
  split; [|split].
  - intros Hlen. pose proof (delete_column_last_column Hlen) as Hb.
    split; [done|]. unfold delete_column, route. by rewrite Hb.
  - intros Hlen Hpk Hone.
    pose proof (delete_column_only_primary_key Hlen Hpk Hone) as Hb.
    split; [done|]. unfold delete_column, route. by rewrite Hb.
  - intros Hlen Hpk. pose proof (delete_column_goes_through Hlen Hpk) as Hb.
    eexists _, _. split.
    { unfold delete_column, route. rewrite Hb. reflexivity. }
    split; [apply new_doc_schemas|].
    split; [apply dict_get_set_eq|].
    destruct Htable as (Hj & _ & _). destruct Hcolumn as (Hi & _ & _).
    split.
    { apply list_lookup_insert_eq. rewrite length_map.
      by apply lookup_lt_Some in Hj. }
    split.
    { intros k Hk. by apply list_lookup_insert_ne. }
    split; [apply dict_get_set_eq|].
    split.
    { intros k Hk. by apply dict_get_set_ne. }
    split; [apply length_delete; eauto|].
    split.
    + intros k Hk. by apply list_lookup_delete_lt.
    + intros k Hk. by apply list_lookup_delete_ge.
Qed.

End delete_column.

Lemma delete_column_rejections_and_removal_witness :
  (delete_column sample_env 0%N 1 "sample_table" "name" "public" "alice"
                 one_version_state).1
  = Returned
      (success_response
         (VDict [("deleted_column", VStr "name");
                 ("relationships_removed", VInt 0)])
         "Column 'name' deleted successfully from table 'sample_table'").
Proof.
  destruct (delete_column_rejections_and_removal
              one_version_state sample_env 0%N 1 "alice"
              "sample_table" "name" "public"
              (default (DictionaryVersion.Build_t 0 0 0 0 EmptyString None
                          false [] 0)
                       (head (dictionary_versions one_version_state)))
              (default [] (dictionaries one_version_state !! 0%N))
              [("tables", VList (map VDict sample_tables));
               ("relationships", VList [])]
              sample_tables 0
              (default [] (head sample_tables))
              sample_columns 1
              (default [] (sample_columns !! 1%nat))
              [])
    as (_ & _ & Hgo).
  - eexists. split; [left|]. done.
  - reflexivity.
  - reflexivity.
  - reflexivity.
  - reflexivity.
  - reflexivity.
  - split; [reflexivity|]. split; [reflexivity|]. intros k y Hk. lia.
  - reflexivity.
  - split; [reflexivity|]. split; [reflexivity|].
    intros [|k] y Hk Hy; [|lia]. injection Hy as <-. reflexivity.
  - reflexivity.
  - assert (length sample_columns ≠ 1%nat) as Hlen
      by (intros H; vm_compute in H; discriminate H).
    assert (is_pk_dict (default [] (sample_columns !! 1%nat)) = true →
            length (filter (λ d, is_pk_dict d = true) sample_columns) ≠ 1%nat)
      as Hpk by (intros H; vm_compute in H; discriminate H).
    destruct (Hgo Hlen Hpk) as (sd' & tables' & Hret & _).
    rewrite Hret. reflexivity.
Defined.

(** * Further properties of the routes *)

(** ** Access control *)

Lemma load_dictionary_not_owns ev p v u s :
  ¬ owns u p s →
  load_dictionary ev p v u s
  = (inl (HTTPException 403 "Access denied to this project"), s).
Proof.
  intros Hno. unfold load_dictionary.
  by erewrite bind_inl by (by apply require_project_access_not_owns).
Qed.

Lemma bob_is_a_stranger : ¬ owns "bob" 0%N one_version_state.
Proof. intros (row & Hin & _ & Hown). vm_compute in Hin.
  apply list_elem_of_singleton in Hin. subst row. discriminate Hown. Qed.

(** X1: a request to any route of [versions.py] or [tables.py] made by a
    user who does not own the project is refused with [HTTPException] 403
    "Access denied to this project", whatever else it asks for, and leaves
    both stores exactly as they were. *)
Theorem foreign_project_is_refused ev r s p u :
  request_scope r = Some (p, u) → ¬ owns u p s →
  serve ev r s = (Raised (HTTPException 403 "Access denied to this project"), s).
Proof.
  intros Hr Hno.
  pose proof (require_project_access_not_owns p u s Hno) as Ha.
  destruct r; simpl in Hr; simplify_eq; simpl;
    unfold list_versions, create_version, get_latest_version,
      get_specific_version, update_version, delete_version, list_tables,
      create_table, update_table, delete_table, delete_column, get_table,
      route, list_versions_body, create_version_body, get_latest_version_body,
      get_specific_version_body, update_version_body, delete_version_body,
      list_tables_body, create_table_body, update_table_body,
      delete_table_body, delete_column_body, get_table_body.
  all: first [ by erewrite bind_inl by exact Ha
             | by erewrite bind_inl by (by apply load_dictionary_not_owns) ].
Qed.

Lemma foreign_project_is_refused_witness :
  serve sample_env (DeleteVersion 0%N 1 "bob") one_version_state
  = (Raised (HTTPException 403 "Access denied to this project"),
     one_version_state).
Proof.
  apply (foreign_project_is_refused sample_env (DeleteVersion 0%N 1 "bob")
           one_version_state 0%N "bob").
  - reflexivity.
  - apply bob_is_a_stranger.
Defined.

(** ** Documents and the rows that point at them *)

Lemma same_documents_refl s : same_documents s s.
Proof. intros o. by destruct (dictionaries s !! o). Qed.

Lemma same_documents_eq s s' :
  dictionaries s' = dictionaries s → same_documents s s'.
Proof. intros H o. rewrite H. by destruct (dictionaries s !! o). Qed.

Lemma same_documents_trans s1 s2 s3 :
  same_documents s1 s2 → same_documents s2 s3 → same_documents s1 s3.
Proof.
  intros H12 H23 o. specialize (H12 o). specialize (H23 o).
  destruct (dictionaries s1 !! o), (dictionaries s2 !! o),
    (dictionaries s3 !! o); try done. auto.
Qed.

Lemma keeps_documents_ret {A} (a : A) : keeps_documents (ret a).
Proof. intros s. apply same_documents_refl. Qed.

Lemma keeps_documents_raise {A} e : keeps_documents (@raise A e).
Proof. intros s. apply same_documents_refl. Qed.

Lemma keeps_documents_lift {A} (r : exn + A) : keeps_documents (lift r).
Proof. intros s. apply same_documents_refl. Qed.

Lemma keeps_documents_get_state : keeps_documents get_state.
Proof. intros s. apply same_documents_refl. Qed.

Lemma keeps_documents_bind {A B} (m : M A) (f : A → M B) :
  keeps_documents m → (∀ a, keeps_documents (f a)) → keeps_documents (bind m f).
Proof.
  intros Hm Hf s. unfold bind. specialize (Hm s).
  destruct (m s) as [[e|a] s1]; simpl in *; [done|].
  eapply same_documents_trans; [exact Hm | apply Hf].
Qed.

Lemma keeps_documents_find_one o : keeps_documents (find_one o).
Proof. intros s. apply same_documents_refl. Qed.

Lemma keeps_documents_select_versions : keeps_documents select_versions.
Proof. intros s. apply same_documents_refl. Qed.

Lemma keeps_documents_require_project_access p u :
  keeps_documents (require_project_access p u).
Proof.
  apply keeps_documents_bind; [intros s; apply same_documents_refl|].
  intros []; [apply keeps_documents_ret | apply keeps_documents_raise].
Qed.

Lemma keeps_documents_require_mongodb ev : keeps_documents (require_mongodb ev).
Proof.
  unfold require_mongodb. destruct (mongodb_available ev);
    [apply keeps_documents_ret | apply keeps_documents_raise].
Qed.

Lemma keeps_documents_not_database ev : keeps_documents (not_database ev).
Proof.
  unfold not_database. destruct (mongodb_available ev);
    [apply keeps_documents_raise | apply keeps_documents_ret].
Qed.

Lemma keeps_documents_bson_encode v : keeps_documents (bson_encode v).
Proof.
  unfold bson_encode. destruct (bson_refusal v);
    [apply keeps_documents_raise | apply keeps_documents_ret].
Qed.

Lemma keeps_documents_get_version_mongo_id p v :
  keeps_documents (get_version_mongo_id p v).
Proof. intros s. apply same_documents_refl. Qed.

Lemma keeps_documents_update_versions P `{∀ r, Decision (P r)} f :
  keeps_documents (update_versions P f).
Proof. intros s. by apply same_documents_eq. Qed.

Lemma schemas_is_dict_set d k v :
  (k = "schemas" → ∃ sd, v = VDict sd) →
  schemas_is_dict d = true → schemas_is_dict (dict_set d k v) = true.
Proof.
  intros Hk Hd. unfold schemas_is_dict.
  destruct (decide (k = "schemas")) as [->|Hne].
  - rewrite dict_get_set_eq. by destruct (Hk eq_refl) as [sd ->].
  - by rewrite dict_get_set_ne.
Qed.

Lemma schemas_is_dict_update d fields :
  sets_schemas_dict fields →
  schemas_is_dict d = true → schemas_is_dict (dict_update d fields) = true.
Proof.
  unfold dict_update. intros Hf. revert d.
  induction Hf as [|[k v] fields Hkv _ IH]; intros d Hd; [done|].
  simpl. apply IH. by apply schemas_is_dict_set.
Qed.

Lemma keeps_documents_update_one o fields :
  sets_schemas_dict fields → keeps_documents (update_one o fields).
Proof.
  intros Hf s o'. unfold update_one, bind, get_state. simpl.
  destruct (dictionaries s !! o) as [d|] eqn:Hd; simpl.
  - destruct (decide (o' = o)) as [->|Hne].
    + rewrite Hd, lookup_insert_eq. by apply schemas_is_dict_update.
    + rewrite lookup_insert_ne by done. by destruct (dictionaries s !! o').
  - by destruct (dictionaries s !! o').
Qed.

Lemma sets_schemas_dict_set fields k v :
  (k = "schemas" → ∃ sd, v = VDict sd) →
  sets_schemas_dict fields → sets_schemas_dict (dict_set fields k v).
Proof.
  intros Hk Hf. induction Hf as [|[k' v'] fields Hkv Hf IH]; simpl.
  - by repeat constructor.
  - destruct (String.eqb k' k); constructor; done.
Qed.

Create HintDb documents discriminated.
#[global] Hint Resolve keeps_documents_ret keeps_documents_raise
  keeps_documents_lift keeps_documents_get_state keeps_documents_find_one
  keeps_documents_select_versions keeps_documents_require_project_access
  keeps_documents_require_mongodb keeps_documents_get_version_mongo_id
  keeps_documents_update_versions keeps_documents_not_database
  keeps_documents_bson_encode : documents.

(** The fields a route writes are given in full in its text. *)
Ltac fields_step :=
  match goal with
  | |- sets_schemas_dict (dict_set _ _ _) => apply sets_schemas_dict_set
  | |- sets_schemas_dict (match ?x with _ => _ end) => destruct x
  | |- sets_schemas_dict (if ?b then _ else _) => destruct b
  | |- sets_schemas_dict (_ :: _) =>
      apply Forall_cons; split;
      [|match goal with |- Forall _ ?l => change (sets_schemas_dict l) end]
  | |- sets_schemas_dict [] => constructor
  | |- _ = "schemas" → _ => simpl; intros ?; try discriminate; eauto
  end.

Ltac documents_step :=
  match goal with
  | |- keeps_documents (bind _ _) => apply keeps_documents_bind; [|intros ?]
  | |- keeps_documents (let '(_, _) := ?x in _) => destruct x
  | |- keeps_documents (match ?x with _ => _ end) => destruct x
  | |- keeps_documents (if ?b then _ else _) => destruct b
  | |- keeps_documents (update_one _ _) =>
      apply keeps_documents_update_one; repeat fields_step
  | |- keeps_documents _ => solve [auto with documents]
  end.
Ltac documents := repeat documents_step.

Lemma keeps_documents_load_dictionary ev p v u :
  keeps_documents (load_dictionary ev p v u).
Proof. unfold load_dictionary. documents. Qed.

#[global] Hint Resolve keeps_documents_load_dictionary : documents.

Lemma keeps_documents_list_versions p u :
  keeps_documents (list_versions_body p u).
Proof. unfold list_versions_body. documents. Qed.

Lemma keeps_documents_get_latest_version ev p u :
  keeps_documents (get_latest_version_body ev p u).
Proof. unfold get_latest_version_body. documents. Qed.

Lemma keeps_documents_get_specific_version ev p v u :
  keeps_documents (get_specific_version_body ev p v u).
Proof. unfold get_specific_version_body. documents. Qed.

Lemma keeps_documents_update_version ev p v u d :
  keeps_documents (update_version_body ev p v u d).
Proof. unfold update_version_body. documents. Qed.

Lemma keeps_documents_list_tables ev p v sn u :
  keeps_documents (list_tables_body ev p v sn u).
Proof. unfold list_tables_body. documents. Qed.

Lemma keeps_documents_create_table ev p v d u :
  keeps_documents (create_table_body ev p v d u).
Proof. unfold create_table_body. documents. Qed.

Lemma keeps_documents_update_table ev p v t d sn u :
  keeps_documents (update_table_body ev p v t d sn u).
Proof. unfold update_table_body. documents. Qed.

Lemma keeps_documents_delete_table ev p v t sn u :
  keeps_documents (delete_table_body ev p v t sn u).
Proof. unfold delete_table_body. documents. Qed.

Lemma keeps_documents_delete_column ev p v t c sn u :
  keeps_documents (delete_column_body ev p v t c sn u).
Proof. unfold delete_column_body. documents. Qed.

Lemma keeps_documents_get_table ev p v t sn u :
  keeps_documents (get_table_body ev p v t sn u).
Proof. unfold get_table_body. documents. Qed.

Lemma same_documents_route (body : M value) s :
  keeps_documents body → same_documents s (route body s).2.
Proof.
  intros H. specialize (H s). unfold route.
  destruct (body s) as [[e|a] s']; [destruct e|]; exact H.
Qed.

Lemma store_invariant_same s s' :
  same_index s s' → same_documents s s' →
  store_invariant s → store_invariant s'.
Proof.
  intros Hidx Hdocs [Hpresent Hdict]. split.
  - intros r' (r & Hr & Hkey)%(same_index_elem s s'); [|done].
    unfold index_key in Hkey.
    replace (DictionaryVersion.mongo_id r')
      with (DictionaryVersion.mongo_id r) by congruence.
    destruct (Hpresent r Hr) as [d Hd]. specialize (Hdocs (DictionaryVersion.mongo_id r)).
    rewrite Hd in Hdocs. by destruct (dictionaries s' !! _).
  - intros o d' Hd'. specialize (Hdocs o). rewrite Hd' in Hdocs.
    destruct (dictionaries s !! o) as [d|] eqn:Hd; [|done]. eauto.
Qed.

Lemma store_invariant_route (body : M value) s :
  keeps_index body → keeps_documents body →
  store_invariant s → store_invariant (route body s).2.
Proof.
  intros Hi Hd. apply store_invariant_same;
    [by apply same_index_route | by apply same_documents_route].
Qed.

Lemma NoDup_fmap_elem_inj {A B} (f : A → B) (l : list A) x y :
  NoDup (map f l) → x ∈ l → y ∈ l → f x = f y → x = y.
Proof.
  induction l as [|a l IH]; intros Hnd Hx Hy Hf; [by apply elem_of_nil in Hx|].
  simpl in Hnd. apply NoDup_cons in Hnd as [Ha Hnd].
  apply elem_of_cons in Hx as [->|Hx]; apply elem_of_cons in Hy as [->|Hy].
  - done.
  - exfalso. apply Ha. rewrite Hf. apply list_elem_of_fmap. eauto.
  - exfalso. apply Ha. rewrite <- Hf. apply list_elem_of_fmap. eauto.
  - by apply IH.
Qed.

Lemma schemas_is_dict_created ev p next d rels erd :
  schemas_is_dict
    (dictionary_doc_of ev p next d (convert_schemas (resolve_schemas d)) rels erd)
  = true.
Proof. unfold schemas_is_dict, convert_schemas. by destruct (resolve_schemas d). Qed.

Lemma created_state_store_invariant ev p d rels erd s :
  store_invariant s → store_invariant (created_state ev p d rels erd s).
Proof.
  intros [Hpresent Hdict]. split; simpl.
  - intros r' [Hr'|Hr']%elem_of_app.
    + apply elem_of_unset_latest in Hr' as (r & Hr & Hkey).
      unfold index_key in Hkey.
      replace (DictionaryVersion.mongo_id r')
        with (DictionaryVersion.mongo_id r) by congruence.
      apply lookup_insert_is_Some'. right. by apply Hpresent.
    + apply list_elem_of_singleton in Hr' as ->. simpl.
      apply lookup_insert_is_Some'. by left.
  - intros o doc [[_ <-]|[_ Hold]]%lookup_insert_Some.
    + apply schemas_is_dict_created.
    + by eapply Hdict.
Qed.

Lemma created_version_store_invariant ev p u d s :
  store_invariant s → store_invariant (create_version ev p u d s).2.
Proof.
  intros Hinv. unfold create_version, route.
  destruct (create_version_body_cases ev p u d s)
    as [[e ->]|(Hown & _ & rels & erd & resp & _ & ->)].
  - by destruct e.
  - simpl. by apply created_state_store_invariant.
Qed.

Lemma head_filter_version_elem v (rows : list DictionaryVersion.t) victim :
  head (filter (λ r, DictionaryVersion.version r = v) rows) = Some victim →
  victim ∈ rows ∧ DictionaryVersion.version victim = v.
Proof.
  intros Hhead.
  assert (victim ∈ filter (λ r, DictionaryVersion.version r = v) rows) as Hin.
  { destruct (filter _ rows) as [|x l]; [done|]. simpl in Hhead.
    injection Hhead as ->. left. }
  apply list_elem_of_filter in Hin. tauto.
Qed.

Lemma deleted_state_store_invariant ev p v victim s :
  index_invariant s →
  head (filter (λ r, DictionaryVersion.version r = v) (project_rows p s))
  = Some victim →
  store_invariant s → store_invariant (deleted_state ev p v victim s).
Proof.
  intros Hidx Hhead [Hpresent Hdict].
  apply head_filter_version_elem in Hhead as [Hvictim Hv].
  apply elem_of_project_rows in Hvictim as [Hvp Hvictim].
  destruct (promoted_rows_shape p v victim s) as (g & Hg & Heq).
  split; simpl.
  - rewrite Heq. intros r' (r & Hr & -> & Hne)%elem_of_remove_map.
    destruct (Hg r) as (Hgp & Hgv & Hgm). rewrite Hgm, Hgp, Hgv in *.
    destruct (mongodb_available ev); [|by apply Hpresent].
    rewrite lookup_delete_ne; [by apply Hpresent|].
    intros Heqm. apply Hne.
    assert (victim = r) as <-; [|done].
    eapply (NoDup_fmap_elem_inj DictionaryVersion.mongo_id);
      [apply (documents_distinct s Hidx)|done|done|done].
  - intros o d Hd. destruct (mongodb_available ev); [|by eapply Hdict].
    apply lookup_delete_Some in Hd as [_ Hd]. by eapply Hdict.
Qed.

Lemma deleted_version_store_invariant ev p v u s :
  index_invariant s →
  store_invariant s → store_invariant (delete_version ev p v u s).2.
Proof.
  intros Hidx Hinv. unfold delete_version, route.
  destruct (delete_version_body_cases ev p v u s)
    as [[e ->]|(_ & Hlen & victim & Hhead & ->)].
  - by destruct e.
  - simpl. by apply deleted_state_store_invariant.
Qed.

Lemma create_project_documents ev u d s :
  let s' := (create_project ev u d s).2 in
  (dictionary_versions s' = dictionary_versions s
   ∧ dictionaries s' = dictionaries s)
  ∨ (∃ row doc,
       dictionary_versions s' = dictionary_versions s ++ [row]
       ∧ DictionaryVersion.mongo_id row = next_oid s
       ∧ dictionaries s' = <[next_oid s := doc]> (dictionaries s)
       ∧ schemas_is_dict doc = true).
Proof.
  unfold create_project, project_route, create_project_body,
    create_initial_dictionary.
  destruct (mongodb_available ev) eqn:Hm; simpl.
  - right. eexists _, _. split; [reflexivity|]. split; [reflexivity|].
    split; reflexivity.
  - left. done.
Qed.

Lemma create_project_store_invariant ev u d s :
  store_invariant s → store_invariant (create_project ev u d s).2.
Proof.
  intros [Hpresent Hdict].
  destruct (create_project_documents ev u d s)
    as [[Hrows Hdocs]|(row & doc & Hrows & Hid & Hdocs & Hok)]; split.
  - rewrite Hrows, Hdocs. apply Hpresent.
  - rewrite Hdocs. apply Hdict.
  - rewrite Hrows, Hdocs. intros r [Hr|Hr]%elem_of_app.
    + apply lookup_insert_is_Some'. right. by apply Hpresent.
    + apply list_elem_of_singleton in Hr as ->. rewrite Hid.
      apply lookup_insert_is_Some'. by left.
  - rewrite Hdocs. intros o d' [[_ <-]|[_ Hold]]%lookup_insert_Some;
      [done | by eapply Hdict].
Qed.

Lemma lookup_foldr_delete {A} (m : gmap N A) (ids : list N) o :
  foldr delete m ids !! o = if decide (o ∈ ids) then None else m !! o.
Proof.
  induction ids as [|i ids IH].
  - destruct (decide (o ∈ [])) as [H|H]; [by apply elem_of_nil in H | done].
  - cbn [foldr]. destruct (decide (o = i)) as [->|Hne].
    + rewrite lookup_delete_eq.
      destruct (decide (i ∈ i :: ids)) as [|H]; [done|].
      exfalso. apply H. left.
    + rewrite lookup_delete_ne by done. rewrite IH.
      destruct (decide (o ∈ ids)) as [Hin|Hin],
        (decide (o ∈ i :: ids)) as [Hin'|Hin']; try done.
      * exfalso. apply Hin'. by right.
      * exfalso. apply elem_of_cons in Hin' as [?|?]; done.
Qed.

Lemma delete_project_documents ev p u s :
  let s' := (delete_project ev p u s).2 in
  s' = s
  ∨ (dictionary_versions s'
     = filter (λ r, DictionaryVersion.project_id r ≠ p) (dictionary_versions s)
     ∧ dictionaries s'
       = foldr delete (dictionaries s)
           (map DictionaryVersion.mongo_id (project_rows p s))).
Proof.
  unfold delete_project, project_route, delete_project_body, bind, get_state,
    lift, select_versions, ret, put_state, delete_many, raise, project_rows.
  simpl. destruct (single _) as [e|existing]; simpl.
  { left. by destruct e. }
  destruct (map DictionaryVersion.mongo_id _) as [|o os] eqn:Hids; simpl.
  { right. done. }
  destruct (mongodb_available ev); simpl; [right; done | left; done].
Qed.

Lemma delete_project_store_invariant ev p u s :
  index_invariant s →
  store_invariant s → store_invariant (delete_project ev p u s).2.
Proof.
  intros Hidx [Hpresent Hdict].
  destruct (delete_project_documents ev p u s) as [->|[Hrows Hdocs]];
    [done|]. split.
  - rewrite Hrows, Hdocs. intros r [Hrp Hr]%list_elem_of_filter.
    rewrite lookup_foldr_delete. rewrite decide_False; [by apply Hpresent|].
    intros (r2 & Hm & Hr2)%list_elem_of_fmap.
    apply elem_of_project_rows in Hr2 as [Hr2p Hr2].
    assert (r = r2) as ->; [|done].
    eapply (NoDup_fmap_elem_inj DictionaryVersion.mongo_id);
      [apply (documents_distinct s Hidx)|done|done|done].
  - rewrite Hdocs. intros o d Hd. rewrite lookup_foldr_delete in Hd.
    case_decide; [done|]. by eapply Hdict.
Qed.

Lemma initial_state_store_invariant : store_invariant initial_state.
Proof.
  split; simpl.
  - intros r Hr. by apply elem_of_nil in Hr.
  - intros o d Hd. by rewrite lookup_empty in Hd.
Qed.

Lemma serve_store_invariant ev r s :
  index_invariant s → store_invariant s → store_invariant (serve ev r s).2.
Proof.
  intros Hidx Hinv. destruct r; simpl.
  - by apply create_project_store_invariant.
  - by apply delete_project_store_invariant.
  - apply store_invariant_route; [| |done]. apply keeps_index_list_versions.
    apply keeps_documents_list_versions.
  - by apply created_version_store_invariant.
  - apply store_invariant_route; [| |done]. apply keeps_index_get_latest_version.
    apply keeps_documents_get_latest_version.
  - apply store_invariant_route; [| |done].
    apply keeps_index_get_specific_version.
    apply keeps_documents_get_specific_version.
  - apply store_invariant_route; [| |done]. apply keeps_index_update_version.
    apply keeps_documents_update_version.
  - by apply deleted_version_store_invariant.
  - apply store_invariant_route; [| |done]. apply keeps_index_list_tables.
    apply keeps_documents_list_tables.
  - apply store_invariant_route; [| |done]. apply keeps_index_create_table.
    apply keeps_documents_create_table.
  - apply store_invariant_route; [| |done]. apply keeps_index_update_table.
    apply keeps_documents_update_table.
  - apply store_invariant_route; [| |done]. apply keeps_index_delete_table.
    apply keeps_documents_delete_table.
  - apply store_invariant_route; [| |done]. apply keeps_index_delete_column.
    apply keeps_documents_delete_column.
  - apply store_invariant_route; [| |done]. apply keeps_index_get_table.
    apply keeps_documents_get_table.
Qed.

Lemma reachable_store_invariant s : reachable s → store_invariant s.
Proof.
  induction 1 as [|s ev r Hreach IH].
  - apply initial_state_store_invariant.
  - apply serve_store_invariant; [by apply reachable_invariant | done].
Qed.

Lemma load_dictionary_cases ev p v u s :
  (∃ e, load_dictionary ev p v u s = (inl e, s))
  ∨ (∃ o d, dictionaries s !! o = Some d
            ∧ load_dictionary ev p v u s
              = (inr (o, ("_id", VObjectId o) :: d), s)).
Proof.
  unfold load_dictionary.
  destruct (decide (owns u p s)) as [Hown|Hown].
  2:{ left. eexists.
      by erewrite bind_inl by (by apply require_project_access_not_owns). }
  erewrite bind_inr by (by apply require_project_access_owns).
  erewrite bind_inr by reflexivity.
  destruct (single _) as [e|row].
  { left. by eexists. }
  destruct (mongodb_available ev) eqn:Hm.
  2:{ left. eexists.
      by erewrite bind_inl by (by apply require_mongodb_unavailable). }
  erewrite bind_inr by (by apply require_mongodb_available).
  erewrite bind_inr by reflexivity.
  destruct (dictionaries s !! DictionaryVersion.mongo_id row) as [d|] eqn:Hd;
    simpl.
  - right. by exists (DictionaryVersion.mongo_id row), d.
  - left. by eexists.
Qed.

(** X2: in every state the service can reach, each version of a project
    has its document in the document store (no row of the version index
    points at a missing document), and the schemas of that document are
    kept in a dict. *)
Theorem every_version_has_its_document s p v :
  reachable s → v ∈ project_versions p s →
  ∃ doc sd, document_of p v s = Some doc
            ∧ dict_get doc "schemas" = Some (VDict sd).
Proof.
  intros Hreach Hv.
  destruct (reachable_store_invariant s Hreach) as [Hpresent Hdict].
  apply elem_of_project_versions in Hv as (r & Hr & Hrp & Hrv).
  unfold document_of.
  assert (r ∈ filter (λ r, DictionaryVersion.version r = v) (project_rows p s))
    as Hin.
  { apply list_elem_of_filter. split; [done|]. by apply elem_of_project_rows. }
  destruct (filter _ (project_rows p s)) as [|r' l] eqn:E;
    [by apply elem_of_nil in Hin|].
  assert (r' ∈ dictionary_versions s) as Hr'.
  { assert (r' ∈ r' :: l) as H by left. rewrite <- E in H.
    apply list_elem_of_filter in H as [_ H].
    by apply elem_of_project_rows in H as [_ H]. }
  destruct (Hpresent r' Hr') as [doc Hdoc]. exists doc.
  specialize (Hdict _ _ Hdoc). unfold schemas_is_dict in Hdict.
  destruct (dict_get doc "schemas") as [[]|]; try done. eauto.
Qed.

Lemma every_version_has_its_document_witness :
  ∃ doc sd, document_of 0%N 1 two_versions_state = Some doc
            ∧ dict_get doc "schemas" = Some (VDict sd).
Proof.
  apply (every_version_has_its_document two_versions_state 0%N 1).
  - apply reachable_two_versions_state.
  - vm_compute. left.
Defined.

(** X3: in every state the service can reach, [get_table] never returns a
    table: whatever project, version, table and schema are asked for and
    whoever asks, the request ends in an error (an exception or an error
    envelope) and the stores are left as they were. *)
Theorem get_table_never_returns_a_table s ev p v tn sn u :
  reachable s →
  reports_error (get_table ev p v tn sn u s).1
  ∧ (get_table ev p v tn sn u s).2 = s.
Proof.
  intros Hreach.
  destruct (reachable_store_invariant s Hreach) as [_ Hdict].
  unfold get_table, route, get_table_body.
  destruct (load_dictionary_cases ev p v u s)
    as [[e He]|(o & d & Hd & Hload)].
  { erewrite bind_inl by exact He. by destruct e. }
  erewrite bind_inr by exact Hload. simpl.
  specialize (Hdict _ _ Hd). unfold schemas_is_dict in Hdict.
  destruct (dict_get d "schemas") as [[| | | | | | | |sd]|]; try done.
  simpl. destruct sd as [|[k x] sd]; simpl; done.
Qed.

(** ** The latest version is the highest one *)

Lemma latest_is_highest_same s s' :
  same_index s s' → latest_is_highest s → latest_is_highest s'.
Proof.
  intros Hsame H p v.
  rewrite (same_index_latest_of s s' p Hsame),
    (same_index_project_versions s s' p Hsame). apply H.
Qed.

Lemma latest_is_highest_rows s s' :
  (∀ p, project_rows p s' = project_rows p s ∨ project_rows p s' = []) →
  latest_is_highest s → latest_is_highest s'.
Proof.
  intros Hrows H p v. unfold latest_of, project_versions.
  destruct (Hrows p) as [->| ->]; [apply H|].
  intros Hv. by apply elem_of_nil in Hv.
Qed.

Lemma latest_is_highest_created ev p d rels erd s :
  latest_is_highest s → latest_is_highest (created_state ev p d rels erd s).
Proof.
  intros H q v. rewrite latest_of_created, project_versions_created.
  case_decide; [subst q|apply H].
  intros ->%list_elem_of_singleton. split.
  - apply elem_of_app. right. left.
  - intros w [Hw|Hw]%elem_of_app.
    + apply list_elem_of_fmap in Hw as (r & -> & Hr).
      pose proof (next_version_of_above _ _ Hr). lia.
    + apply list_elem_of_singleton in Hw. lia.
Qed.

Lemma latest_is_highest_deleted ev p v victim s :
  index_invariant s → (2 ≤ length (project_rows p s))%nat →
  head (filter (λ r, DictionaryVersion.version r = v) (project_rows p s))
  = Some victim →
  latest_is_highest s → latest_is_highest (deleted_state ev p v victim s).
Proof.
  intros Hidx Hlen Hhead H q w.
  destruct (decide (q = p)) as [->|Hq].
  2:{ rewrite latest_of_deleted_other by done.
      rewrite project_versions_deleted.
      intros Hw. destruct (H q w Hw) as [Hin Hmax]. split.
      - apply list_elem_of_filter. split; [|done]. by intros [? _].
      - intros x [_ Hx]%list_elem_of_filter. by apply Hmax. }
  assert (project_rows p s ≠ []) as Hne.
  { intros E. rewrite E in Hlen. simpl in Hlen. lia. }
  pose proof (versions_unique s Hidx p) as Hnd.
  pose proof (one_latest s Hidx p Hne) as Hone.
  destruct (DictionaryVersion.is_latest victim) eqn:Hlat.
  - destruct (latest_of_deleted_latest ev p v victim s Hnd Hone Hlen Hhead Hlat)
      as (m & Hm & ->).
    by intros ->%list_elem_of_singleton.
  - rewrite (latest_of_deleted_not_latest ev p v victim s Hnd Hone Hhead Hlat).
    rewrite project_versions_deleted. intros Hw.
    destruct (H p w Hw) as [Hin Hmax]. split.
    + apply list_elem_of_filter. split; [|done]. intros [_ ->].
      apply elem_of_latest_of in Hw as (r & Hr & Hp & Hl & Hv).
      apply head_filter_version_elem in Hhead as [Hvic Hvv].
      assert (r = victim) as ->; [|congruence].
      apply (unique_version_row p s); [done| |done|congruence].
      by apply elem_of_project_rows.
    + intros x [_ Hx]%list_elem_of_filter. by apply Hmax.
Qed.

Lemma create_project_new_rows ev u d s q :
  index_invariant s →
  project_rows q (create_project ev u d s).2 = project_rows q s
  ∨ (∃ row, project_rows q (create_project ev u d s).2 = [row]
            ∧ DictionaryVersion.version row = 1
            ∧ DictionaryVersion.is_latest row = true).
Proof.
  intros Hidx.
  destruct (create_project_state ev u d s)
    as (prow & _ & _ & [(_ & Hrows & _)|(_ & (row & Hrows & Hkey) & _)]).
  { left. unfold project_rows. by rewrite Hrows. }
  unfold index_key in Hkey.
  rewrite (project_rows_app _ _ _ _ Hrows). fold (project_rows q s).
  replace (DictionaryVersion.project_id row) with (next_uuid s) by congruence.
  destruct (decide (next_uuid s = q)) as [<-|Hq].
  - right. exists row.
    assert (project_rows (next_uuid s) s = []) as ->.
    { destruct (project_rows (next_uuid s) s) as [|r l] eqn:E; [done|].
      assert (r ∈ project_rows (next_uuid s) s) as [Hp Hr]%elem_of_project_rows
        by (rewrite E; left).
      pose proof (projects_known s Hidx r Hr). lia. }
    split; [done|]. split; congruence.
  - left. by rewrite app_nil_r.
Qed.

Lemma latest_is_highest_create_project ev u d s :
  index_invariant s →
  latest_is_highest s → latest_is_highest (create_project ev u d s).2.
Proof.
  intros Hidx H q v. unfold latest_of, project_versions.
  destruct (create_project_new_rows ev u d s q Hidx)
    as [->|(row & -> & Hv & Hl)]; [apply H|].
  rewrite filter_cons_True by done. simpl.
  intros ->%list_elem_of_singleton. split; [left|].
  by intros w ->%list_elem_of_singleton.
Qed.

Lemma serve_latest_is_highest ev r s :
  index_invariant s → latest_is_highest s → latest_is_highest (serve ev r s).2.
Proof.
  intros Hidx H. destruct r; simpl.
  - by apply latest_is_highest_create_project.
  - apply (latest_is_highest_rows s); [|done]. intros q.
    destruct (delete_project_rows ev project_id user_id s q) as [?|[_ ?]]; auto.
  - eapply latest_is_highest_same; [|done].
    apply same_index_route, keeps_index_list_versions.
  - unfold create_version, route.
    destruct (create_version_body_cases ev project_id user_id version_data s)
      as [[e ->]|(Hown & _ & rels & erd & resp & _ & ->)]; [by destruct e|].
    by apply latest_is_highest_created.
  - eapply latest_is_highest_same; [|done].
    apply same_index_route, keeps_index_get_latest_version.
  - eapply latest_is_highest_same; [|done].
    apply same_index_route, keeps_index_get_specific_version.
  - eapply latest_is_highest_same; [|done].
    apply same_index_route, keeps_index_update_version.
  - unfold delete_version, route.
    destruct (delete_version_body_cases ev project_id version user_id s)
      as [[e ->]|(_ & Hlen & victim & Hhead & ->)]; [by destruct e|].
    by apply latest_is_highest_deleted.
  - eapply latest_is_highest_same; [|done].
    apply same_index_route, keeps_index_list_tables.
  - eapply latest_is_highest_same; [|done].
    apply same_index_route, keeps_index_create_table.
  - eapply latest_is_highest_same; [|done].
    apply same_index_route, keeps_index_update_table.
  - eapply latest_is_highest_same; [|done].
    apply same_index_route, keeps_index_delete_table.
  - eapply latest_is_highest_same; [|done].
    apply same_index_route, keeps_index_delete_column.
  - eapply latest_is_highest_same; [|done].
    apply same_index_route, keeps_index_get_table.
Qed.

Lemma reachable_latest_is_highest s : reachable s → latest_is_highest s.
Proof.
  induction 1 as [|s ev r Hreach IH].
  - intros p v Hv. by apply elem_of_nil in Hv.
  - apply serve_latest_is_highest; [by apply reachable_invariant | done].
Qed.

Lemma get_table_never_returns_a_table_witness :
  reports_error
    (get_table sample_env 0%N 1 "sample_table" "public" "alice"
               one_version_state).1
  ∧ (get_table sample_env 0%N 1 "sample_table" "public" "alice"
               one_version_state).2 = one_version_state.
Proof.
  apply (get_table_never_returns_a_table one_version_state).
  apply reachable_one_version_state.
Defined.

Lemma latest_rows_of_project p (rows : list DictionaryVersion.t) :
  filter (λ r, DictionaryVersion.project_id r = p
               ∧ DictionaryVersion.is_latest r = true) rows
  = filter (λ r, DictionaryVersion.is_latest r = true)
           (filter (λ r, DictionaryVersion.project_id r = p) rows).
Proof.
  induction rows as [|r rows IH]; [done|].
  destruct (decide (DictionaryVersion.project_id r = p)) as [Hp|Hp].
  - rewrite (filter_cons_True (λ r, DictionaryVersion.project_id r = p)) by done.
    destruct (decide (DictionaryVersion.is_latest r = true)) as [Hl|Hl].
    + rewrite !filter_cons_True by done. by rewrite IH.
    + rewrite !filter_cons_False by tauto. done.
  - rewrite !filter_cons_False by tauto. done.
Qed.

(** The row flagged latest of a project that has versions, in a state the
    service can reach. *)
Lemma reachable_latest_row s p :
  reachable s → project_rows p s ≠ [] →
  ∃ row, filter (λ r, DictionaryVersion.project_id r = p
                      ∧ DictionaryVersion.is_latest r = true)
                (dictionary_versions s) = [row]
         ∧ row ∈ project_rows p s
         ∧ DictionaryVersion.is_latest row = true
         ∧ is_max (DictionaryVersion.version row) (project_versions p s).
Proof.
  intros Hreach Hne.
  pose proof (reachable_invariant s Hreach) as Hidx.
  destruct (one_latest s Hidx p Hne) as [v Hv].
  rewrite latest_rows_of_project. fold (project_rows p s).
  unfold latest_of in Hv.
  destruct (filter _ (project_rows p s)) as [|row [|row' l]] eqn:E;
    simpl in Hv; try done.
  injection Hv as <-. exists row. split; [done|].
  assert (row ∈ filter (λ r, DictionaryVersion.is_latest r = true)
                       (project_rows p s)) as Hin by (rewrite E; left).
  apply list_elem_of_filter in Hin as [Hl Hin]. split; [done|]. split; [done|].
  apply (reachable_latest_is_highest s Hreach). unfold latest_of.
  rewrite E. left.
Qed.

(** X4: in every state the service can reach, the version flagged latest
    is the one with the highest number; so for the owner of a project that
    has versions, with the document store available, [get_latest_version]
    answers with the row of the highest-numbered version and with the
    document stored for it, and changes nothing. *)
Theorem get_latest_version_returns_highest s ev p u :
  reachable s → owns u p s → mongodb_available ev = true →
  project_rows p s ≠ [] →
  ∃ row doc,
    row ∈ project_rows p s
    ∧ DictionaryVersion.is_latest row = true
    ∧ is_max (DictionaryVersion.version row) (project_versions p s)
    ∧ dictionaries s !! DictionaryVersion.mongo_id row = Some doc
    ∧ get_latest_version ev p u s
      = (Returned
           (success_response
              (VDict [("version", DictionaryVersion.to_value row);
                      ("dictionary",
                        VDict (jsonable_dictionary
                                 (("_id", VObjectId
                                            (DictionaryVersion.mongo_id row))
                                  :: doc)))])
              "Latest version retrieved successfully"), s).
Proof.
  intros Hreach Hown Hm Hne.
  destruct (reachable_latest_row s p Hreach Hne)
    as (row & Hrows & Hin & Hl & Hmax).
  destruct (reachable_store_invariant s Hreach) as [Hpresent _].
  destruct (Hpresent row) as [doc Hdoc].
  { by apply elem_of_project_rows in Hin as [_ ?]. }
  exists row, doc. do 4 (split; [done|]).
  unfold get_latest_version, route, get_latest_version_body.
  erewrite bind_inr by (by apply require_project_access_owns).
  erewrite bind_inr by reflexivity. rewrite Hrows. simpl.
  erewrite bind_inr by (by apply require_mongodb_available).
  erewrite bind_inr by reflexivity. by rewrite Hdoc.
Qed.

Lemma get_latest_version_returns_highest_witness :
  ∃ row,
    DictionaryVersion.version row = 2
    ∧ ∃ doc,
        (get_latest_version sample_env 0%N "alice" two_versions_state).1
        = Returned
            (success_response
               (VDict [("version", DictionaryVersion.to_value row);
                       ("dictionary", VDict doc)])
               "Latest version retrieved successfully").
Proof.
  destruct (get_latest_version_returns_highest two_versions_state sample_env
              0%N "alice")
    as (row & doc & Hin & Hl & [Hv Hmax] & Hdoc & Hget).
  - apply reachable_two_versions_state.
  - apply alice_owns_two_versions_state.
  - reflexivity.
  - vm_compute. discriminate.
  - exists row. split.
    + assert (project_versions 0%N two_versions_state = [1; 2]) as E
        by (vm_compute; reflexivity).
      rewrite E in Hv, Hmax.
      assert (2 ≤ DictionaryVersion.version row) by (apply Hmax; right; left).
      apply elem_of_cons in Hv as [Hv|Hv]; [lia|].
      by apply list_elem_of_singleton in Hv.
    + eexists. rewrite Hget. reflexivity.
Defined.

Lemma version_desc_strict (l : list DictionaryVersion.t) :
  StronglySorted version_desc l → NoDup (map DictionaryVersion.version l) →
  StronglySorted
    (λ a b, DictionaryVersion.version b < DictionaryVersion.version a) l.
Proof.
  induction 1 as [|a l Hs IH Hall]; intros Hnd; [constructor|].
  simpl in Hnd. apply NoDup_cons in Hnd as [Ha Hnd].
  constructor; [by apply IH|].
  rewrite Forall_forall in Hall |- *. intros b Hb.
  specialize (Hall b Hb). unfold version_desc in Hall.
  assert (DictionaryVersion.version b ≠ DictionaryVersion.version a); [|lia].
  intros Heq. apply Ha. rewrite <- Heq. apply list_elem_of_fmap. eauto.
Qed.

(** X5: for the owner of a project, [list_versions] answers with all the
    rows of the project and only those, ordered by descending version
    number, and changes nothing; in a state the service can reach the
    numbers are strictly descending and the first row listed is the one
    flagged latest. *)
Theorem list_versions_newest_first s p u :
  reachable s → owns u p s →
  ∃ rows,
    list_versions p u s
    = (Returned
         (success_response
            (VDict [("versions", VList (map DictionaryVersion.to_value rows))])
            ("Found " +:+ pretty (Z.of_nat (length rows)) +:+ " versions")), s)
    ∧ rows ≡ₚ project_rows p s
    ∧ StronglySorted
        (λ a b, DictionaryVersion.version b < DictionaryVersion.version a) rows
    ∧ ∀ r, head rows = Some r → DictionaryVersion.is_latest r = true.
Proof.
  intros Hreach Hown.
  pose proof (reachable_invariant s Hreach) as Hidx.
  exists (order_version_desc (project_rows p s)).
  pose proof (merge_sort_Permutation version_desc (project_rows p s)) as Hperm.
  pose proof (StronglySorted_merge_sort version_desc (project_rows p s)) as Hs.
  fold order_version_desc in Hperm, Hs.
  split; [|split; [done|split]].
  - unfold list_versions, route, list_versions_body.
    erewrite bind_inr by (by apply require_project_access_owns).
    erewrite bind_inr by reflexivity. reflexivity.
  - apply version_desc_strict; [done|].
    change (map ?f ?l) with (f <$> l). rewrite Hperm.
    apply (versions_unique s Hidx p).
  - intros r Hhead.
    destruct (order_version_desc (project_rows p s)) as [|top rest] eqn:E;
      [done|]. simpl in Hhead. injection Hhead as ->.
    pose proof (order_version_desc_head _ _ _ E) as Hmax.
    assert (r ∈ project_rows p s) as Hr by (rewrite <- Hperm; left).
    destruct (reachable_latest_row s p Hreach)
      as (row & _ & Hin & Hl & Hrmax).
    { intros E'. rewrite E' in Hr. by apply elem_of_nil in Hr. }
    assert (row = r) as <-; [|done].
    apply (unique_version_row p s); [apply (versions_unique s Hidx p)|done..|].
    by apply (is_max_unique _ _ (project_versions p s)).
Qed.

Lemma list_versions_newest_first_witness :
  ∃ newest older,
    (list_versions 0%N "alice" two_versions_state).1
    = Returned
        (success_response
           (VDict [("versions",
                    VList (map DictionaryVersion.to_value [newest; older]))])
           "Found 2 versions")
    ∧ DictionaryVersion.is_latest newest = true.
Proof.
  destruct (list_versions_newest_first two_versions_state 0%N "alice")
    as (rows & Hlist & Hperm & _ & Hhead).
  - apply reachable_two_versions_state.
  - apply alice_owns_two_versions_state.
  - apply Permutation_length in Hperm.
    destruct rows as [|newest [|older [|]]]; try discriminate Hperm.
    exists newest, older. split; [by rewrite Hlist | by apply Hhead].
Defined.

(** ** The table routes on a stored document *)

Lemma dict_get_update_ne d fields k :
  Forall (λ kv, kv.1 ≠ k) fields →
  dict_get (dict_update d fields) k = dict_get d k.
Proof.
  unfold dict_update. intros Hf. revert d.
  induction Hf as [|[k' v] fields Hk _ IH]; intros d; [done|].
  simpl. rewrite IH. by apply dict_get_set_ne.
Qed.

Lemma dict_get_update_head d k v fields :
  Forall (λ kv, kv.1 ≠ k) fields →
  dict_get (dict_update d ((k, v) :: fields)) k = Some v.
Proof.
  intros Hf. unfold dict_update. simpl.
  change (fold_left _ fields ?d0) with (dict_update d0 fields).
  rewrite dict_get_update_ne by done. apply dict_get_set_eq.
Qed.

(** A [$set] that puts other tables under [schemas] changes the
    document. *)
Lemma update_changes_document doc sd tables tables' fields :
  dict_get doc "schemas" = Some (VDict sd) →
  dict_get sd "tables" = Some tables →
  tables' ≠ tables →
  Forall (λ kv, kv.1 ≠ "schemas") fields →
  value_eqb (VDict doc)
    (VDict (dict_update doc
              (("schemas", VDict (dict_set sd "tables" tables')) :: fields)))
  = false.
Proof.
  intros Hs Ht Hne Hf.
  destruct (value_eqb _ _) eqn:E; [|done]. exfalso.
  apply value_eqb_eq in E. injection E as E.
  assert (dict_get doc "schemas" = Some (VDict (dict_set sd "tables" tables')))
    as Hs'.
  { rewrite E at 1.
    by apply (dict_get_update_head doc "schemas"
                (VDict (dict_set sd "tables" tables')) fields). }
  rewrite Hs in Hs'. injection Hs' as Hsd.
  pose proof (dict_get_set_eq sd "tables" tables') as Ht'.
  rewrite <- Hsd, Ht in Ht'. by injection Ht' as <-.
Qed.

Ltac other_keys := repeat (apply Forall_cons; split; [simpl; discriminate|]);
                   constructor.

Lemma value_eqb_refl x : value_eqb x x = true.
Proof.
  induction x as [ |b|z|q|t|t|o|l IHl|d IHd] using value_ind_nested; simpl.
  - done.
  - by destruct b.
  - apply Z.eqb_refl.
  - by rewrite Z.eqb_refl, Pos.eqb_refl.
  - apply String.eqb_refl.
  - apply Z.eqb_refl.
  - apply N.eqb_refl.
  - induction IHl as [|x l Hx _ IH]; [done|]. by rewrite Hx, IH.
  - induction IHd as [|[k x] d Hx _ IH]; [done|].
    simpl in Hx. by rewrite String.eqb_refl, Hx, IH.
Qed.

Lemma value_eqb_false x y : x ≠ y → value_eqb x y = false.
Proof.
  intros Hne. destruct (value_eqb x y) eqn:E; [|done].
  by apply value_eqb_eq in E.
Qed.

Lemma with_dictionaries_same s d o :
  dictionaries s !! o = Some d →
  with_dictionaries (<[o := d]> (dictionaries s)) s = s.
Proof. intros H. rewrite insert_id by done. by destruct s. Qed.

Lemma bson_refusal_kind v e : bson_refusal v = Some e → encoder_error e.
Proof.
  revert e.
  induction v as [ |b|z|q|t|t|o|l IHl|d IHd] using value_ind_nested;
    intros e; simpl; try discriminate.
  - destruct (bson_int z); [discriminate|]. intros [= <-]. eexists. by left.
  - induction IHl as [|x l Hx _ IH]; [discriminate|].
    destruct (bson_refusal x) as [e'|] eqn:E; [|exact IH].
    intros [= <-]. by apply Hx.
  - induction IHd as [|[k x] d Hx _ IH]; [discriminate|].
    destruct (bson_key k).
    + destruct (bson_refusal x) as [e'|] eqn:E; [|exact IH].
      intros [= <-]. by apply Hx.
    + intros [= <-]. eexists. by right.
Qed.

Lemma bson_encode_refuses v s :
  bson_encodable v = false →
  ∃ e, bson_encode v s = (inl e, s) ∧ encoder_error e.
Proof.
  unfold bson_encode, bson_encodable.
  destruct (bson_refusal v) as [e|] eqn:E; [|done]. intros _.
  exists e. split; [done|]. by apply (bson_refusal_kind v).
Qed.

Section stored_tables.
Context (s : state) (ev : env) (p : uuid) (v : Z) (u : string).
Context (row : DictionaryVersion.t) (doc sd : list (string * value)).
Context (tds : list (list (string * value))).
Context (rds : list (list (string * value))).

Hypothesis Hown : owns u p s.
Hypothesis Hmongo : mongodb_available ev = true.
Hypothesis Hrow :
  filter (λ r, DictionaryVersion.project_id r = p
               ∧ DictionaryVersion.version r = v) (dictionary_versions s)
  = [row].
Hypothesis Hdoc : dictionaries s !! DictionaryVersion.mongo_id row = Some doc.
Hypothesis Hschemas : dict_get doc "schemas" = Some (VDict sd).
Hypothesis Htables : dict_get sd "tables" = Some (VList (map VDict tds)).
Hypothesis Hrels :
  default (VList []) (dict_get doc "relationships") = VList (map VDict rds).

Lemma create_table_body_conflict d j td :
  first_match (table_named (TableRequest.name d) (TableRequest.schema_name d))
              tds j td →
  create_table_body ev p v d u s
  = (inl (ConflictError
            ("Table '" +:+ TableRequest.name d +:+ "' already exists in schema '"
             +:+ TableRequest.schema_name d +:+ "'")), s).
Proof.
  intros Hclash. unfold create_table_body.
  erewrite bind_inr by (by apply load_dictionary_found).
  simpl. rewrite Hschemas. simpl. rewrite Htables. rewrite Htables.
  simpl. mstep.
  rewrite (find_first_dicts _ _ tds j td 0 (table_matches_dict _ _) Hclash).
  by mstep.
Qed.

Lemma create_table_body_appends d :
  Forall (λ td, table_named (TableRequest.name d) (TableRequest.schema_name d)
                            td = false) tds →
  storable_table d →
  create_table_body ev p v d u s
  = (inr (success_response
            (VDict [("table", VDict (created_table d))])
            ("Table '" +:+ TableRequest.name d
             +:+ "' created successfully in schema '"
             +:+ TableRequest.schema_name d +:+ "'")),
     with_dictionaries
       (<[DictionaryVersion.mongo_id row :=
            table_created_document ev d doc sd tds]> (dictionaries s)) s).
Proof.
  intros Hfree Hstorable. unfold create_table_body.
  erewrite bind_inr by (by apply load_dictionary_found).
  simpl. rewrite Hschemas. simpl. rewrite Htables. rewrite Htables.
  simpl. mstep.
  rewrite (find_first_dicts_none _ _ tds 0 (table_matches_dict _ _) Hfree).
  mstep. erewrite bind_inr by (by apply bson_encode_ok).
  fold (created_table d).
  erewrite bind_inr by (apply update_one_found, Hdoc).
  fold (table_created_document ev d doc sd tds).
  unfold table_created_document.
  rewrite (update_changes_document doc sd (VList (map VDict tds))); try done.
  - intros H. injection H as H. apply (f_equal length) in H.
    rewrite length_app in H. simpl in H. lia.
  - other_keys.
Qed.

Lemma create_table_body_refused d :
  Forall (λ td, table_named (TableRequest.name d) (TableRequest.schema_name d)
                            td = false) tds →
  ¬ storable_table d →
  ∃ e, create_table_body ev p v d u s = (inl e, s) ∧ encoder_error e.
Proof.
  intros Hfree Hno. unfold create_table_body.
  erewrite bind_inr by (by apply load_dictionary_found).
  simpl. rewrite Hschemas. simpl. rewrite Htables. rewrite Htables.
  simpl. mstep.
  rewrite (find_first_dicts_none _ _ tds 0 (table_matches_dict _ _) Hfree).
  mstep.
  destruct (bson_encode_refuses (VDict (TableRequest.model_dump d)) s)
    as (e & He & Hkind).
  { unfold storable_table in Hno. by destruct (bson_encodable _). }
  exists e. split; [|done]. by erewrite bind_inl by exact He.
Qed.

(** X6: [create_table] on a version whose document keeps its tables as a
    list of dicts.  When a stored table already has the name and the
    schema name of the request, the route answers with the error envelope
    of [ConflictError] (code 500) and the stores stay as they were.
    Otherwise, for a request the document store can hold (every integer
    it brings fits 8 bytes), it succeeds: the new table is put after the
    stored ones, which stay as they are and in their order; it carries the
    name and the schema name of the request, the columns of the request,
    or the single default column [id] when the request has none; every
    entry of the document other than [schemas] and [updated_at] is as
    before.  A request the store cannot hold is answered with the error
    envelope of the driver's [OverflowError] and changes nothing. *)
Theorem create_table_appends_or_conflicts d :
  (∀ j td,
     first_match (table_named (TableRequest.name d) (TableRequest.schema_name d))
                 tds j td →
     create_table ev p v d u s
     = (Returned
          (error_response
             ("Table '" +:+ TableRequest.name d
              +:+ "' already exists in schema '"
              +:+ TableRequest.schema_name d +:+ "'") 500), s))
  ∧ (Forall (λ td, table_named (TableRequest.name d)
                               (TableRequest.schema_name d) td = false) tds →
     (storable_table d →
      create_table ev p v d u s
      = (Returned
           (success_response
              (VDict [("table", VDict (created_table d))])
              ("Table '" +:+ TableRequest.name d
               +:+ "' created successfully in schema '"
               +:+ TableRequest.schema_name d +:+ "'")),
         with_dictionaries
           (<[DictionaryVersion.mongo_id row :=
                table_created_document ev d doc sd tds]> (dictionaries s)) s))
     ∧ (¬ storable_table d →
        ∃ message,
          create_table ev p v d u s
          = (Returned (error_response message 500), s))
     ∧ dict_get (table_created_document ev d doc sd tds) "schemas"
       = Some (VDict (dict_set sd "tables"
                        (VList (map VDict (tds ++ [created_table d])))))
     ∧ (∀ k, k ≠ "schemas" → k ≠ "updated_at" →
             dict_get (table_created_document ev d doc sd tds) k
             = dict_get doc k)
     ∧ dict_get (created_table d) "name" = Some (VStr (TableRequest.name d))
     ∧ dict_get (created_table d) "schema_name"
       = Some (VStr (TableRequest.schema_name d))
     ∧ dict_get (created_table d) "columns"
       = Some (VList (match TableRequest.columns d with
                      | [] => [default_id_column]
                      | columns => map Column.model_dump columns
                      end))).
Proof.
  split.
  - intros j td Hclash. unfold create_table, route.
    by rewrite (create_table_body_conflict d j td Hclash).
  - intros Hfree. split.
    { intros Hstorable. unfold create_table, route.
      by rewrite (create_table_body_appends d Hfree Hstorable). }
    split.
    { intros Hno.
      destruct (create_table_body_refused d Hfree Hno) as (e & He & Hkind).
      exists (exn_str e). unfold create_table, route. rewrite He.
      by destruct Hkind as [m [-> | ->]]. }
    split.
    { unfold table_created_document. rewrite map_app.
      apply dict_get_update_head. other_keys. }
    split.
    { intros k Hk1 Hk2. unfold table_created_document.
      apply dict_get_update_ne.
      repeat (apply Forall_cons; split; [simpl; congruence|]). constructor. }
    unfold created_table, TableRequest.model_dump.
    destruct (TableRequest.description d), (TableRequest.columns d); done.
Qed.

Lemma delete_table_body_not_found table_name schema_name :
  Forall (λ td, table_named table_name schema_name td = false) tds →
  delete_table_body ev p v table_name schema_name u s
  = (inl (table_not_found table_name schema_name), s).
Proof.
  intros Hnone. unfold delete_table_body.
  erewrite bind_inr by (by apply load_dictionary_found).
  simpl. rewrite Hschemas. simpl. rewrite Htables. simpl py_iter. mstep.
  rewrite (find_first_dicts_none _ _ tds 0 (table_matches_dict _ _) Hnone).
  by mstep.
Qed.

Lemma delete_table_body_removes table_name schema_name j td :
  first_match (table_named table_name schema_name) tds j td →
  delete_table_body ev p v table_name schema_name u s
  = (inr (success_response
            (VDict [("deleted_table", VDict td);
                    ("relationships_removed",
                      VInt (Z.of_nat (length rds)
                            - Z.of_nat (length (kept_on_table_delete
                                                  table_name rds))))])
            ("Table '" +:+ table_name +:+ "' deleted successfully from schema '"
             +:+ schema_name +:+ "'")),
     with_dictionaries
       (<[DictionaryVersion.mongo_id row :=
            table_deleted_document ev table_name doc sd tds j rds]>
          (dictionaries s)) s).
Proof.
  intros Hfound. unfold delete_table_body.
  erewrite bind_inr by (by apply load_dictionary_found).
  simpl. rewrite Hschemas. simpl. rewrite Htables. simpl py_iter. mstep.
  rewrite (find_first_dicts _ _ tds j td 0 (table_matches_dict _ _) Hfound).
  mstep. rewrite Hrels. simpl py_iter. mstep.
  rewrite (filter_raising_dicts _ _ rds (keeps_on_table_delete_dict table_name)).
  mstep. cbn [Nat.add].
  replace (delete j (map VDict tds)) with (map VDict (delete j tds))
    by apply (list_fmap_delete VDict).
  erewrite bind_inr by (apply update_one_found, Hdoc).
  fold (kept_on_table_delete table_name rds).
  fold (table_deleted_document ev table_name doc sd tds j rds).
  unfold table_deleted_document at 1.
  rewrite (update_changes_document doc sd (VList (map VDict tds))); try done.
  - simpl. unfold len_items. by rewrite !length_map.
  - intros H. injection H as H. apply (f_equal length) in H.
    rewrite !length_map in H. destruct Hfound as (Hj & _).
    rewrite length_delete in H by eauto. apply lookup_lt_Some in Hj. lia.
  - other_keys.
Qed.

(** X7: [delete_table] on a version whose document keeps its tables as a
    list of dicts.  When no stored table has the name and the schema name
    asked for, the route answers with the error envelope of
    [NotFoundError] (code 500; the constructor appends " not found" to a
    message that already says so) and the stores stay as they were.
    Otherwise it succeeds, also for the only table of the version: the
    first stored table of that name and schema is taken out and returned,
    the other tables stay as they are and in their order, and every entry
    of the document other than [schemas], [relationships] and
    [updated_at] is as before. *)
Theorem delete_table_removes_first_match table_name schema_name :
  (Forall (λ td, table_named table_name schema_name td = false) tds →
   delete_table ev p v table_name schema_name u s
   = (Returned (error_response
                  (("Table '" +:+ table_name +:+ "' not found in schema '"
                    +:+ schema_name +:+ "'") +:+ " not found") 500), s))
  ∧ (∀ j td,
       first_match (table_named table_name schema_name) tds j td →
       delete_table ev p v table_name schema_name u s
       = (Returned
            (success_response
               (VDict [("deleted_table", VDict td);
                       ("relationships_removed",
                         VInt (Z.of_nat (length rds)
                               - Z.of_nat (length (kept_on_table_delete
                                                     table_name rds))))])
               ("Table '" +:+ table_name
                +:+ "' deleted successfully from schema '"
                +:+ schema_name +:+ "'")),
          with_dictionaries
            (<[DictionaryVersion.mongo_id row :=
                 table_deleted_document ev table_name doc sd tds j rds]>
               (dictionaries s)) s)
       ∧ dict_get (table_deleted_document ev table_name doc sd tds j rds)
                  "schemas"
         = Some (VDict (dict_set sd "tables" (VList (map VDict (delete j tds)))))
       ∧ length (delete j tds) = (length tds - 1)%nat
       ∧ (∀ k, (k < j)%nat → delete j tds !! k = tds !! k)
       ∧ (∀ k, (j ≤ k)%nat → delete j tds !! k = tds !! S k)
       ∧ (∀ k, k ≠ "schemas" → k ≠ "relationships" → k ≠ "updated_at" →
               dict_get (table_deleted_document ev table_name doc sd tds j rds) k
               = dict_get doc k)).
Proof.
  split.
  - intros Hnone. unfold delete_table, route.
    by rewrite (delete_table_body_not_found _ _ Hnone).
  - intros j td Hfound. split.
    { unfold delete_table, route.
      by rewrite (delete_table_body_removes _ _ j td Hfound). }
    split.
    { unfold table_deleted_document. apply dict_get_update_head. other_keys. }
    destruct Hfound as (Hj & _).
    split; [apply length_delete; eauto|].
    split; [intros k Hk; by apply list_lookup_delete_lt|].
    split; [intros k Hk; by apply list_lookup_delete_ge|].
    intros k Hk1 Hk2 Hk3. unfold table_deleted_document.
    apply dict_get_update_ne.
    repeat (apply Forall_cons; split; [simpl; congruence|]). constructor.
Qed.

Lemma list_tables_body_dicts schema_name :
  list_tables_body ev p v schema_name u s
  = (inr (success_response
            (VDict [("tables", VList (map VDict (listed_tables schema_name tds)));
                    ("schema", from_option VStr VNone schema_name);
                    ("count",
                      VInt (Z.of_nat (length (listed_tables schema_name tds))))])
            ("Found "
             +:+ pretty (Z.of_nat (length (listed_tables schema_name tds)))
             +:+ " tables in schema "
             +:+ from_option (λ x, x) "None" schema_name)), s).
Proof.
  unfold list_tables_body.
  erewrite bind_inr by (by apply load_dictionary_found).
  simpl. rewrite Hschemas. simpl. rewrite Htables. unfold listed_tables.
  destruct (truthy_text schema_name).
  - simpl py_iter. mstep.
    rewrite (filter_raising_dicts _ _ tds
               (λ d, get_eq_dict d "schema_name" (default EmptyString schema_name))).
    mstep. by rewrite !length_map.
  - mstep. by rewrite !length_map.
Qed.

(** X8: [list_tables] on a version whose document keeps its tables as a
    list of dicts answers, for the owner, with the stored tables whose
    [schema_name] is the one asked for, in their stored order, and with
    their number; with no schema name, or an empty one, it answers with
    all the stored tables.  Nothing is changed. *)
Theorem list_tables_filters_by_schema schema_name :
  list_tables ev p v schema_name u s
  = (Returned
       (success_response
          (VDict [("tables", VList (map VDict (listed_tables schema_name tds)));
                  ("schema", from_option VStr VNone schema_name);
                  ("count",
                    VInt (Z.of_nat (length (listed_tables schema_name tds))))])
          ("Found "
           +:+ pretty (Z.of_nat (length (listed_tables schema_name tds)))
           +:+ " tables in schema "
           +:+ from_option (λ x, x) "None" schema_name)), s)
  ∧ (∀ td, td ∈ listed_tables schema_name tds
           ↔ td ∈ tds
             ∧ (truthy_text schema_name = true →
                has_text td "schema_name" (default EmptyString schema_name)
                = true))
  ∧ listed_tables schema_name tds `sublist_of` tds.
Proof.
  split; [|split].
  - unfold list_tables, route. by rewrite list_tables_body_dicts.
  - intros td. unfold listed_tables. destruct (truthy_text schema_name).
    + rewrite list_elem_of_filter. tauto.
    + split; [intros H; split; [done|discriminate] | tauto].
  - unfold listed_tables. destruct (truthy_text schema_name);
      [apply sublist_filter | done].
Qed.

Lemma update_table_body_conflict table_name schema_name d j td j' td' :
  first_match (table_named table_name schema_name) tds j td →
  TableRequest.name d ≠ table_name →
  first_match (table_named (TableRequest.name d) schema_name) tds j' td' →
  update_table_body ev p v table_name d schema_name u s
  = (inl (ConflictError
            ("Table '" +:+ TableRequest.name d +:+ "' already exists")), s).
Proof.
  intros Hfound Hname Hclash. unfold update_table_body.
  erewrite bind_inr by (by apply load_dictionary_found).
  simpl. rewrite Hschemas. simpl. rewrite Htables. simpl py_iter. mstep.
  rewrite (find_first_dicts _ _ tds j td 0 (table_matches_dict _ _) Hfound).
  mstep. simpl py_get. mstep.
  rewrite (proj2 (String.eqb_neq _ _) Hname). simpl negb. cbn iota.
  rewrite (find_first_dicts _ _ tds j' td' 0 (table_matches_dict _ _) Hclash).
  by mstep.
Qed.

Lemma update_table_body_replaces table_name schema_name d j td :
  first_match (table_named table_name schema_name) tds j td →
  TableRequest.name d = table_name
  ∨ Forall (λ td, table_named (TableRequest.name d) schema_name td = false) tds →
  storable_table d →
  update_table_body ev p v table_name d schema_name u s
  = (if value_eqb (VDict doc)
          (VDict (table_updated_document ev d doc sd tds j td))
     then inl (DatabaseError "Failed to update table")
     else inr (success_response
                 (VDict [("table", VDict (TableRequest.model_dump d))])
                 ("Table '" +:+ table_name +:+ "' updated successfully")),
     with_dictionaries
       (<[DictionaryVersion.mongo_id row :=
            table_updated_document ev d doc sd tds j td]> (dictionaries s)) s).
Proof.
  intros Hfound Hfree Hstorable. unfold update_table_body.
  match goal with |- _ = ?r => remember r as result eqn:Hresult end.
  erewrite bind_inr by (by apply load_dictionary_found).
  simpl. rewrite Hschemas. simpl. rewrite Htables. simpl py_iter. mstep.
  rewrite (find_first_dicts _ _ tds j td 0 (table_matches_dict _ _) Hfound).
  mstep. simpl py_get. mstep.
  assert ((if negb (String.eqb (TableRequest.name d) table_name)
           then
             bind (lift (find_first
                           (table_matches (TableRequest.name d) schema_name)
                           (map VDict tds) 0))
                  (λ clash,
                     match clash with
                     | Some _ =>
                         raise (ConflictError
                                  ("Table '" +:+ TableRequest.name d
                                   +:+ "' already exists"))
                     | None => ret ()
                     end)
           else ret ()) = ret ()) as ->.
  { destruct (String.eqb (TableRequest.name d) table_name) eqn:E; [done|].
    destruct Hfree as [Hsame|Hnone].
    - apply String.eqb_eq in Hsame. congruence.
    - simpl. by rewrite (find_first_dicts_none _ _ tds 0
                           (table_matches_dict _ _) Hnone). }
  mstep. cbn [Nat.add].
  erewrite bind_inr by (by apply bson_encode_ok).
  erewrite bind_inr by (apply update_one_found, Hdoc).
  change (value_eqb (VDict doc) (VDict (dict_update doc _)))
    with (value_eqb (VDict doc)
            (VDict (table_updated_document ev d doc sd tds j td))).
  subst result. by destruct (value_eqb _ _).
Qed.

Lemma update_table_body_refused table_name schema_name d j td :
  first_match (table_named table_name schema_name) tds j td →
  TableRequest.name d = table_name
  ∨ Forall (λ td, table_named (TableRequest.name d) schema_name td = false) tds →
  ¬ storable_table d →
  ∃ e, update_table_body ev p v table_name d schema_name u s = (inl e, s)
       ∧ encoder_error e.
Proof.
  intros Hfound Hfree Hno. unfold update_table_body.
  erewrite bind_inr by (by apply load_dictionary_found).
  simpl. rewrite Hschemas. simpl. rewrite Htables. simpl py_iter. mstep.
  rewrite (find_first_dicts _ _ tds j td 0 (table_matches_dict _ _) Hfound).
  mstep. simpl py_get. mstep.
  assert ((if negb (String.eqb (TableRequest.name d) table_name)
           then
             bind (lift (find_first
                           (table_matches (TableRequest.name d) schema_name)
                           (map VDict tds) 0))
                  (λ clash,
                     match clash with
                     | Some _ =>
                         raise (ConflictError
                                  ("Table '" +:+ TableRequest.name d
                                   +:+ "' already exists"))
                     | None => ret ()
                     end)
           else ret ()) = ret ()) as ->.
  { destruct (String.eqb (TableRequest.name d) table_name) eqn:E; [done|].
    destruct Hfree as [Hsame|Hnone].
    - apply String.eqb_eq in Hsame. congruence.
    - simpl. by rewrite (find_first_dicts_none _ _ tds 0
                           (table_matches_dict _ _) Hnone). }
  mstep.
  destruct (bson_encode_refuses (VDict (TableRequest.model_dump d)) s)
    as (e & He & Hkind).
  { unfold storable_table in Hno. by destruct (bson_encodable _). }
  exists e. split; [|done]. by erewrite bind_inl by exact He.
Qed.

Lemma table_updated_document_changes d j td :
  tds !! j = Some td → updated_table d td ≠ td →
  table_updated_document ev d doc sd tds j td ≠ doc.
Proof.
  intros Hj Hne Heq.
  assert (value_eqb (VDict doc)
            (VDict (table_updated_document ev d doc sd tds j td)) = false) as H.
  { unfold table_updated_document.
    apply (update_changes_document doc sd (VList (map VDict tds)));
      [done|done| |other_keys].
    intros H. injection H as H.
    assert (map VDict tds !! j = Some (VDict (updated_table d td))) as H1.
    { rewrite <- H. apply list_lookup_insert_eq. rewrite length_map.
      by apply lookup_lt_Some in Hj. }
    change (map VDict tds) with (VDict <$> tds) in H1.
    rewrite list_lookup_fmap, Hj in H1. simpl in H1. by injection H1 as H1. }
  rewrite Heq, value_eqb_refl in H. done.
Qed.

Lemma dict_get_cons k' x d k :
  dict_get ((k', x) :: d) k = if String.eqb k' k then Some x else dict_get d k.
Proof. reflexivity. Qed.

Lemma updated_table_keys d td k :
  k ≠ "name" → k ≠ "schema_name" → k ≠ "table_type" → k ≠ "description" →
  k ≠ "columns" → dict_get (updated_table d td) k = None.
Proof.
  intros H1 H2 H3 H4 H5. unfold updated_table.
  destruct (truthy _); [|rewrite dict_get_set_ne by congruence].
  all: apply not_eq_sym, String.eqb_neq in H1, H2, H3, H4, H5.
  all: unfold TableRequest.model_dump;
    destruct (TableRequest.description d); cbn [app opt_field];
    by rewrite !dict_get_cons, ?H1, ?H2, ?H3, ?H4, ?H5.
Qed.

(** X9: [update_table] on a version whose document keeps its tables as a
    list of dicts, for a stored table of the name and schema asked for.
    When the request renames the table to the name of a stored table of
    that schema, the route answers with the error envelope of
    [ConflictError] and the stores stay as they were.  Otherwise the first
    such table is replaced, at its place, by the request as dumped: its
    columns are those of the request, or the stored ones when the request
    brings none, and every entry of the stored table other than [name],
    [schema_name], [table_type], [description] and [columns] is dropped.
    For a request the document store can hold (every integer it brings
    fits 8 bytes) the route reports success when this changes the
    document, and the error "Failed to update table" when it does not; a
    request the store cannot hold is answered with the error envelope of
    the driver's [OverflowError] and changes nothing. *)
Theorem update_table_replaces_in_place table_name schema_name d j td :
  first_match (table_named table_name schema_name) tds j td →
  (∀ j' td',
     TableRequest.name d ≠ table_name →
     first_match (table_named (TableRequest.name d) schema_name) tds j' td' →
     update_table ev p v table_name d schema_name u s
     = (Returned (error_response
                    ("Table '" +:+ TableRequest.name d +:+ "' already exists")
                    500), s))
  ∧ (TableRequest.name d = table_name
     ∨ Forall (λ td, table_named (TableRequest.name d) schema_name td = false)
              tds →
     (storable_table d →
      table_updated_document ev d doc sd tds j td ≠ doc →
      update_table ev p v table_name d schema_name u s
      = (Returned
           (success_response
              (VDict [("table", VDict (TableRequest.model_dump d))])
              ("Table '" +:+ table_name +:+ "' updated successfully")),
         with_dictionaries
           (<[DictionaryVersion.mongo_id row :=
                table_updated_document ev d doc sd tds j td]>
              (dictionaries s)) s))
     ∧ (storable_table d →
        table_updated_document ev d doc sd tds j td = doc →
        update_table ev p v table_name d schema_name u s
        = (Returned (error_response "Failed to update table" 500), s))
     ∧ (¬ storable_table d →
        ∃ message,
          update_table ev p v table_name d schema_name u s
          = (Returned (error_response message 500), s)))
  ∧ (updated_table d td ≠ td →
     table_updated_document ev d doc sd tds j td ≠ doc)
  ∧ dict_get (table_updated_document ev d doc sd tds j td) "schemas"
    = Some (VDict (dict_set sd "tables"
                     (VList (<[j := VDict (updated_table d td)]>
                               (map VDict tds)))))
  ∧ dict_get (updated_table d td) "columns"
    = Some (match TableRequest.columns d with
            | [] => default (VList []) (dict_get td "columns")
            | columns => VList (map Column.model_dump columns)
            end)
  ∧ (∀ k, k ≠ "name" → k ≠ "schema_name" → k ≠ "table_type" →
          k ≠ "description" → k ≠ "columns" →
          dict_get (updated_table d td) k = None).
Proof.
  intros Hfound. split; [|split; [|split; [|split; [|split]]]].
  - intros j' td' Hname Hclash. unfold update_table, route.
    by rewrite (update_table_body_conflict _ _ d j td j' td' Hfound Hname Hclash).
  - intros Hfree. split; [|split].
    + intros Hstorable Hne. unfold update_table, route.
      rewrite (update_table_body_replaces _ _ d j td Hfound Hfree Hstorable).
      by rewrite value_eqb_false by congruence.
    + intros Hstorable Heq. unfold update_table, route.
      rewrite (update_table_body_replaces _ _ d j td Hfound Hfree Hstorable).
      rewrite Heq, value_eqb_refl.
      by rewrite (with_dictionaries_same s doc _ Hdoc).
    + intros Hno.
      destruct (update_table_body_refused _ _ d j td Hfound Hfree Hno)
        as (e & He & Hkind).
      exists (exn_str e). unfold update_table, route. rewrite He.
      by destruct Hkind as [m [-> | ->]].
  - destruct Hfound as (Hj & _). by apply table_updated_document_changes.
  - unfold table_updated_document. apply dict_get_update_head. other_keys.
  - unfold updated_table, TableRequest.model_dump.
    destruct (TableRequest.description d), (TableRequest.columns d); done.
  - apply updated_table_keys.
Qed.

End stored_tables.

Lemma create_table_appends_or_conflicts_witness :
  ∃ doc',
    create_table sample_env 0%N 1 orders_request "alice" one_version_state
    = (Returned
         (success_response
            (VDict [("table", VDict (created_table orders_request))])
            "Table 'orders' created successfully in schema 'public'"),
       with_dictionaries (<[0%N := doc']> (dictionaries one_version_state))
                         one_version_state)
    ∧ ∃ sd', dict_get doc' "schemas" = Some (VDict sd')
             ∧ dict_get sd' "tables"
               = Some (VList (map VDict
                                (sample_tables ++ [created_table orders_request]))).
Proof.
  destruct (create_table_appends_or_conflicts
              one_version_state sample_env 0%N 1 "alice"
              (default (DictionaryVersion.Build_t 0 0 0 0 EmptyString None
                          false [] 0)
                       (head (dictionary_versions one_version_state)))
              (default [] (dictionaries one_version_state !! 0%N))
              [("tables", VList (map VDict sample_tables));
               ("relationships", VList [])]
              sample_tables)
    with (d := orders_request) as (_ & Hfree).
  - apply alice_owns_one_version_state.
  - reflexivity.
  - reflexivity.
  - reflexivity.
  - reflexivity.
  - reflexivity.
  - destruct Hfree as (Hroute & _ & Hschemas & _).
    { repeat constructor. }
    eexists. split; [apply Hroute; reflexivity|].
    eexists. split; [exact Hschemas|]. apply dict_get_set_eq.
Defined.

Lemma delete_table_removes_first_match_witness :
  ∃ td doc',
    delete_table sample_env 0%N 1 "sample_table" "public" "alice"
                 one_version_state
    = (Returned
         (success_response
            (VDict [("deleted_table", VDict td);
                    ("relationships_removed", VInt 0)])
            "Table 'sample_table' deleted successfully from schema 'public'"),
       with_dictionaries (<[0%N := doc']> (dictionaries one_version_state))
                         one_version_state)
    ∧ ∃ sd', dict_get doc' "schemas" = Some (VDict sd')
             ∧ dict_get sd' "tables" = Some (VList []).
Proof.
  destruct (delete_table_removes_first_match
              one_version_state sample_env 0%N 1 "alice"
              (default (DictionaryVersion.Build_t 0 0 0 0 EmptyString None
                          false [] 0)
                       (head (dictionary_versions one_version_state)))
              (default [] (dictionaries one_version_state !! 0%N))
              [("tables", VList (map VDict sample_tables));
               ("relationships", VList [])]
              sample_tables [])
    with (table_name := "sample_table") (schema_name := "public")
    as (_ & Hfound).
  - apply alice_owns_one_version_state.
  - reflexivity.
  - reflexivity.
  - reflexivity.
  - reflexivity.
  - reflexivity.
  - reflexivity.
  - destruct (Hfound 0%nat (default [] (head sample_tables)))
      as (Hroute & Hschemas & _).
    { split; [reflexivity|]. split; [reflexivity|]. intros k y Hk. lia. }
    eexists _, _. split; [exact Hroute|]. eexists. split; [exact Hschemas|].
    apply dict_get_set_eq.
Defined.

Lemma list_tables_filters_by_schema_witness :
  (list_tables sample_env 0%N 1 (Some "sales") "alice" one_version_state).1
  = Returned
      (success_response
         (VDict [("tables", VList []); ("schema", VStr "sales");
                 ("count", VInt 0)])
         "Found 0 tables in schema sales").
Proof.
  destruct (list_tables_filters_by_schema
              one_version_state sample_env 0%N 1 "alice"
              (default (DictionaryVersion.Build_t 0 0 0 0 EmptyString None
                          false [] 0)
                       (head (dictionary_versions one_version_state)))
              (default [] (dictionaries one_version_state !! 0%N))
              [("tables", VList (map VDict sample_tables));
               ("relationships", VList [])]
              sample_tables)
    with (schema_name := Some "sales") as (Hroute & _).
  - apply alice_owns_one_version_state.
  - reflexivity.
  - reflexivity.
  - reflexivity.
  - reflexivity.
  - reflexivity.
  - rewrite Hroute. reflexivity.
Defined.

Lemma update_table_replaces_in_place_witness :
  (update_table sample_env 0%N 1 "sample_table" rename_request "public" "alice"
                one_version_state).1
  = Returned
      (success_response
         (VDict [("table", VDict (TableRequest.model_dump rename_request))])
         "Table 'sample_table' updated successfully")
  ∧ dict_get (updated_table rename_request (default [] (head sample_tables)))
             "columns"
    = Some (VList (map VDict sample_columns)).
Proof.
  destruct (update_table_replaces_in_place
              one_version_state sample_env 0%N 1 "alice"
              (default (DictionaryVersion.Build_t 0 0 0 0 EmptyString None
                          false [] 0)
                       (head (dictionary_versions one_version_state)))
              (default [] (dictionaries one_version_state !! 0%N))
              [("tables", VList (map VDict sample_tables));
               ("relationships", VList [])]
              sample_tables)
    with (table_name := "sample_table") (schema_name := "public")
         (d := rename_request) (j := 0%nat)
         (td := default [] (head sample_tables))
    as (_ & Hgo & Hchanges & _ & Hcolumns & _).
  - apply alice_owns_one_version_state.
  - reflexivity.
  - reflexivity.
  - reflexivity.
  - reflexivity.
  - reflexivity.
  - split; [reflexivity|]. split; [reflexivity|]. intros k y Hk. lia.
  - destruct Hgo as [Hok _].
    { right. repeat constructor. }
    split.
    + rewrite Hok; [reflexivity|reflexivity|]. apply Hchanges.
      intros H. vm_compute in H. discriminate H.
    + rewrite Hcolumns. reflexivity.
Defined.

(** ** Renaming a version *)

(** Rewriting rows without touching their keys does not change which
    document a version points at. *)
Lemma document_ref_map (g : DictionaryVersion.t → DictionaryVersion.t)
    (rows : list DictionaryVersion.t) q w (ds : gmap N (list (string * value))) :
  (∀ r, index_key (g r) = index_key r) →
  match filter (λ r, DictionaryVersion.version r = w)
               (filter (λ r, DictionaryVersion.project_id r = q) (map g rows))
  with
  | r :: _ => ds !! DictionaryVersion.mongo_id r
  | [] => None
  end
  = match filter (λ r, DictionaryVersion.version r = w)
                 (filter (λ r, DictionaryVersion.project_id r = q) rows)
    with
    | r :: _ => ds !! DictionaryVersion.mongo_id r
    | [] => None
    end.
Proof.
  intros Hg. induction rows as [|r rows IH]; [done|].
  simpl. pose proof (Hg r) as Hr. unfold index_key in Hr.
  injection Hr as Hp Hv _ Hm.
  destruct (decide (DictionaryVersion.project_id r = q)) as [Hrp|Hrp].
  - rewrite (filter_cons_True _ (g r)) by congruence.
    rewrite (filter_cons_True _ r) by done.
    destruct (decide (DictionaryVersion.version r = w)) as [Hrv|Hrv].
    + rewrite (filter_cons_True _ (g r)) by congruence.
      rewrite (filter_cons_True _ r) by done. by rewrite Hm.
    + rewrite (filter_cons_False _ (g r)) by congruence.
      rewrite (filter_cons_False _ r) by done. apply IH.
  - rewrite (filter_cons_False _ (g r)) by congruence.
    rewrite (filter_cons_False _ r) by done. apply IH.
Qed.

Section update_version.
Context (s : state) (ev : env) (p : uuid) (v : Z) (u : string).
Context (d : UpdateVersionRequest.t) (row : DictionaryVersion.t) (n : string).

Hypothesis Hown : owns u p s.
Hypothesis Hrow :
  filter (λ r, DictionaryVersion.project_id r = p
               ∧ DictionaryVersion.version r = v) (dictionary_versions s)
  = [row].
Hypothesis Hname : UpdateVersionRequest.name d = Some n.
Hypothesis Hn : n ≠ EmptyString.

Lemma truthy_name : truthy (VStr n) = true.
Proof. simpl. by rewrite (proj2 (String.eqb_neq _ _) Hn). Qed.

Lemma metadata_given :
  truthy_text (UpdateVersionRequest.name d)
  || truthy_text (UpdateVersionRequest.description d) = true.
Proof. rewrite Hname. unfold truthy_text at 1. by rewrite truthy_name. Qed.

Lemma update_version_body_no_data :
  brings_document_data d = false →
  update_version_body ev p v u d s
  = (inr (success_response
            (VDict [("version", VInt v)])
            ("Version " +:+ pretty v +:+ " updated successfully")),
     renamed_state d row s).
Proof.
  intros Hdata. unfold update_version_body.
  erewrite bind_inr by (by apply require_project_access_owns).
  erewrite bind_inr by reflexivity. rewrite Hrow. simpl single.
  erewrite bind_inr by reflexivity.
  change (match UpdateVersionRequest.schemas d with
          | Some (_ :: _) => true | _ => false end
          || match UpdateVersionRequest.relationships d with
             | Some (_ :: _) => true | _ => false end
          || match UpdateVersionRequest.erd d with
             | Some _ => true | None => false end
          || match UpdateVersionRequest.metadata d with
             | Some (_ :: _) => true | _ => false end)
    with (brings_document_data d).
  rewrite Hdata, metadata_given. erewrite bind_inr by reflexivity.
  reflexivity.
Qed.

Lemma update_version_body_store_down :
  brings_document_data d = true → mongodb_available ev = false →
  update_version_body ev p v u d s
  = (inl (DatabaseError "MongoDB connection not available"),
     renamed_state d row s).
Proof.
  intros Hdata Hm. unfold update_version_body.
  erewrite bind_inr by (by apply require_project_access_owns).
  erewrite bind_inr by reflexivity. rewrite Hrow. simpl single.
  erewrite bind_inr by reflexivity.
  change (match UpdateVersionRequest.schemas d with
          | Some (_ :: _) => true | _ => false end
          || match UpdateVersionRequest.relationships d with
             | Some (_ :: _) => true | _ => false end
          || match UpdateVersionRequest.erd d with
             | Some _ => true | None => false end
          || match UpdateVersionRequest.metadata d with
             | Some (_ :: _) => true | _ => false end)
    with (brings_document_data d).
  rewrite Hdata, metadata_given. erewrite bind_inr by reflexivity.
  erewrite bind_inl; [reflexivity|].
  erewrite bind_inr by (unfold not_database; rewrite Hm; reflexivity).
  reflexivity.
Qed.

Lemma renamed_state_row :
  ∃ row', row' ∈ dictionary_versions (renamed_state d row s)
          ∧ index_key row' = index_key row
          ∧ DictionaryVersion.name row' = n.
Proof.
  exists (with_metadata_of d row). split; [|split].
  - unfold renamed_state. simpl. apply list_elem_of_fmap. exists row.
    rewrite decide_True by done. split; [done|].
    assert (row ∈ [row]) as H by left. rewrite <- Hrow in H.
    by apply list_elem_of_filter in H as [_ ?].
  - unfold with_metadata_of. rewrite Hname, truthy_name.
    destruct (UpdateVersionRequest.description d) as [ds|];
      [destruct (truthy (VStr ds))|]; done.
  - unfold with_metadata_of. rewrite Hname, truthy_name.
    destruct (UpdateVersionRequest.description d) as [ds|];
      [destruct (truthy (VStr ds))|]; done.
Qed.

(** X10: [update_version] with a new name and no document data (no
    schemas or an empty list, no relationships or an empty list, no
    layout, no metadata or an empty dict) succeeds, whether or not the
    document store is available: the row of the version index carries the
    new name afterwards, and the document store is exactly as it was, so
    the name kept inside the document stays the old one. *)
Theorem update_version_renames_the_row_only :
  brings_document_data d = false →
  update_version ev p v u d s
  = (Returned (success_response
                 (VDict [("version", VInt v)])
                 ("Version " +:+ pretty v +:+ " updated successfully")),
     renamed_state d row s)
  ∧ dictionaries (renamed_state d row s) = dictionaries s
  ∧ document_of p v (renamed_state d row s) = document_of p v s
  ∧ ∃ row', row' ∈ dictionary_versions (renamed_state d row s)
            ∧ index_key row' = index_key row
            ∧ DictionaryVersion.name row' = n.
Proof.
  intros Hdata. split; [|split; [done|split; [|apply renamed_state_row]]].
  - unfold update_version, route. by rewrite update_version_body_no_data.
  - unfold document_of, project_rows, renamed_state. simpl.
    apply document_ref_map. intros r. unfold with_metadata_of.
    case_decide; [|done].
    destruct (UpdateVersionRequest.name d) as [n'|];
      [destruct (truthy (VStr n'))|];
      (destruct (UpdateVersionRequest.description d) as [ds|];
         [destruct (truthy (VStr ds))|]); done.
Qed.

(** X11: [update_version] is not atomic.  With a new name and document
    data in the request while the document store is unavailable, the route
    answers with the error envelope "MongoDB connection not available",
    yet the row of the version index already carries the new name; the
    document store is as it was. *)
Theorem update_version_renames_before_it_fails :
  brings_document_data d = true → mongodb_available ev = false →
  update_version ev p v u d s
  = (Returned (error_response "MongoDB connection not available" 500),
     renamed_state d row s)
  ∧ dictionaries (renamed_state d row s) = dictionaries s
  ∧ ∃ row', row' ∈ dictionary_versions (renamed_state d row s)
            ∧ index_key row' = index_key row
            ∧ DictionaryVersion.name row' = n.
Proof.
  intros Hdata Hm. split; [|split; [done|apply renamed_state_row]].
  unfold update_version, route. by rewrite update_version_body_store_down.
Qed.

End update_version.

Lemma update_version_renames_the_row_only_witness :
  ∃ row',
    row' ∈ dictionary_versions
             (update_version sample_env 0%N 1 "alice" rename_version_request
                             one_version_state).2
    ∧ DictionaryVersion.name row' = "renamed"
    ∧ dictionaries
        (update_version sample_env 0%N 1 "alice" rename_version_request
                        one_version_state).2
      = dictionaries one_version_state.
Proof.
  destruct (update_version_renames_the_row_only
              one_version_state sample_env 0%N 1 "alice" rename_version_request
              (default (DictionaryVersion.Build_t 0 0 0 0 EmptyString None
                          false [] 0)
                       (head (dictionary_versions one_version_state)))
              "renamed")
    as (Hroute & Hdocs & _ & row' & Hin & _ & Hname).
  - apply alice_owns_one_version_state.
  - reflexivity.
  - reflexivity.
  - discriminate.
  - reflexivity.
  - exists row'. rewrite Hroute. done.
Defined.

Lemma update_version_renames_before_it_fails_witness :
  (update_version store_down_env 0%N 1 "alice" rename_and_layout_request
                  one_version_state).1
  = Returned (error_response "MongoDB connection not available" 500)
  ∧ ∃ row',
      row' ∈ dictionary_versions
               (update_version store_down_env 0%N 1 "alice"
                               rename_and_layout_request one_version_state).2
      ∧ DictionaryVersion.name row' = "renamed".
Proof.
  destruct (update_version_renames_before_it_fails
              one_version_state store_down_env 0%N 1 "alice"
              rename_and_layout_request
              (default (DictionaryVersion.Build_t 0 0 0 0 EmptyString None
                          false [] 0)
                       (head (dictionary_versions one_version_state)))
              "renamed")
    as (Hroute & _ & row' & Hin & _ & Hname).
  - apply alice_owns_one_version_state.
  - reflexivity.
  - reflexivity.
  - discriminate.
  - reflexivity.
  - reflexivity.
  - rewrite Hroute. split; [done|]. by exists row'.
Defined.

(** ** Requests leave the documents of other versions alone *)

Lemma document_of_ref p v s :
  document_of p v s = document_ref p v s ≫= (λ o, dictionaries s !! o).
Proof.
  unfold document_of, document_ref.
  by destruct (filter _ (project_rows p s)).
Qed.

Lemma writes_only_ret {A} o (a : A) : writes_only o (ret a).
Proof. by intros s o' _. Qed.

Lemma writes_only_raise {A} o e : writes_only o (@raise A e).
Proof. by intros s o' _. Qed.

Lemma writes_only_lift {A} o (r : exn + A) : writes_only o (lift r).
Proof. by intros s o' _. Qed.

Lemma writes_only_get_state o : writes_only o get_state.
Proof. by intros s o' _. Qed.

Lemma writes_only_bind {A B} o (m : M A) (f : A → M B) :
  writes_only o m → (∀ a, writes_only o (f a)) → writes_only o (bind m f).
Proof.
  intros Hm Hf s o' Ho. unfold bind. specialize (Hm s o' Ho).
  destruct (m s) as [[e|a] s1]; simpl in *; [done|].
  by rewrite (Hf a s1 o' Ho).
Qed.

Lemma writes_only_find_one o o1 : writes_only o (find_one o1).
Proof. by intros s o' _. Qed.

Lemma writes_only_select_versions o : writes_only o select_versions.
Proof. by intros s o' _. Qed.

Lemma writes_only_require_project_access o p u :
  writes_only o (require_project_access p u).
Proof.
  apply writes_only_bind; [by intros s o' _|].
  intros []; [apply writes_only_ret | apply writes_only_raise].
Qed.

Lemma writes_only_require_mongodb o ev : writes_only o (require_mongodb ev).
Proof.
  unfold require_mongodb. destruct (mongodb_available ev);
    [apply writes_only_ret | apply writes_only_raise].
Qed.

Lemma writes_only_not_database o ev : writes_only o (not_database ev).
Proof.
  unfold not_database. destruct (mongodb_available ev);
    [apply writes_only_raise | apply writes_only_ret].
Qed.

Lemma writes_only_bson_encode o v : writes_only o (bson_encode v).
Proof.
  unfold bson_encode. destruct (bson_refusal v);
    [apply writes_only_raise | apply writes_only_ret].
Qed.

Lemma writes_only_get_version_mongo_id o p v :
  writes_only o (get_version_mongo_id p v).
Proof. by intros s o' _. Qed.

Lemma writes_only_update_versions o P `{∀ r, Decision (P r)} f :
  writes_only o (update_versions P f).
Proof. by intros s o' _. Qed.

Lemma writes_only_update_one o fields : writes_only o (update_one o fields).
Proof.
  intros s o' Ho. unfold update_one, bind, get_state. simpl.
  destruct (dictionaries s !! o); simpl; [|done].
  by rewrite lookup_insert_ne.
Qed.

Create HintDb writes discriminated.
#[global] Hint Resolve writes_only_ret writes_only_raise writes_only_lift
  writes_only_get_state writes_only_find_one writes_only_select_versions
  writes_only_require_project_access writes_only_require_mongodb
  writes_only_get_version_mongo_id writes_only_update_versions
  writes_only_update_one writes_only_not_database
  writes_only_bson_encode : writes.

Ltac writes_step :=
  match goal with
  | |- writes_only _ (bind _ _) => apply writes_only_bind; [|intros ?]
  | |- writes_only _ (let '(_, _) := ?x in _) => destruct x
  | |- writes_only _ (match ?x with _ => _ end) => destruct x
  | |- writes_only _ (if ?b then _ else _) => destruct b
  | |- writes_only _ _ => solve [auto with writes]
  end.
Ltac writes := repeat writes_step.

Lemma writes_only_load_dictionary o ev p v u :
  writes_only o (load_dictionary ev p v u).
Proof. unfold load_dictionary. writes. Qed.

#[global] Hint Resolve writes_only_load_dictionary : writes.

(** The routes that only read. *)
Lemma writes_only_list_versions o p u : writes_only o (list_versions_body p u).
Proof. unfold list_versions_body. writes. Qed.

Lemma writes_only_get_latest_version o ev p u :
  writes_only o (get_latest_version_body ev p u).
Proof. unfold get_latest_version_body. writes. Qed.

Lemma writes_only_get_specific_version o ev p v u :
  writes_only o (get_specific_version_body ev p v u).
Proof. unfold get_specific_version_body. writes. Qed.

Lemma writes_only_list_tables o ev p v sn u :
  writes_only o (list_tables_body ev p v sn u).
Proof. unfold list_tables_body. writes. Qed.

Lemma writes_only_get_table o ev p v t sn u :
  writes_only o (get_table_body ev p v t sn u).
Proof. unfold get_table_body. writes. Qed.

(** The opening of the table routes hands on the reference of the version
    asked for. *)
Lemma load_dictionary_ref ev p v u s mid dict :
  load_dictionary ev p v u s = (inr (mid, dict), s) →
  ∃ row, filter (λ r, DictionaryVersion.project_id r = p
                      ∧ DictionaryVersion.version r = v)
                (dictionary_versions s) = [row]
         ∧ mid = DictionaryVersion.mongo_id row.
Proof.
  unfold load_dictionary.
  destruct (decide (owns u p s)) as [Hown|Hown].
  2:{ by erewrite bind_inl by (by apply require_project_access_not_owns). }
  erewrite bind_inr by (by apply require_project_access_owns).
  erewrite bind_inr by reflexivity. unfold single.
  destruct (filter _ (dictionary_versions s)) as [|row [|row' rows]];
    [done| |done].
  destruct (mongodb_available ev) eqn:Hm.
  2:{ by erewrite bind_inl by (by apply require_mongodb_unavailable). }
  erewrite bind_inr by (by apply require_mongodb_available).
  erewrite bind_inr by reflexivity.
  destruct (dictionaries s !! DictionaryVersion.mongo_id row); simpl; [|done].
  intros H. injection H as <- _. by exists row.
Qed.

Lemma load_dictionary_state ev p v u s : (load_dictionary ev p v u s).2 = s.
Proof.
  destruct (load_dictionary_cases ev p v u s) as [[e ->]|(o & d & _ & ->)]; done.
Qed.

(** A table route writes at most the document of the version it names. *)
Lemma table_route_writes {A} ev p v u
    (f : oid * list (string * value) → M A) s o' :
  (∀ mid dict, writes_only mid (f (mid, dict))) →
  (∀ row, filter (λ r, DictionaryVersion.project_id r = p
                       ∧ DictionaryVersion.version r = v)
                 (dictionary_versions s) = [row] →
          o' ≠ DictionaryVersion.mongo_id row) →
  dictionaries (bind (load_dictionary ev p v u) f s).2 !! o'
  = dictionaries s !! o'.
Proof.
  intros Hf Ho. unfold bind.
  pose proof (load_dictionary_state ev p v u s) as Hs.
  destruct (load_dictionary ev p v u s) as [[e|[mid dict]] s1] eqn:Hload;
    simpl in Hs; subst s1; [done|].
  apply load_dictionary_ref in Hload as (row & Hrow & ->).
  apply Hf. by apply Ho.
Qed.

Lemma create_table_writes ev p v d u s o' :
  (∀ row, filter (λ r, DictionaryVersion.project_id r = p
                       ∧ DictionaryVersion.version r = v)
                 (dictionary_versions s) = [row] →
          o' ≠ DictionaryVersion.mongo_id row) →
  dictionaries (create_table_body ev p v d u s).2 !! o' = dictionaries s !! o'.
Proof.
  intros Ho. unfold create_table_body.
  apply table_route_writes; [|done]. intros mid dict. writes.
Qed.

Lemma update_table_writes ev p v t d sn u s o' :
  (∀ row, filter (λ r, DictionaryVersion.project_id r = p
                       ∧ DictionaryVersion.version r = v)
                 (dictionary_versions s) = [row] →
          o' ≠ DictionaryVersion.mongo_id row) →
  dictionaries (update_table_body ev p v t d sn u s).2 !! o'
  = dictionaries s !! o'.
Proof.
  intros Ho. unfold update_table_body.
  apply table_route_writes; [|done]. intros mid dict. writes.
Qed.

Lemma delete_table_writes ev p v t sn u s o' :
  (∀ row, filter (λ r, DictionaryVersion.project_id r = p
                       ∧ DictionaryVersion.version r = v)
                 (dictionary_versions s) = [row] →
          o' ≠ DictionaryVersion.mongo_id row) →
  dictionaries (delete_table_body ev p v t sn u s).2 !! o'
  = dictionaries s !! o'.
Proof.
  intros Ho. unfold delete_table_body.
  apply table_route_writes; [|done]. intros mid dict. writes.
Qed.

Lemma delete_column_writes ev p v t c sn u s o' :
  (∀ row, filter (λ r, DictionaryVersion.project_id r = p
                       ∧ DictionaryVersion.version r = v)
                 (dictionary_versions s) = [row] →
          o' ≠ DictionaryVersion.mongo_id row) →
  dictionaries (delete_column_body ev p v t c sn u s).2 !! o'
  = dictionaries s !! o'.
Proof.
  intros Ho. unfold delete_column_body.
  apply table_route_writes; [|done]. intros mid dict. writes.
Qed.

Lemma update_version_writes ev p v u d s o' :
  (∀ row, filter (λ r, DictionaryVersion.project_id r = p
                       ∧ DictionaryVersion.version r = v)
                 (dictionary_versions s) = [row] →
          o' ≠ DictionaryVersion.mongo_id row) →
  dictionaries (update_version_body ev p v u d s).2 !! o'
  = dictionaries s !! o'.
Proof.
  intros Ho. unfold update_version_body.
  destruct (decide (owns u p s)) as [Hown|Hown].
  2:{ by erewrite bind_inl by (by apply require_project_access_not_owns). }
  erewrite bind_inr by (by apply require_project_access_owns).
  erewrite bind_inr by reflexivity. unfold single.
  destruct (filter _ (dictionary_versions s)) as [|row [|row' rows]] eqn:E;
    [done| |done].
  erewrite bind_inr by reflexivity.
  specialize (Ho row eq_refl).
  match goal with
  | |- dictionaries (?m s).2 !! _ = _ =>
      assert (writes_only (DictionaryVersion.mongo_id row) m) as Hw
  end.
  { writes. }
  by apply Hw.
Qed.

Lemma route_state (body : M value) s : (route body s).2 = (body s).2.
Proof. unfold route. destruct (body s) as [[[]|a] s']; done. Qed.

Lemma document_ref_same_index s s' q w :
  same_index s s' → document_ref q w s' = document_ref q w s.
Proof.
  intros (_ & Hk%same_keys_Forall2 & _). unfold document_ref, project_rows.
  induction Hk as [|r' r l' l Hr _ IH]; [done|].
  unfold index_key in Hr. injection Hr as Hp Hv _ Hm.
  destruct (decide (DictionaryVersion.project_id r = q)) as [Hrq|Hrq].
  - rewrite (filter_cons_True _ r') by congruence.
    rewrite (filter_cons_True _ r) by done.
    destruct (decide (DictionaryVersion.version r = w)) as [Hrw|Hrw].
    + rewrite (filter_cons_True _ r') by congruence.
      rewrite (filter_cons_True _ r) by done. simpl. by rewrite Hm.
    + rewrite (filter_cons_False _ r') by congruence.
      rewrite (filter_cons_False _ r) by done. apply IH.
  - rewrite (filter_cons_False _ r') by congruence.
    rewrite (filter_cons_False _ r) by done. apply IH.
Qed.

Lemma document_ref_Some q w s o :
  document_ref q w s = Some o →
  ∃ r, r ∈ dictionary_versions s ∧ DictionaryVersion.project_id r = q
       ∧ DictionaryVersion.version r = w ∧ DictionaryVersion.mongo_id r = o.
Proof.
  unfold document_ref.
  destruct (filter _ (project_rows q s)) as [|r l] eqn:E; [done|].
  simpl. intros H. injection H as <-. exists r.
  assert (r ∈ filter (λ r, DictionaryVersion.version r = w) (project_rows q s))
    as Hin by (rewrite E; left).
  apply list_elem_of_filter in Hin as [Hv Hin].
  apply elem_of_project_rows in Hin as [Hp Hin]. done.
Qed.

Lemma document_ref_of_version q w s :
  w ∈ project_versions q s → is_Some (document_ref q w s).
Proof.
  intros (r & Hr & Hp & Hv)%elem_of_project_versions. unfold document_ref.
  assert (r ∈ filter (λ r, DictionaryVersion.version r = w) (project_rows q s))
    as Hin.
  { apply list_elem_of_filter. split; [done|]. by apply elem_of_project_rows. }
  destruct (filter _ (project_rows q s)); [by apply elem_of_nil in Hin|].
  by eexists.
Qed.

(** Rows of different versions point at different documents. *)
Lemma other_version_other_document s r1 r2 :
  index_invariant s →
  r1 ∈ dictionary_versions s → r2 ∈ dictionary_versions s →
  ¬ (DictionaryVersion.project_id r1 = DictionaryVersion.project_id r2
     ∧ DictionaryVersion.version r1 = DictionaryVersion.version r2) →
  DictionaryVersion.mongo_id r1 ≠ DictionaryVersion.mongo_id r2.
Proof.
  intros Hidx H1 H2 Hne Heq. apply Hne.
  assert (r1 = r2) as ->; [|done].
  eapply (NoDup_fmap_elem_inj DictionaryVersion.mongo_id);
    [apply (documents_distinct s Hidx)|done..].
Qed.

(** What a step that keeps the index and writes at most the document of
    the version [(p, v)] does to the document of another version. *)
Lemma document_of_frame s s' p v q w :
  index_invariant s → same_index s s' →
  (∀ o', (∀ row, filter (λ r, DictionaryVersion.project_id r = p
                              ∧ DictionaryVersion.version r = v)
                        (dictionary_versions s) = [row] →
                 o' ≠ DictionaryVersion.mongo_id row) →
         dictionaries s' !! o' = dictionaries s !! o') →
  ¬ (p = q ∧ v = w) →
  document_of q w s' = document_of q w s.
Proof.
  intros Hidx Hsame Hdocs Hne. rewrite !document_of_ref.
  rewrite (document_ref_same_index s s' q w Hsame).
  destruct (document_ref q w s) as [o'|] eqn:Href; [|done]. simpl.
  apply Hdocs. intros row Hrow.
  apply document_ref_Some in Href as (r0 & Hr0 & Hq & Hw & <-).
  assert (row ∈ [row]) as Hin by left. rewrite <- Hrow in Hin.
  apply list_elem_of_filter in Hin as [[Hp Hv] Hin].
  apply (other_version_other_document s); [done..|].
  intros [? ?]. apply Hne. split; congruence.
Qed.

(** The same for a step that writes no document at all. *)
Lemma document_of_read_only s s' q w :
  same_index s s' → (∀ o', dictionaries s' !! o' = dictionaries s !! o') →
  document_of q w s' = document_of q w s.
Proof.
  intros Hsame Hdocs. rewrite !document_of_ref.
  rewrite (document_ref_same_index s s' q w Hsame).
  destruct (document_ref q w s) as [o'|]; [apply Hdocs | done].
Qed.

Lemma read_only_route {A} (m : M A) s :
  (∀ o, writes_only o m) → ∀ o', dictionaries (m s).2 !! o' = dictionaries s !! o'.
Proof. intros H o'. apply (H (N.succ o')). lia. Qed.

Lemma document_of_created ev p d rels erd s q w :
  index_invariant s → w ∈ project_versions q s →
  document_of q w (created_state ev p d rels erd s) = document_of q w s.
Proof.
  intros Hidx Hw. rewrite !document_of_ref.
  assert (document_ref q w (created_state ev p d rels erd s)
          = document_ref q w s) as ->.
  { unfold document_ref. rewrite project_rows_created.
    destruct (decide (q = p)) as [->|Hq]; [|done].
    rewrite filter_app.
    apply elem_of_project_versions in Hw as (r & Hr & Hp & Hv).
    assert (r ∈ filter (λ r, DictionaryVersion.version r = w)
                       (project_rows p s)) as Hin.
    { apply list_elem_of_filter. split; [done|].
      by apply elem_of_project_rows. }
    clear Hr Hp Hv.
    generalize (filter (λ r, DictionaryVersion.version r = w)
                  [version_metadata_of ev (next_uuid s) p
                     (next_version_of (project_rows p s)) (next_oid s) d]).
    intros tail.
    induction (project_rows p s) as [|x l IH]; [by apply elem_of_nil in Hin|].
    cbn [map]. destruct (decide (DictionaryVersion.version x = w)) as [Hx|Hx].
    - rewrite (filter_cons_True _ (DictionaryVersion.set_is_latest false x))
        by done.
      by rewrite (filter_cons_True _ x) by done.
    - rewrite (filter_cons_False _ (DictionaryVersion.set_is_latest false x))
        by done.
      rewrite (filter_cons_False _ x) in Hin |- * by done. by apply IH. }
  destruct (document_ref q w s) as [o'|] eqn:Href; [|done]. simpl.
  apply document_ref_Some in Href as (r0 & Hr0 & _ & _ & <-).
  rewrite lookup_insert_ne; [done|].
  pose proof (documents_issued s Hidx r0 Hr0). lia.
Qed.

Lemma document_ref_remove_map g p v q w rows :
  keeps_identity g → ¬ (p = q ∧ v = w) →
  DictionaryVersion.mongo_id
    <$> head (filter (λ r, DictionaryVersion.version r = w)
                (filter (λ r, DictionaryVersion.project_id r = q)
                   (remove_version p v (map g rows))))
  = DictionaryVersion.mongo_id
      <$> head (filter (λ r, DictionaryVersion.version r = w)
                  (filter (λ r, DictionaryVersion.project_id r = q) rows)).
Proof.
  intros Hg Hne. unfold remove_version.
  induction rows as [|r rows IH]; [done|].
  cbn [map]. destruct (Hg r) as (Hp & Hv & Hm).
  destruct (decide (DictionaryVersion.project_id r = q)) as [Hrq|Hrq].
  - destruct (decide (DictionaryVersion.version r = w)) as [Hrw|Hrw].
    + rewrite (filter_cons_True _ (g r)).
      2:{ intros [? ?]. apply Hne. split; congruence. }
      rewrite (filter_cons_True _ (g r)) by congruence.
      rewrite (filter_cons_True _ (g r)) by congruence.
      rewrite (filter_cons_True _ r) by done.
      rewrite (filter_cons_True _ r) by done. simpl. by rewrite Hm.
    + rewrite (filter_cons_True _ r) by done.
      rewrite (filter_cons_False _ r) by done. rewrite <- IH.
      destruct (decide (DictionaryVersion.project_id (g r) = p
                        ∧ DictionaryVersion.version (g r) = v)) as [Hpv|Hpv].
      * by rewrite (filter_cons_False _ (g r)) by tauto.
      * rewrite (filter_cons_True _ (g r)) by done.
        rewrite (filter_cons_True _ (g r)) by congruence.
        by rewrite (filter_cons_False _ (g r)) by congruence.
  - rewrite (filter_cons_False _ r) by done. rewrite <- IH.
    destruct (decide (DictionaryVersion.project_id (g r) = p
                      ∧ DictionaryVersion.version (g r) = v)) as [Hpv|Hpv].
    * by rewrite (filter_cons_False _ (g r)) by tauto.
    * rewrite (filter_cons_True _ (g r)) by done.
      by rewrite (filter_cons_False _ (g r)) by congruence.
Qed.

Lemma document_of_deleted ev p v victim s q w :
  index_invariant s →
  head (filter (λ r, DictionaryVersion.version r = v) (project_rows p s))
  = Some victim →
  ¬ (p = q ∧ v = w) →
  document_of q w (deleted_state ev p v victim s) = document_of q w s.
Proof.
  intros Hidx Hhead Hne. rewrite !document_of_ref.
  apply head_filter_version_elem in Hhead as [Hvictim Hv].
  apply elem_of_project_rows in Hvictim as [Hvp Hvictim].
  destruct (promoted_rows_shape p v victim s) as (g & Hg & Heq).
  assert (document_ref q w (deleted_state ev p v victim s)
          = document_ref q w s) as ->.
  { unfold document_ref, project_rows. simpl. rewrite Heq.
    by apply document_ref_remove_map. }
  destruct (document_ref q w s) as [o'|] eqn:Href; [|done]. simpl.
  destruct (mongodb_available ev); [|done].
  apply document_ref_Some in Href as (r0 & Hr0 & Hq & Hw & <-).
  rewrite lookup_delete_ne; [done|].
  apply (other_version_other_document s); [done..|].
  intros [? ?]. apply Hne. split; congruence.
Qed.

Lemma document_of_create_project ev u d s q w :
  index_invariant s → w ∈ project_versions q s →
  document_of q w (create_project ev u d s).2 = document_of q w s.
Proof.
  intros Hidx Hw.
  pose proof Hw as (r & Hr & Hp & Hv)%elem_of_project_versions.
  assert (q < next_uuid s)%N as Hq.
  { rewrite <- Hp. by apply (projects_known s Hidx). }
  unfold document_of. rewrite (create_project_rows ev u d s q Hq).
  destruct (filter _ (project_rows q s)) as [|r0 l] eqn:E; [done|].
  assert (r0 ∈ dictionary_versions s) as Hr0.
  { assert (r0 ∈ filter (λ r, DictionaryVersion.version r = w)
                        (project_rows q s)) as Hin by (rewrite E; left).
    apply list_elem_of_filter in Hin as [_ Hin].
    by apply elem_of_project_rows in Hin as [_ ?]. }
  destruct (create_project_documents ev u d s)
    as [[_ ->]|(row & doc & _ & _ & -> & _)]; [done|].
  rewrite lookup_insert_ne; [done|].
  pose proof (documents_issued s Hidx r0 Hr0). lia.
Qed.

Lemma document_of_delete_project ev p u s q w :
  index_invariant s → q ≠ p →
  document_of q w (delete_project ev p u s).2 = document_of q w s.
Proof.
  intros Hidx Hq.
  destruct (delete_project_documents ev p u s) as [->|[Hrows Hdocs]]; [done|].
  unfold document_of, project_rows. rewrite Hrows, Hdocs.
  rewrite project_rows_filter_other, decide_False by done.
  fold (project_rows q s).
  destruct (filter _ (project_rows q s)) as [|r0 l] eqn:E; [done|].
  assert (r0 ∈ filter (λ r, DictionaryVersion.version r = w)
                      (project_rows q s)) as Hin by (rewrite E; left).
  apply list_elem_of_filter in Hin as [_ Hin].
  apply elem_of_project_rows in Hin as [Hq0 Hr0].
  rewrite lookup_foldr_delete, decide_False; [done|].
  intros (r2 & Hm & Hr2)%list_elem_of_fmap.
  apply elem_of_project_rows in Hr2 as [Hr2p Hr2].
  revert Hm. apply (other_version_other_document s); [done..|].
  intros [? _]. congruence.
Qed.

(** X12: no request changes the document of a version it does not name.
    In every state the service can reach, the document of a version
    [(q, w)] is the same before and after any request, unless the request
    is [delete_project] for [q], or [update_version], [delete_version],
    [create_table], [update_table], [delete_table] or [delete_column] for
    version [w] of [q].  In particular [create_version] never changes the
    document of an existing version, also not of the base version it
    copies from. *)
Theorem requests_leave_other_versions_alone s ev r q w :
  reachable s → w ∈ project_versions q s → ¬ request_touches r q w →
  document_of q w (serve ev r s).2 = document_of q w s.
Proof.
  intros Hreach Hw Hnot. pose proof (reachable_invariant s Hreach) as Hidx.
  destruct r; simpl in *.
  - by apply document_of_create_project.
  - apply document_of_delete_project; [done|]. by intros ->.
  - apply document_of_read_only.
    + apply same_index_route, keeps_index_list_versions.
    + intros o'. unfold list_versions. rewrite route_state.
      apply read_only_route. intros o. apply writes_only_list_versions.
  - unfold create_version, route.
    destruct (create_version_body_cases ev project_id user_id version_data s)
      as [[e ->]|(Hown & _ & rels & erd & resp & _ & ->)]; [by destruct e|].
    by apply document_of_created.
  - apply document_of_read_only.
    + apply same_index_route, keeps_index_get_latest_version.
    + intros o'. unfold get_latest_version. rewrite route_state.
      apply read_only_route. intros o. apply writes_only_get_latest_version.
  - apply document_of_read_only.
    + apply same_index_route, keeps_index_get_specific_version.
    + intros o'. unfold get_specific_version. rewrite route_state.
      apply read_only_route. intros o. apply writes_only_get_specific_version.
  - apply (document_of_frame s _ project_id version); [done| | |done].
    + apply same_index_route, keeps_index_update_version.
    + intros o' Ho. unfold update_version. rewrite route_state.
      by apply update_version_writes.
  - unfold delete_version, route.
    destruct (delete_version_body_cases ev project_id version user_id s)
      as [[e ->]|(_ & Hlen & victim & Hhead & ->)]; [by destruct e|].
    by apply document_of_deleted.
  - apply document_of_read_only.
    + apply same_index_route, keeps_index_list_tables.
    + intros o'. unfold list_tables. rewrite route_state.
      apply read_only_route. intros o. apply writes_only_list_tables.
  - apply (document_of_frame s _ project_id version); [done| | |done].
    + apply same_index_route, keeps_index_create_table.
    + intros o' Ho. unfold create_table. rewrite route_state.
      by apply create_table_writes.
  - apply (document_of_frame s _ project_id version); [done| | |done].
    + apply same_index_route, keeps_index_update_table.
    + intros o' Ho. unfold update_table. rewrite route_state.
      by apply update_table_writes.
  - apply (document_of_frame s _ project_id version); [done| | |done].
    + apply same_index_route, keeps_index_delete_table.
    + intros o' Ho. unfold delete_table. rewrite route_state.
      by apply delete_table_writes.
  - apply (document_of_frame s _ project_id version); [done| | |done].
    + apply same_index_route, keeps_index_delete_column.
    + intros o' Ho. unfold delete_column. rewrite route_state.
      by apply delete_column_writes.
  - apply document_of_read_only.
    + apply same_index_route, keeps_index_get_table.
    + intros o'. unfold get_table. rewrite route_state.
      apply read_only_route. intros o. apply writes_only_get_table.
Qed.

Lemma requests_leave_other_versions_alone_witness :
  document_of 0%N 1
    (serve sample_env (DeleteTable 0%N 2 "sample_table" "public" "alice")
           two_versions_state).2
  = document_of 0%N 1 two_versions_state.
Proof.
  apply (requests_leave_other_versions_alone two_versions_state sample_env
           (DeleteTable 0%N 2 "sample_table" "public" "alice") 0%N 1).
  - apply reachable_two_versions_state.
  - vm_compute. left.
  - simpl. intros [_ H]. discriminate H.
Defined.

(** ** Deleting a version and its document *)

(** X13: in a state the service can reach, for the owner of a project
    with at least two versions, [delete_version] of an existing version
    succeeds; afterwards the project no longer has that number and no row
    of the index points at the document the version had.  With the
    document store available that document is gone from the store; with
    the store unavailable the request succeeds all the same and the
    document stays in the store, where no row points at it any more. *)
Theorem delete_version_drops_its_document s ev p v u victim :
  reachable s → owns u p s → (2 ≤ length (project_rows p s))%nat →
  head (filter (λ r, DictionaryVersion.version r = v) (project_rows p s))
  = Some victim →
  delete_version ev p v u s
  = (Returned (success_response
                 (VDict [("deleted_version", VInt v)])
                 ("Version " +:+ pretty v +:+ " deleted successfully")),
     deleted_state ev p v victim s)
  ∧ (v ∉ project_versions p (deleted_state ev p v victim s))
  ∧ (∀ r, r ∈ dictionary_versions (deleted_state ev p v victim s) →
          DictionaryVersion.mongo_id r ≠ DictionaryVersion.mongo_id victim)
  ∧ is_Some (dictionaries s !! DictionaryVersion.mongo_id victim)
  ∧ dictionaries (deleted_state ev p v victim s)
      !! DictionaryVersion.mongo_id victim
    = if mongodb_available ev then None
      else dictionaries s !! DictionaryVersion.mongo_id victim.
Proof.
  intros Hreach Hown Hlen Hhead.
  pose proof (reachable_invariant s Hreach) as Hidx.
  destruct (reachable_store_invariant s Hreach) as [Hpresent _].
  split; [|split; [|split; [|split]]].
  - unfold delete_version, route.
    by rewrite (delete_version_body_success ev p v u s victim Hown Hlen Hhead).
  - rewrite project_versions_deleted.
    intros [Hn _]%list_elem_of_filter. by apply Hn.
  - apply head_filter_version_elem in Hhead as [Hvictim Hv].
    apply elem_of_project_rows in Hvictim as [Hvp Hvictim].
    destruct (promoted_rows_shape p v victim s) as (g & Hg & Heq).
    simpl. rewrite Heq. intros r' (r & Hr & -> & Hne)%elem_of_remove_map.
    destruct (Hg r) as (Hgp & Hgv & Hgm). rewrite Hgm, Hgp, Hgv in *.
    apply (other_version_other_document s); [done..|].
    intros [? ?]. apply Hne. split; congruence.
  - apply head_filter_version_elem in Hhead as [Hvictim _].
    apply elem_of_project_rows in Hvictim as [_ Hvictim].
    by apply Hpresent.
  - simpl. destruct (mongodb_available ev); [apply lookup_delete_eq | done].
Qed.

Lemma delete_version_drops_its_document_witness :
  ∃ victim,
    DictionaryVersion.version victim = 1
    ∧ is_Some (dictionaries two_versions_state
                 !! DictionaryVersion.mongo_id victim)
    ∧ dictionaries (delete_version sample_env 0%N 1 "alice" two_versions_state).2
        !! DictionaryVersion.mongo_id victim = None
    ∧ is_Some (dictionaries
                 (delete_version store_down_env 0%N 1 "alice"
                                 two_versions_state).2
                 !! DictionaryVersion.mongo_id victim)
    ∧ (1 ∉ project_versions 0%N
             (delete_version store_down_env 0%N 1 "alice" two_versions_state).2).
Proof.
  pose (victim := default (DictionaryVersion.Build_t 0 0 0 0 EmptyString None
                             false [] 0)
                          (head (dictionary_versions two_versions_state))).
  assert (head (filter (λ r, DictionaryVersion.version r = 1)
                       (project_rows 0%N two_versions_state)) = Some victim)
    as Hhead by reflexivity.
  assert (2 ≤ length (project_rows 0%N two_versions_state))%nat as Hlen
    by (vm_compute; lia).
  destruct (delete_version_drops_its_document two_versions_state sample_env
              0%N 1 "alice" victim reachable_two_versions_state
              alice_owns_two_versions_state Hlen Hhead)
    as (Hup & _ & _ & Hsome & Hgone).
  destruct (delete_version_drops_its_document two_versions_state store_down_env
              0%N 1 "alice" victim reachable_two_versions_state
              alice_owns_two_versions_state Hlen Hhead)
    as (Hdown & Hno & _ & _ & Hkept).
  exists victim. split; [reflexivity|]. split; [exact Hsome|].
  rewrite Hup, Hdown. simpl fst. simpl snd.
  split; [exact Hgone|]. split; [|exact Hno].
  rewrite Hkept. exact Hsome.
Defined.

(** ** Projects *)

Lemma projects_distinct_same s s' :
  projects s' = projects s → projects_distinct s → projects_distinct s'.
Proof. unfold projects_distinct. by intros ->. Qed.

Lemma serve_projects_distinct ev r s :
  index_invariant s → projects_distinct s → projects_distinct (serve ev r s).2.
Proof.
  intros Hidx H.
  assert (∀ body, keeps_index body → projects_distinct (route body s).2) as Hframe.
  { intros body Hb. apply (projects_distinct_same s); [|done].
    by destruct (same_index_route body s Hb) as (? & _). }
  destruct r; simpl.
  - destruct (create_project_state ev user_id project_data s)
      as (prow & Hid & Hprojects & _).
    unfold projects_distinct. rewrite Hprojects.
    change (map ?f ?l) with (f <$> l). rewrite fmap_app. apply NoDup_app.
    split; [done|]. split; [|apply NoDup_singleton].
    intros i (row & -> & Hrow)%list_elem_of_fmap Hin.
    apply list_elem_of_singleton in Hin.
    pose proof (projects_issued s Hidx row Hrow). simpl in Hin. lia.
  - destruct (delete_project_state ev project_id user_id s)
      as [->|(Hprojects & _)]; [done|].
    unfold projects_distinct. rewrite Hprojects.
    apply (sublist_NoDup _ (map Project.id (projects s))); [exact H|].
    change (map ?f ?l) with (f <$> l). apply fmap_sublist, sublist_filter.
  - apply Hframe, keeps_index_list_versions.
  - unfold create_version, route.
    destruct (create_version_body_cases ev project_id user_id version_data s)
      as [[e ->]|(Hown & _ & rels & erd & resp & _ & ->)]; [by destruct e|].
    done.
  - apply Hframe, keeps_index_get_latest_version.
  - apply Hframe, keeps_index_get_specific_version.
  - apply Hframe, keeps_index_update_version.
  - unfold delete_version, route.
    destruct (delete_version_body_cases ev project_id version user_id s)
      as [[e ->]|(_ & Hlen & victim & Hhead & ->)]; [by destruct e|].
    done.
  - apply Hframe, keeps_index_list_tables.
  - apply Hframe, keeps_index_create_table.
  - apply Hframe, keeps_index_update_table.
  - apply Hframe, keeps_index_delete_table.
  - apply Hframe, keeps_index_delete_column.
  - apply Hframe, keeps_index_get_table.
Qed.

Lemma reachable_projects_distinct s : reachable s → projects_distinct s.
Proof.
  induction 1 as [|s ev r Hreach IH].
  - apply NoDup_nil_2.
  - apply serve_projects_distinct; [by apply reachable_invariant | done].
Qed.

Lemma filter_absent_key {A} (f : A → N) (Q : A → Prop) `{∀ x, Decision (Q x)}
    (l : list A) k :
  k ∉ map f l → filter (λ y, f y = k ∧ Q y) l = [].
Proof.
  induction l as [|b l IH]; intros Hk; [done|].
  rewrite filter_cons_False.
  - apply IH. intros Hin. apply Hk. simpl. by right.
  - intros [Hb _]. apply Hk. simpl. rewrite Hb. left.
Qed.

Lemma filter_unique_key {A} (f : A → N) (Q : A → Prop) `{∀ x, Decision (Q x)}
    (l : list A) x :
  NoDup (map f l) → x ∈ l → Q x →
  filter (λ y, f y = f x ∧ Q y) l = [x].
Proof.
  induction l as [|a l IH]; intros Hnd Hx HQ; [by apply elem_of_nil in Hx|].
  simpl in Hnd. apply NoDup_cons in Hnd as [Ha Hnd].
  apply elem_of_cons in Hx as [->|Hx].
  - rewrite filter_cons_True by done. f_equal. by apply filter_absent_key.
  - rewrite filter_cons_False; [by apply IH|].
    intros [Hfa _]. apply Ha. rewrite Hfa. apply list_elem_of_fmap. eauto.
Qed.

(** The project row of an owner, in a state the service can reach. *)
Lemma reachable_owner_row s p u :
  reachable s → owns u p s →
  ∃ prow, filter (λ row, Project.id row = p ∧ Project.owner_id row = u)
                 (projects s) = [prow]
          ∧ Project.id prow = p ∧ Project.owner_id prow = u.
Proof.
  intros Hreach (prow & Hin & Hid & Howner). exists prow.
  split; [|done]. subst p.
  apply (filter_unique_key Project.id (λ row, Project.owner_id row = u));
    [by apply reachable_projects_distinct | done | done].
Qed.

Lemma no_rows_for_next_project s :
  index_invariant s → project_rows (next_uuid s) s = [].
Proof.
  intros Hidx. destruct (project_rows (next_uuid s) s) as [|r l] eqn:E; [done|].
  assert (r ∈ project_rows (next_uuid s) s) as [Hp Hr]%elem_of_project_rows
    by (rewrite E; left).
  pose proof (projects_known s Hidx r Hr). lia.
Qed.

Lemma no_latest_without_rows p s :
  project_rows p s = [] →
  filter (λ r, DictionaryVersion.project_id r = p
               ∧ DictionaryVersion.is_latest r = true) (dictionary_versions s)
  = [].
Proof.
  intros H. rewrite latest_rows_of_project. fold (project_rows p s).
  by rewrite H.
Qed.

Lemma get_latest_version_no_versions ev p u s :
  owns u p s → project_rows p s = [] →
  get_latest_version ev p u s
  = (Returned (success_response
                 (VDict [("version", VNone); ("dictionary", VNone)])
                 "No versions found for this project"), s).
Proof.
  intros Hown Hrows. unfold get_latest_version, route, get_latest_version_body.
  erewrite bind_inr by (by apply require_project_access_owns).
  erewrite bind_inr by reflexivity.
  by rewrite (no_latest_without_rows p s Hrows).
Qed.

(** ** Stripping white space *)

Lemma append_cons x (a b : string) : String x a +:+ b = String x (a +:+ b).
Proof. reflexivity. Qed.

Lemma append_assoc (a b c : string) : (a +:+ b) +:+ c = a +:+ b +:+ c.
Proof. induction a as [|x a IH]; [done|]. by rewrite !append_cons, IH. Qed.

Lemma append_nil_r (a : string) : a +:+ EmptyString = a.
Proof. induction a as [|x a IH]; [done|]. by rewrite append_cons, IH. Qed.

Lemma length_append (a b : string) :
  String.length (a +:+ b) = (String.length a + String.length b)%nat.
Proof.
  induction a as [|x a IH]; [done|]. rewrite append_cons. simpl. by rewrite IH.
Qed.

Lemma rev_app_append (a b : string) :
  String.rev_app a b = String.rev a +:+ b.
Proof.
  unfold String.rev. revert b. induction a as [|x a IH]; intros b; simpl; [done|].
  rewrite (IH (String x b)), (IH (String x EmptyString)).
  by rewrite append_assoc.
Qed.

Lemma rev_append (a b : string) :
  String.rev (a +:+ b) = String.rev b +:+ String.rev a.
Proof.
  induction a as [|x a IH]; simpl.
  - by rewrite append_nil_r.
  - unfold String.rev at 1 3. simpl. rewrite !rev_app_append, IH.
    by rewrite append_assoc.
Qed.

Lemma rev_involutive (a : string) : String.rev (String.rev a) = a.
Proof.
  induction a as [|x a IH]; [done|].
  unfold String.rev at 2. simpl. rewrite rev_app_append, rev_append, IH.
  reflexivity.
Qed.

Lemma length_rev (a : string) : String.length (String.rev a) = String.length a.
Proof.
  induction a as [|x a IH]; [done|].
  unfold String.rev. simpl. rewrite rev_app_append, length_append, IH.
  simpl. lia.
Qed.

Lemma drop_prefix_Some w s x : drop_prefix w s = Some x ↔ s = w +:+ x.
Proof.
  revert s. induction w as [|a w IH]; intros s; simpl.
  - split; [by intros [= ->] | by intros ->].
  - destruct s as [|b s]; [split; discriminate|].
    destruct (Ascii.eqb a b) eqn:E.
    + apply Ascii.eqb_eq in E as ->. rewrite IH.
      split; [by intros -> | by intros [= ->]].
    + apply Ascii.eqb_neq in E. split; [discriminate | intros [= ? _]; done].
Qed.

Lemma drop_first_Some ws s x :
  drop_first ws s = Some x → ∃ w, w ∈ ws ∧ s = w +:+ x.
Proof.
  induction ws as [|w ws IH]; simpl; [discriminate|].
  destruct (drop_prefix w s) as [y|] eqn:E.
  - intros [= ->]. exists w. split; [left | by apply drop_prefix_Some].
  - intros (w' & ? & ?)%IH. exists w'. split; [by right | done].
Qed.

Lemma drop_first_None ws s w x :
  drop_first ws s = None → w ∈ ws → s ≠ w +:+ x.
Proof.
  induction ws as [|w0 ws IH]; simpl; [by intros _ ?%elem_of_nil|].
  destruct (drop_prefix w0 s) as [y|] eqn:E; [discriminate|].
  intros Hnone [->|Hin]%elem_of_cons; [|by apply IH].
  intros Hs%drop_prefix_Some. congruence.
Qed.

(** The fuel of [lstrip_with] is enough: what is left begins with no
    member of [ws]. *)
Lemma lstrip_with_done ws n s :
  Forall (λ w, w ≠ EmptyString) ws → (String.length s ≤ n)%nat →
  drop_first ws (lstrip_with ws n s) = None.
Proof.
  intros Hws. revert s. induction n as [|n IH]; intros s Hlen; simpl.
  - destruct s; [|simpl in Hlen; lia].
    destruct (drop_first ws EmptyString) as [x|] eqn:E; [|done].
    apply drop_first_Some in E as (w & Hw & Hs).
    rewrite Forall_forall in Hws. specialize (Hws w Hw).
    by destruct w.
  - destruct (drop_first ws s) as [s'|] eqn:E; [|done].
    apply IH. apply drop_first_Some in E as (w & Hw & ->).
    rewrite Forall_forall in Hws. specialize (Hws w Hw).
    rewrite length_append in Hlen. destruct w; [done|]. simpl in Hlen. lia.
Qed.

Lemma lstrip_with_prefix ws n s :
  ∃ l, made_of ws l ∧ s = l +:+ lstrip_with ws n s.
Proof.
  revert s. induction n as [|n IH]; intros s; simpl.
  - exists EmptyString. split; [constructor | done].
  - destruct (drop_first ws s) as [s'|] eqn:E.
    + apply drop_first_Some in E as (w & Hw & ->).
      destruct (IH s') as (l & Hl & Hs'). exists (w +:+ l).
      split; [by constructor|]. by rewrite append_assoc, <- Hs'.
    + exists EmptyString. split; [constructor | done].
Qed.

Lemma made_of_append ws a b : made_of ws a → made_of ws b → made_of ws (a +:+ b).
Proof.
  induction 1 as [|w s Hw _ IH]; intros Hb; [done|].
  rewrite append_assoc. constructor; [done | by apply IH].
Qed.

Lemma made_of_rev ws a :
  made_of (map String.rev ws) a → made_of ws (String.rev a).
Proof.
  induction 1 as [|w s Hw _ IH]; [constructor|].
  rewrite rev_append. apply made_of_append; [done|].
  apply list_elem_of_fmap in Hw as (w' & -> & Hw').
  rewrite rev_involutive, <- (append_nil_r w'). constructor; [done|constructor].
Qed.

Lemma whitespace_not_empty : Forall (λ w, w ≠ EmptyString) whitespace.
Proof. repeat (constructor; [discriminate|]). constructor. Qed.

Lemma whitespace_rev_not_empty :
  Forall (λ w, w ≠ EmptyString) (map String.rev whitespace).
Proof. repeat (constructor; [discriminate|]). constructor. Qed.

(** What [strip] gives: the string without the white space around it. *)
Lemma strip_stripped s : stripped s (strip s).
Proof.
  unfold strip, rstrip, lstrip.
  set (t := lstrip_with whitespace (String.length s) s).
  set (r := lstrip_with (map String.rev whitespace) (String.length t)
                        (String.rev t)).
  destruct (lstrip_with_prefix whitespace (String.length s) s)
    as (before & Hbefore & Hs). fold t in Hs.
  destruct (lstrip_with_prefix (map String.rev whitespace) (String.length t)
              (String.rev t)) as (after & Hafter & Ht). fold r in Ht.
  assert (t = String.rev r +:+ String.rev after) as Ht'.
  { by rewrite <- rev_append, <- Ht, rev_involutive. }
  assert (drop_first whitespace t = None) as Hbegin.
  { apply lstrip_with_done; [apply whitespace_not_empty | done]. }
  assert (drop_first (map String.rev whitespace) r = None) as Hend.
  { apply lstrip_with_done; [apply whitespace_rev_not_empty|].
    by rewrite length_rev. }
  split; [|split].
  - exists before, (String.rev after). split; [by rewrite <- Ht'|].
    split; [done | by apply made_of_rev].
  - intros (w & x & Hw & Hx).
    apply (drop_first_None whitespace t w (x +:+ String.rev after) Hbegin Hw).
    by rewrite Ht', Hx, append_assoc.
  - intros (w & x & Hw & Hx).
    apply (drop_first_None (map String.rev whitespace) r (String.rev w)
             (String.rev x) Hend).
    + apply list_elem_of_fmap. by exists w.
    + by rewrite <- rev_append, <- Hx, rev_involutive.
Qed.

Lemma created_project_fields ev id u d :
  Project.id (created_project ev id u d) = id
  ∧ Project.owner_id (created_project ev id u d) = u
  ∧ stripped (CreateProjectRequest.name d)
             (Project.name (created_project ev id u d))
  ∧ match CreateProjectRequest.description d with
    | Some t =>
        if decide (t = EmptyString)
        then Project.description (created_project ev id u d) = None
        else ∃ core,
               Project.description (created_project ev id u d) = Some core
               ∧ stripped t core
    | None => Project.description (created_project ev id u d) = None
    end.
Proof.
  split; [done|]. split; [done|]. split; [apply strip_stripped|].
  unfold created_project. simpl.
  destruct (CreateProjectRequest.description d) as [t|]; [|done].
  destruct (decide (t = EmptyString)) as [->|Hne]; [done|].
  destruct t as [|a t]; [done|]. eexists. split; [reflexivity|].
  apply strip_stripped.
Qed.

(** X14: [create_project] in a state the service can reach.  The project
    row is stored under a fresh id with the name and the description of
    the request stripped of surrounding white space (an empty description
    is stored as none), and is returned: the stored text neither begins
    nor ends with a white-space character and the request's text is the
    stored one with white space only before and after it.  The rows of
    every other project stay as they are.  With the document store
    available the project starts with exactly one version, numbered 1 and
    flagged latest, whose document holds the tables of the default schema
    under [schemas], no relationship and an empty layout.  With the
    document store unavailable the request succeeds all the same and
    leaves a project without any version, for which [get_latest_version]
    answers "No versions found for this project".  White space is what
    [str.isspace] accepts: the ASCII blanks, U+001C to U+001F and the
    Unicode spaces and line separators. *)
Theorem create_project_opens_with_version_one s ev u d :
  reachable s →
  (create_project ev u d s).1
  = Returned (project_response (created_project ev (next_uuid s) u d))
  ∧ projects (create_project ev u d s).2
    = projects s ++ [created_project ev (next_uuid s) u d]
  ∧ Project.id (created_project ev (next_uuid s) u d) = next_uuid s
  ∧ Project.owner_id (created_project ev (next_uuid s) u d) = u
  ∧ stripped (CreateProjectRequest.name d)
             (Project.name (created_project ev (next_uuid s) u d))
  ∧ match CreateProjectRequest.description d with
    | Some t =>
        if decide (t = EmptyString)
        then Project.description (created_project ev (next_uuid s) u d) = None
        else ∃ core,
               Project.description (created_project ev (next_uuid s) u d)
               = Some core
               ∧ stripped t core
    | None => Project.description (created_project ev (next_uuid s) u d) = None
    end
  ∧ (∀ q, q ≠ next_uuid s →
          project_rows q (create_project ev u d s).2 = project_rows q s)
  ∧ (mongodb_available ev = true →
     ∃ row doc,
       project_rows (next_uuid s) (create_project ev u d s).2 = [row]
       ∧ DictionaryVersion.version row = 1
       ∧ DictionaryVersion.is_latest row = true
       ∧ document_of (next_uuid s) 1 (create_project ev u d s).2 = Some doc
       ∧ dict_get doc "schemas"
         = Some (schemas_dict_of
                   (map Table.model_dump
                        (flat_map Schema.tables create_initial_schema)))
       ∧ dict_get doc "relationships" = Some (VList [])
       ∧ dict_get doc "erd" = Some empty_erd)
  ∧ (mongodb_available ev = false →
     project_rows (next_uuid s) (create_project ev u d s).2 = []
     ∧ dictionaries (create_project ev u d s).2 = dictionaries s
     ∧ ∀ ev',
         get_latest_version ev' (next_uuid s) u (create_project ev u d s).2
         = (Returned (success_response
                        (VDict [("version", VNone); ("dictionary", VNone)])
                        "No versions found for this project"),
            (create_project ev u d s).2)).
Proof.
  intros Hreach. pose proof (reachable_invariant s Hreach) as Hidx.
  pose proof (no_rows_for_next_project s Hidx) as Hnone.
  destruct (created_project_fields ev (next_uuid s) u d)
    as (Hid & Howner & Hname & Hdescription).
  unfold create_project, project_route, create_project_body,
    create_initial_dictionary.
  destruct (mongodb_available ev) eqn:Hm; simpl.
  - split; [done|]. split; [done|].
    split; [exact Hid|]. split; [exact Howner|]. split; [exact Hname|].
    split; [exact Hdescription|]. split; [|split; [|done]].
    + intros q Hq. unfold project_rows. simpl. rewrite filter_app.
      rewrite filter_cons_False by (simpl; congruence).
      by rewrite app_nil_r.
    + intros _. eexists _, _.
      unfold document_of, project_rows. simpl. rewrite filter_app.
      fold (project_rows (next_uuid s) s). rewrite Hnone.
      rewrite filter_cons_True by done. simpl.
      split; [reflexivity|]. split; [done|]. split; [done|].
      split; [apply lookup_insert_eq|]. done.
  - split; [done|]. split; [done|].
    split; [exact Hid|]. split; [exact Howner|]. split; [exact Hname|].
    split; [exact Hdescription|]. split; [done|]. split; [done|].
    intros _. split; [exact Hnone|]. split; [done|].
    intros ev'. apply get_latest_version_no_versions; [|exact Hnone].
    eexists. split; [apply elem_of_app; right; left|]. done.
Qed.

Lemma create_project_opens_with_version_one_witness :
  (∃ row, project_rows 0%N one_version_state = [row]
          ∧ DictionaryVersion.version row = 1)
  ∧ project_rows 0%N
      (create_project store_down_env "alice" sample_project_request
                      initial_state).2 = []
  ∧ (∃ prow,
       projects (create_project sample_env "alice" padded_project_request
                                initial_state).2 = [prow]
       ∧ Project.name prow = "shop"
       ∧ Project.description prow = Some EmptyString).
Proof.
  destruct (create_project_opens_with_version_one initial_state sample_env
              "alice" sample_project_request reachable_initial)
    as (_ & _ & _ & _ & _ & _ & _ & Hup & _).
  destruct (create_project_opens_with_version_one initial_state store_down_env
              "alice" sample_project_request reachable_initial)
    as (_ & _ & _ & _ & _ & _ & _ & _ & Hdown).
  destruct (create_project_opens_with_version_one initial_state sample_env
              "alice" padded_project_request reachable_initial)
    as (_ & Hrow & _).
  destruct (Hup eq_refl) as (row & doc & Hrows & Hv & _).
  destruct (Hdown eq_refl) as (Hnone & _).
  split; [by exists row|]. split; [exact Hnone|].
  eexists. split; [exact Hrow|]. split; reflexivity.
Defined.

(** X15: [delete_project] in a state the service can reach.  For a user
    who does not own the project the lookup of the row fails, the route
    raises [HTTPException] 500 (never 404) and nothing is changed; without
    debug mode the detail is "Failed to delete project".  For the owner,
    with the document store available or a project without versions, the
    request succeeds: the project is gone for every user, it has no row
    left in the version index, the documents its rows pointed at are gone
    from the document store, and the rows of other projects and every
    other document are as before.  For the owner of a project with
    versions while the document store is unavailable, the route raises
    [HTTPException] 500 and nothing is deleted. *)
Theorem delete_project_removes_its_versions s ev p u :
  reachable s →
  (¬ owns u p s →
   ∃ detail,
     delete_project ev p u s = (Raised (HTTPException 500 detail), s)
     ∧ (DEBUG ev = false → detail = "Failed to delete project"))
  ∧ (owns u p s → mongodb_available ev = true ∨ project_rows p s = [] →
     (delete_project ev p u s).1
     = Returned
         (VDict [("status", VStr "success");
                 ("message",
                   VStr "Project and all associated data deleted successfully")])
     ∧ (∀ u', ¬ owns u' p (delete_project ev p u s).2)
     ∧ project_rows p (delete_project ev p u s).2 = []
     ∧ (∀ r, r ∈ project_rows p s →
             dictionaries (delete_project ev p u s).2
               !! DictionaryVersion.mongo_id r = None)
     ∧ (∀ q, q ≠ p →
             project_rows q (delete_project ev p u s).2 = project_rows q s)
     ∧ (∀ o, (∀ r, r ∈ project_rows p s → DictionaryVersion.mongo_id r ≠ o) →
             dictionaries (delete_project ev p u s).2 !! o
             = dictionaries s !! o))
  ∧ (owns u p s → mongodb_available ev = false → project_rows p s ≠ [] →
     ∃ detail,
       delete_project ev p u s = (Raised (HTTPException 500 detail), s)).
Proof.
  intros Hreach. split; [|split].
  - intros Hno.
    assert (filter (λ row, Project.id row = p ∧ Project.owner_id row = u)
                   (projects s) = []) as Hnone.
    { destruct (filter _ (projects s)) as [|row l] eqn:E; [done|].
      exfalso. apply Hno. exists row.
      assert (row ∈ row :: l) as Hin by left. rewrite <- E in Hin.
      apply list_elem_of_filter in Hin. tauto. }
    unfold delete_project, project_route, delete_project_body, bind, get_state,
      lift. simpl. rewrite Hnone. simpl. eexists. split; [reflexivity|].
    unfold handle_project_error. by intros ->.
  - intros Hown Hstore.
    destruct (reachable_owner_row s p u Hreach Hown) as (prow & Hfilter & _).
    assert (delete_project ev p u s
            = (Returned
                 (VDict [("status", VStr "success");
                         ("message",
                           VStr "Project and all associated data deleted successfully")]),
               with_dictionary_versions
                 (filter (λ r, DictionaryVersion.project_id r ≠ p)
                         (dictionary_versions s))
                 (with_projects
                    (filter (λ row, Project.id row ≠ p) (projects s))
                    (with_dictionaries
                       (foldr (λ o m, delete o m) (dictionaries s)
                              (map DictionaryVersion.mongo_id (project_rows p s)))
                       s)))) as ->.
    { unfold delete_project, project_route, delete_project_body, bind,
        get_state, lift, select_versions, ret, put_state, delete_many, raise.
      simpl. rewrite Hfilter. simpl. fold (project_rows p s).
      destruct Hstore as [Hm|Hrows].
      - rewrite Hm.
        by destruct (map DictionaryVersion.mongo_id (project_rows p s)).
      - by rewrite Hrows. }
    simpl. split; [done|]. split; [|split; [|split; [|split]]].
    + intros u' (row & Hin & Hid & _).
      apply list_elem_of_filter in Hin as [Hne _]. done.
    + unfold project_rows. simpl. rewrite project_rows_filter_other.
      by rewrite decide_True.
    + intros r Hr. rewrite lookup_foldr_delete. rewrite decide_True; [done|].
      apply list_elem_of_fmap. eauto.
    + intros q Hq. unfold project_rows. simpl.
      rewrite project_rows_filter_other. by rewrite decide_False.
    + intros o Ho. rewrite lookup_foldr_delete. rewrite decide_False; [done|].
      intros (r & -> & Hr)%list_elem_of_fmap. by apply (Ho r).
  - intros Hown Hm Hrows.
    destruct (reachable_owner_row s p u Hreach Hown) as (prow & Hfilter & _).
    unfold delete_project, project_route, delete_project_body, bind,
      get_state, lift, select_versions, ret, put_state, delete_many, raise.
    simpl. rewrite Hfilter. simpl. fold (project_rows p s). rewrite Hm.
    destruct (project_rows p s); [done|]. simpl. by eexists.
Qed.

Lemma delete_project_removes_its_versions_witness :
  project_rows 0%N (delete_project sample_env 0%N "alice" two_versions_state).2
  = []
  ∧ dictionaries (delete_project sample_env 0%N "alice" two_versions_state).2
      !! 0%N = None
  ∧ ∃ detail,
      delete_project sample_env 0%N "bob" two_versions_state
      = (Raised (HTTPException 500 detail), two_versions_state).
Proof.
  destruct (delete_project_removes_its_versions two_versions_state sample_env
              0%N "alice" reachable_two_versions_state) as (_ & Howner & _).
  destruct (delete_project_removes_its_versions two_versions_state sample_env
              0%N "bob" reachable_two_versions_state) as (Hbob & _).
  destruct (Howner alice_owns_two_versions_state (or_introl eq_refl))
    as (_ & _ & Hrows & Hdocs & _).
  split; [exact Hrows|]. split.
  - apply (Hdocs (default (DictionaryVersion.Build_t 0 0 0 0 EmptyString None
                             false [] 0)
                          (head (dictionary_versions two_versions_state)))).
    vm_compute. left.
  - destruct Hbob as (detail & Hd & _); [|by exists detail].
    intros (row & Hin & _ & Hown). vm_compute in Hin.
    apply list_elem_of_singleton in Hin. subst row. discriminate Hown.
Defined.

(** ** Versions that are not there *)

Lemma no_row_of_missing_version p v s :
  v ∉ project_versions p s →
  filter (λ r, DictionaryVersion.project_id r = p
               ∧ DictionaryVersion.version r = v) (dictionary_versions s)
  = [].
Proof.
  intros Hv. destruct (filter _ (dictionary_versions s)) as [|r l] eqn:E;
    [done|].
  exfalso. apply Hv.
  assert (r ∈ r :: l) as Hin by left. rewrite <- E in Hin.
  apply list_elem_of_filter in Hin as [[Hp Hrv] Hin].
  apply elem_of_project_versions. exists r. done.
Qed.

Lemma load_dictionary_missing_version ev p v u s :
  owns u p s → v ∉ project_versions p s →
  load_dictionary ev p v u s
  = (inl (NotFoundError ("Version " +:+ pretty v +:+ " not found")), s).
Proof.
  intros Hown Hv. unfold load_dictionary.
  erewrite bind_inr by (by apply require_project_access_owns).
  unfold get_version_mongo_id, select_versions. unfold bind at 1. simpl.
  by rewrite (no_row_of_missing_version p v s Hv).
Qed.

(** X16: a request of the owner to any route of [tables.py] for a version
    number the project does not have is answered with an error envelope of
    code 500 whose message is "Version N not found not found" (the
    constructor of [NotFoundError] appends " not found" to a text that ends
    in it already), whether or not the document store is available, and
    leaves both stores as they were. *)
Theorem table_routes_on_a_missing_version ev r s p u v :
  request_scope r = Some (p, u) → request_version r = Some v →
  owns u p s → v ∉ project_versions p s →
  serve ev r s
  = (Returned (error_response
                 (("Version " +:+ pretty v +:+ " not found") +:+ " not found")
                 500), s).
Proof.
  intros Hr Hrv Hown Hv.
  pose proof (load_dictionary_missing_version ev p v u s Hown Hv) as Hl.
  destruct r; simpl in Hr, Hrv; simplify_eq; simpl;
    unfold list_tables, create_table, update_table, delete_table,
      delete_column, get_table, route, list_tables_body, create_table_body,
      update_table_body, delete_table_body, delete_column_body,
      get_table_body.
  all: by erewrite bind_inl by exact Hl.
Qed.

Lemma table_routes_on_a_missing_version_witness :
  serve store_down_env (ListTables 0%N 7 None "alice") one_version_state
  = (Returned (error_response "Version 7 not found not found" 500),
     one_version_state).
Proof.
  apply (table_routes_on_a_missing_version store_down_env
           (ListTables 0%N 7 None "alice") one_version_state 0%N "alice" 7).
  - reflexivity.
  - reflexivity.
  - apply alice_owns_one_version_state.
  - vm_compute. intros Hin. apply list_elem_of_singleton in Hin. discriminate Hin.
Defined.

Lemma get_specific_version_body_found ev p v u s row doc :
  owns u p s → mongodb_available ev = true →
  filter (λ r, DictionaryVersion.project_id r = p
               ∧ DictionaryVersion.version r = v) (dictionary_versions s)
  = [row] →
  dictionaries s !! DictionaryVersion.mongo_id row = Some doc →
  get_specific_version_body ev p v u s
  = (inr (success_response
            (VDict [("version", DictionaryVersion.to_value row);
                    ("dictionary",
                      VDict (jsonable_dictionary
                               (("_id", VObjectId (DictionaryVersion.mongo_id row))
                                :: doc)))])
            ("Version " +:+ pretty v +:+ " retrieved successfully")), s).
Proof.
  intros Hown Hm Hrow Hdoc. unfold get_specific_version_body.
  erewrite bind_inr by (by apply require_project_access_owns).
  erewrite bind_inr by reflexivity. rewrite Hrow.
  erewrite bind_inr by reflexivity.
  erewrite bind_inr by (by apply require_mongodb_available).
  unfold find_one, bind, get_state, ret. simpl. by rewrite Hdoc.
Qed.

(** X17: [get_specific_version] for the owner of a project, in a state the
    service can reach.  For a version the project has, with the document
    store available, the answer holds the row of that version and its
    document, with [_id] and the two timestamps turned to text.  With the
    document store unavailable the answer is the error envelope "MongoDB
    connection not available".  For a version number the project does not
    have, the lookup of the single row fails, so the route answers with
    the lookup's error in an envelope of code 500 and never with the
    message "Version N not found" the handler has for that case.  Nothing
    is changed in any case. *)
Theorem get_specific_version_returns_the_version s ev p v u :
  reachable s → owns u p s →
  (v ∈ project_versions p s → mongodb_available ev = true →
   ∃ row doc,
     row ∈ project_rows p s ∧ DictionaryVersion.version row = v
     ∧ document_of p v s = Some doc
     ∧ get_specific_version ev p v u s
       = (Returned
            (success_response
               (VDict [("version", DictionaryVersion.to_value row);
                       ("dictionary",
                         VDict (jsonable_dictionary
                                  (("_id",
                                     VObjectId (DictionaryVersion.mongo_id row))
                                   :: doc)))])
               ("Version " +:+ pretty v +:+ " retrieved successfully")), s))
  ∧ (v ∈ project_versions p s → mongodb_available ev = false →
     get_specific_version ev p v u s
     = (Returned (error_response "MongoDB connection not available" 500), s))
  ∧ (v ∉ project_versions p s →
     ∃ m, get_specific_version_body ev p v u s = (inl (APIError m), s)
          ∧ get_specific_version ev p v u s
            = (Returned (error_response m 500), s)).
Proof.
  intros Hreach Hown.
  pose proof (reachable_invariant s Hreach) as Hidx.
  pose proof (reachable_store_invariant s Hreach) as [Hpresent _].
  split; [|split].
  - intros Hv Hm.
    destruct (single_version_row p v s (versions_unique s Hidx p) Hv)
      as (row & Hrow & Hin & Hrv).
    assert (row ∈ dictionary_versions s) as Hin'
      by (by apply elem_of_project_rows in Hin as [_ ?]).
    destruct (Hpresent row Hin') as [doc Hdoc].
    exists row, doc. split; [done|]. split; [done|]. split.
    + unfold document_of. rewrite filter_project_version in Hrow.
      fold (project_rows p s) in Hrow. by rewrite Hrow.
    + unfold get_specific_version, route.
      by rewrite (get_specific_version_body_found ev p v u s row doc).
  - intros Hv Hm.
    destruct (single_version_row p v s (versions_unique s Hidx p) Hv)
      as (row & Hrow & _).
    unfold get_specific_version, route, get_specific_version_body.
    erewrite bind_inr by (by apply require_project_access_owns).
    erewrite bind_inr by reflexivity. rewrite Hrow.
    erewrite bind_inr by reflexivity.
    by erewrite bind_inl by (by apply require_mongodb_unavailable).
  - intros Hv.
    assert (∃ m, get_specific_version_body ev p v u s = (inl (APIError m), s))
      as [m Hb].
    { unfold get_specific_version_body.
      erewrite bind_inr by (by apply require_project_access_owns).
      erewrite bind_inr by reflexivity.
      rewrite (no_row_of_missing_version p v s Hv). by eexists. }
    exists m. split; [exact Hb|]. unfold get_specific_version, route.
    by rewrite Hb.
Qed.

Lemma get_specific_version_returns_the_version_witness :
  (∃ row doc,
     DictionaryVersion.version row = 2
     ∧ document_of 0%N 2 two_versions_state = Some doc
     ∧ (get_specific_version sample_env 0%N 2 "alice" two_versions_state).2
       = two_versions_state)
  ∧ ∃ m, get_specific_version sample_env 0%N 5 "alice" two_versions_state
         = (Returned (error_response m 500), two_versions_state).
Proof.
  destruct (get_specific_version_returns_the_version two_versions_state
              sample_env 0%N 2 "alice" reachable_two_versions_state
              alice_owns_two_versions_state) as (Hfound & _ & _).
  destruct (get_specific_version_returns_the_version two_versions_state
              sample_env 0%N 5 "alice" reachable_two_versions_state
              alice_owns_two_versions_state) as (_ & _ & Hmissing).
  assert (project_versions 0%N two_versions_state = [1; 2]) as E
    by (vm_compute; reflexivity).
  split.
  - destruct Hfound as (row & doc & _ & Hv & Hdoc & Hres).
    + rewrite E. right. left.
    + reflexivity.
    + exists row, doc. split; [done|]. split; [done|]. by rewrite Hres.
  - destruct Hmissing as (m & _ & Hres).
    + rewrite E. intros Hin. repeat (apply elem_of_cons in Hin as [Hin|Hin];
        [discriminate Hin|]). by apply elem_of_nil in Hin.
    + by exists m.
Defined.

(** ** Reading back what was created *)

Lemma create_version_not_error ev p u d s :
  ¬ reports_error (create_version ev p u d s).1 →
  owns u p s ∧ mongodb_available ev = true
  ∧ ∃ rels erd,
      (create_version ev p u d s).2 = created_state ev p d rels erd s.
Proof.
  intros Hok. unfold create_version, route in *.
  destruct (create_version_body_cases ev p u d s)
    as [[e He]|(Hown & Hm & rels & erd & data & _ & Hb)].
  - exfalso. apply Hok. rewrite He. by destruct e.
  - split; [done|]. split; [done|]. exists rels, erd. by rewrite Hb.
Qed.

Lemma filter_version_above (rows : list DictionaryVersion.t) n b :
  (∀ r, r ∈ rows → DictionaryVersion.version r < n) →
  filter (λ r, DictionaryVersion.version r = n)
         (map (DictionaryVersion.set_is_latest b) rows) = [].
Proof.
  induction rows as [|r rows IH]; intros Hlt; [done|].
  simpl. rewrite filter_cons_False.
  - apply IH. intros r' Hr'. apply Hlt. by right.
  - simpl. assert (DictionaryVersion.version r < n) by (apply Hlt; left). lia.
Qed.

Lemma created_version_row ev p d rels erd s :
  filter (λ r, DictionaryVersion.project_id r = p
               ∧ DictionaryVersion.version r
                 = next_version_of (project_rows p s))
         (dictionary_versions (created_state ev p d rels erd s))
  = [version_metadata_of ev (next_uuid s) p
       (next_version_of (project_rows p s)) (next_oid s) d].
Proof.
  rewrite filter_project_version.
  fold (project_rows p (created_state ev p d rels erd s)).
  rewrite project_rows_created, decide_True by done.
  rewrite filter_app, filter_version_above.
  - by rewrite filter_cons_True.
  - intros r Hr. by apply next_version_of_above.
Qed.

Lemma created_latest_row ev p d rels erd s :
  filter (λ r, DictionaryVersion.project_id r = p
               ∧ DictionaryVersion.is_latest r = true)
         (dictionary_versions (created_state ev p d rels erd s))
  = [version_metadata_of ev (next_uuid s) p
       (next_version_of (project_rows p s)) (next_oid s) d].
Proof.
  rewrite latest_rows_of_project.
  fold (project_rows p (created_state ev p d rels erd s)).
  rewrite project_rows_created, decide_True by done.
  rewrite filter_app, latest_rows_set_false. by rewrite filter_cons_True.
Qed.

(** X18: what [create_version] stores is what the read routes give back.
    When [create_version] reports no error, then in the state it leaves,
    with the document store available, [get_latest_version] and
    [get_specific_version] for the new number both answer with the same
    row and the same document: the row carries the next version number,
    the name of the request and the latest flag, and the document carries
    the schemas of the request (the default schema when it has none)
    flattened to their tables. *)
Theorem created_version_is_read_back s ev ev' p u d :
  ¬ reports_error (create_version ev p u d s).1 →
  mongodb_available ev' = true →
  ∃ row doc,
    DictionaryVersion.version row = next_version_of (project_rows p s)
    ∧ DictionaryVersion.name row = CreateVersionRequest.name d
    ∧ DictionaryVersion.is_latest row = true
    ∧ document_of p (next_version_of (project_rows p s))
        (create_version ev p u d s).2 = Some doc
    ∧ dict_get doc "schemas" = Some (convert_schemas (resolve_schemas d))
    ∧ get_latest_version ev' p u (create_version ev p u d s).2
      = (Returned
           (success_response
              (VDict [("version", DictionaryVersion.to_value row);
                      ("dictionary",
                        VDict (jsonable_dictionary
                                 (("_id", VObjectId
                                            (DictionaryVersion.mongo_id row))
                                  :: doc)))])
              "Latest version retrieved successfully"),
         (create_version ev p u d s).2)
    ∧ get_specific_version ev' p (next_version_of (project_rows p s)) u
        (create_version ev p u d s).2
      = (Returned
           (success_response
              (VDict [("version", DictionaryVersion.to_value row);
                      ("dictionary",
                        VDict (jsonable_dictionary
                                 (("_id", VObjectId
                                            (DictionaryVersion.mongo_id row))
                                  :: doc)))])
              ("Version " +:+ pretty (next_version_of (project_rows p s))
               +:+ " retrieved successfully")),
         (create_version ev p u d s).2).
Proof.
  intros Hok Hm'.
  destruct (create_version_not_error ev p u d s Hok)
    as (Hown & Hm & rels & erd & ->).
  set (n := next_version_of (project_rows p s)).
  set (s' := created_state ev p d rels erd s).
  set (row := version_metadata_of ev (next_uuid s) p n (next_oid s) d).
  set (doc := dictionary_doc_of ev p n d (convert_schemas (resolve_schemas d))
                rels erd).
  assert (owns u p s') as Hown' by exact Hown.
  assert (dictionaries s' !! DictionaryVersion.mongo_id row = Some doc) as Hdoc
    by apply lookup_insert_eq.
  pose proof (created_version_row ev p d rels erd s) as Hrow.
  pose proof (created_latest_row ev p d rels erd s) as Hlatest.
  fold n s' row in Hrow, Hlatest.
  exists row, doc. split; [done|]. split; [done|]. split; [done|].
  split; [|split; [done|split]].
  - unfold document_of. rewrite filter_project_version in Hrow.
    fold (project_rows p s') in Hrow. by rewrite Hrow.
  - unfold get_latest_version, route, get_latest_version_body.
    erewrite bind_inr by (by apply require_project_access_owns).
    erewrite bind_inr by reflexivity. rewrite Hlatest.
    cbn [take]. cbn beta iota.
    erewrite bind_inr by (by apply require_mongodb_available).
    erewrite bind_inr by reflexivity. by rewrite Hdoc.
  - unfold get_specific_version, route.
    by rewrite (get_specific_version_body_found ev' p n u s' row doc).
Qed.

Lemma created_version_is_read_back_witness :
  ∃ row answer,
    DictionaryVersion.version row = 2
    ∧ DictionaryVersion.name row = "second"
    ∧ get_latest_version sample_env 0%N "alice" two_versions_state
      = (answer "Latest version retrieved successfully", two_versions_state)
    ∧ get_specific_version sample_env 0%N 2 "alice" two_versions_state
      = (answer "Version 2 retrieved successfully", two_versions_state).
Proof.
  destruct (created_version_is_read_back one_version_state sample_env
              sample_env 0%N "alice" sample_version_request)
    as (row & doc & Hv & Hn & _ & _ & _ & Hlatest & Hspecific).
  - vm_compute. discriminate.
  - reflexivity.
  - exists row,
      (λ msg, Returned
                (success_response
                   (VDict [("version", DictionaryVersion.to_value row);
                           ("dictionary",
                             VDict (jsonable_dictionary
                                      (("_id",
                                         VObjectId
                                           (DictionaryVersion.mongo_id row))
                                       :: doc)))])
                   msg)).
    split; [exact Hv|]. split; [exact Hn|].
    split; [exact Hlatest | exact Hspecific].
Defined.

(** ** A table created and deleted again *)

Lemma dict_set_set d k a b : dict_set (dict_set d k a) k b = dict_set d k b.
Proof.
  induction d as [|[k' x] d IH]; simpl.
  - by rewrite String.eqb_refl.
  - destruct (String.eqb k' k) eqn:E; simpl.
    + by rewrite String.eqb_refl.
    + by rewrite E, IH.
Qed.

Lemma dict_set_same d k x : dict_get d k = Some x → dict_set d k x = d.
Proof.
  induction d as [|[k' y] d IH]; simpl; [done|].
  destruct (String.eqb k' k) eqn:E.
  - apply String.eqb_eq in E. by intros [= ->]; subst.
  - intros H. by rewrite IH.
Qed.

Lemma delete_last {A} (l : list A) x : delete (length l) (l ++ [x]) = l.
Proof. induction l as [|a l IH]; simpl; [done|]. by rewrite IH. Qed.

Lemma first_match_last {A} (P : A → bool) l x :
  Forall (λ y, P y = false) l → P x = true →
  first_match P (l ++ [x]) (length l) x.
Proof.
  intros Hl Hx. split; [|split; [done|]].
  - by rewrite lookup_app_r, Nat.sub_diag by lia.
  - intros k y Hk Hy. rewrite lookup_app_l in Hy by done.
    by apply (proj1 (Forall_lookup _ l) Hl k y).
Qed.

Lemma created_table_named d :
  table_named (TableRequest.name d) (TableRequest.schema_name d)
              (created_table d) = true.
Proof.
  unfold table_named, has_text, created_table, TableRequest.model_dump.
  destruct (TableRequest.description d), (TableRequest.columns d); simpl;
    by rewrite !String.eqb_refl.
Qed.

Lemma listed_tables_created d tds :
  listed_tables (Some (TableRequest.schema_name d)) (tds ++ [created_table d])
  = listed_tables (Some (TableRequest.schema_name d)) tds ++ [created_table d].
Proof.
  unfold listed_tables. destruct (truthy_text _); [|done].
  rewrite filter_app, filter_cons_True; [done|].
  pose proof (created_table_named d) as H. unfold table_named in H.
  by apply andb_prop in H as [_ H].
Qed.

Section table_round_trip.
Context (s : state) (ev ev' : env) (p : uuid) (v : Z) (u : string).
Context (row : DictionaryVersion.t) (doc sd : list (string * value)).
Context (tds : list (list (string * value))).
Context (rds : list (list (string * value))).
Context (d : TableRequest.t).

Hypothesis Hown : owns u p s.
Hypothesis Hmongo : mongodb_available ev = true.
Hypothesis Hmongo' : mongodb_available ev' = true.
Hypothesis Hrow :
  filter (λ r, DictionaryVersion.project_id r = p
               ∧ DictionaryVersion.version r = v) (dictionary_versions s)
  = [row].
Hypothesis Hdoc : dictionaries s !! DictionaryVersion.mongo_id row = Some doc.
Hypothesis Hschemas : dict_get doc "schemas" = Some (VDict sd).
Hypothesis Htables : dict_get sd "tables" = Some (VList (map VDict tds)).
Hypothesis Hrels :
  default (VList []) (dict_get doc "relationships") = VList (map VDict rds).
Hypothesis Hfree :
  Forall (λ td, table_named (TableRequest.name d) (TableRequest.schema_name d)
                            td = false) tds.
Hypothesis Hstorable : storable_table d.

Let doc1 : list (string * value) := table_created_document ev d doc sd tds.
Let sd1 : list (string * value) :=
  dict_set sd "tables" (VList (map VDict (tds ++ [created_table d]))).
Let s1 : state :=
  with_dictionaries
    (<[DictionaryVersion.mongo_id row := doc1]> (dictionaries s)) s.

Lemma create_table_state : (create_table ev p v d u s).2 = s1.
Proof.
  unfold create_table, route.
  by rewrite (create_table_body_appends s ev p v u row doc sd tds).
Qed.

Lemma created_document_lookup :
  dictionaries s1 !! DictionaryVersion.mongo_id row = Some doc1.
Proof. apply lookup_insert_eq. Qed.

Lemma created_document_schemas : dict_get doc1 "schemas" = Some (VDict sd1).
Proof.
  unfold doc1, sd1, table_created_document. rewrite map_app.
  apply dict_get_update_head. other_keys.
Qed.

Lemma created_document_tables :
  dict_get sd1 "tables" = Some (VList (map VDict (tds ++ [created_table d]))).
Proof. apply dict_get_set_eq. Qed.

Lemma created_document_relationships :
  default (VList []) (dict_get doc1 "relationships") = VList (map VDict rds).
Proof.
  unfold doc1, table_created_document.
  rewrite dict_get_update_ne; [done|]. other_keys.
Qed.

(** X19: a table created and deleted again.  On a version whose document
    keeps its tables as a list of dicts, after [create_table] of a table
    whose name is free in its schema, for a request the document store can
    hold (every integer it brings fits 8 bytes), [list_tables] for that
    schema lists the new table last, and [delete_table] of that name and
    schema hands back exactly the table that was created and leaves the
    [schemas] entry of the document as it was before the table was
    created.  The
    relationships are not restored: those that name the table as source or
    target are dropped by the deletion although they were stored before
    the table existed.  Every other entry but [updated_at] is as it
    was. *)
Theorem create_then_delete_table_restores_tables :
  list_tables ev' p v (Some (TableRequest.schema_name d)) u
    (create_table ev p v d u s).2
  = (Returned
       (success_response
          (VDict [("tables",
                    VList (map VDict
                             (listed_tables (Some (TableRequest.schema_name d))
                                            tds ++ [created_table d])));
                  ("schema", VStr (TableRequest.schema_name d));
                  ("count",
                    VInt (Z.of_nat
                            (length
                               (listed_tables
                                  (Some (TableRequest.schema_name d)) tds
                                ++ [created_table d])))) ])
          ("Found "
           +:+ pretty (Z.of_nat
                         (length (listed_tables
                                    (Some (TableRequest.schema_name d)) tds
                                  ++ [created_table d])))
           +:+ " tables in schema " +:+ TableRequest.schema_name d)),
     (create_table ev p v d u s).2)
  ∧ (delete_table ev' p v (TableRequest.name d) (TableRequest.schema_name d) u
       (create_table ev p v d u s).2).1
    = Returned
        (success_response
           (VDict [("deleted_table", VDict (created_table d));
                   ("relationships_removed",
                     VInt (Z.of_nat (length rds)
                           - Z.of_nat (length (kept_on_table_delete
                                                 (TableRequest.name d) rds))))])
           ("Table '" +:+ TableRequest.name d
            +:+ "' deleted successfully from schema '"
            +:+ TableRequest.schema_name d +:+ "'"))
  ∧ ∃ doc2,
      dictionaries
        (delete_table ev' p v (TableRequest.name d)
           (TableRequest.schema_name d) u (create_table ev p v d u s).2).2
        !! DictionaryVersion.mongo_id row = Some doc2
      ∧ dict_get doc2 "schemas" = Some (VDict sd)
      ∧ dict_get doc2 "relationships"
        = Some (VList (map VDict
                         (kept_on_table_delete (TableRequest.name d) rds)))
      ∧ ∀ k, k ≠ "relationships" → k ≠ "updated_at" →
             dict_get doc2 k = dict_get doc k.
Proof.
  rewrite create_table_state.
  assert (owns u p s1) as Hown1 by exact Hown.
  assert (filter (λ r, DictionaryVersion.project_id r = p
                       ∧ DictionaryVersion.version r = v)
                 (dictionary_versions s1) = [row]) as Hrow1 by exact Hrow.
  pose proof created_document_lookup as Hdoc1.
  pose proof created_document_schemas as Hschemas1.
  pose proof created_document_tables as Htables1.
  pose proof created_document_relationships as Hrels1.
  split; [|split].
  - unfold list_tables, route.
    rewrite (list_tables_body_dicts s1 ev' p v u row doc1 sd1
               (tds ++ [created_table d]) Hown1 Hmongo' Hrow1 Hdoc1 Hschemas1
               Htables1).
    by rewrite listed_tables_created.
  - unfold delete_table, route.
    by rewrite (delete_table_body_removes s1 ev' p v u row doc1 sd1
                  (tds ++ [created_table d]) rds Hown1 Hmongo' Hrow1 Hdoc1
                  Hschemas1 Htables1 Hrels1 _ _ (length tds) (created_table d)
                  (first_match_last _ _ _ Hfree (created_table_named d))).
  - unfold delete_table, route.
    rewrite (delete_table_body_removes s1 ev' p v u row doc1 sd1
               (tds ++ [created_table d]) rds Hown1 Hmongo' Hrow1 Hdoc1
               Hschemas1 Htables1 Hrels1 _ _ (length tds) (created_table d)
               (first_match_last _ _ _ Hfree (created_table_named d))).
    eexists. split; [apply lookup_insert_eq|].
    unfold table_deleted_document. rewrite delete_last. split; [|split].
    + rewrite dict_get_update_head by other_keys. unfold sd1.
      rewrite dict_set_set. by rewrite (dict_set_same sd "tables" _ Htables).
    + unfold dict_update. simpl.
      rewrite dict_get_set_ne by discriminate. apply dict_get_set_eq.
    + intros k Hk1 Hk2.
      destruct (decide (k = "schemas")) as [->|Hk3].
      * rewrite dict_get_update_head by other_keys. unfold sd1.
        rewrite dict_set_set, (dict_set_same sd "tables" _ Htables).
        by rewrite Hschemas.
      * rewrite dict_get_update_ne
          by (repeat (apply Forall_cons; split; [simpl; congruence|]);
              constructor).
        unfold doc1, table_created_document. apply dict_get_update_ne.
        repeat (apply Forall_cons; split; [simpl; congruence|]). constructor.
Qed.

End table_round_trip.

Lemma create_then_delete_table_restores_tables_witness :
  ∃ doc2,
    dictionaries
      (delete_table sample_env 0%N 1 "orders" "public" "alice"
         (create_table sample_env 0%N 1 orders_request "alice"
                       one_version_state).2).2 !! 0%N = Some doc2
    ∧ dict_get doc2 "schemas"
      = Some (VDict [("tables", VList (map VDict sample_tables));
                     ("relationships", VList [])]).
Proof.
  destruct (create_then_delete_table_restores_tables
              one_version_state sample_env sample_env 0%N 1 "alice"
              (default (DictionaryVersion.Build_t 0 0 0 0 EmptyString None
                          false [] 0)
                       (head (dictionary_versions one_version_state)))
              (default [] (dictionaries one_version_state !! 0%N))
              [("tables", VList (map VDict sample_tables));
               ("relationships", VList [])]
              sample_tables [] orders_request)
    as (_ & _ & doc2 & Hdoc2 & Hschemas & _).
  - apply alice_owns_one_version_state.
  - reflexivity.
  - reflexivity.
  - reflexivity.
  - reflexivity.
  - reflexivity.
  - reflexivity.
  - reflexivity.
  - repeat constructor.
  - reflexivity.
  - exists doc2. split; [exact Hdoc2 | exact Hschemas].
Defined.

(** ** Requests that fail *)

Lemma success_is_success data message :
  is_success (success_response data message).
Proof. unfold is_success, reports_error, success_response. simpl. discriminate. Qed.

Lemma reads_only_ret {A} (a : A) : reads_only (ret a).
Proof. by intros s. Qed.

Lemma reads_only_raise {A} e : reads_only (@raise A e).
Proof. by intros s. Qed.

Lemma reads_only_lift {A} (r : exn + A) : reads_only (lift r).
Proof. intros s. by destruct r. Qed.

Lemma reads_only_get_state : reads_only get_state.
Proof. by intros s. Qed.

Lemma reads_only_bind {A B} (m : M A) (f : A → M B) :
  reads_only m → (∀ a, reads_only (f a)) → reads_only (bind m f).
Proof.
  intros Hm Hf s. unfold bind. specialize (Hm s).
  destruct (m s) as [[e|a] s1]; simpl in *; subst; [done|]. apply Hf.
Qed.

Lemma reads_only_find_one o : reads_only (find_one o).
Proof. by intros s. Qed.

Lemma reads_only_select_versions : reads_only select_versions.
Proof. by intros s. Qed.

Lemma reads_only_require_project_access p u :
  reads_only (require_project_access p u).
Proof.
  apply reads_only_bind; [by intros s|].
  intros []; [apply reads_only_ret | apply reads_only_raise].
Qed.

Lemma reads_only_require_mongodb ev : reads_only (require_mongodb ev).
Proof.
  unfold require_mongodb. destruct (mongodb_available ev);
    [apply reads_only_ret | apply reads_only_raise].
Qed.

Lemma reads_only_not_database ev : reads_only (not_database ev).
Proof.
  unfold not_database. destruct (mongodb_available ev);
    [apply reads_only_raise | apply reads_only_ret].
Qed.

Lemma reads_only_bson_encode v : reads_only (bson_encode v).
Proof.
  unfold bson_encode. destruct (bson_refusal v);
    [apply reads_only_raise | apply reads_only_ret].
Qed.

Lemma reads_only_load_dictionary ev p v u :
  reads_only (load_dictionary ev p v u).
Proof. intros s. apply load_dictionary_state. Qed.

Create HintDb reads discriminated.
#[global] Hint Resolve reads_only_ret reads_only_raise reads_only_lift
  reads_only_get_state reads_only_find_one reads_only_select_versions
  reads_only_require_project_access reads_only_require_mongodb
  reads_only_load_dictionary reads_only_not_database
  reads_only_bson_encode : reads.

Ltac reads_step :=
  match goal with
  | |- reads_only (bind _ _) => apply reads_only_bind; [|intros ?]
  | |- reads_only (let '(_, _) := ?x in _) => destruct x
  | |- reads_only (match ?x with _ => _ end) => destruct x
  | |- reads_only (if ?b then _ else _) => destruct b
  | |- reads_only _ => solve [auto with reads]
  end.
Ltac reads := repeat reads_step.

Lemma fails_clean_ret {A} (Q : A → Prop) a : Q a → fails_clean Q (ret a).
Proof. by intros Ha s. Qed.

Lemma fails_clean_raise {A} (Q : A → Prop) e : fails_clean Q (raise e).
Proof. by intros s. Qed.

Lemma fails_clean_bind {A B} (Q : B → Prop) (m : M A) (f : A → M B) :
  reads_only m → (∀ a, fails_clean Q (f a)) → fails_clean Q (bind m f).
Proof.
  intros Hm Hf s. unfold bind. specialize (Hm s).
  destruct (m s) as [[e|a] s1]; simpl in *; subst; [done|]. apply Hf.
Qed.

(** The write that ends a table route: when it changes nothing the route
    may fail; when it changes the document the route must return. *)
Lemma fails_clean_update_one {B} (Q : B → Prop) o fields (f : Z → M B) :
  fails_clean Q (f 0) →
  (∀ s, match f 1 s with (inl _, _) => False | (inr a, _) => Q a end) →
  fails_clean Q (bind (update_one o fields) f).
Proof.
  intros H0 H1 s. unfold bind at 1.
  destruct (dictionaries s !! o) as [d|] eqn:Hd.
  - rewrite (update_one_found o fields s d Hd).
    destruct (value_eqb (VDict d) (VDict (dict_update d fields))) eqn:E.
    + apply value_eqb_eq in E. injection E as <-.
      rewrite (with_dictionaries_same s d o Hd). apply H0.
    + specialize (H1 (with_dictionaries
                        (<[o := dict_update d fields]> (dictionaries s)) s)).
      by destruct (f 1 _) as [[e|a] s'].
  - assert (update_one o fields s = (inr 0, s)) as ->.
    { unfold update_one, bind, get_state, ret. simpl. by rewrite Hd. }
    apply H0.
Qed.

Ltac clean_step :=
  match goal with
  | |- fails_clean _ (bind (update_one _ _) _) =>
      apply fails_clean_update_one;
      [cbn beta; cbn [Z.eqb]; apply fails_clean_raise
      |intros ?; cbn beta; cbn [Z.eqb]; apply success_is_success]
  | |- fails_clean _ (bind _ _) => apply fails_clean_bind; [reads|intros ?]
  | |- fails_clean _ (let '(_, _) := ?x in _) => destruct x
  | |- fails_clean _ (match ?x with _ => _ end) => destruct x
  | |- fails_clean _ (if ?b then _ else _) => destruct b
  | |- fails_clean _ (raise _) => apply fails_clean_raise
  | |- fails_clean _ (ret _) => apply fails_clean_ret, success_is_success
  end.
Ltac clean := repeat clean_step.

Lemma fails_clean_list_versions p u :
  fails_clean is_success (list_versions_body p u).
Proof. unfold list_versions_body. clean. Qed.

Lemma fails_clean_get_latest_version ev p u :
  fails_clean is_success (get_latest_version_body ev p u).
Proof. unfold get_latest_version_body. clean. Qed.

Lemma fails_clean_get_specific_version ev p v u :
  fails_clean is_success (get_specific_version_body ev p v u).
Proof. unfold get_specific_version_body. clean. Qed.

Lemma fails_clean_create_version ev p u d :
  fails_clean is_success (create_version_body ev p u d).
Proof.
  intros s. destruct (create_version_body_cases ev p u d s)
    as [[e ->]|(_ & _ & rels & erd & data & _ & ->)]; [done|].
  apply success_is_success.
Qed.

Lemma fails_clean_delete_version ev p v u :
  fails_clean is_success (delete_version_body ev p v u).
Proof.
  intros s. destruct (delete_version_body_cases ev p v u s)
    as [[e ->]|(_ & _ & victim & _ & ->)]; [done|].
  apply success_is_success.
Qed.

Lemma fails_clean_list_tables ev p v sn u :
  fails_clean is_success (list_tables_body ev p v sn u).
Proof. unfold list_tables_body. clean. Qed.

Lemma fails_clean_create_table ev p v d u :
  fails_clean is_success (create_table_body ev p v d u).
Proof. unfold create_table_body. clean. Qed.

Lemma fails_clean_update_table ev p v t d sn u :
  fails_clean is_success (update_table_body ev p v t d sn u).
Proof. unfold update_table_body. clean. Qed.

Lemma fails_clean_delete_table ev p v t sn u :
  fails_clean is_success (delete_table_body ev p v t sn u).
Proof. unfold delete_table_body. clean. Qed.

Lemma fails_clean_delete_column ev p v t c sn u :
  fails_clean is_success (delete_column_body ev p v t c sn u).
Proof. unfold delete_column_body. clean. Qed.

Lemma fails_clean_get_table ev p v t sn u :
  fails_clean is_success (get_table_body ev p v t sn u).
Proof. unfold get_table_body. clean. Qed.

Lemma route_fails_clean body s :
  fails_clean is_success body →
  reports_error (route body s).1 → (route body s).2 = s.
Proof.
  intros Hc. specialize (Hc s). unfold route.
  destruct (body s) as [[e|v] s'].
  - subst s'. by destruct e.
  - intros Herr. by destruct Hc.
Qed.

Lemma create_project_succeeds ev u d s :
  ¬ reports_error (create_project ev u d s).1.
Proof.
  unfold create_project, project_route, create_project_body,
    create_initial_dictionary.
  destruct (mongodb_available ev); simpl; discriminate.
Qed.

Lemma delete_project_fails_clean ev p u s :
  reports_error (delete_project ev p u s).1 → (delete_project ev p u s).2 = s.
Proof.
  unfold delete_project, project_route, delete_project_body, bind, get_state,
    lift, select_versions, ret, put_state, delete_many, raise.
  simpl. destruct (single _) as [e|existing]; simpl.
  { by destruct e. }
  destruct (map DictionaryVersion.mongo_id _) as [|o os]; simpl.
  { discriminate. }
  destruct (mongodb_available ev); simpl; [discriminate | done].
Qed.

(** X20: a request that fails changes nothing, with one exception.  For
    every request other than [update_version], when the route reports an
    error (an exception leaves it, or it returns an error envelope), both
    stores are exactly as they were before the request: every check a
    handler makes comes before its first write, and the write that ends a
    table route is reported as failed only when it changed nothing.
    ([update_version] is the exception: it writes the row before it looks
    at the document store.) *)
Theorem failed_requests_change_nothing ev r s :
  (∀ p v u d, r ≠ UpdateVersion p v u d) →
  reports_error (serve ev r s).1 → (serve ev r s).2 = s.
Proof.
  intros Hr. destruct r; simpl.
  - intros Herr. by apply create_project_succeeds in Herr.
  - apply delete_project_fails_clean.
  - apply route_fails_clean, fails_clean_list_versions.
  - apply route_fails_clean, fails_clean_create_version.
  - apply route_fails_clean, fails_clean_get_latest_version.
  - apply route_fails_clean, fails_clean_get_specific_version.
  - exfalso. by eapply Hr.
  - apply route_fails_clean, fails_clean_delete_version.
  - apply route_fails_clean, fails_clean_list_tables.
  - apply route_fails_clean, fails_clean_create_table.
  - apply route_fails_clean, fails_clean_update_table.
  - apply route_fails_clean, fails_clean_delete_table.
  - apply route_fails_clean, fails_clean_delete_column.
  - apply route_fails_clean, fails_clean_get_table.
Qed.

Lemma failed_requests_change_nothing_witness :
  reports_error
    (serve sample_env (DeleteVersion 0%N 1 "alice")
           one_version_state).1
  ∧ (serve sample_env (DeleteVersion 0%N 1 "alice")
           one_version_state).2 = one_version_state.
Proof.
  assert (reports_error
            (serve sample_env (DeleteVersion 0%N 1 "alice")
                   one_version_state).1) as Herr
    by (vm_compute; reflexivity).
  split; [exact Herr|].
  apply (failed_requests_change_nothing sample_env
           (DeleteVersion 0%N 1 "alice") one_version_state).
  - intros p v u d. discriminate.
  - exact Herr.
Defined.

(** ** Requests leave the other projects alone *)

Lemma renamed_row_refl r : renamed_row r r.
Proof. by repeat split. Qed.

Lemma renamed_row_trans r1 r2 r3 :
  renamed_row r1 r2 → renamed_row r2 r3 → renamed_row r1 r3.
Proof.
  unfold renamed_row. intros (?&?&?&?&?&?&?) (?&?&?&?&?&?&?).
  repeat split; congruence.
Qed.

Lemma same_row_but_refl i rows : Forall2 (same_row_but i) rows rows.
Proof.
  induction rows; constructor; [|done]. split; [apply renamed_row_refl|done].
Qed.

Lemma same_row_but_trans i l1 l2 l3 :
  Forall2 (same_row_but i) l1 l2 → Forall2 (same_row_but i) l2 l3 →
  Forall2 (same_row_but i) l1 l3.
Proof.
  intros H12. revert l3. induction H12 as [|r1 r2 l1 l2 H _ IH]; intros l3 H23.
  - by inversion H23.
  - inversion H23 as [|? r3 ? l3' H' Ht]; subst. constructor; [|by apply IH].
    destruct H as (Hr & He), H' as (Hr' & He').
    split; [by apply (renamed_row_trans r1 r2)|].
    intros Hne. rewrite <- (He Hne). apply He'. destruct Hr as (-> & _). done.
Qed.

Lemma touches_row_reads {A} i (m : M A) : reads_only m → touches_row i m.
Proof.
  intros Hm s. rewrite (Hm s). split; [done|]. split; [done|].
  apply same_row_but_refl.
Qed.

Lemma touches_row_bind {A B} i (m : M A) (f : A → M B) :
  touches_row i m → (∀ a, touches_row i (f a)) → touches_row i (bind m f).
Proof.
  intros Hm Hf s. unfold bind. specialize (Hm s).
  destruct (m s) as [[e|a] s1]; simpl in *; [done|].
  destruct Hm as (Hp & Hn & Hr), (Hf a s1) as (Hp' & Hn' & Hr').
  split; [congruence|]. split; [congruence|].
  by apply (same_row_but_trans i _ (dictionary_versions s1)).
Qed.

Lemma touches_row_update_one i o fields : touches_row i (update_one o fields).
Proof.
  intros s. unfold update_one, bind, get_state. simpl.
  destruct (dictionaries s !! o); simpl;
    (split; [done|]; split; [done|]; apply same_row_but_refl).
Qed.

Lemma touches_row_update_versions i P `{∀ r, Decision (P r)} f :
  (∀ r, P r → DictionaryVersion.id r = i) →
  (∀ r, renamed_row r (f r)) →
  touches_row i (update_versions P f).
Proof.
  intros HP Hf s. unfold update_versions, bind, get_state, put_state. simpl.
  split; [done|]. split; [done|].
  induction (dictionary_versions s) as [|r rows IH]; constructor; [|done].
  destruct (decide (P r)) as [Hr|Hr];
    [|split; [apply renamed_row_refl|done]].
  split; [apply Hf|]. intros Hne. by destruct (Hne (HP r Hr)).
Qed.

Create HintDb rows discriminated.
#[global] Hint Resolve touches_row_update_one : rows.
#[global] Hint Extern 1 (touches_row _ _) =>
  (apply touches_row_reads; solve [auto with reads]) : rows.

Ltac rows_step :=
  match goal with
  | |- touches_row _ (bind _ _) => apply touches_row_bind; [|intros ?]
  | |- touches_row _ (let '(_, _) := ?x in _) => destruct x
  | |- touches_row _ (match ?x with _ => _ end) => destruct x
  | |- touches_row _ (if ?b then _ else _) => destruct b
  | |- touches_row _ _ => solve [auto with rows]
  end.
Ltac rows := repeat rows_step.

Lemma touches_row_list_versions i p u : touches_row i (list_versions_body p u).
Proof. unfold list_versions_body. rows. Qed.

Lemma touches_row_get_latest_version i ev p u :
  touches_row i (get_latest_version_body ev p u).
Proof. unfold get_latest_version_body. rows. Qed.

Lemma touches_row_get_specific_version i ev p v u :
  touches_row i (get_specific_version_body ev p v u).
Proof. unfold get_specific_version_body. rows. Qed.

Lemma touches_row_list_tables i ev p v sn u :
  touches_row i (list_tables_body ev p v sn u).
Proof. unfold list_tables_body. rows. Qed.

Lemma touches_row_create_table i ev p v d u :
  touches_row i (create_table_body ev p v d u).
Proof. unfold create_table_body. rows. Qed.

Lemma touches_row_update_table i ev p v t d sn u :
  touches_row i (update_table_body ev p v t d sn u).
Proof. unfold update_table_body. rows. Qed.

Lemma touches_row_delete_table i ev p v t sn u :
  touches_row i (delete_table_body ev p v t sn u).
Proof. unfold delete_table_body. rows. Qed.

Lemma touches_row_delete_column i ev p v t c sn u :
  touches_row i (delete_column_body ev p v t c sn u).
Proof. unfold delete_column_body. rows. Qed.

Lemma touches_row_get_table i ev p v t sn u :
  touches_row i (get_table_body ev p v t sn u).
Proof. unfold get_table_body. rows. Qed.

(** [update_version] rewrites at most the row it looked up. *)
Lemma update_version_rows ev p v u d s :
  let s' := (update_version_body ev p v u d s).2 in
  s' = s
  ∨ ∃ row, filter (λ r, DictionaryVersion.project_id r = p
                        ∧ DictionaryVersion.version r = v)
                  (dictionary_versions s) = [row]
           ∧ projects s' = projects s ∧ next_uuid s' = next_uuid s
           ∧ Forall2 (same_row_but (DictionaryVersion.id row))
                     (dictionary_versions s) (dictionary_versions s').
Proof.
  unfold update_version_body.
  destruct (decide (owns u p s)) as [Hown|Hown].
  2:{ left. by erewrite bind_inl by (by apply require_project_access_not_owns). }
  erewrite bind_inr by (by apply require_project_access_owns).
  erewrite bind_inr by reflexivity. unfold single.
  destruct (filter _ (dictionary_versions s)) as [|row [|row' rest]] eqn:E;
    [by left| |by left].
  erewrite bind_inr by reflexivity. right. exists row. split; [done|].
  match goal with
  | |- context [(?m s).2] =>
      assert (touches_row (DictionaryVersion.id row) m) as Hw
  end.
  { rows.
    all: apply touches_row_update_versions; [done|]; intros r;
      destruct (UpdateVersionRequest.name d) as [n|];
      destruct (UpdateVersionRequest.description d) as [ds|];
      repeat case_match; by repeat split. }
  apply Hw.
Qed.

Lemma same_row_but_ids i l l' :
  Forall2 (same_row_but i) l l' →
  map DictionaryVersion.id l' = map DictionaryVersion.id l.
Proof.
  induction 1 as [|r r' l l' ((Hi & _) & _) _ IH]; [done|].
  simpl. by rewrite Hi, IH.
Qed.

Lemma same_row_but_project_rows i q l l' :
  Forall2 (same_row_but i) l l' →
  (∀ r, r ∈ l → DictionaryVersion.id r = i →
        DictionaryVersion.project_id r ≠ q) →
  filter (λ r, DictionaryVersion.project_id r = q) l'
  = filter (λ r, DictionaryVersion.project_id r = q) l.
Proof.
  induction 1 as [|r r' l l' ((Hi & Hp & _) & He) _ IH]; intros Hq; [done|].
  rewrite !filter_cons, Hp.
  rewrite IH by (intros r0 Hr0; apply Hq; by right).
  destruct (decide (DictionaryVersion.project_id r = q)) as [Hrq|Hrq]; [|done].
  rewrite He; [done|]. intros Hri. apply (Hq r); [left|done..].
Qed.

Lemma row_ids_issued_same s s' :
  map DictionaryVersion.id (dictionary_versions s')
  = map DictionaryVersion.id (dictionary_versions s) →
  next_uuid s' = next_uuid s →
  row_ids_issued s → row_ids_issued s'.
Proof. unfold row_ids_issued. by intros -> ->. Qed.

Lemma row_ids_issued_sublist s s' :
  map DictionaryVersion.id (dictionary_versions s')
  `sublist_of` map DictionaryVersion.id (dictionary_versions s) →
  next_uuid s' = next_uuid s →
  row_ids_issued s → row_ids_issued s'.
Proof.
  unfold row_ids_issued. intros Hsub -> [Hnd Hlt]. split.
  - by apply (sublist_NoDup _ (map DictionaryVersion.id (dictionary_versions s))).
  - apply Forall_forall. intros i Hi.
    apply (proj1 (Forall_forall _ _) Hlt). by apply (elem_of_sublist _ _ _ Hi).
Qed.

Lemma row_ids_issued_append s s' row :
  dictionary_versions s' = dictionary_versions s ++ [row] →
  (next_uuid s ≤ DictionaryVersion.id row < next_uuid s')%N →
  row_ids_issued s → row_ids_issued s'.
Proof.
  unfold row_ids_issued. intros -> Hid [Hnd Hlt].
  change (map ?f ?l) with (f <$> l). rewrite fmap_app. simpl. split.
  - apply NoDup_app. split; [done|]. split; [|apply NoDup_singleton].
    intros i Hi Hin. apply list_elem_of_singleton in Hin. subst i.
    apply (proj1 (Forall_forall _ _) Hlt) in Hi. lia.
  - apply Forall_app. split; [|by apply Forall_singleton; lia].
    eapply Forall_impl; [exact Hlt|]. intros i Hi. simpl in Hi. lia.
Qed.

Lemma ids_unset_latest p rows :
  map DictionaryVersion.id (unset_latest p rows) = map DictionaryVersion.id rows.
Proof.
  unfold unset_latest. induction rows as [|r rows IH]; [done|].
  simpl. rewrite IH. by destruct (decide _).
Qed.

Lemma ids_promoted_rows p v victim s :
  map DictionaryVersion.id (promoted_rows p v victim s)
  = map DictionaryVersion.id (dictionary_versions s).
Proof.
  unfold promoted_rows.
  destruct (DictionaryVersion.is_latest victim);
    [destruct (order_version_desc _) as [|top rest]|]; try done.
  unfold set_latest. induction (dictionary_versions s) as [|r rows IH]; [done|].
  simpl. rewrite IH. by destruct (decide _).
Qed.

Lemma serve_row_ids_issued ev r s :
  row_ids_issued s → row_ids_issued (serve ev r s).2.
Proof.
  intros H.
  assert (∀ body, touches_row 0%N body → row_ids_issued (route body s).2)
    as Hframe.
  { intros body Hb. rewrite route_state. destruct (Hb s) as (_ & Hn & Hrows).
    apply (row_ids_issued_same s); [|done..]. by apply (same_row_but_ids 0%N). }
  destruct r; simpl.
  - unfold create_project, project_route, create_project_body,
      create_initial_dictionary.
    destruct (mongodb_available ev); simpl.
    + eapply (row_ids_issued_append s); [reflexivity | simpl; lia | exact H].
    + destruct H as [Hnd Hlt]. split; [done|]. simpl.
      eapply Forall_impl; [exact Hlt|]. intros i Hi. simpl in Hi. lia.
  - destruct (delete_project_state ev project_id user_id s)
      as [->|(_ & Hrows & Hn & _)]; [done|].
    apply (row_ids_issued_sublist s); [|done..]. rewrite Hrows.
    change (map ?f ?l) with (f <$> l). apply fmap_sublist, sublist_filter.
  - apply Hframe, touches_row_list_versions.
  - unfold create_version, route.
    destruct (create_version_body_cases ev project_id user_id version_data s)
      as [[e ->]|(Hown & _ & rels & erd & resp & _ & ->)]; [by destruct e|].
    eapply (row_ids_issued_append
              (with_dictionary_versions
                 (unset_latest project_id (dictionary_versions s)) s));
      [reflexivity | simpl; lia |].
    apply (row_ids_issued_same s); [apply ids_unset_latest|done..].
  - apply Hframe, touches_row_get_latest_version.
  - apply Hframe, touches_row_get_specific_version.
  - unfold update_version. rewrite route_state.
    destruct (update_version_rows ev project_id version user_id update_data s)
      as [->|(row & _ & _ & Hn & Hrows)]; [done|].
    apply (row_ids_issued_same s); [|done..].
    by apply (same_row_but_ids (DictionaryVersion.id row)).
  - unfold delete_version, route.
    destruct (delete_version_body_cases ev project_id version user_id s)
      as [[e ->]|(_ & Hlen & victim & Hhead & ->)]; [by destruct e|].
    apply (row_ids_issued_sublist s); [|done..]. simpl.
    rewrite <- (ids_promoted_rows project_id version victim s).
    change (map ?f ?l) with (f <$> l). apply fmap_sublist, sublist_filter.
  - apply Hframe, touches_row_list_tables.
  - apply Hframe, touches_row_create_table.
  - apply Hframe, touches_row_update_table.
  - apply Hframe, touches_row_delete_table.
  - apply Hframe, touches_row_delete_column.
  - apply Hframe, touches_row_get_table.
Qed.

Lemma reachable_row_ids_issued s : reachable s → row_ids_issued s.
Proof.
  induction 1 as [|s ev r Hreach IH].
  - split; [apply NoDup_nil_2 | constructor].
  - by apply serve_row_ids_issued.
Qed.

(** X21: a request leaves the projects it does not name alone.  In every
    state the service can reach, after any request that names another
    project, and after [create_project], the rows a project has in the
    version index are exactly the rows it had (numbers, names, latest
    flags and document references included), and its owner still owns
    it. *)
Theorem requests_leave_other_projects_alone s ev r q u :
  reachable s → owns u q s → request_project r ≠ Some q →
  project_rows q (serve ev r s).2 = project_rows q s
  ∧ owns u q (serve ev r s).2.
Proof.
  intros Hreach Hown Hq.
  pose proof (reachable_invariant s Hreach) as Hidx.
  destruct (reachable_row_ids_issued s Hreach) as [Hnd Hlt].
  assert (∀ body, (∀ i, touches_row i body) →
                  project_rows q (route body s).2 = project_rows q s
                  ∧ owns u q (route body s).2) as Hframe.
  { intros body Hb. rewrite route_state.
    destruct (Hb (next_uuid s) s) as (Hp & _ & Hrows). split.
    - apply (same_row_but_project_rows (next_uuid s)); [done|].
      intros r0 Hr0 Hi. exfalso.
      assert (DictionaryVersion.id r0 < next_uuid s)%N; [|lia].
      apply (proj1 (Forall_forall _ _) Hlt), list_elem_of_fmap. eauto.
    - unfold owns. by rewrite Hp. }
  destruct r; simpl in *.
  - split.
    + apply create_project_rows. by apply (owns_issued u).
    + destruct (create_project_state ev user_id project_data s)
        as (prow & _ & Hprojects & _).
      destruct Hown as (row & Hrow & Hid & Ho). exists row.
      rewrite Hprojects. split; [apply elem_of_app; by left|done].
  - assert (q ≠ project_id) as Hne by congruence. split.
    + by destruct (delete_project_rows ev project_id user_id s q) as [?|[? _]].
    + destruct (delete_project_state ev project_id user_id s)
        as [->|(Hprojects & _)]; [done|].
      destruct Hown as (row & Hrow & Hid & Ho). exists row.
      rewrite Hprojects. split; [|done].
      apply list_elem_of_filter. split; [congruence|done].
  - apply Hframe. intros i. apply touches_row_list_versions.
  - assert (q ≠ project_id) as Hne by congruence.
    unfold create_version, route.
    destruct (create_version_body_cases ev project_id user_id version_data s)
      as [[e ->]|(_ & _ & rels & erd & resp & _ & ->)]; [by destruct e|].
    simpl. split; [|exact Hown].
    by rewrite project_rows_created, decide_False.
  - apply Hframe. intros i. apply touches_row_get_latest_version.
  - apply Hframe. intros i. apply touches_row_get_specific_version.
  - assert (q ≠ project_id) as Hne by congruence.
    unfold update_version. rewrite route_state.
    destruct (update_version_rows ev project_id version user_id update_data s)
      as [->|(row & Hrow & Hp & _ & Hrows)]; [done|].
    split; [|unfold owns; by rewrite Hp].
    apply (same_row_but_project_rows (DictionaryVersion.id row)); [done|].
    assert (row ∈ dictionary_versions s
            ∧ DictionaryVersion.project_id row = project_id) as [Hin Hrp].
    { assert (row ∈ [row]) as H by left. rewrite <- Hrow in H.
      apply list_elem_of_filter in H. tauto. }
    intros r0 Hr0 Hi.
    assert (r0 = row) as ->; [|congruence].
    by apply (NoDup_fmap_elem_inj DictionaryVersion.id (dictionary_versions s)).
  - assert (q ≠ project_id) as Hne by congruence.
    unfold delete_version, route.
    destruct (delete_version_body_cases ev project_id version user_id s)
      as [[e ->]|(_ & Hlen & victim & Hhead & ->)]; [by destruct e|].
    simpl. split; [|exact Hown]. by apply project_rows_deleted_other.
  - apply Hframe. intros i. apply touches_row_list_tables.
  - apply Hframe. intros i. apply touches_row_create_table.
  - apply Hframe. intros i. apply touches_row_update_table.
  - apply Hframe. intros i. apply touches_row_delete_table.
  - apply Hframe. intros i. apply touches_row_delete_column.
  - apply Hframe. intros i. apply touches_row_get_table.
Qed.

Lemma requests_leave_other_projects_alone_witness :
  project_rows 0%N
    (serve sample_env (CreateProject "bob" sample_project_request)
           two_versions_state).2
  = project_rows 0%N two_versions_state.
Proof.
  apply (requests_leave_other_projects_alone two_versions_state sample_env
           (CreateProject "bob" sample_project_request) 0%N "alice").
  - apply reachable_two_versions_state.
  - apply alice_owns_two_versions_state.
  - discriminate.
Defined.

(** ** Version numbers are issued again *)

Lemma head_of_version p v s :
  v ∈ project_versions p s →
  is_Some (head (filter (λ r, DictionaryVersion.version r = v)
                        (project_rows p s))).
Proof.
  intros (r & Hr & Hp & Hv)%elem_of_project_versions.
  assert (r ∈ filter (λ r, DictionaryVersion.version r = v) (project_rows p s))
    as Hin.
  { apply list_elem_of_filter. split; [done|]. by apply elem_of_project_rows. }
  destruct (filter _ (project_rows p s)); [by apply elem_of_nil in Hin|].
  by eexists.
Qed.

Lemma create_version_answer ev p u d s :
  ¬ reports_error (create_version ev p u d s).1 →
  ∃ data rels erd,
    create_version ev p u d s
    = (Returned (success_response data
                   ("Version " +:+ pretty (next_version_of (project_rows p s))
                    +:+ " created successfully")),
       created_state ev p d rels erd s).
Proof.
  intros Hok. unfold create_version, route in *.
  destruct (create_version_body_cases ev p u d s)
    as [[e He]|(_ & _ & rels & erd & data & _ & Hb)].
  - exfalso. apply Hok. rewrite He. by destruct e.
  - exists data, rels, erd. by rewrite Hb.
Qed.

(** X22: version numbers are not kept for the versions they were given
    to.  In a state the service can reach, when the owner deletes the
    highest version [m] of a project that has at least two versions and
    then creates a version, the new version gets a number that is at most
    [m]; when the project had a version [m - 1], the new version gets the
    very number [m] of the version that was deleted. *)
Theorem deleted_number_is_issued_again s ev ev' p u m d :
  reachable s → owns u p s → (2 ≤ length (project_versions p s))%nat →
  is_max m (project_versions p s) →
  ¬ reports_error
      (create_version ev' p u d (delete_version ev p m u s).2).1 →
  ∃ n data,
    n ≤ m
    ∧ (m - 1 ∈ project_versions p s → n = m)
    ∧ (m ∉ project_versions p (delete_version ev p m u s).2)
    ∧ (create_version ev' p u d (delete_version ev p m u s).2).1
      = Returned (success_response data
                    ("Version " +:+ pretty n +:+ " created successfully"))
    ∧ n ∈ project_versions p
            (create_version ev' p u d (delete_version ev p m u s).2).2.
Proof.
  intros Hreach Hown Hlen [Hm Hmax] Hok.
  pose proof (reachable_invariant s Hreach) as Hidx.
  destruct (head_of_version p m s Hm) as [victim Hhead].
  rewrite length_project_versions in Hlen.
  assert (delete_version ev p m u s
          = (Returned (success_response
                         (VDict [("deleted_version", VInt m)])
                         ("Version " +:+ pretty m +:+ " deleted successfully")),
             deleted_state ev p m victim s)) as Hdel.
  { unfold delete_version, route.
    by rewrite (delete_version_body_success ev p m u s victim). }
  rewrite Hdel in *. simpl in *.
  set (s1 := deleted_state ev p m victim s) in *.
  assert (project_versions p s1
          = filter (λ w, w ≠ m) (project_versions p s)) as Hvs.
  { unfold s1. rewrite project_versions_deleted.
    apply list_filter_iff. intros w. tauto. }
  destruct (create_version_answer ev' p u d s1 Hok)
    as (data & rels & erd & Hcreate).
  rewrite Hcreate. simpl.
  destruct (NoDup_two_other (project_versions p s) m
              (versions_unique s Hidx p)) as (w & Hw & Hwm).
  { by rewrite length_project_versions. }
  destruct (next_version_of_max (project_rows p s1))
    as (m' & [Hm' Hmax'] & Hnext).
  { intros Hnil. apply project_rows_nil_versions in Hnil.
    assert (w ∈ project_versions p s1) as Hin
      by (rewrite Hvs; by apply list_elem_of_filter).
    rewrite Hnil in Hin. by apply elem_of_nil in Hin. }
  fold (project_versions p s1) in Hm', Hmax'.
  rewrite Hvs in Hm', Hmax'.
  apply list_elem_of_filter in Hm' as [Hne Hin'].
  pose proof (Hmax m' Hin') as Hle.
  exists (next_version_of (project_rows p s1)), data.
  split; [lia|]. split; [|split; [|split; [done|]]].
  - intros Hprev. assert (m - 1 ≤ m'); [|lia].
    apply Hmax', list_elem_of_filter. split; [lia|done].
  - rewrite Hvs. intros [? _]%list_elem_of_filter. done.
  - rewrite project_versions_created, decide_True by done.
    apply elem_of_app. right. left.
Qed.

Lemma deleted_number_is_issued_again_witness :
  ∃ data,
    (create_version sample_env 0%N "alice" sample_version_request
       (delete_version sample_env 0%N 2 "alice" two_versions_state).2).1
    = Returned (success_response data "Version 2 created successfully").
Proof.
  assert (project_versions 0%N two_versions_state = [1; 2]) as E
    by (vm_compute; reflexivity).
  destruct (deleted_number_is_issued_again two_versions_state sample_env
              sample_env 0%N "alice" 2 sample_version_request)
    as (n & data & _ & Hprev & _ & Hanswer & _).
  - apply reachable_two_versions_state.
  - apply alice_owns_two_versions_state.
  - rewrite E. simpl. lia.
  - rewrite E. split; [right; left|].
    intros v Hv. repeat (apply elem_of_cons in Hv as [->|Hv]; [lia|]).
    by apply elem_of_nil in Hv.
  - vm_compute. discriminate.
  - exists data. rewrite Hprev in Hanswer; [exact Hanswer|].
    rewrite E. left.
Defined.

(** ** What [update_version] does to the version index *)

Lemma Forall2_impl_elem {A B} (R R' : A → B → Prop) l l' :
  Forall2 R l l' → (∀ x y, x ∈ l → R x y → R' x y) → Forall2 R' l l'.
Proof.
  induction 1 as [|x y l l' H _ IH]; intros Himpl; constructor.
  - apply Himpl; [left|done].
  - apply IH. intros x' y' Hx'. apply Himpl. by right.
Qed.

(** X23: [update_version] renames at most one row.  In every state the
    service can reach, after an [update_version] request, whatever it
    asked for and whether it failed or not, the version index has the same
    rows in the same order; every row keeps its id, project, number,
    document reference, latest flag, metadata and creation time (the
    metadata of the request is never written to the row); and every row
    other than the one of the version named by the request is as it was,
    name and description included.  The projects are as they were. *)
Theorem update_version_renames_one_row s ev p v u d :
  reachable s →
  Forall2 (λ r r',
             renamed_row r r'
             ∧ (¬ (DictionaryVersion.project_id r = p
                   ∧ DictionaryVersion.version r = v) → r' = r))
          (dictionary_versions s)
          (dictionary_versions (update_version ev p v u d s).2)
  ∧ projects (update_version ev p v u d s).2 = projects s.
Proof.
  intros Hreach. destruct (reachable_row_ids_issued s Hreach) as [Hnd _].
  unfold update_version. rewrite route_state.
  destruct (update_version_rows ev p v u d s)
    as [->|(row & Hrow & Hp & _ & Hrows)].
  - split; [|done]. clear Hnd.
    induction (dictionary_versions s); constructor; [|done].
    split; [apply renamed_row_refl | done].
  - split; [|done].
    assert (row ∈ dictionary_versions s
            ∧ DictionaryVersion.project_id row = p
            ∧ DictionaryVersion.version row = v) as (Hin & Hrp & Hrv).
    { assert (row ∈ [row]) as H by left. rewrite <- Hrow in H.
      apply list_elem_of_filter in H. tauto. }
    apply (Forall2_impl_elem _ _ _ _ Hrows).
    intros r r' Hr [Hren Hsame]. split; [done|].
    intros Hother. apply Hsame. intros Hid. apply Hother.
    assert (r = row) as ->; [|done].
    by apply (NoDup_fmap_elem_inj DictionaryVersion.id (dictionary_versions s)).
Qed.

Lemma update_version_renames_one_row_witness :
  Forall2 (λ r r',
             renamed_row r r'
             ∧ (¬ (DictionaryVersion.project_id r = 0%N
                   ∧ DictionaryVersion.version r = 2) → r' = r))
          (dictionary_versions two_versions_state)
          (dictionary_versions
             (update_version sample_env 0%N 2 "alice" rename_version_request
                             two_versions_state).2).
Proof.
  apply (update_version_renames_one_row two_versions_state sample_env 0%N 2
           "alice" rename_version_request).
  apply reachable_two_versions_state.
Defined.

(** * The helpers beside the routes *)

(** ** Pages of a paginated response *)

(** X24: the page count [pagination_response] reports.  The response
    carries the items under [data] and, under [pagination], the total,
    the page and the page size as given.  For a positive page size the
    reported number of pages is the least number of pages of that size
    that hold [total] items; for a page size of zero or less it is 0. *)
Theorem pagination_pages_cover_total items total page per_page message :
  ∃ pages rest,
    pagination_response items total page per_page message
    = VDict (("status", VStr "success") :: ("data", VList items)
             :: ("pagination",
                  VDict [("total", VInt total); ("page", VInt page);
                         ("per_page", VInt per_page); ("pages", VInt pages)])
             :: rest)
    ∧ (0 < per_page →
       total ≤ pages * per_page
       ∧ ∀ k, total ≤ k * per_page → pages ≤ k)
    ∧ (per_page ≤ 0 → pages = 0).
Proof.
  unfold pagination_response. eexists _, _. split; [reflexivity|]. split.
  - intros Hpos. rewrite (proj2 (Z.ltb_lt 0 per_page) Hpos).
    pose proof (Z.div_mod (total + per_page - 1) per_page ltac:(lia)) as Hdiv.
    pose proof (Z.mod_pos_bound (total + per_page - 1) per_page Hpos) as Hmod.
    split; [nia|]. intros k Hk. nia.
  - intros Hle. by rewrite (proj2 (Z.ltb_ge 0 per_page) Hle).
Qed.

(** ** The lookups of [Dictionary] *)

Lemma find_table_Some tables table_name table :
  Dictionary.find_table tables table_name = Some table →
  table ∈ tables ∧ Table.name table = table_name.
Proof.
  induction tables as [|t tables IH]; simpl; [done|].
  destruct (String.eqb (Table.name t) table_name) eqn:E.
  - intros [= <-]. split; [left | by apply String.eqb_eq].
  - intros [Hin Hn]%IH. split; [by right | done].
Qed.

Lemma find_table_None tables table_name table :
  Dictionary.find_table tables table_name = None →
  table ∈ tables → Table.name table ≠ table_name.
Proof.
  induction tables as [|t tables IH]; simpl; intros Hnone Hin;
    [by apply elem_of_nil in Hin|].
  destruct (String.eqb (Table.name t) table_name) eqn:E; [done|].
  apply elem_of_cons in Hin as [->|Hin]; [by apply String.eqb_neq | by apply IH].
Qed.

(** X25: [Dictionary.get_table] finds a table through the schema that
    holds it.  When it returns a table, the table has the name asked for,
    belongs to a schema of the name asked for, and is one of
    [get_all_tables]; the [schema_name] field of the table itself is not
    looked at.  When it returns [None], no schema of that name holds a
    table of that name. *)
Theorem get_table_finds_by_schema (d : Dictionary.t) table_name schema_name :
  match Dictionary.get_table d table_name schema_name with
  | Some table =>
      Table.name table = table_name
      ∧ table ∈ Dictionary.get_all_tables d
      ∧ ∃ schema, schema ∈ Dictionary.schemas d
                  ∧ Schema.name schema = schema_name
                  ∧ table ∈ Schema.tables schema
  | None =>
      ∀ schema table,
        schema ∈ Dictionary.schemas d → Schema.name schema = schema_name →
        table ∈ Schema.tables schema → Table.name table ≠ table_name
  end.
Proof.
  unfold Dictionary.get_table, Dictionary.get_all_tables.
  induction (Dictionary.schemas d) as [|schema schemas IH]; simpl.
  { intros schema table Hin. by apply elem_of_nil in Hin. }
  destruct (String.eqb (Schema.name schema) schema_name) eqn:E.
  - apply String.eqb_eq in E.
    destruct (Dictionary.find_table (Schema.tables schema) table_name)
      as [table|] eqn:Hfind.
    + apply find_table_Some in Hfind as [Hin Hn]. split; [done|]. split.
      * apply elem_of_app. by left.
      * exists schema. split; [left|done].
    + destruct (Dictionary.get_table_in schemas table_name schema_name)
        as [table|].
      * destruct IH as (Hn & Hin & schema' & Hs & Hsn & Ht).
        split; [done|]. split; [apply elem_of_app; by right|].
        exists schema'. split; [by right|done].
      * intros schema' table [->|Hs]%elem_of_cons Hsn Ht.
        -- by apply (find_table_None _ _ _ Hfind).
        -- by apply (IH schema').
  - apply String.eqb_neq in E.
    destruct (Dictionary.get_table_in schemas table_name schema_name)
      as [table|].
    + destruct IH as (Hn & Hin & schema' & Hs & Hsn & Ht).
      split; [done|]. split; [apply elem_of_app; by right|].
      exists schema'. split; [by right|done].
    + intros schema' table [->|Hs]%elem_of_cons Hsn Ht; [done|].
      by apply (IH schema').
Qed.

(** ** Settings read from the environment *)

(** X26: what [Settings._get_env] lets through.  A required setting is
    never missing and never a placeholder of [env.example] (a text that
    starts with "your_" and ends in "_here"): the call raises [ValueError]
    instead.  A setting that is not required is never refused; a
    placeholder found in the environment is replaced by the default, so a
    placeholder comes back only when the default itself is one. *)
Theorem get_env_lets_no_placeholder_through environ key default required :
  (required = true →
   ∀ r, _get_env environ key default required = inr r →
        ∃ x, r = Some x ∧ is_placeholder x = false
             ∧ (environ key = Some x
                ∨ (environ key = None ∧ default = Some x)))
  ∧ (required = false →
     ∃ r, _get_env environ key default required = inr r
          ∧ (r = default ∨ r = environ key)
          ∧ ∀ x, r = Some x → is_placeholder x = true → default = Some x).
Proof.
  unfold _get_env. split.
  - intros -> r.
    destruct (environ key) as [x|] eqn:Hx; [|destruct default as [x|] eqn:Hd];
      try discriminate.
    + destruct (truthy (VStr x) && is_placeholder x) eqn:E; [discriminate|].
      intros [= <-]. exists x. split; [done|]. split; [|by left].
      destruct (is_placeholder x) eqn:Hp; [|done].
      destruct x; simpl in *; [by vm_compute in Hp | discriminate].
    + destruct (truthy (VStr x) && is_placeholder x) eqn:E; [discriminate|].
      intros [= <-]. exists x. split; [done|]. split; [|by right].
      destruct (is_placeholder x) eqn:Hp; [|done].
      destruct x; simpl in *; [by vm_compute in Hp | discriminate].
  - intros ->.
    destruct (environ key) as [x|] eqn:Hx; [|destruct default as [x|] eqn:Hd].
    + destruct (truthy (VStr x) && is_placeholder x) eqn:E.
      * exists default. split; [done|]. split; [by left|]. by intros ? ->.
      * exists (Some x). split; [done|]. split; [by right|].
        intros y [= <-] Hp. rewrite Hp, andb_true_r in E.
        destruct x; simpl in *; [by vm_compute in Hp | discriminate].
    + destruct (truthy (VStr x) && is_placeholder x) eqn:E;
        exists (Some x); (split; [done|]); (split; [by left|]); by intros ? ->.
    + exists None. split; [done|]. split; [by left|]. by intros ? [=].
Qed.

Lemma pagination_pages_cover_total_witness :
  ∃ rest,
    pagination_response [] 45 1 20 EmptyString
    = VDict (("status", VStr "success") :: ("data", VList [])
             :: ("pagination",
                  VDict [("total", VInt 45); ("page", VInt 1);
                         ("per_page", VInt 20); ("pages", VInt 3)])
             :: rest).
Proof.
  destruct (pagination_pages_cover_total [] 45 1 20 EmptyString)
    as (pages & rest & Heq & Hpos & _).
  destruct Hpos as [Hge Hleast]; [lia|].
  assert (pages = 3) as -> by (specialize (Hleast 3); lia).
  by exists rest.
Defined.

Lemma get_env_lets_no_placeholder_through_witness :
  ∃ message,
    _get_env (λ k, if String.eqb k "SUPABASE_URL"
                   then Some "your_supabase_url_here" else None)
             "SUPABASE_URL" None true
    = inl (ValueError message).
Proof.
  destruct (_get_env _ "SUPABASE_URL" None true) as [[message]|r] eqn:Hr.
  { by exists message. }
  exfalso.
  destruct (get_env_lets_no_placeholder_through
              (λ k, if String.eqb k "SUPABASE_URL"
                    then Some "your_supabase_url_here" else None)
              "SUPABASE_URL" None true) as [Hrequired _].
  destruct (Hrequired eq_refl r Hr) as (x & _ & Hp & [He|[He _]]).
  - simpl in He. injection He as <-. vm_compute in Hp. discriminate Hp.
  - simpl in He. discriminate He.
Defined.

(** ** Cascading deletes *)

#[global] Instance entry_is_text_dec (rd : list (string * value)) k t :
  Decision (dict_get rd k = Some (VStr t)).
Proof.
  destruct (dict_get rd k) as [[ | | | |x| | | | ]|]; try (right; discriminate).
  destruct (decide (x = t)) as [->|Hne]; [by left | right; congruence].
Defined.

#[global] Instance references_table_dec tn rd : Decision (references_table tn rd).
Proof. unfold references_table. apply _. Defined.

#[global] Instance references_column_dec tn cn rd :
  Decision (references_column tn cn rd).
Proof. unfold references_column. apply _. Defined.





Section cascade.
Context (s : state) (ev : env) (p : uuid) (v : Z) (u : string).
Context (table_name schema_name : string).
Context (row : DictionaryVersion.t) (doc sd : list (string * value)).
Context (tds : list (list (string * value))) (j : nat)
        (td : list (string * value)).
Context (rds : list (list (string * value))).

Hypothesis Hown : owns u p s.
Hypothesis Hmongo : mongodb_available ev = true.
Hypothesis Hrow :
  filter (λ r, DictionaryVersion.project_id r = p
               ∧ DictionaryVersion.version r = v) (dictionary_versions s)
  = [row].
Hypothesis Hdoc : dictionaries s !! DictionaryVersion.mongo_id row = Some doc.
Hypothesis Hschemas : dict_get doc "schemas" = Some (VDict sd).
Hypothesis Htables : dict_get sd "tables" = Some (VList (map VDict tds)).
Hypothesis Htable : first_match (table_named table_name schema_name) tds j td.
Hypothesis Hrels :
  default (VList []) (dict_get doc "relationships") = VList (map VDict rds).


End cascade.


(** ** Document data sent to [update_version] *)

(** A computation that leaves the document store as it found it. *)
Lemma documents_kept_bind {A B} (m : M A) (f : A → M B) :
  (∀ s, dictionaries (m s).2 = dictionaries s) →
  (∀ a s, dictionaries (f a s).2 = dictionaries s) →
  ∀ s, dictionaries (bind m f s).2 = dictionaries s.
Proof.
  intros Hm Hf s. unfold bind. specialize (Hm s).
  destruct (m s) as [[e|a] s']; [done|]. simpl in Hm. by rewrite Hf.
Qed.

(** Whatever the handle is, the test [if not mongodb:] lets nothing
    through to the write that follows it. *)
Lemma update_version_body_documents ev p v u d s :
  dictionaries (update_version_body ev p v u d s).2 = dictionaries s.
Proof.
  revert s. unfold update_version_body.
  apply documents_kept_bind.
  { intros s. by rewrite reads_only_require_project_access. }
  intros _. apply documents_kept_bind; [done|]. intros all_rows.
  apply documents_kept_bind; [intros s; unfold lift; by destruct (single _)|].
  intros version_data. apply documents_kept_bind.
  { intros s. by destruct (_ || _). }
  intros _ s.
  destruct (_ || _); [|done].
  unfold bind at 1. unfold not_database.
  destruct (mongodb_available ev); reflexivity.
Qed.

Section update_version_with_data.
Context (s : state) (ev : env) (p : uuid) (v : Z) (u : string).
Context (d : UpdateVersionRequest.t) (row : DictionaryVersion.t).

Hypothesis Hown : owns u p s.
Hypothesis Hrow :
  filter (λ r, DictionaryVersion.project_id r = p
               ∧ DictionaryVersion.version r = v) (dictionary_versions s)
  = [row].
Hypothesis Hdata : brings_document_data d = true.
Hypothesis Hmongo : mongodb_available ev = true.

Lemma update_version_body_store_up :
  update_version_body ev p v u d s
  = (inl (NotImplementedError
            "Database objects do not implement truth value testing or bool(). Please compare with None instead: database is not None"),
     if truthy_text (UpdateVersionRequest.name d)
        || truthy_text (UpdateVersionRequest.description d)
     then renamed_state d row s else s).
Proof.
  unfold update_version_body.
  erewrite bind_inr by (by apply require_project_access_owns).
  erewrite bind_inr by reflexivity. rewrite Hrow. simpl single.
  erewrite bind_inr by reflexivity.
  change (match UpdateVersionRequest.schemas d with
          | Some (_ :: _) => true | _ => false end
          || match UpdateVersionRequest.relationships d with
             | Some (_ :: _) => true | _ => false end
          || match UpdateVersionRequest.erd d with
             | Some _ => true | None => false end
          || match UpdateVersionRequest.metadata d with
             | Some (_ :: _) => true | _ => false end)
    with (brings_document_data d).
  rewrite Hdata.
  destruct (truthy_text (UpdateVersionRequest.name d)
            || truthy_text (UpdateVersionRequest.description d)).
  - erewrite bind_inr by reflexivity.
    erewrite bind_inl; [reflexivity|].
    unfold not_database. rewrite Hmongo. reflexivity.
  - erewrite bind_inr by reflexivity.
    erewrite bind_inl; [reflexivity|].
    unfold not_database. rewrite Hmongo. reflexivity.
Qed.

(** X27: [update_version] never stores document data.  With schemas,
    relationships, a layout or metadata in the request and the document
    store connected, the test [if not mongodb:] asks a pymongo [Database]
    for its truth value, which raises [NotImplementedError]; the route
    answers with that text in an error envelope (code 500), after the row
    of the version index has taken the new name and description, if the
    request brings any.  With the store down the same test raises
    [DatabaseError].  So whatever the request, the document store is
    after [update_version] what it was before. *)
Theorem update_version_never_stores_document_data :
  update_version ev p v u d s
  = (Returned
       (error_response
          "Database objects do not implement truth value testing or bool(). Please compare with None instead: database is not None"
          500),
     if truthy_text (UpdateVersionRequest.name d)
        || truthy_text (UpdateVersionRequest.description d)
     then renamed_state d row s else s)
  ∧ document_of p v (update_version ev p v u d s).2 = document_of p v s
  ∧ ∀ ev' p' v' u' d' s',
      dictionaries (update_version ev' p' v' u' d' s').2 = dictionaries s'.
Proof.
  assert (∀ ev' p' v' u' d' s',
            dictionaries (update_version ev' p' v' u' d' s').2
            = dictionaries s') as Hall.
  { intros ev' p' v' u' d' s'. unfold update_version, route.
    pose proof (update_version_body_documents ev' p' v' u' d' s') as H.
    destruct (update_version_body ev' p' v' u' d' s') as [[e|a] s''];
      [by destruct e | done]. }
  split; [|split; [|exact Hall]].
  - unfold update_version, route. by rewrite update_version_body_store_up.
  - unfold update_version, route. rewrite update_version_body_store_up. simpl.
    destruct (_ || _); [|done].
    unfold document_of, project_rows, renamed_state. simpl.
    apply document_ref_map. intros r. unfold with_metadata_of.
    case_decide; [|done].
    destruct (UpdateVersionRequest.name d) as [n'|];
      [destruct (truthy (VStr n'))|];
      (destruct (UpdateVersionRequest.description d) as [ds|];
         [destruct (truthy (VStr ds))|]); done.
Qed.

End update_version_with_data.

Lemma update_version_never_stores_document_data_witness :
  (update_version sample_env 0%N 1 "alice" rename_and_layout_request
                  one_version_state).1
  = Returned
      (error_response
         "Database objects do not implement truth value testing or bool(). Please compare with None instead: database is not None"
         500)
  ∧ dict_get (default [] (document_of 0%N 1
                (update_version sample_env 0%N 1 "alice"
                   rename_and_layout_request one_version_state).2)) "erd"
    = Some empty_erd.
Proof.
  destruct (update_version_never_stores_document_data
              one_version_state sample_env 0%N 1 "alice"
              rename_and_layout_request
              (default (DictionaryVersion.Build_t 0 0 0 0 EmptyString None
                          false [] 0)
                       (head (dictionary_versions one_version_state))))
    as (Hroute & Hdoc & _).
  - apply alice_owns_one_version_state.
  - reflexivity.
  - reflexivity.
  - reflexivity.
  - rewrite Hdoc, Hroute. split; reflexivity.
Defined.

(** ** The latest flag across the requests *)

Lemma delete_project_owner_rows s ev p u :
  reachable s → owns u p s →
  mongodb_available ev = true ∨ project_rows p s = [] →
  project_rows p (delete_project ev p u s).2 = [].
Proof.
  intros Hreach Hown Hstore.
  destruct (reachable_owner_row s p u Hreach Hown) as (prow & Hfilter & _).
  unfold delete_project, project_route, delete_project_body, bind,
    get_state, lift, select_versions, ret, put_state, delete_many, raise.
  simpl. rewrite Hfilter. simpl. fold (project_rows p s).
  assert (∀ ds,
            project_rows p
              (with_dictionary_versions
                 (filter (λ r, DictionaryVersion.project_id r ≠ p)
                         (dictionary_versions s))
                 (with_projects
                    (filter (λ row, Project.id row ≠ p) (projects s))
                    (with_dictionaries ds s))) = []) as Hgone.
  { intros ds. unfold project_rows. simpl.
    rewrite project_rows_filter_other. by rewrite decide_True. }
  destruct Hstore as [Hm|Hrows].
  - rewrite Hm.
    destruct (map DictionaryVersion.mongo_id (project_rows p s)); simpl;
      [apply (Hgone (dictionaries s)) | apply Hgone].
  - rewrite Hrows. simpl. apply (Hgone (dictionaries s)).
Qed.

(** C2, as amended: in every state the service can reach, a project that
    has versions has exactly one flagged latest.  [create_version] makes
    the new number the latest, and the earlier latest stays in the index
    without the flag; [delete_version] of the latest makes the greatest
    remaining number the latest; [create_project] flags the initial
    version 1 of the project it creates; [delete_project] leaves the
    project no version at all.  The ten other requests leave project,
    number, flag and document reference of every row as they were, and
    whenever the latest of a project differs after a request, the request
    is one of these four for that project. *)
Theorem latest_flag_state_machine s :
  reachable s →
  (∀ p, project_rows p s ≠ [] →
        ∃ v, latest_of p s = [v] ∧ v ∈ project_versions p s)
  ∧ (∀ ev p u d,
       owns u p s → mongodb_available ev = true →
       base_version_exists p d s → storable_schemas d →
       let n := next_version_of (project_rows p s) in
       let s' := (create_version ev p u d s).2 in
       (n ∉ project_versions p s)
       ∧ project_versions p s' = (project_versions p s ++ [n])%list
       ∧ latest_of p s' = [n]
       ∧ (∀ v, latest_of p s = [v] →
               v ∈ project_versions p s' ∧ v ∉ latest_of p s'))
  ∧ (∀ ev p v u,
       owns u p s → (2 ≤ length (project_rows p s))%nat →
       latest_of p s = [v] →
       let s' := (delete_version ev p v u s).2 in
       project_versions p s' = filter (λ w, w ≠ v) (project_versions p s)
       ∧ ∃ m, is_max m (project_versions p s') ∧ latest_of p s' = [m])
  ∧ (∀ ev u d,
       mongodb_available ev = true →
       latest_of (next_uuid s) s = []
       ∧ latest_of (next_uuid s) (create_project ev u d s).2 = [1])
  ∧ (∀ ev p u,
       owns u p s → mongodb_available ev = true ∨ project_rows p s = [] →
       project_rows p (delete_project ev p u s).2 = []
       ∧ latest_of p (delete_project ev p u s).2 = [])
  ∧ (∀ ev r,
       writes_index r = false →
       map index_key (dictionary_versions (serve ev r s).2)
       = map index_key (dictionary_versions s))
  ∧ (∀ ev r q,
       latest_of q (serve ev r s).2 ≠ latest_of q s →
       (∃ u d, r = CreateVersion q u d
               ∧ latest_of q (serve ev r s).2
                 = [next_version_of (project_rows q s)])
       ∨ (∃ v u m, r = DeleteVersion q v u
                   ∧ latest_of q s = [v]
                   ∧ is_max m (project_versions q (serve ev r s).2)
                   ∧ latest_of q (serve ev r s).2 = [m])
       ∨ (∃ u d, r = CreateProject u d
                 ∧ q = next_uuid s
                 ∧ latest_of q s = []
                 ∧ latest_of q (serve ev r s).2 = [1])
       ∨ (∃ u, r = DeleteProject q u
               ∧ latest_of q s ≠ []
               ∧ latest_of q (serve ev r s).2 = [])).
Proof.
  intros Hreach. pose proof (reachable_invariant s Hreach) as Hinv.
  split; [|split; [|split; [|split; [|split; [|split]]]]].
  - intros p Hne. destruct (one_latest s Hinv p Hne) as [v Hv].
    exists v. split; [done|].
    assert (v ∈ latest_of p s) as (r & ? & ? & _ & <-)%elem_of_latest_of
      by (rewrite Hv; left).
    apply list_elem_of_fmap. exists r. split; [done|].
    by apply elem_of_project_rows.
  - intros ev p u d Hown Hm Hbase Henc n s'. subst n s'.
    destruct (copy_base_version_ok p d s Hinv Hbase) as (rels & erd & Hc).
    destruct (create_version_body_success ev p u d s rels erd Hown Hm Hc Henc)
      as [data Hb].
    unfold create_version, route. rewrite Hb. simpl.
    rewrite latest_of_created, project_versions_created, !decide_True by done.
    assert (next_version_of (project_rows p s) ∉ project_versions p s) as Hnew.
    { intros (r & Hv & Hr)%list_elem_of_fmap.
      pose proof (next_version_of_above _ _ Hr). lia. }
    split; [done|]. split; [done|]. split; [done|].
    intros v Hv. assert (v ∈ project_versions p s) as Hin.
    { assert (v ∈ latest_of p s) as (r & ? & ? & _ & <-)%elem_of_latest_of
        by (rewrite Hv; left).
      apply list_elem_of_fmap. exists r. split; [done|].
      by apply elem_of_project_rows. }
    split; [apply elem_of_app; by left|].
    intros ->%list_elem_of_singleton. by apply Hnew.
  - intros ev p v u Hown Hlen Hl s'. subst s'.
    pose proof (versions_unique s Hinv p) as Huniq.
    assert (v ∈ latest_of p s) as Hin by (rewrite Hl; left).
    apply elem_of_latest_of in Hin as (r & Hr & Hp & Hlat & Hv).
    destruct (head (filter (λ r, DictionaryVersion.version r = v)
                           (project_rows p s))) as [victim|] eqn:Hhead.
    2:{ exfalso. apply head_None in Hhead.
        assert (r ∈ filter (λ r, DictionaryVersion.version r = v)
                           (project_rows p s)) as Hf.
        { apply list_elem_of_filter. split; [done|].
          by apply elem_of_project_rows. }
        rewrite Hhead in Hf. by apply elem_of_nil in Hf. }
    assert (victim = r) as ->.
    { pose proof Hhead as [Hvin Hvv]%head_filter_elem.
      apply (unique_version_row p s); [done|done| |congruence].
      by apply elem_of_project_rows. }
    unfold delete_version, route.
    rewrite (delete_version_body_success ev p v u s r Hown Hlen Hhead). simpl.
    split.
    + rewrite project_versions_deleted. apply list_filter_iff. intros w.
      split; [intros Hn ->; by apply Hn | intros Hn [_ ?]; done].
    + apply latest_of_deleted_latest; eauto.
  - intros ev u d Hm. split; [by apply latest_of_unknown_project|].
    rewrite latest_of_create_project by done. by rewrite decide_True.
  - intros ev p u Hown Hstore.
    pose proof (delete_project_owner_rows s ev p u Hreach Hown Hstore) as Hrows.
    split; [done|]. unfold latest_of. by rewrite Hrows.
  - intros ev r Hr.
    assert (Hkeeps : ∀ body : M value,
              keeps_index body →
              map index_key (dictionary_versions (route body s).2)
              = map index_key (dictionary_versions s)).
    { intros body Hk. by destruct (same_index_route body s Hk) as (_ & ? & _). }
    destruct r; try discriminate Hr; simpl; apply Hkeeps.
    + apply keeps_index_list_versions.
    + apply keeps_index_get_latest_version.
    + apply keeps_index_get_specific_version.
    + apply keeps_index_update_version.
    + apply keeps_index_list_tables.
    + apply keeps_index_create_table.
    + apply keeps_index_update_table.
    + apply keeps_index_delete_table.
    + apply keeps_index_delete_column.
    + apply keeps_index_get_table.
  - intros ev r q Hchg.
    assert (Hkeeps : ∀ body : M value,
              keeps_index body → latest_of q (route body s).2 = latest_of q s).
    { intros body Hk. by apply same_index_latest_of, same_index_route. }
    destruct r as [u d|p0 u|p0 u|p0 u d|p0 u|p0 v u|p0 v u d|p0 v u
                  |p0 v sn u|p0 v d u|p0 v t d sn u|p0 v t sn u|p0 v t c sn u
                  |p0 v t sn u]; simpl in *.
    + right. right. left. exists u, d. split; [done|].
      rewrite latest_of_create_project in * by done.
      destruct (decide (q = next_uuid s ∧ mongodb_available ev = true))
        as [[-> Hm]|Hno]; [|done].
      split; [done|]. split; [by apply latest_of_unknown_project | done].
    + right. right. right.
      destruct (delete_project_rows ev p0 u s q) as [Hsame|[-> Hnil]].
      { exfalso. by apply Hchg, latest_of_rows. }
      exists u. split; [done|].
      assert (latest_of p0 (delete_project ev p0 u s).2 = []) as Hl
        by (unfold latest_of; by rewrite Hnil).
      split; [|done]. intros Hl'. apply Hchg. by rewrite Hl, Hl'.
    + exfalso. apply Hchg, Hkeeps, keeps_index_list_versions.
    + unfold create_version in *.
      destruct (create_version_body_cases ev p0 u d s)
        as [[e He]|(Hown & _ & rels & erd & data & _ & Hb)].
      { exfalso. apply Hchg. by rewrite (route_state_raise _ _ _ He). }
      unfold route in *. rewrite Hb in *. simpl in *.
      rewrite latest_of_created in *.
      destruct (decide (q = p0)) as [->|Hp]; [|done].
      left. by exists u, d.
    + exfalso. apply Hchg, Hkeeps, keeps_index_get_latest_version.
    + exfalso. apply Hchg, Hkeeps, keeps_index_get_specific_version.
    + exfalso. apply Hchg, Hkeeps, keeps_index_update_version.
    + unfold delete_version in *.
      destruct (delete_version_body_cases ev p0 v u s)
        as [[e He]|(Hown & Hlen & victim & Hhead & Hb)].
      { exfalso. apply Hchg. by rewrite (route_state_raise _ _ _ He). }
      unfold route in *. rewrite Hb in *. simpl in *.
      destruct (decide (q = p0)) as [->|Hp].
      2:{ exfalso. by apply Hchg, latest_of_deleted_other. }
      pose proof (versions_unique s Hinv p0) as Huniq.
      assert (project_rows p0 s ≠ []) as Hne.
      { intros Hnil. rewrite Hnil in Hlen. simpl in Hlen. lia. }
      pose proof (one_latest s Hinv p0 Hne) as [w0 Hw0].
      destruct (DictionaryVersion.is_latest victim) eqn:Hlat.
      * right. left. destruct (latest_of_deleted_latest ev p0 v victim s)
          as (m & Hmax & Hm); eauto.
        exists v, u, m. split; [done|]. split; [|done].
        pose proof Hhead as [Hvin Hvv]%head_filter_elem.
        apply elem_of_project_rows in Hvin as [Hvp Hvin].
        assert (v ∈ latest_of p0 s) as Hin by (apply elem_of_latest_of; eauto 6).
        rewrite Hw0 in Hin. apply list_elem_of_singleton in Hin. by subst.
      * exfalso. apply Hchg. apply latest_of_deleted_not_latest; eauto.
    + exfalso. apply Hchg, Hkeeps, keeps_index_list_tables.
    + exfalso. apply Hchg, Hkeeps, keeps_index_create_table.
    + exfalso. apply Hchg, Hkeeps, keeps_index_update_table.
    + exfalso. apply Hchg, Hkeeps, keeps_index_delete_table.
    + exfalso. apply Hchg, Hkeeps, keeps_index_delete_column.
    + exfalso. apply Hchg, Hkeeps, keeps_index_get_table.
Qed.

Lemma latest_flag_state_machine_witness :
  latest_of 0%N one_version_state = [1]
  ∧ latest_of 0%N two_versions_state = [2]
  ∧ 1 ∈ project_versions 0%N two_versions_state
  ∧ latest_of 0%N
      (delete_version sample_env 0%N 2 "alice" two_versions_state).2 = [1]
  ∧ latest_of 0%N
      (serve sample_env (UpdateVersion 0%N 2 "alice" rename_version_request)
             two_versions_state).2 = [2]
  ∧ latest_of 0%N
      (delete_project sample_env 0%N "alice" two_versions_state).2 = [].
Proof.
  destruct (latest_flag_state_machine initial_state reachable_initial)
    as (_ & _ & _ & Hproject & _).
  destruct (latest_flag_state_machine one_version_state
              reachable_one_version_state)
    as (_ & Hcreate & _).
  destruct (latest_flag_state_machine two_versions_state
              reachable_two_versions_state)
    as (_ & _ & Hdelete & _ & Hproject_gone & _ & Honly).
  split; [|split; [|split; [|split; [|split]]]].
  - apply (Hproject sample_env "alice" sample_project_request). reflexivity.
  - apply (Hcreate sample_env 0%N "alice" sample_version_request).
    + apply alice_owns_one_version_state.
    + reflexivity.
    + intros b Hb. discriminate Hb.
    + reflexivity.
  - apply (Hcreate sample_env 0%N "alice" sample_version_request).
    + apply alice_owns_one_version_state.
    + reflexivity.
    + intros b Hb. discriminate Hb.
    + reflexivity.
    + apply (Hproject sample_env "alice" sample_project_request). reflexivity.
  - destruct (Hdelete sample_env 0%N 2 "alice") as (Hrest & m & [Hm _] & Hl).
    + apply alice_owns_two_versions_state.
    + vm_compute. lia.
    + reflexivity.
    + rewrite Hl. f_equal. rewrite Hrest in Hm. vm_compute in Hm.
      by apply list_elem_of_singleton in Hm.
  - destruct (decide (latest_of 0%N
                        (serve sample_env
                               (UpdateVersion 0%N 2 "alice" rename_version_request)
                               two_versions_state).2
                      = latest_of 0%N two_versions_state)) as [Heq|Hne].
    + rewrite Heq. reflexivity.
    + exfalso.
      destruct (Honly _ _ _ Hne)
        as [(? & ? & ? & _)|[(? & ? & ? & ? & _)|[(? & ? & ? & _)
                                                   |(? & ? & _)]]];
        discriminate.
  - apply (Hproject_gone sample_env 0%N "alice").
    + apply alice_owns_two_versions_state.
    + by left.
Defined.

(** C2 as stated fails on its last clause: [create_project] is a third
    operation that sets [is_latest].  Project 0 has no row before the
    request; the request succeeds, and after it version 1 of project 0 is
    the one row of the index, flagged latest. *)
Lemma create_project_sets_latest_counterexample :
  latest_of 0%N initial_state = []
  ∧ ¬ reports_error
        (serve sample_env (CreateProject "alice" sample_project_request)
               initial_state).1
  ∧ (∃ row,
       dictionary_versions
         (serve sample_env (CreateProject "alice" sample_project_request)
                initial_state).2 = [row]
       ∧ DictionaryVersion.project_id row = 0%N
       ∧ DictionaryVersion.version row = 1
       ∧ DictionaryVersion.is_latest row = true)
  ∧ latest_of 0%N
      (serve sample_env (CreateProject "alice" sample_project_request)
             initial_state).2 = [1].
Proof.
  split; [reflexivity|]. split; [vm_compute; discriminate|].
  split; [|reflexivity]. eexists. split; [reflexivity|]. done.
Qed.
